(* ===== verification/_CoqProject ===== *)
-Q . S2P
Prelude.v
History.v
GoLib.v
Errors.v
Api.v
DeepCopy.v
Cluster.v
Process.v
Libs.v
Kyma.v
Json.v
JsonText.v
Docker.v
HelmValues.v
HelmClient.v
Installable.v
YamlSpec.v
InstallableSpec.v
Patch.v
PatchSpec.v
Controller.v
ControllerSpec.v
ControllerExamples.v
Handed.v
Lifecycle.v
Status.v
Convergence.v
Concurrent.v
Merging.v
Main.v
Footprint.v
Broker.v
BrokerSpec.v
Credentials.v
CredentialsSpec.v
BrokerExamples.v
BrokerLife.v
BrokerMain.v
Scheme.v
Bounds.v
Fakes.v
FakeMethods.v
FakeK8s.v
FakeServiceManager.v
