(* ===== verification/Prelude.v ===== *)
(** * The CFAPI operator and its BTP service broker

    A model of the Kubernetes operator of the cfapi repository, which installs
    Cloud Foundry (korifi) into a Kyma cluster, of the service broker that it
    deploys, and theorems about both.

    ** The program

    The operator (src/main.go) watches one custom resource, CFAPI.  For each
    change of it controller-runtime calls the patching reconciler
    (src/tools/k8s/reconcile.go), which reads the object, lets the CFAPI
    reconciler (src/controllers/cfapi/controller.go) act on it, and writes
    back by two patches what that did to the object and to its status
    (src/tools/k8s/patch.go).  The CFAPI reconciler compiles an installation
    configuration from the spec and from what it finds in the Kyma cluster
    (src/controllers/kyma, src/controllers/cfapi/secrets), goes through a list
    of installables (src/controllers/installable: helm charts, YAML manifests,
    the CF orgs, conditional ones), and turns their results into state and
    conditions.  A deleted CFAPI keeps its finalizer until everything is
    uninstalled.  Charts are applied through src/controllers/helm/client.go
    with the values that src/controllers/installable/values computes.

    The broker (src/components/btp-service-broker) offers the services of SAP
    BTP to Cloud Foundry.  It answers catalogue requests from the service
    manager, turns the others into ServiceInstance and ServiceBinding objects
    for the BTP operator, and reports the progress of these when it is polled.

    ** How it is modelled

    A Go function with effects is a program: a tree of external calls that
    ends in a value, an error or a panic (type [go] below, [M] in
    Cluster.v).  The external calls (API server, helm library, file system,
    clock, map order, service manager) are the constructors of [call] in
    Cluster.v; nothing is assumed about their answers, and an environment
    supplies them.  [run] is the result of a program in an environment,
    [calls] its trace and [mutations] the part of the trace that may change
    the cluster.  Go's pairs of a value and an error that are returned
    together, as by the reconciler, are pairs here too.  Pointers are options
    and dereferencing [None] panics; a slice that can be nil is [slice]
    (GoLib.v); objects are values, which DeepCopy.v justifies.  Code outside
    the repository is a class of operations with a class of the laws that are
    used of them (Libs.v, Json.v, Broker.v, BrokerMain.v, Scheme.v), and
    [Reference] in Libs.v gives executable instances for the witnesses.

    ** The files

    - Prelude.v, GoLib.v, Errors.v: programs, runs, traces, bounds on traces;
      strings, slices, sorting and number formatting of Go; error chains with
      NotReadyError.
    - History.v: what a program may call after what it has been answered so
      far, as rules that follow its structure.
    - Api.v, Cluster.v, Libs.v: the CFAPI resource; the objects, calls and
      environments; the libraries.
    - DeepCopy.v: src/api/v1alpha1/zz_generated.deepcopy.go on a heap of
      backing arrays.  Copies are equal to and independent of the original.
    - Kyma.v: src/controllers/kyma (Modules Gateway, UAA, Users,
      ContainerRegistry), the accepted gateway types and the UAA URL.
    - Json.v, JsonText.v, Docker.v: encoding/json as a decoder of parsed
      documents, an executable parser for the witnesses (its fuel is twice
      the length of the text; [fuel_ok] and [parse_text_complete] show that it
      suffices), and src/controllers/cfapi/secrets/docker.go.
    - HelmValues.v: src/controllers/installable/values.
    - HelmClient.v: src/controllers/helm/client.go, with the plan that
      applying a chart implements ([Apply_refines_plan]).
    - Installable.v, YamlSpec.v, InstallableSpec.v: the installables, a Module
      for each; the manifest parser ([parse_loop] has as fuel one more than
      the length of the text, and [parse_terminates] shows that this is never
      used up), and what installing and uninstalling report and change.
    - Patch.v, PatchSpec.v: the two patches, for the operator's module and
      the copy in the broker's (BrokerPatching), and the patching reconciler;
      what is persisted against an abstract server of one object (Module
      SingleObject is a server that meets the assumptions).
    - Controller.v, ControllerSpec.v, ControllerExamples.v: the CFAPI
      reconciler; orders, statuses, readiness, finalizers, also end to end
      through the patching reconciler; witnesses.
    - Handed.v: with which configuration a reconciliation installs and has
      uninstalled everything, observed on [ReconcileResource] itself by
      installables that set a trap.
    - Lifecycle.v: the life of a CFAPI as a step relation (created, edited,
      deleted by users, reconciled in any cluster, patches lost or not, the
      operator dying), an invariant of its reachable states, and the runs of
      the patching reconciler as its steps, in which exactly the patches
      arrive that the server accepts.
    - Status.v: the well-formedness of every stored status (conditions, state,
      URL, recorded configuration) as an invariant of that relation, and
      which reconciliations ask for another one.
    - Convergence.v: rounds of the patching reconciler on a server that
      accepts its patches; they end with the object gone or ready.
    - Concurrent.v: the patches as merge patches, which meet what users made
      of the object while it was reconciled, and which Kubernetes refuses when
      they add finalizers to an object under deletion; the life with such
      steps.
    - Merging.v: the runs of the patching reconciler on a server that merges
      the patches it accepts, whenever users act during them, as steps of that
      life; users who act at a chosen call of a run (Module MergingObject is a
      server that meets the assumptions).
    - Process.v: what a process asks of its surroundings when it starts, and
      how it ends.  Main.v: the operator's installables, their orders and the
      whole of src/main.go up to the start of the manager.  Footprint.v: what
      the operator can touch at most, in any cluster: the releases it names
      with the charts loaded for them, and the objects decoded from files
      found under the patterns of its manifests.
    - Broker.v, BrokerSpec.v: src/components/btp-service-broker/btp/broker.go
      with the specification of polling.
    - Credentials.v, CredentialsSpec.v: the decoder of binding secrets, which
      inverts the encoder of the BTP operator; BrokerExamples.v: witnesses.
    - BrokerLife.v: the lives of the service instances and bindings that the
      broker creates, the BTP operator working on them and the platform
      polling: what a reported success says about the request.
    - BrokerMain.v: src/components/btp-service-broker/main.go, its
      configuration and its logging middleware.
    - Scheme.v: the registered object types, enough for every call.
    - Bounds.v: how often a reconciliation and a request of the broker can
      call what, by a cost for every call; creating or patching an object
      counts as the two requests that it makes.
    - Fakes.v: the recording fakes of the tests, against the history of what
      was done with them.  FakeMethods.v: the scheme of the generated fakes
      as an interface of methods; FakeK8s.v, FakeServiceManager.v: every
      function of the fakes of the Kubernetes client, its status writer and
      the service manager client, each an instance of that scheme.

    ** What the theorems show

    - In every environment: what a reconciliation touches
      ([operator_footprint]) and how often ([reconciliation_is_bounded],
      [serving_is_bounded]), what an installation never removes
      ([install_keeps]), that orgs go first ([uninstall_waits_for_orgs]),
      that an invalid configuration only reads, that every type is registered.
    - One reconciliation: when the CFAPI is ready ([ready_iff]), how state,
      conditions, URL and requeue fit together ([status_of_reconciliation]),
      when the finalizer goes ([finalizer_kept_until_uninstalled]) and the
      object with it ([gone_iff_uninstalled]), that all of it is stored
      ([Reconcile_persists]), that reconciling again changes nothing
      ([reconcile_settles]).
    - Whole lives: every stored status is well formed
      ([status_well_formed]); nothing installed is left behind as long as no
      patch is lost and the operator does not die in the middle of a
      reconciliation ([nothing_left_behind]), even if users interrupt
      reconciliations of an object that has its finalizer
      ([nothing_left_behind_concurrently]), and what they change survives the
      patches ([users_changes_survive]); but something is left behind when
      the wrong patch is lost ([lost_status_patch_leaks]) or a new object is
      deleted at any call of its first reconciliation
      ([deleted_while_installing_leaks]).
    - Progress: deletions and installations end ([deletion_ends],
      [installation_ends]), and what is not settled is retried
      ([retried_unless_settled]).
    - The broker: a reported success and handed out credentials belong to the
      request ([success_is_of_request], [credentials_are_of_request]).
    - The processes: how both mains end ([operator_ends], [main_ends]) and
      with what they serve ([starts_the_operator], [serves_as_configured]).
    - Refinements: charts against a plan, manifests against the list of their
      documents, polling against a relation between conditions and states,
      runs of the patching reconciler against steps of a life, fakes against
      histories.
    - Round trips: binding credentials, operation data.
    - The outcome of each operation on every branch, errors included.

    ** What is not modelled

    Logging (but for what the broker's middleware writes) and contexts; the
    manager of controller-runtime, its queue and caches (what a
    reconciliation returns is modelled, not when the next one runs); the HTTP
    server and the routes of the broker, which belong to net/http and
    brokerapi; the charts and manifests under src/module-data, which the code
    treats as data; the helpers that only take an address or log an error;
    the test helpers and the copies of the fakes under src/tests.

    ** What comes next

    A CFAPI that is deleted and created again under the same name while it is
    reconciled; reconciliations of stale reads from the cache; a printer for JSON with the round trip of the
    parser; the client wrapper of the tests that waits for its changes to be
    visible. *)

From stdpp Require Export base list option gmap strings sorting.
From Stdlib Require Export ZArith Lia.

(** The automation databases of the development: [go_db] rewrites runs and
    call traces of programs, [calls] proves that a program only issues some
    external calls. *)
Create HintDb go_db.
Create HintDb calls.

Declare Scope go_scope.
Delimit Scope go_scope with go.

(** ** Results

    A Go function with result type [(T, error)] either succeeds with a value
    or fails with an error. *)

Inductive result (E A : Type) :=
| Ok (a : A)
| Fail (e : E).
Arguments Ok {E A} a.
Arguments Fail {E A} e.

Definition is_ok {E A} (r : result E A) : bool :=
  match r with Ok _ => true | Fail _ => false end.

Definition result_map_error {E F A} (f : E -> F) (r : result E A) : result F A :=
  match r with Ok a => Ok a | Fail e => Fail (f e) end.

#[export] Instance result_eq_dec {E A} `{EqDecision E, EqDecision A} :
  EqDecision (result E A).
Proof. solve_decision. Defined.

(** ** Programs

    A Go function with effects is a finite tree of calls to the outside world
    (the Kubernetes API, helm, the file system, ...).  A signature lists the
    calls and the type of each call's answer; a program over a signature
    returns a value, returns an error, panics, or makes a call and goes on
    with its answer.  Nothing is assumed about the answers: an environment
    supplies them. *)

Record signature := Sig { call_of : Type; resp_of : call_of -> Type }.

Section Programs.
Context (S : signature) (E : Type).

Inductive go (A : Type) : Type :=
| Ret (a : A)
| Err (e : E)
| Panic (why : string)
| Call (c : call_of S) (k : resp_of S c -> go A).

(** What a run ends with. *)
Inductive outcome (A : Type) : Type :=
| Returned (a : A)
| Errored (e : E)
| Panicked (why : string).
End Programs.
Arguments Ret {S E A} a.
Arguments Err {S E A} e.
Arguments Panic {S E A} why.
Arguments Call {S E A} c k.
Arguments Returned {E A} a.
Arguments Errored {E A} e.
Arguments Panicked {E A} why.

Section Monad.
Context {S : signature} {E : Type}.

Fixpoint go_bind {A B} (k : A -> go S E B) (p : go S E A) : go S E B :=
  match p with
  | Ret a => k a
  | Err e => Err e
  | Panic s => Panic s
  | Call c f => Call c (fun r => go_bind k (f r))
  end.

#[export] Instance go_mret : MRet (go S E) := fun _ a => Ret a.
#[export] Instance go_mbind : MBind (go S E) := fun _ _ k p => go_bind k p.

(** [try p] is a Go call whose error result is bound to a variable and
    inspected: the error becomes a value.  Panics are not caught. *)
Fixpoint try {A} (p : go S E A) : go S E (result E A) :=
  match p with
  | Ret a => Ret (Ok a)
  | Err e => Ret (Fail e)
  | Panic s => Panic s
  | Call c f => Call c (fun r => try (f r))
  end.

(** The inverse direction: [return v, err]. *)
Definition of_result {A} (r : result E A) : go S E A :=
  match r with Ok a => Ret a | Fail e => Err e end.

(** [if err != nil { return fmt.Errorf(...) }]: the error is rewrapped. *)
Definition wrapping {A} (f : E -> E) (p : go S E A) : go S E A :=
  r ← try p; of_result (result_map_error f r).

Definition invoke (c : call_of S) : go S E (resp_of S c) := Call c Ret.

(** Reading through a pointer; a nil pointer panics. *)
Definition deref {A} (o : option A) : go S E A :=
  match o with
  | Some a => Ret a
  | None => Panic "invalid memory address or nil pointer dereference"
  end.

(** [l[i]]: an index out of range panics. *)
Definition index {A} (l : list A) (i : nat) : go S E A :=
  match l !! i with
  | Some a => Ret a
  | None => Panic "index out of range"
  end.

(** [for _, x := range l { body }] whose body may return an error. *)
Fixpoint for_each {A} (body : A -> go S E unit) (l : list A) : go S E unit :=
  match l with
  | [] => mret tt
  | x :: l' => _ ← body x; for_each body l'
  end.
End Monad.

(** ** Environments, runs and call traces *)

Record environment (S : signature) := Environment {
  world : Type;
  answer : forall c : call_of S, world -> resp_of S c * world
}.
Arguments Environment {S} world answer.
Arguments world {S} _.
Arguments answer {S} _ c w.

Section Runs.
Context {S : signature} {E : Type} (env : environment S).

Fixpoint run {A} (p : go S E A) (w : world env) : outcome E A * world env :=
  match p with
  | Ret a => (Returned a, w)
  | Err e => (Errored e, w)
  | Panic s => (Panicked s, w)
  | Call c k => let '(r, w') := answer env c w in run (k r) w'
  end.

(** The external calls of a run, in order. *)
Fixpoint calls {A} (p : go S E A) (w : world env) : list (call_of S) :=
  match p with
  | Call c k => let '(r, w') := answer env c w in c :: calls (k r) w'
  | _ => []
  end.

Lemma run_ret {A} (a : A) w : run (mret a) w = (Returned a, w).
Proof. reflexivity. Qed.

Lemma run_bind {A B} (p : go S E A) (k : A -> go S E B) w :
  run (p ≫= k) w =
  match run p w with
  | (Returned a, w') => run (k a) w'
  | (Errored e, w') => (Errored e, w')
  | (Panicked s, w') => (Panicked s, w')
  end.
Proof.
  revert w. induction p as [a|e|s|c f IH]; intros w; try reflexivity.
  unfold mbind, go_mbind in *. cbn. destruct (answer env c w) as [r w']. apply IH.
Qed.

Lemma run_try {A} (p : go S E A) w :
  run (try p) w =
  match run p w with
  | (Returned a, w') => (Returned (Ok a), w')
  | (Errored e, w') => (Returned (Fail e), w')
  | (Panicked s, w') => (Panicked s, w')
  end.
Proof.
  revert w. induction p as [a|e|s|c f IH]; intros w; try reflexivity.
  cbn. destruct (answer env c w) as [r w']. apply IH.
Qed.

Lemma run_of_result {A} (r : result E A) w :
  run (of_result r) w =
  match r with Ok a => (Returned a, w) | Fail e => (Errored e, w) end.
Proof. by destruct r. Qed.

Lemma run_wrapping {A} f (p : go S E A) w :
  run (wrapping f p) w =
  match run p w with
  | (Returned a, w') => (Returned a, w')
  | (Errored e, w') => (Errored (f e), w')
  | (Panicked s, w') => (Panicked s, w')
  end.
Proof.
  unfold wrapping. rewrite run_bind, run_try.
  destruct (run p w) as [[a|e|s] w']; reflexivity.
Qed.

Lemma run_invoke c w :
  run (invoke c) w = let '(r, w') := answer env c w in (Returned r, w').
Proof. reflexivity. Qed.

Lemma calls_bind {A B} (p : go S E A) (k : A -> go S E B) w :
  calls (p ≫= k) w =
  calls p w ++ match run p w with
               | (Returned a, w') => calls (k a) w'
               | _ => []
               end.
Proof.
  revert w. induction p as [a|e|s|c f IH]; intros w; try reflexivity.
  unfold mbind, go_mbind in *. cbn. destruct (answer env c w) as [r w'].
  cbn. f_equal. apply IH.
Qed.

Lemma calls_try {A} (p : go S E A) w : calls (try p) w = calls p w.
Proof.
  revert w. induction p as [a|e|s|c f IH]; intros w; try reflexivity.
  cbn. destruct (answer env c w) as [r w']. f_equal. apply IH.
Qed.

Lemma calls_of_result {A} (r : result E A) w : calls (of_result r) w = [].
Proof. by destruct r. Qed.

Lemma calls_wrapping {A} f (p : go S E A) w : calls (wrapping f p) w = calls p w.
Proof.
  unfold wrapping. rewrite calls_bind, calls_try, run_try.
  destruct (run p w) as [[a|e|s] w']; cbn; by rewrite app_nil_r.
Qed.

Lemma calls_invoke c w : calls (invoke (E:=E) c) w = [c].
Proof. cbn. by destruct (answer env c w). Qed.
End Runs.

#[export] Hint Rewrite @run_ret @run_bind @run_try @run_of_result @run_wrapping
  @run_invoke @calls_bind @calls_try @calls_of_result @calls_wrapping
  @calls_invoke : go_db.

(** ** Programs restricted to some calls *)

Section OnlyCalls.
Context {S : signature} {E : Type} (P : call_of S -> Prop).

(** Whatever the environment answers, every call of the program satisfies [P]. *)
Fixpoint only_calls {A} (p : go S E A) : Prop :=
  match p with
  | Call c k => P c /\ forall r, only_calls (k r)
  | _ => True
  end.

Lemma only_calls_bind {A B} (p : go S E A) (k : A -> go S E B) :
  only_calls p -> (forall a, only_calls (k a)) -> only_calls (p ≫= k).
Proof.
  unfold mbind, go_mbind.
  induction p as [a|e|s|c f IH]; cbn; intros Hp Hk; auto.
  destruct Hp as [Hc Hp]. split; [done|]. intros r. apply IH; auto.
Qed.

Lemma only_calls_try {A} (p : go S E A) : only_calls p -> only_calls (try p).
Proof.
  induction p as [a|e|s|c f IH]; cbn; auto.
  intros [Hc Hp]. split; auto.
Qed.

Lemma only_calls_of_result {A} (r : result E A) : only_calls (of_result r).
Proof. by destruct r. Qed.

Lemma only_calls_wrapping {A} f (p : go S E A) :
  only_calls p -> only_calls (wrapping f p).
Proof.
  intros Hp. apply only_calls_bind; [by apply only_calls_try|].
  intros. apply only_calls_of_result.
Qed.

Lemma only_calls_invoke c : P c -> only_calls (invoke (E:=E) c).
Proof. cbn. auto. Qed.

Lemma only_calls_deref {A} (o : option A) : only_calls (deref o).
Proof. by destruct o. Qed.

Lemma only_calls_index {A} (l : list A) i : only_calls (index l i).
Proof. unfold index. by destruct (l !! i). Qed.

Lemma only_calls_for_each {A} (body : A -> go S E unit) l :
  (forall x, only_calls (body x)) -> only_calls (for_each body l).
Proof.
  intros Hb. induction l as [|x l IH]; [exact I|].
  apply (only_calls_bind (body x)); auto.
Qed.

Lemma only_calls_sound env {A} (p : go S E A) w :
  only_calls p -> Forall P (calls env p w).
Proof.
  revert w. induction p as [a|e|s|c f IH]; cbn; intros w Hp; auto.
  destruct Hp as [Hc Hp]. destruct (answer env c w) as [r w'].
  constructor; auto.
Qed.

(** If the environment's answers to [P]-calls leave its world alone, so does
    the program. *)
Lemma only_calls_world env {A} (p : go S E A) w :
  (forall c, P c -> forall w, (answer env c w).2 = w) ->
  only_calls p -> (run env p w).2 = w.
Proof.
  intros HP. revert w. induction p as [a|e|s|c f IH]; cbn; intros w Hp; auto.
  destruct Hp as [Hc Hp]. specialize (HP c Hc w).
  destruct (answer env c w) as [r w']. cbn in HP. subst. auto.
Qed.

(** Whatever the environment answers, a value the program returns satisfies [Q]. *)
Fixpoint ensures {A} (Q : A -> Prop) (p : go S E A) : Prop :=
  match p with
  | Ret a => Q a
  | Call c k => forall r, ensures Q (k r)
  | _ => True
  end.

Lemma ensures_true {A} (p : go S E A) : ensures (fun _ => True) p.
Proof. induction p; cbn; auto. Qed.

Lemma ensures_bind {A B} (Q : A -> Prop) (R : B -> Prop) (p : go S E A) (k : A -> go S E B) :
  ensures Q p -> (forall a, Q a -> ensures R (k a)) -> ensures R (p ≫= k).
Proof.
  unfold mbind, go_mbind. induction p as [a|e|s|c f IH]; cbn; intros Hp Hk; auto.
Qed.

Lemma ensures_try {A} (Q : A -> Prop) (p : go S E A) :
  ensures Q p -> ensures (fun r => match r with Ok a => Q a | Fail _ => True end) (try p).
Proof. induction p as [a|e|s|c f IH]; cbn; auto. Qed.

Lemma ensures_of_result {A} (Q : A -> Prop) (r : result E A) :
  match r with Ok a => Q a | Fail _ => True end -> ensures Q (of_result r).
Proof. by destruct r. Qed.

Lemma ensures_wrapping {A} (Q : A -> Prop) f (p : go S E A) :
  ensures Q p -> ensures Q (wrapping f p).
Proof.
  intros Hp. eapply ensures_bind; [by apply ensures_try|].
  intros [a|x] Ha; [exact Ha|exact I].
Qed.

Lemma only_calls_bind_ensures {A B} (Q : A -> Prop) (p : go S E A) (k : A -> go S E B) :
  only_calls p -> ensures Q p -> (forall a, Q a -> only_calls (k a)) -> only_calls (p ≫= k).
Proof.
  unfold mbind, go_mbind.
  induction p as [a|e|s|c f IH]; cbn; intros Hp HQ Hk; auto.
  destruct Hp as [Hc Hp]. split; auto.
Qed.
End OnlyCalls.

Lemma only_calls_impl {S E} (P Q : call_of S -> Prop) {A} (p : go S E A) :
  (forall c, P c -> Q c) -> only_calls P p -> only_calls Q p.
Proof.
  intros HPQ. induction p as [a|e|s|c f IH]; cbn; auto.
  intros [Hc Hp]. auto.
Qed.

#[export] Hint Resolve only_calls_bind only_calls_try only_calls_of_result
  only_calls_wrapping only_calls_invoke only_calls_deref only_calls_index
  only_calls_for_each : calls.

(** ** Tactics *)

(** One step of evaluating a run: rewrite with the equations of [go_db], then
    case on the first answer or condition the run depends on. *)
Ltac go_simpl := autorewrite with go_db in *; cbn in *.

Ltac go_case :=
  match goal with
  | |- context [answer ?e ?c ?w] => destruct (answer e c w) as [? ?] eqn:?
  | |- context [match ?x with _ => _ end] => destruct x eqn:?
  end.

Ltac go_steps := repeat (go_simpl; try done; go_case); go_simpl; try done.

(** The same on a hypothesis that says what a run ends with. *)
Ltac go_case_in H :=
  match type of H with
  | context [answer ?e ?c ?w] => destruct (answer e c w) as [? ?] eqn:?
  | context [match ?x with _ => _ end] => destruct x eqn:?
  end.

Ltac go_inv H :=
  repeat (autorewrite with go_db in H; cbn in H; try discriminate H; go_case_in H);
  autorewrite with go_db in H; cbn in H; simplify_eq.
