(* ===== verification/History.v ===== *)
(** * Programs and what they were answered

    [only_calls] in Prelude.v bounds each call of a program by itself.  Here
    the bound may also speak of the calls before it and of their answers: an
    object may be written because it was read from a file. *)

From S2P Require Export Prelude.

#[local] Open Scope list_scope.

Section History.
Context {S : signature} {E : Type}.

(** The calls so far with their answers, oldest first. *)
Definition exchange : Type := { c : call_of S & resp_of S c }.
Definition history : Type := list exchange.

Definition answered (h : history) (c : call_of S) (r : resp_of S c) : Prop := existT c r ∈ h.

(** The exchanges of a run. *)
Fixpoint exchanges (env : environment S) {A} (p : go S E A) (w : world env) : history :=
  match p with
  | Call c k => let '(r, w') := answer env c w in existT c r :: exchanges env (k r) w'
  | _ => []
  end.

Lemma calls_exchanges (env : environment S) {A} (p : go S E A) w :
  calls env p w = projT1 <$> exchanges env p w.
Proof.
  revert w. induction p as [| | |c k IH]; intros w; try done.
  cbn. destruct (answer env c w) as [r w']. cbn. by rewrite IH.
Qed.

(** Whatever the environment answers, every call of the program satisfies [P]
    with the history before it, and so does its end [Q]. *)
Fixpoint traced (P : history -> call_of S -> Prop) {A} (h : history) (p : go S E A)
    (Q : history -> result E A -> Prop) : Prop :=
  match p with
  | Ret a => Q h (Ok a)
  | Err e => Q h (Fail e)
  | Panic _ => True
  | Call c k => P h c /\ forall r, traced P (h ++ [existT c r]) (k r) Q
  end.

Section Rules.
Context (P : history -> call_of S -> Prop).

Lemma traced_mono {A} h (p : go S E A) (Q R : history -> result E A -> Prop) :
  (forall h' r, Q h' r -> R h' r) -> traced P h p Q -> traced P h p R.
Proof.
  intros HQR. revert h. induction p as [| | |c k IH]; cbn; auto.
  intros h [Hc Hk]. split; [done|]. intros r. by apply IH.
Qed.

Lemma traced_bind {A B} h (p : go S E A) (k : A -> go S E B) Q :
  traced P h p (fun h' r => match r with Ok a => traced P h' (k a) Q | Fail e => Q h' (Fail e) end) ->
  traced P h (p ≫= k) Q.
Proof.
  unfold mbind, go_mbind. revert h. induction p as [| | |c f IH]; cbn; auto.
  intros h [Hc Hf]. split; [done|]. intros r. by apply IH.
Qed.

Lemma traced_try {A} h (p : go S E A) Q :
  traced P h p (fun h' r => Q h' (Ok r)) -> traced P h (try p) Q.
Proof.
  revert h. induction p as [| | |c k IH]; cbn; auto.
  intros h [Hc Hk]. split; [done|]. intros r. by apply IH.
Qed.

Lemma traced_of_result {A} h (r : result E A) Q : Q h r -> traced P h (of_result r) Q.
Proof. by destruct r. Qed.

Lemma traced_wrapping {A} f h (p : go S E A) Q :
  traced P h p (fun h' r => Q h' (result_map_error f r)) -> traced P h (wrapping f p) Q.
Proof.
  intros Hp. apply traced_bind, traced_try. eapply traced_mono; [|exact Hp].
  intros h' r HQ. by apply (traced_of_result h' (result_map_error f r)).
Qed.

(** Every call of a run satisfies [P] with the exchanges before it. *)
Lemma traced_run {A} env (p : go S E A) Q h w before c r after :
  traced P h p Q -> exchanges env p w = before ++ existT c r :: after -> P (h ++ before) c.
Proof.
  revert h w before. induction p as [| | |c' k IH]; cbn; intros h w before Hp Hw;
    try (by destruct before).
  destruct Hp as [Hc Hk]. destruct (answer env c' w) as [r' w'].
  destruct before as [|x before]; apply (f_equal (fun l => (head l, tail l))) in Hw; cbn in Hw.
  - rewrite app_nil_r. apply (f_equal fst) in Hw as [= ->]. done.
  - injection Hw as <- Hrest. specialize (IH r' _ w' before (Hk r') Hrest). by rewrite <- app_assoc in IH.
Qed.

(** A bound on each call by itself. *)
Lemma traced_only_calls (P' : call_of S -> Prop) {A} h (p : go S E A) Q :
  (forall h' c, P h' c -> P' c) -> traced P h p Q -> only_calls P' p.
Proof.
  intros HP. revert h. induction p as [| | |c k IH]; cbn; auto. intros h [Hc Hk].
  split; [by eapply HP|]. intros r. by eapply IH.
Qed.
End Rules.

(** ** Facts that persist *)

(** What once held of the history goes on to hold. *)
Class Grows (F : history -> Prop) : Prop := grows h x : F h -> F (h ++ [x]).

#[export] Instance grows_True : Grows (fun _ => True).
Proof. by intros h x. Qed.

#[export] Instance grows_answered c r : Grows (fun h => answered h c r).
Proof. intros h x. unfold answered. set_solver. Qed.

#[export] Instance grows_and F G : Grows F -> Grows G -> Grows (fun h => F h /\ G h).
Proof. intros HF HG h x [? ?]. split; by apply grows. Qed.

Lemma answered_last h c (r : resp_of S c) : answered (h ++ [existT c r]) c r.
Proof. unfold answered. set_solver. Qed.

Section Given.
Context (P : history -> call_of S -> Prop).

Lemma traced_grows (F : history -> Prop) `{!Grows F} {A} h (p : go S E A) Q :
  F h -> traced P h p Q -> traced P h p (fun h' r => F h' /\ Q h' r).
Proof.
  revert h. induction p as [| | |c k IH]; cbn; auto. intros h HF [Hc Hk].
  split; [done|]. intros r. apply IH; [by apply grows|done].
Qed.

(** The bound on every call of a program that starts when [F] holds. *)
Definition given (F : history -> Prop) {A} (p : go S E A) : Prop :=
  forall h, F h -> traced P h p (fun _ _ => True).

Context (F : history -> Prop) {F_grows : Grows F}.

Lemma given_ret {A} (a : A) : given F (mret a).
Proof. by intros h _. Qed.

Lemma given_of_result {A} (r : result E A) : given F (of_result r).
Proof. intros h _. by apply traced_of_result. Qed.

Lemma given_call {A} c (k : resp_of S c -> go S E A) :
  (forall h, F h -> P h c) -> (forall r, given (fun h => F h /\ answered h c r) (k r)) -> given F (Call c k).
Proof.
  intros Hc Hk h HF. split; [by apply Hc|]. intros r. apply (Hk r). split; [by apply grows|apply answered_last].
Qed.

(** What the first program is known to return. *)
Lemma given_bind_learn {A B} (G : A -> history -> Prop) (p : go S E A) (k : A -> go S E B) :
  (forall h, F h -> traced P h p (fun h' r => match r with Ok a => G a h' | Fail _ => True end)) ->
  (forall a, given (fun h => F h /\ G a h) (k a)) -> given F (p ≫= k).
Proof.
  intros Hp Hk h HF. apply traced_bind. eapply traced_mono; [|apply traced_grows; [exact F_grows|exact HF|apply Hp, HF]].
  intros h' [a|e] [HF' HG]; [|done]. by apply (Hk a).
Qed.

Lemma given_bind {A B} (p : go S E A) (k : A -> go S E B) :
  given F p -> (forall a, given F (k a)) -> given F (p ≫= k).
Proof.
  intros Hp Hk. apply (given_bind_learn (fun _ _ => True)).
  - intros h HF. eapply traced_mono; [|by apply Hp]. by intros h' [].
  - intros a h [HF _]. by apply Hk.
Qed.

Lemma given_try {A} (p : go S E A) : given F p -> given F (try p).
Proof. intros Hp h HF. by apply traced_try, Hp. Qed.

Lemma given_wrapping {A} f (p : go S E A) : given F p -> given F (wrapping f p).
Proof. intros Hp h HF. by apply traced_wrapping, Hp. Qed.

Lemma given_weaken (G : history -> Prop) {A} (p : go S E A) :
  (forall h, G h -> F h) -> given F p -> given G p.
Proof. intros HGF Hp h HG. by apply Hp, HGF. Qed.

(** A program whose calls are bounded one by one. *)
Lemma given_only_calls (P' : call_of S -> Prop) {A} (p : go S E A) :
  (forall h c, P' c -> P h c) -> only_calls P' p -> given F p.
Proof.
  intros HP Hp h _. revert h. induction p as [| | |c k IH]; cbn; auto. intros h.
  destruct Hp as [Hc Hk]. split; [by apply HP|]. intros r. by apply IH.
Qed.
End Given.

(** Every call of a history satisfies [P] with what came before it. *)
Definition each_call (P : history -> call_of S -> Prop) (h : history) : Prop :=
  forall before c r after, h = before ++ existT c r :: after -> P before c.

Lemma given_sound (P : history -> call_of S -> Prop) {A} env (p : go S E A) w :
  given P (fun _ => True) p -> each_call P (exchanges env p w).
Proof. intros Hp before c r after Hw. by apply (traced_run P env p _ [] w before c r after (Hp [] I)). Qed.

(** A bound that does not look at the history is one on each call. *)
Lemma given_calls (P : call_of S -> Prop) {A} (p : go S E A) :
  given (fun _ => P) (fun _ => True) p <-> only_calls P p.
Proof.
  split; [|by apply given_only_calls].
  intros Hp. eapply traced_only_calls; [|by apply (Hp [])]. done.
Qed.
End History.
Arguments exchange S : clear implicits.
Arguments history S : clear implicits.
