(* ===== verification/GoLib.v ===== *)
(** * The Go standard library as far as the program uses it

    Byte strings ([strings.Split], [strings.Join], [strings.HasPrefix],
    [bytes.TrimSpace], slicing), UTF-8 decoding and [strconv.Quote] (the verb
    [%q]), decimal printing ([%d]) and [slices.SortStableFunc]. *)

From S2P Require Export Prelude.
From stdpp Require Export pretty.
From Stdlib Require Export Ascii.

#[local] Open Scope Z_scope.
#[local] Open Scope list_scope.

(** ** Strings *)

#[local] Arguments String.append !_ _ / : simpl nomatch.

Definition byte_of (c : ascii) : Z := Z.of_N (N_of_ascii c).

Lemma string_app_nil_r (s : string) : s +:+ "" = s.
Proof. induction s as [|c s IH]; cbn; congruence. Qed.

Lemma string_app_assoc (s t u : string) : s +:+ (t +:+ u) = (s +:+ t) +:+ u.
Proof. induction s as [|c s IH]; cbn; congruence. Qed.

Lemma string_app_inj_l (s t u : string) : s +:+ t = s +:+ u -> t = u.
Proof. induction s as [|c s IH]; cbn; intros H; [done|]. injection H; auto. Qed.

Lemma string_length_app (s t : string) :
  String.length (s +:+ t) = (String.length s + String.length t)%nat.
Proof. induction s as [|c s IH]; cbn; [done|]. by rewrite IH. Qed.

(** [strings.HasPrefix] *)
Definition HasPrefix (s prefix : string) : bool := String.prefix prefix s.

Lemma HasPrefix_spec s p : HasPrefix s p = true <-> exists t, s = p +:+ t.
Proof.
  unfold HasPrefix. revert s. induction p as [|c p IH]; intros [|d s]; cbn.
  - split; [by exists EmptyString|done].
  - split; [by exists (String d s)|done].
  - split; [done|by intros [t ?]].
  - destruct (ascii_dec c d) as [->|Hne].
    + rewrite IH. split; intros [t Ht]; exists t; cbn; congruence.
    + split; [done|]. intros [t Ht]. cbn in Ht. congruence.
Qed.

Lemma HasPrefix_app p t : HasPrefix (p +:+ t) p = true.
Proof. apply HasPrefix_spec. by exists t. Qed.

(** [strings.Split(s, sep)] for a separator of one byte. *)
Fixpoint Split (s : string) (sep : ascii) : list string :=
  match s with
  | EmptyString => [EmptyString]
  | String c s' =>
      if ascii_dec c sep then EmptyString :: Split s' sep
      else match Split s' sep with
           | p :: ps => String c p :: ps
           | [] => [String c EmptyString]
           end
  end.

(** [strings.Join(l, sep)] *)
Fixpoint Join (l : list string) (sep : string) : string :=
  match l with
  | [] => EmptyString
  | [x] => x
  | x :: l' => x +:+ sep +:+ Join l' sep
  end.

(** The byte [c] does not occur in [s]. *)
Fixpoint no_byte (c : ascii) (s : string) : Prop :=
  match s with
  | EmptyString => True
  | String d s' => d <> c /\ no_byte c s'
  end.

#[export] Instance no_byte_dec c s : Decision (no_byte c s).
Proof. induction s as [|d s IH]; cbn; apply _. Defined.

Lemma Split_nonempty s sep : Split s sep <> [].
Proof.
  destruct s as [|c s]; cbn; [done|].
  destruct (ascii_dec c sep); [done|]. by destruct (Split s sep).
Qed.

Lemma Split_no_sep s sep : no_byte sep s -> Split s sep = [s].
Proof.
  induction s as [|c s IH]; cbn; [done|]. intros [Hc Hs].
  destruct (ascii_dec c sep); [done|]. by rewrite IH.
Qed.

Lemma Split_app a s sep :
  no_byte sep a -> Split (a +:+ String sep s) sep = a :: Split s sep.
Proof.
  induction a as [|c a IH]; cbn.
  - intros _. by destruct (ascii_dec sep sep).
  - intros [Hc Ha]. destruct (ascii_dec c sep); [done|]. by rewrite IH.
Qed.

Lemma Split_singleton s sep : length (Split s sep) = 1%nat <-> no_byte sep s.
Proof.
  split; [|intros H; by rewrite Split_no_sep].
  induction s as [|c s IH]; cbn; [done|].
  destruct (ascii_dec c sep) as [->|Hne]; cbn.
  - pose proof (Split_nonempty s sep). by destruct (Split s sep).
  - destruct (Split s sep) as [|p ps] eqn:Hs; cbn in *; [by destruct (Split_nonempty s sep)|].
    auto.
Qed.

Lemma Join_cons x l sep : l <> [] -> Join (x :: l) sep = x +:+ sep +:+ Join l sep.
Proof. by destruct l. Qed.

(** Joining what a split produced gives the string back. *)
Lemma Join_Split s sep : Join (Split s sep) (String sep EmptyString) = s.
Proof.
  induction s as [|c s IH]; [done|]. cbn [Split].
  destruct (ascii_dec c sep) as [->|Hne].
  - rewrite Join_cons by apply Split_nonempty. cbn. by rewrite IH.
  - pose proof (Split_nonempty s sep) as Hn.
    destruct (Split s sep) as [|p [|q ps]]; cbn in *; congruence.
Qed.

(** [s[n:]]: slicing past the end panics. *)
Fixpoint drop_bytes (n : nat) (s : string) : option string :=
  match n, s with
  | O, _ => Some s
  | S n', String _ s' => drop_bytes n' s'
  | S _, EmptyString => None
  end.

Definition slice_from {S E} (s : string) (n : nat) : go S E string :=
  match drop_bytes n s with
  | Some t => Ret t
  | None => Panic "slice bounds out of range"
  end.

(** [l[n:]] on a slice whose capacity is its length. *)
Definition list_from {S E A} (l : list A) (n : nat) : go S E (list A) :=
  if decide (n <= length l)%nat then Ret (drop n l)
  else Panic "slice bounds out of range".

(** [fmt.Sprintf("%d", n)] *)
Definition Itoa (n : Z) : string := pretty n.

(** ** UTF-8 *)

(** [utf8.DecodeRuneInString]: the first rune and its width; [None] is the
    pair (RuneError, 1) of an invalid encoding (or of the empty string). *)
Definition is_cont (lo hi : Z) (c : ascii) : bool :=
  (lo <=? byte_of c) && (byte_of c <=? hi).

Definition decode_rune (s : string) : option (Z * nat) :=
  match s with
  | EmptyString => None
  | String c0 s1 =>
      let b0 := byte_of c0 in
      if b0 <? 128 then Some (b0, 1%nat)
      else if (194 <=? b0) && (b0 <=? 223) then
        match s1 with
        | String c1 _ =>
            if is_cont 128 191 c1
            then Some (Z.lor (Z.shiftl (Z.land b0 31) 6) (Z.land (byte_of c1) 63), 2%nat)
            else None
        | _ => None
        end
      else if (224 <=? b0) && (b0 <=? 239) then
        let lo := if b0 =? 224 then 160 else 128 in
        let hi := if b0 =? 237 then 159 else 191 in
        match s1 with
        | String c1 (String c2 _) =>
            if is_cont lo hi c1 && is_cont 128 191 c2
            then Some (Z.lor (Z.shiftl (Z.land b0 15) 12)
                         (Z.lor (Z.shiftl (Z.land (byte_of c1) 63) 6)
                                (Z.land (byte_of c2) 63)), 3%nat)
            else None
        | _ => None
        end
      else if (240 <=? b0) && (b0 <=? 244) then
        let lo := if b0 =? 240 then 144 else 128 in
        let hi := if b0 =? 244 then 143 else 191 in
        match s1 with
        | String c1 (String c2 (String c3 _)) =>
            if is_cont lo hi c1 && is_cont 128 191 c2 && is_cont 128 191 c3
            then Some (Z.lor (Z.shiftl (Z.land b0 7) 18)
                         (Z.lor (Z.shiftl (Z.land (byte_of c1) 63) 12)
                           (Z.lor (Z.shiftl (Z.land (byte_of c2) 63) 6)
                                  (Z.land (byte_of c3) 63))), 4%nat)
            else None
        | _ => None
        end
      else None
  end.

(** [bytes.TrimSpace]: the encodings of the white space runes of
    [unicode.IsSpace] are removed at both ends. *)
Definition chr (n : nat) : ascii := ascii_of_nat n.
Definition bytes_of (l : list nat) : string := fold_right (fun n s => String (chr n) s) EmptyString l.

Definition space_runes : list string :=
  map bytes_of
    ([[9]; [10]; [11]; [12]; [13]; [32]; [194; 133]; [194; 160]; [225; 154; 128]]
     ++ map (fun n => [226; 128; n]) (seq 128 11)
     ++ [[226; 128; 168]; [226; 128; 169]; [226; 128; 175]; [226; 129; 159]; [227; 128; 128]])%nat.

Fixpoint string_rev_app (s acc : string) : string :=
  match s with
  | EmptyString => acc
  | String c s' => string_rev_app s' (String c acc)
  end.
Definition string_rev (s : string) : string := string_rev_app s EmptyString.

Fixpoint strip_one (runes : list string) (s : string) : option string :=
  match runes with
  | [] => None
  | r :: rs => if HasPrefix s r then drop_bytes (String.length r) s else strip_one rs s
  end.

Fixpoint trim_left (fuel : nat) (runes : list string) (s : string) : string :=
  match fuel with
  | O => s
  | S n => match strip_one runes s with
           | Some s' => trim_left n runes s'
           | None => s
           end
  end.

Definition TrimSpace (s : string) : string :=
  let l := trim_left (String.length s) space_runes s in
  string_rev (trim_left (String.length l) (map string_rev space_runes) (string_rev l)).

(** ** [strconv.Quote] *)

(** The table behind [strconv.IsPrint] for runes outside ASCII. *)
Class Unicode := is_print : Z -> bool.

Definition hex_digit (n : Z) : ascii :=
  if n <? 10 then chr (Z.to_nat (48 + n)) else chr (Z.to_nat (87 + n)).

Fixpoint hex (width : nat) (n : Z) : string :=
  match width with
  | O => EmptyString
  | S w => String (hex_digit (Z.land (Z.shiftr n (4 * Z.of_nat w)) 15)) (hex w n)
  end.

Section Quote.
Context `{Unicode}.

Definition printable (r : Z) : bool :=
  if r <? 128 then (32 <=? r) && (r <? 127) else is_print r.

(** The escape of a rune that is not copied as it is. *)
Definition escape (r : Z) : string :=
  if r =? 34 then bytes_of [92; 34]%nat
  else if r =? 92 then bytes_of [92; 92]%nat
  else if r =? 7 then "\a" else if r =? 8 then "\b" else if r =? 12 then "\f"
  else if r =? 10 then "\n" else if r =? 13 then "\r" else if r =? 9 then "\t"
  else if r =? 11 then "\v"
  else if (r <? 32) || (r =? 127) then "\x" +:+ hex 2 r
  else if r <? 65536 then "\u" +:+ hex 4 r
  else "\U" +:+ hex 8 r.

Definition copied (r : Z) : bool := printable r && negb (r =? 34) && negb (r =? 92).

(** [skip] bytes of the current rune are left; [copy] says whether they are
    copied to the output. *)
Fixpoint quote_loop (s : string) (skip : nat) (copy : bool) : string :=
  match s with
  | EmptyString => EmptyString
  | String c s' =>
      match skip with
      | S n => (if copy then String c EmptyString else EmptyString) +:+ quote_loop s' n copy
      | O =>
          match decode_rune s with
          | None => "\x" +:+ hex 2 (byte_of c) +:+ quote_loop s' 0 false
          | Some (r, width) =>
              let copy := copied r in
              (if copy then String c EmptyString else escape r)
                +:+ quote_loop s' (width - 1) copy
          end
      end
  end.

Definition Quote (s : string) : string :=
  String (chr 34) (quote_loop s 0 false +:+ String (chr 34) EmptyString).
End Quote.

(** ** Slices

    A Go slice is nil or has elements; the two are different for [IsZero]. *)
Definition slice (A : Type) : Type := option (list A).
Definition elems {A} (s : slice A) : list A := default [] s.

(** [slices.Collect]: appending nothing leaves the nil slice. *)
Definition Collect {A} (l : list A) : slice A :=
  match l with [] => None | _ => Some l end.

Lemma elems_Collect {A} (l : list A) : elems (Collect l) = l.
Proof. by destruct l. Qed.

(** ** [slices.SortStableFunc]

    The stable sort is modelled by insertion: an element goes in front of the
    first one it does not compare greater than.  [stable_sort_unique] shows
    that the result of a stable sort is determined, whatever the algorithm. *)

Section StableSort.
Context {A : Type} (cmp : A -> A -> Z).

Fixpoint insert_stable (x : A) (l : list A) : list A :=
  match l with
  | [] => [x]
  | y :: l' => if cmp x y <=? 0 then x :: y :: l' else y :: insert_stable x l'
  end.

Fixpoint SortStableFunc (l : list A) : list A :=
  match l with
  | [] => []
  | x :: l' => insert_stable x (SortStableFunc l')
  end.

Lemma insert_stable_perm x l : Permutation (insert_stable x l) (x :: l).
Proof.
  induction l as [|y l IH]; cbn; [done|].
  destruct (cmp x y <=? 0); [done|]. rewrite IH. apply perm_swap.
Qed.

Lemma SortStableFunc_perm l : Permutation (SortStableFunc l) l.
Proof.
  induction l as [|x l IH]; cbn; [done|].
  by rewrite insert_stable_perm, IH.
Qed.
End StableSort.

Section SortByKey.
Context {A : Type} (key : A -> Z).

(** Sorting by decreasing key, as [int(r2.State) - int(r1.State)] asks. *)
Definition by_key (x y : A) : Z := key y - key x.

Definition descending : list A -> Prop := StronglySorted (fun x y => key y <= key x).

Lemma insert_descending x l :
  descending l -> descending (insert_stable by_key x l).
Proof.
  unfold descending. induction 1 as [|y l Hl IH Hall]; cbn.
  { by repeat constructor. }
  unfold by_key at 1. destruct (Z.leb_spec (key y - key x) 0).
  - constructor; [by constructor|]. constructor; [lia|].
    eapply Forall_impl; [exact Hall|]. cbn. lia.
  - constructor; [exact IH|].
    rewrite insert_stable_perm. constructor; [lia|done].
Qed.

Lemma SortStableFunc_descending l : descending (SortStableFunc by_key l).
Proof. induction l as [|x l IH]; cbn; [constructor|]. by apply insert_descending. Qed.

(** [r] is the first element of [l] with the greatest key. *)
Definition first_max (l : list A) (r : A) : Prop :=
  exists l1 l2, l = l1 ++ r :: l2 /\
    Forall (fun x => key x < key r) l1 /\ Forall (fun x => key x <= key r) l2.

Lemma head_insert_stable x l :
  head (insert_stable by_key x l) =
  match head l with
  | Some y => if key y <=? key x then Some x else Some y
  | None => Some x
  end.
Proof.
  destruct l as [|y l]; cbn; [done|]. unfold by_key.
  destruct (Z.leb_spec (key y - key x) 0), (Z.leb_spec (key y) (key x)); cbn; auto; lia.
Qed.

Lemma head_SortStableFunc l r :
  head (SortStableFunc by_key l) = Some r -> first_max l r.
Proof.
  revert r. induction l as [|x l IH]; cbn; [done|]. intros r.
  rewrite head_insert_stable.
  destruct (head (SortStableFunc by_key l)) as [y|] eqn:Hy.
  - specialize (IH y eq_refl) as (l1 & l2 & -> & H1 & H2).
    destruct (Z.leb_spec (key y) (key x)); intros [= <-].
    + exists [], (l1 ++ y :: l2). split; [done|]. split; [constructor|].
      apply Forall_app. split; [|constructor; [done|]];
        (eapply Forall_impl; [eassumption|]; cbn; lia).
    + exists (x :: l1), l2. split; [done|]. split; [constructor; [lia|done]|done].
  - intros [= <-]. exists [], l. split; [done|]. split; [constructor|].
    destruct l as [|z l]; [constructor|]. exfalso. cbn in Hy.
    rewrite head_insert_stable in Hy.
    by destruct (head _) as [y|]; [destruct (key y <=? key z)|].
Qed.

Lemma first_max_unique l r r' : first_max l r -> first_max l r' -> r = r'.
Proof.
  intros (l1 & l2 & -> & H1 & H2) (m1 & m2 & Heq & G1 & G2).
  revert m1 Heq G1. induction l1 as [|x l1 IH]; intros [|z m1] Heq G1; cbn in Heq;
    injection Heq; intros Heq' ->; [done| | |].
  - inversion G1; subst. rewrite Forall_app in H2. destruct H2 as [_ H2].
    inversion H2; subst. lia.
  - inversion H1; subst. rewrite Forall_app in G2. destruct G2 as [_ G2].
    inversion G2; subst. lia.
  - inversion H1; inversion G1; subst. eapply IH; eauto.
Qed.

(** The elements of one key, in their order. *)
Definition same_key (k : Z) (l : list A) : list A := filter (fun x => key x = k) l.

Lemma same_key_insert k x l :
  descending l -> same_key k (insert_stable by_key x l) = same_key k (x :: l).
Proof.
  unfold same_key. induction 1 as [|y l Hl IH Hall]; cbn [insert_stable]; [done|].
  unfold by_key at 1. destruct (Z.leb_spec (key y - key x) 0); [done|].
  rewrite filter_cons, IH, !filter_cons.
  destruct (decide (key x = k)), (decide (key y = k)); auto; lia.
Qed.

Lemma SortStableFunc_stable k l : same_key k (SortStableFunc by_key l) = same_key k l.
Proof.
  induction l as [|x l IH]; cbn [SortStableFunc]; [done|].
  rewrite same_key_insert by apply SortStableFunc_descending.
  unfold same_key in *. rewrite !filter_cons. by rewrite IH.
Qed.

(** Two descending lists with the same elements of every key, in the same
    order, are equal: a stable sort has one result. *)
Lemma stable_sort_unique l m :
  descending l -> descending m -> (forall k, same_key k l = same_key k m) -> l = m.
Proof.
  intros Hl. revert m. induction Hl as [|x l Hl IH Hx]; intros m Hm Hk.
  - destruct m as [|y m]; [done|]. specialize (Hk (key y)).
    unfold same_key in Hk. by rewrite filter_nil, filter_cons_True in Hk.
  - destruct Hm as [|y m Hm Hy].
    { specialize (Hk (key x)). unfold same_key in Hk.
      by rewrite filter_nil, filter_cons_True in Hk. }
    assert (Hxy : key x = key y).
    { pose proof (Hk (key x)) as Hkx. pose proof (Hk (key y)) as Hky.
      unfold same_key in Hkx, Hky.
      rewrite (filter_cons_True _ x) in Hkx by done.
      rewrite (filter_cons_True _ y) in Hky by done.
      assert (Hin : x ∈ filter (fun z => key z = key x) (y :: m))
        by (rewrite <- Hkx; left).
      assert (Hin' : y ∈ filter (fun z => key z = key y) (x :: l))
        by (rewrite Hky; left).
      apply list_elem_of_filter in Hin as [_ Hin], Hin' as [_ Hin'].
      apply elem_of_cons in Hin as [->|Hin]; [done|].
      apply elem_of_cons in Hin' as [->|Hin']; [done|].
      rewrite Forall_forall in Hx, Hy. specialize (Hx y Hin'). specialize (Hy x Hin). lia. }
    assert (x = y) as ->.
    { specialize (Hk (key x)). unfold same_key in Hk.
      rewrite !filter_cons_True in Hk by auto. congruence. }
    f_equal. apply IH; [done|]. intros k. specialize (Hk k). unfold same_key in *.
    rewrite !filter_cons in Hk. destruct (decide (key y = k)); congruence.
Qed.
End SortByKey.
