(* ===== verification/Errors.v ===== *)
(** * Go errors

    The dynamic types an [error] value of the program can have, the message
    [Error()] prints, and the searches along the [Unwrap] chain that the code
    performs: [k8serrors.IsNotFound], [errors.As(err, &NotReadyError{})] and
    [errors.Is(err, io.EOF)].  [NotReadyError] and its [With...] methods model
    src/tools/k8s/reconcile.go. *)

From S2P Require Export GoLib.

#[local] Open Scope Z_scope.
#[local] Open Scope list_scope.

(** Durations are [time.Duration] values: nanoseconds. *)
Definition Second : Z := 1000000000.

(** [type NotReadyError struct]; the type of [cause] is the [error] interface. *)
Record NotReadyErrorOf (err : Type) := {
  cause : option err;
  reason : string;
  message : string;
  requeueAfter : option Z;
  requeue : bool;
  noRequeue : bool
}.
Arguments cause {err} _.
Arguments reason {err} _.
Arguments message {err} _.
Arguments requeueAfter {err} _.
Arguments requeue {err} _.
Arguments noRequeue {err} _.

Inductive error :=
(** [errors.New(msg)], and [fmt.Errorf] without the verb [%w] *)
| ErrText (msg : string)
(** [fmt.Errorf(before + "%w" + after, ..., inner)] *)
| ErrWrap (before : string) (inner : error) (after : string)
(** an error of the Kubernetes API: whether its status reason is NotFound,
    and its text *)
| ErrAPI (notFound : bool) (text : string)
(** any other error made by code outside the repository *)
| ErrExt (text : string)
(** [io.EOF] *)
| ErrEOF
| ErrNotReady (e : NotReadyErrorOf error).

Definition NotReadyError := NotReadyErrorOf error.

(** [Error()]; for a NotReadyError this is reconcile.go's method. *)
Fixpoint error_string (e : error) : string :=
  match e with
  | ErrText msg => msg
  | ErrWrap before inner after => before +:+ error_string inner +:+ after
  | ErrAPI _ text => text
  | ErrExt text => text
  | ErrEOF => "EOF"
  | ErrNotReady {| cause := c; message := m |} =>
      match c with
      | None => m
      | Some c => (if decide (m = "") then m else m +:+ ": ") +:+ error_string c
      end
  end.

Definition NotReadyError_Error (e : NotReadyError) : string := error_string (ErrNotReady e).

(** [k8serrors.IsNotFound(err)]: an API status anywhere on the chain. *)
Fixpoint IsNotFound (e : error) : bool :=
  match e with
  | ErrAPI b _ => b
  | ErrWrap _ inner _ => IsNotFound inner
  | _ => false
  end.

(** [errors.As(err, &notReadyErr)]: a NotReadyError has no [Unwrap] method,
    so its cause is not searched. *)
Fixpoint AsNotReadyError (e : error) : option NotReadyError :=
  match e with
  | ErrNotReady n => Some n
  | ErrWrap _ inner _ => AsNotReadyError inner
  | _ => None
  end.

(** [errors.Is(err, io.EOF)] *)
Fixpoint IsEOF (e : error) : bool :=
  match e with
  | ErrEOF => true
  | ErrWrap _ inner _ => IsEOF inner
  | _ => false
  end.

(** [client.IgnoreNotFound(err)] on the result of a call. *)
Definition IgnoreNotFound (r : result error unit) : result error unit :=
  match r with
  | Fail e => if IsNotFound e then Ok tt else Fail e
  | Ok u => Ok u
  end.

(** [func NewNotReadyError() NotReadyError] and the builder methods.  The
    receivers are values, so each method returns a changed copy. *)
Definition NewNotReadyError : NotReadyError :=
  {| cause := None; reason := ""; message := ""; requeueAfter := None;
     requeue := false; noRequeue := false |}.

Definition WithCause (c : error) (e : NotReadyError) : NotReadyError :=
  {| cause := Some c; reason := reason e; message := message e;
     requeueAfter := requeueAfter e; requeue := requeue e; noRequeue := noRequeue e |}.

Definition WithRequeue (e : NotReadyError) : NotReadyError :=
  {| cause := cause e; reason := reason e; message := message e;
     requeueAfter := requeueAfter e; requeue := true; noRequeue := noRequeue e |}.

Definition WithRequeueAfter (d : Z) (e : NotReadyError) : NotReadyError :=
  {| cause := cause e; reason := reason e; message := message e;
     requeueAfter := Some d; requeue := requeue e; noRequeue := noRequeue e |}.

Definition WithNoRequeue (e : NotReadyError) : NotReadyError :=
  {| cause := cause e; reason := reason e; message := message e;
     requeueAfter := requeueAfter e; requeue := requeue e; noRequeue := true |}.

Definition WithReason (r : string) (e : NotReadyError) : NotReadyError :=
  {| cause := cause e; reason := r; message := message e;
     requeueAfter := requeueAfter e; requeue := requeue e; noRequeue := noRequeue e |}.

Definition WithMessage (m : string) (e : NotReadyError) : NotReadyError :=
  {| cause := cause e; reason := reason e; message := m;
     requeueAfter := requeueAfter e; requeue := requeue e; noRequeue := noRequeue e |}.

(** ** Helper lemmas *)

Lemma error_string_wrap before e after :
  error_string (ErrWrap before e after) = before +:+ error_string e +:+ after.
Proof. reflexivity. Qed.

(** Wrapping an error hides nothing from the searches along the chain. *)
Lemma IsNotFound_wrap before e after : IsNotFound (ErrWrap before e after) = IsNotFound e.
Proof. reflexivity. Qed.

Lemma AsNotReadyError_wrap before e after :
  AsNotReadyError (ErrWrap before e after) = AsNotReadyError e.
Proof. reflexivity. Qed.
