(* ===== verification/Api.v ===== *)
(** * The CFAPI custom resource

    Models src/api/v1alpha1/cfapi_types.go and status.go, with the parts of
    Kubernetes' object metadata and conditions that the program uses. *)

From S2P Require Export Errors.

#[local] Open Scope Z_scope.
#[local] Open Scope list_scope.

(** ** Kubernetes metadata *)

Record ObjectKey := { key_ns : string; key_name : string }.

#[export] Instance ObjectKey_eq_dec : EqDecision ObjectKey.
Proof. solve_decision. Defined.

(** [metav1.ObjectMeta].  Times are whole seconds, the precision in which the
    API server stores them; [None] is a deletion
    timestamp that is nil or the zero time. *)
Record ObjectMeta := {
  Namespace : string;
  Name : string;
  Generation : Z;
  Finalizers : list string;
  DeletionTimestamp : option Z;
  ResourceVersion : string
}.

#[export] Instance ObjectMeta_eq_dec : EqDecision ObjectMeta.
Proof. solve_decision. Defined.

(** [client.ObjectKeyFromObject] *)
Definition ObjectKeyFromObject (m : ObjectMeta) : ObjectKey :=
  {| key_ns := Namespace m; key_name := Name m |}.

(** The metadata of an object literal with a namespace and a name only. *)
Definition meta_of (namespace name : string) : ObjectMeta :=
  {| Namespace := namespace; Name := name; Generation := 0; Finalizers := [];
     DeletionTimestamp := None; ResourceVersion := "" |}.

Definition set_Finalizers (fs : list string) (m : ObjectMeta) : ObjectMeta :=
  {| Namespace := Namespace m; Name := Name m; Generation := Generation m;
     Finalizers := fs; DeletionTimestamp := DeletionTimestamp m;
     ResourceVersion := ResourceVersion m |}.

Inductive ConditionStatus := ConditionTrue | ConditionFalse | ConditionUnknown.

#[export] Instance ConditionStatus_eq_dec : EqDecision ConditionStatus.
Proof. solve_decision. Defined.

(** [metav1.Condition] *)
Record Condition := {
  c_Type : string;
  c_Status : ConditionStatus;
  c_ObservedGeneration : Z;
  c_LastTransitionTime : Z;
  c_Reason : string;
  c_Message : string
}.

#[export] Instance Condition_eq_dec : EqDecision Condition.
Proof. solve_decision. Defined.

(** ** status.go *)

(** [type State string] *)
Definition State := string.
Definition StateReady : State := "Ready".
Definition StateProcessing : State := "Processing".
Definition StateError : State := "Error".
Definition StateDeleting : State := "Deleting".
Definition StateWarning : State := "Warning".

(** ** cfapi_types.go *)

Definition GatewayTypeContour : string := "contour".
Definition GatewayTypeIstio : string := "istio".

Definition ConditionTypeConfiguration : string := "Configuration".
Definition ConditionTypeInstallation : string := "Installation".
Definition ConditionTypeDeletion : string := "Deletion".

Record InstallationConfig := {
  cfg_RootNamespace : string;
  cfg_ContainerRegistrySecret : string;
  cfg_DisableContainerRegistrySecretPropagation : bool;
  cfg_ContainerRegistryURL : string;
  cfg_ContainerRepositoryPrefix : string;
  cfg_BuilderRepository : string;
  cfg_UAAURL : string;
  cfg_CFAdmins : slice string;
  cfg_CFDomain : string;
  cfg_KorifiIngressService : string;
  cfg_UseSelfSignedCertificates : bool;
  cfg_GatewayType : string
}.

#[export] Instance InstallationConfig_eq_dec : EqDecision InstallationConfig.
Proof. solve_decision. Defined.

(** The zero value [v1alpha1.InstallationConfig{}]. *)
Definition zero_InstallationConfig : InstallationConfig :=
  {| cfg_RootNamespace := ""; cfg_ContainerRegistrySecret := "";
     cfg_DisableContainerRegistrySecretPropagation := false;
     cfg_ContainerRegistryURL := ""; cfg_ContainerRepositoryPrefix := "";
     cfg_BuilderRepository := ""; cfg_UAAURL := ""; cfg_CFAdmins := None;
     cfg_CFDomain := ""; cfg_KorifiIngressService := "";
     cfg_UseSelfSignedCertificates := false; cfg_GatewayType := "" |}.

Record CFAPIStatus := {
  st_State : State;
  st_ObservedGeneration : Z;
  st_Conditions : list Condition;
  st_InstallationConfig : InstallationConfig;
  st_URL : string
}.

#[export] Instance CFAPIStatus_eq_dec : EqDecision CFAPIStatus.
Proof. solve_decision. Defined.

Record CFAPISpec := {
  spec_RootNamespace : string;
  spec_ContainerRegistrySecret : string;
  spec_DisableContainerRegistrySecretPropagation : bool;
  spec_ContainerRepositoryPrefix : string;
  spec_BuilderRepository : string;
  spec_UAA : string;
  spec_CFAdmins : slice string;
  spec_UseSelfSignedCertificates : bool;
  spec_GatewayType : string
}.

#[export] Instance CFAPISpec_eq_dec : EqDecision CFAPISpec.
Proof. solve_decision. Defined.

Record CFAPI := {
  cfapi_meta : ObjectMeta;
  cfapi_spec : CFAPISpec;
  cfapi_status : CFAPIStatus
}.

#[export] Instance CFAPI_eq_dec : EqDecision CFAPI.
Proof. solve_decision. Defined.

(** [reflect.ValueOf(config).IsZero()] *)
Definition IsZero_InstallationConfig (c : InstallationConfig) : bool :=
  bool_decide (c = zero_InstallationConfig).

(** ** Assignments to the fields of a CFAPI through its pointer *)

Definition with_status (f : CFAPIStatus -> CFAPIStatus) (o : CFAPI) : CFAPI :=
  {| cfapi_meta := cfapi_meta o; cfapi_spec := cfapi_spec o; cfapi_status := f (cfapi_status o) |}.

Definition with_meta (f : ObjectMeta -> ObjectMeta) (o : CFAPI) : CFAPI :=
  {| cfapi_meta := f (cfapi_meta o); cfapi_spec := cfapi_spec o; cfapi_status := cfapi_status o |}.

Definition set_State (s : State) : CFAPI -> CFAPI := with_status (fun st =>
  {| st_State := s; st_ObservedGeneration := st_ObservedGeneration st;
     st_Conditions := st_Conditions st; st_InstallationConfig := st_InstallationConfig st;
     st_URL := st_URL st |}).

Definition set_ObservedGeneration (g : Z) : CFAPI -> CFAPI := with_status (fun st =>
  {| st_State := st_State st; st_ObservedGeneration := g;
     st_Conditions := st_Conditions st; st_InstallationConfig := st_InstallationConfig st;
     st_URL := st_URL st |}).

Definition set_Conditions (cs : list Condition) : CFAPI -> CFAPI := with_status (fun st =>
  {| st_State := st_State st; st_ObservedGeneration := st_ObservedGeneration st;
     st_Conditions := cs; st_InstallationConfig := st_InstallationConfig st;
     st_URL := st_URL st |}).

Definition set_InstallationConfig (c : InstallationConfig) : CFAPI -> CFAPI := with_status (fun st =>
  {| st_State := st_State st; st_ObservedGeneration := st_ObservedGeneration st;
     st_Conditions := st_Conditions st; st_InstallationConfig := c;
     st_URL := st_URL st |}).

Definition set_URL (u : string) : CFAPI -> CFAPI := with_status (fun st =>
  {| st_State := st_State st; st_ObservedGeneration := st_ObservedGeneration st;
     st_Conditions := st_Conditions st; st_InstallationConfig := st_InstallationConfig st;
     st_URL := u |}).

(** ** Helper lemmas *)

Lemma IsZero_InstallationConfig_root c :
  cfg_RootNamespace c <> "" -> IsZero_InstallationConfig c = false.
Proof. intros H. apply bool_decide_eq_false. intros ->. by apply H. Qed.

Lemma IsZero_InstallationConfig_spec c :
  IsZero_InstallationConfig c = true <-> c = zero_InstallationConfig.
Proof. apply bool_decide_eq_true. Qed.
