(* ===== verification/DeepCopy.v ===== *)
(** * Deep copies

    Models src/api/v1alpha1/zz_generated.deepcopy.go on a heap: the structs
    hold references to the backing arrays of their slices, an assignment of a
    struct copies the references, and a deep copy allocates new arrays.  The
    theorem justifies that the rest of the development treats objects, and
    copies of objects, as values. *)

From S2P Require Export Api.

#[local] Open Scope Z_scope.
#[local] Open Scope list_scope.

(** ** The heap *)

Abbreviation loc := positive.

(** A slice: nil, or the location of its backing array. *)
Definition slice_ref := option loc.

(** The structs with their slices as references; the fields of a value that
    are slices are kept nil in the record of the other fields. *)
Record ObjectMetaRef := { om_fields : ObjectMeta; om_Finalizers : slice_ref }.
Record CFAPISpecRef := { sr_fields : CFAPISpec; sr_CFAdmins : slice_ref }.
Record InstallationConfigRef := { icr_fields : InstallationConfig; icr_CFAdmins : slice_ref }.
Record CFAPIStatusRef := {
  str_Status : State; str_ObservedGeneration : Z; str_Conditions : slice_ref;
  str_InstallationConfig : InstallationConfigRef; str_URL : string
}.
Record CFAPIRef := { cr_ObjectMeta : ObjectMetaRef; cr_Spec : CFAPISpecRef; cr_Status : CFAPIStatusRef }.
Record CFAPIListRef := { lr_Items : slice_ref }.

Inductive array :=
| Strings (l : list string)
| Conditions (l : list Condition)
| Items (l : list CFAPIRef).

Abbreviation heap := (gmap loc array).

(** [make] with the contents the loop or [copy] gives it. *)
Definition alloc (a : array) (h : heap) : loc * heap :=
  let l := fresh (dom h) in (l, <[l := a]> h).

(** [copy(dst, src)] *)
Definition copy {A} (dst src : list A) : list A := take (length dst) src ++ drop (length src) dst.

(** ** The metadata, which apimachinery copies *)

Class ObjectMetaDeepCopy := {
  ObjectMeta_DeepCopyInto : ObjectMetaRef -> heap -> ObjectMetaRef * heap;
  (** a condition has no references *)
  Condition_DeepCopyInto : Condition -> Condition
}.

Section DeepCopy.
Context {lib : ObjectMetaDeepCopy}.

(** [if in.F != nil { out.F = make([]string, len(in.F)); copy(out.F, in.F) }]:
    the new reference; [out.F] is [in.F] after the assignment of the struct. *)
Definition copy_strings (s : slice_ref) (h : heap) : slice_ref * heap :=
  match s with
  | None => (None, h)
  | Some l =>
      match h !! l with
      | Some (Strings xs) =>
          let '(l', h) := alloc (Strings (copy (replicate (length xs) EmptyString) xs)) h in (Some l', h)
      | _ => (s, h)
      end
  end.

Definition InstallationConfig_DeepCopyInto (c : InstallationConfigRef) (h : heap)
    : InstallationConfigRef * heap :=
  let '(admins, h) := copy_strings (icr_CFAdmins c) h in
  ({| icr_fields := icr_fields c; icr_CFAdmins := admins |}, h).

Definition CFAPISpec_DeepCopyInto (s : CFAPISpecRef) (h : heap) : CFAPISpecRef * heap :=
  let '(admins, h) := copy_strings (sr_CFAdmins s) h in
  ({| sr_fields := sr_fields s; sr_CFAdmins := admins |}, h).

Definition Status_DeepCopyInto (s : State) : State := s.

Definition copy_conditions (s : slice_ref) (h : heap) : slice_ref * heap :=
  match s with
  | None => (None, h)
  | Some l =>
      match h !! l with
      | Some (Conditions cs) =>
          let '(l', h) := alloc (Conditions (map Condition_DeepCopyInto cs)) h in (Some l', h)
      | _ => (s, h)
      end
  end.

Definition CFAPIStatus_DeepCopyInto (s : CFAPIStatusRef) (h : heap) : CFAPIStatusRef * heap :=
  let '(conditions, h) := copy_conditions (str_Conditions s) h in
  let '(config, h) := InstallationConfig_DeepCopyInto (str_InstallationConfig s) h in
  ({| str_Status := Status_DeepCopyInto (str_Status s);
      str_ObservedGeneration := str_ObservedGeneration s; str_Conditions := conditions;
      str_InstallationConfig := config; str_URL := str_URL s |}, h).

Definition CFAPI_DeepCopyInto (o : CFAPIRef) (h : heap) : CFAPIRef * heap :=
  let '(meta, h) := ObjectMeta_DeepCopyInto (cr_ObjectMeta o) h in
  let '(spec, h) := CFAPISpec_DeepCopyInto (cr_Spec o) h in
  let '(status, h) := CFAPIStatus_DeepCopyInto (cr_Status o) h in
  ({| cr_ObjectMeta := meta; cr_Spec := spec; cr_Status := status |}, h).

(** The loop over the items of a list. *)
Fixpoint copy_items (items : list CFAPIRef) (h : heap) : list CFAPIRef * heap :=
  match items with
  | [] => ([], h)
  | o :: items =>
      let '(o', h) := CFAPI_DeepCopyInto o h in
      let '(items', h) := copy_items items h in (o' :: items', h)
  end.

Definition CFAPIList_DeepCopyInto (l : CFAPIListRef) (h : heap) : CFAPIListRef * heap :=
  match lr_Items l with
  | None => (l, h)
  | Some a =>
      match h !! a with
      | Some (Items items) =>
          let '(items', h) := copy_items items h in
          let '(a', h) := alloc (Items items') h in ({| lr_Items := Some a' |}, h)
      | _ => (l, h)
      end
  end.

(** [DeepCopy] and [DeepCopyObject]: a nil receiver gives nil. *)
Definition nil_or {A} (DeepCopyInto : A -> heap -> A * heap) (o : option A) (h : heap) : option A * heap :=
  match o with
  | None => (None, h)
  | Some o => let '(o', h) := DeepCopyInto o h in (Some o', h)
  end.

Definition CFAPI_DeepCopy := nil_or CFAPI_DeepCopyInto.
Definition CFAPI_DeepCopyObject := CFAPI_DeepCopy.
Definition CFAPIList_DeepCopy := nil_or CFAPIList_DeepCopyInto.
Definition CFAPIList_DeepCopyObject := CFAPIList_DeepCopy.
Definition CFAPISpec_DeepCopy := nil_or CFAPISpec_DeepCopyInto.
Definition CFAPIStatus_DeepCopy := nil_or CFAPIStatus_DeepCopyInto.
Definition InstallationConfig_DeepCopy := nil_or InstallationConfig_DeepCopyInto.
Definition Status_DeepCopy := nil_or (fun s (h : heap) => (Status_DeepCopyInto s, h)).
End DeepCopy.

(** ** What a struct says in a heap *)

Definition read_strings (h : heap) (s : slice_ref) : option (slice string) :=
  match s with
  | None => Some None
  | Some l => match h !! l with Some (Strings xs) => Some (Some xs) | _ => None end
  end.

Definition read_conditions (h : heap) (s : slice_ref) : option (list Condition) :=
  match s with
  | None => Some []
  | Some l => match h !! l with Some (Conditions cs) => Some cs | _ => None end
  end.

Definition read_meta (h : heap) (m : ObjectMetaRef) : option ObjectMeta :=
  fs ← read_strings h (om_Finalizers m); Some (set_Finalizers (elems fs) (om_fields m)).

Definition spec_with (admins : slice string) (s : CFAPISpec) : CFAPISpec :=
  {| spec_RootNamespace := spec_RootNamespace s;
     spec_ContainerRegistrySecret := spec_ContainerRegistrySecret s;
     spec_DisableContainerRegistrySecretPropagation := spec_DisableContainerRegistrySecretPropagation s;
     spec_ContainerRepositoryPrefix := spec_ContainerRepositoryPrefix s;
     spec_BuilderRepository := spec_BuilderRepository s; spec_UAA := spec_UAA s;
     spec_CFAdmins := admins; spec_UseSelfSignedCertificates := spec_UseSelfSignedCertificates s;
     spec_GatewayType := spec_GatewayType s |}.

Definition config_with (admins : slice string) (c : InstallationConfig) : InstallationConfig :=
  {| cfg_RootNamespace := cfg_RootNamespace c;
     cfg_ContainerRegistrySecret := cfg_ContainerRegistrySecret c;
     cfg_DisableContainerRegistrySecretPropagation := cfg_DisableContainerRegistrySecretPropagation c;
     cfg_ContainerRegistryURL := cfg_ContainerRegistryURL c;
     cfg_ContainerRepositoryPrefix := cfg_ContainerRepositoryPrefix c;
     cfg_BuilderRepository := cfg_BuilderRepository c; cfg_UAAURL := cfg_UAAURL c;
     cfg_CFAdmins := admins; cfg_CFDomain := cfg_CFDomain c;
     cfg_KorifiIngressService := cfg_KorifiIngressService c;
     cfg_UseSelfSignedCertificates := cfg_UseSelfSignedCertificates c;
     cfg_GatewayType := cfg_GatewayType c |}.

Definition read_spec (h : heap) (s : CFAPISpecRef) : option CFAPISpec :=
  admins ← read_strings h (sr_CFAdmins s); Some (spec_with admins (sr_fields s)).

Definition read_config (h : heap) (c : InstallationConfigRef) : option InstallationConfig :=
  admins ← read_strings h (icr_CFAdmins c); Some (config_with admins (icr_fields c)).

Definition read_status (h : heap) (s : CFAPIStatusRef) : option CFAPIStatus :=
  conditions ← read_conditions h (str_Conditions s);
  config ← read_config h (str_InstallationConfig s);
  Some {| st_State := str_Status s; st_ObservedGeneration := str_ObservedGeneration s;
          st_Conditions := conditions; st_InstallationConfig := config; st_URL := str_URL s |}.

Definition read_cfapi (h : heap) (o : CFAPIRef) : option CFAPI :=
  meta ← read_meta h (cr_ObjectMeta o); spec ← read_spec h (cr_Spec o);
  status ← read_status h (cr_Status o);
  Some {| cfapi_meta := meta; cfapi_spec := spec; cfapi_status := status |}.

Definition read_list (h : heap) (l : CFAPIListRef) : option (list CFAPI) :=
  match lr_Items l with
  | None => Some []
  | Some a => match h !! a with Some (Items items) => mapM (read_cfapi h) items | _ => None end
  end.

#[local] Arguments alloc : simpl never.
#[local] Arguments copy : simpl never.

(** ** Theorems *)

(** Two heaps agree on some locations. *)
Definition agree (X : gset loc) (h1 h2 : heap) : Prop := forall l, l ∈ X -> h1 !! l = h2 !! l.

(** A reader only looks at what is in the heap. *)
Definition local {A V} (read : heap -> A -> option V) : Prop :=
  forall h h2 x v, read h x = Some v -> agree (dom h) h2 h -> read h2 x = Some v.

(** A copier keeps the old heap, and its copy reads as the original in every
    heap that has what the copier allocated. *)
Definition copies {A V} (read : heap -> A -> option V) (f : A -> heap -> A * heap) : Prop :=
  forall h x v, read h x = Some v ->
    h ⊆ (f x h).2
    /\ forall h2, agree (dom (f x h).2 ∖ dom h) h2 (f x h).2 -> read h2 (f x h).1 = Some v.

(** What apimachinery documents of its copiers. *)
Class ObjectMetaDeepCopyLaws `{ObjectMetaDeepCopy} : Prop := {
  ObjectMeta_copies : copies read_meta ObjectMeta_DeepCopyInto;
  Condition_copy c : Condition_DeepCopyInto c = c
}.

Lemma agree_subset h h' h2 : h ⊆ h' -> agree (dom h') h2 h' -> agree (dom h) h2 h.
Proof.
  intros Hsub Ha l Hl. apply elem_of_dom in Hl as [a Hla].
  pose proof (lookup_weaken _ _ _ _ Hla Hsub) as Hl'. rewrite Hla, <- Hl'. apply Ha. apply elem_of_dom. by eexists.
Qed.

Lemma agree_self h h' : h ⊆ h' -> agree (dom h) h' h.
Proof. intros Hsub l [a Hl]%elem_of_dom. rewrite Hl. by eapply lookup_weaken. Qed.

Lemma copies_seq {A B V W} (readA : heap -> A -> option V) (readB : heap -> B -> option W) fA fB h x y v w :
  copies readA fA -> local readB -> copies readB fB ->
  readA h x = Some v -> readB h y = Some w ->
  let '(x', h1) := fA x h in let '(y', h2) := fB y h1 in
  h ⊆ h2 /\ forall h3, agree (dom h2 ∖ dom h) h3 h2 -> readA h3 x' = Some v /\ readB h3 y' = Some w.
Proof.
  intros HA HlB HB Hx Hy. destruct (HA h x v Hx) as [Hsub1 Hread1].
  destruct (fA x h) as [x' h1]. cbn in *.
  destruct (HB h1 y w) as [Hsub2 Hread2]; [apply (HlB h h1 y w Hy), agree_self, Hsub1|].
  destruct (fB y h1) as [y' h2]. cbn in *.
  pose proof (subseteq_dom _ _ Hsub1). pose proof (subseteq_dom _ _ Hsub2).
  split; [by etrans|]. intros h3 Ha. split.
  - apply Hread1. intros l Hl. rewrite Ha by set_solver.
    assert (Hl1 : l ∈ dom h1) by set_solver. apply elem_of_dom in Hl1 as [a Hla].
    rewrite Hla. by eapply lookup_weaken.
  - apply Hread2. intros l Hl. apply Ha. set_solver.
Qed.

Lemma alloc_fresh a h :
  let '(l, h') := alloc a h in
  h ⊆ h' /\ forall h2, agree (dom h' ∖ dom h) h2 h' -> h2 !! l = Some a.
Proof.
  unfold alloc. pose proof (is_fresh (dom h)) as Hf. set (l := fresh (dom h)) in *.
  apply not_elem_of_dom in Hf as Hnone. split; [by apply insert_subseteq|].
  intros h2 Ha. rewrite Ha; [by simplify_map_eq|]. rewrite dom_insert_L. set_solver.
Qed.

Lemma copy_all {A} (z : A) xs : copy (replicate (length xs) z) xs = xs.
Proof.
  unfold copy. rewrite length_replicate, firstn_all, drop_ge; [apply app_nil_r|].
  by rewrite length_replicate.
Qed.

Lemma local_strings : local read_strings.
Proof.
  intros h h2 [l|] v; cbn; [|done]. destruct (h !! l) as [a|] eqn:Hl; [|done]. intros Hv Ha.
  rewrite (Ha l) by (apply elem_of_dom; by eexists). by rewrite Hl.
Qed.

Lemma local_conditions : local read_conditions.
Proof.
  intros h h2 [l|] v; cbn; [|done]. destruct (h !! l) as [a|] eqn:Hl; [|done]. intros Hv Ha.
  rewrite (Ha l) by (apply elem_of_dom; by eexists). by rewrite Hl.
Qed.

Lemma local_spec : local read_spec.
Proof.
  intros h h2 s v. unfold read_spec. intros Hv Ha.
  destruct (read_strings h (sr_CFAdmins s)) as [x|] eqn:Hx; [|done].
  by rewrite (local_strings _ h2 _ _ Hx Ha).
Qed.

Lemma local_config : local read_config.
Proof.
  intros h h2 s v. unfold read_config. intros Hv Ha.
  destruct (read_strings h (icr_CFAdmins s)) as [x|] eqn:Hx; [|done].
  by rewrite (local_strings _ h2 _ _ Hx Ha).
Qed.

Lemma local_status : local read_status.
Proof.
  intros h h2 s v. unfold read_status. intros Hv Ha.
  destruct (read_conditions h (str_Conditions s)) as [x|] eqn:Hx; [|done]. cbn in *.
  destruct (read_config h (str_InstallationConfig s)) as [y|] eqn:Hy; [|done].
  rewrite (local_conditions _ h2 _ _ Hx Ha). cbn. by rewrite (local_config _ h2 _ _ Hy Ha).
Qed.

Lemma local_meta : local read_meta.
Proof.
  intros h h2 s v. unfold read_meta. intros Hv Ha.
  destruct (read_strings h (om_Finalizers s)) as [x|] eqn:Hx; [|done].
  by rewrite (local_strings _ h2 _ _ Hx Ha).
Qed.

Lemma local_cfapi : local read_cfapi.
Proof.
  intros h h2 o v. unfold read_cfapi. intros Hv Ha.
  destruct (read_meta h (cr_ObjectMeta o)) as [m|] eqn:Hm; [|done]. cbn in *.
  destruct (read_spec h (cr_Spec o)) as [s|] eqn:Hs; [|done]. cbn in *.
  destruct (read_status h (cr_Status o)) as [t|] eqn:Ht; [|done].
  rewrite (local_meta _ h2 _ _ Hm Ha). cbn. rewrite (local_spec _ h2 _ _ Hs Ha). cbn.
  by rewrite (local_status _ h2 _ _ Ht Ha).
Qed.

Section Copies.
Context {lib : ObjectMetaDeepCopy} {laws : ObjectMetaDeepCopyLaws}.

Lemma copies_strings : copies read_strings copy_strings.
Proof.
  intros h [l|] v; cbn; [|by intros [= <-]].
  destruct (h !! l) as [[xs|?|?]|] eqn:Hl; try done. intros [= <-].
  pose proof (alloc_fresh (Strings (copy (replicate (length xs) EmptyString) xs)) h) as Hf.
  destruct (alloc _ h) as [l' h']. destruct Hf as [Hsub Hread]. cbn. split; [done|].
  intros h2 Ha. rewrite (Hread h2 Ha). by rewrite copy_all.
Qed.

Lemma copies_conditions : copies read_conditions copy_conditions.
Proof.
  intros h [l|] v; cbn; [|by intros [= <-]].
  destruct (h !! l) as [[?|cs|?]|] eqn:Hl; try done. intros [= <-].
  pose proof (alloc_fresh (Conditions (map Condition_DeepCopyInto cs)) h) as Hf.
  destruct (alloc _ h) as [l' h']. destruct Hf as [Hsub Hread]. cbn. split; [done|].
  intros h2 Ha. rewrite (Hread h2 Ha). f_equal.
  rewrite (map_ext _ id) by apply Condition_copy. apply map_id.
Qed.

Lemma copies_config : copies read_config InstallationConfig_DeepCopyInto.
Proof.
  intros h c v. unfold read_config, InstallationConfig_DeepCopyInto.
  destruct (read_strings h (icr_CFAdmins c)) as [x|] eqn:Hx; [|done]. intros [= <-].
  destruct (copies_strings h _ _ Hx) as [Hsub Hread]. destruct (copy_strings _ h) as [s h1]. cbn in *.
  split; [done|]. intros h2 Ha. by rewrite (Hread h2 Ha).
Qed.

Lemma copies_spec : copies read_spec CFAPISpec_DeepCopyInto.
Proof.
  intros h c v. unfold read_spec, CFAPISpec_DeepCopyInto.
  destruct (read_strings h (sr_CFAdmins c)) as [x|] eqn:Hx; [|done]. intros [= <-].
  destruct (copies_strings h _ _ Hx) as [Hsub Hread]. destruct (copy_strings _ h) as [s h1]. cbn in *.
  split; [done|]. intros h2 Ha. by rewrite (Hread h2 Ha).
Qed.

Lemma copies_status : copies read_status CFAPIStatus_DeepCopyInto.
Proof.
  intros h s v. unfold read_status, CFAPIStatus_DeepCopyInto.
  destruct (read_conditions h (str_Conditions s)) as [x|] eqn:Hx; [|done]. cbn.
  destruct (read_config h (str_InstallationConfig s)) as [y|] eqn:Hy; [|done]. intros [= <-].
  pose proof (copies_seq _ _ _ _ _ _ _ _ _ copies_conditions local_config copies_config Hx Hy) as Hseq.
  destruct (copy_conditions _ h) as [cs h1]. destruct (InstallationConfig_DeepCopyInto _ h1) as [c h2].
  destruct Hseq as [Hsub Hread]. cbn. split; [done|]. intros h3 Ha.
  destruct (Hread h3 Ha) as [-> Hc]. cbn. by rewrite Hc.
Qed.

(** Spec and status together, as one part of the object. *)
Lemma copies_spec_status :
  copies (fun h o => s ← read_spec h (o.1 : CFAPISpecRef); t ← read_status h (o.2 : CFAPIStatusRef); Some (s, t))
    (fun o h => let '(s, h1) := CFAPISpec_DeepCopyInto o.1 h in
                let '(t, h2) := CFAPIStatus_DeepCopyInto o.2 h1 in ((s, t), h2)).
Proof.
  intros h [s t] v. cbn. destruct (read_spec h s) as [x|] eqn:Hx; [|done]. cbn.
  destruct (read_status h t) as [y|] eqn:Hy; [|done]. intros [= <-].
  pose proof (copies_seq _ _ _ _ _ _ _ _ _ copies_spec local_status copies_status Hx Hy) as Hseq.
  destruct (CFAPISpec_DeepCopyInto s h) as [s' h1]. destruct (CFAPIStatus_DeepCopyInto t h1) as [t' h2].
  destruct Hseq as [Hsub Hread]. cbn. split; [done|]. intros h3 Ha.
  destruct (Hread h3 Ha) as [-> Ht]. cbn. by rewrite Ht.
Qed.

Lemma copies_cfapi : copies read_cfapi CFAPI_DeepCopyInto.
Proof.
  intros h o v. unfold read_cfapi, CFAPI_DeepCopyInto.
  destruct (read_meta h (cr_ObjectMeta o)) as [m|] eqn:Hm; [|done]. cbn.
  destruct (read_spec h (cr_Spec o)) as [s|] eqn:Hs; [|done]. cbn.
  destruct (read_status h (cr_Status o)) as [t|] eqn:Ht; [|done]. intros [= <-].
  assert (Hlocal : local (fun h o => s ← read_spec h (o.1 : CFAPISpecRef);
                                     t ← read_status h (o.2 : CFAPIStatusRef); Some (s, t))).
  { intros k k2 [a b] w Hw Ha. cbn in *. destruct (read_spec k a) as [x|] eqn:Hx; [|done]. cbn in *.
    destruct (read_status k b) as [y|] eqn:Hy; [|done].
    rewrite (local_spec _ k2 _ _ Hx Ha). cbn. by rewrite (local_status _ k2 _ _ Hy Ha). }
  pose proof (copies_seq _ _ _ _ h (cr_ObjectMeta o) (cr_Spec o, cr_Status o) m (s, t)
    ObjectMeta_copies Hlocal copies_spec_status Hm) as Hseq.
  cbn in Hseq. rewrite Hs in Hseq. cbn in Hseq. rewrite Ht in Hseq. specialize (Hseq eq_refl).
  destruct (ObjectMeta_DeepCopyInto _ h) as [m' h1]. destruct (CFAPISpec_DeepCopyInto _ h1) as [s' h2].
  destruct (CFAPIStatus_DeepCopyInto _ h2) as [t' h3]. destruct Hseq as [Hsub Hread]. cbn.
  split; [done|]. intros h4 Ha. destruct (Hread h4 Ha) as [-> Hst]. cbn in *.
  destruct (read_spec h4 s') as [x|]; [|done]. cbn in *. destruct (read_status h4 t') as [y|]; [|done].
  by injection Hst as -> ->.
Qed.

(** (C27) A deep copy says what the original says, and the two share nothing:
    whatever is later written to memory that existed before the copy, the
    copy still says the same, and whatever is written to memory the copy
    allocated, the original does. *)
Theorem DeepCopy_independent h o v :
  read_cfapi h o = Some v ->
  exists o' h', CFAPI_DeepCopy (Some o) h = (Some o', h')
    /\ read_cfapi h' o = Some v /\ read_cfapi h' o' = Some v
    /\ (forall l a, l ∈ dom h -> read_cfapi (<[l := a]> h') o' = Some v)
    /\ (forall l a, l ∉ dom h -> read_cfapi (<[l := a]> h') o = Some v).
Proof.
  intros Hv. destruct (copies_cfapi h o v Hv) as [Hsub Hread].
  unfold CFAPI_DeepCopy, nil_or. destruct (CFAPI_DeepCopyInto o h) as [o' h']. cbn in *.
  exists o', h'. split_and!; try done.
  - by apply (local_cfapi h h' o v Hv), agree_self.
  - by apply Hread.
  - intros l a Hl. apply Hread. intros k Hk. apply lookup_insert_ne. set_solver.
  - intros l a Hl. apply (local_cfapi h _ o v Hv). intros k Hk.
    rewrite lookup_insert_ne by set_solver. by apply agree_self.
Qed.
End Copies.

(** ** A copier of the metadata, and a witness *)

#[local] Instance sample_meta_copy : ObjectMetaDeepCopy := {|
  ObjectMeta_DeepCopyInto m h :=
    let '(fs, h) := copy_strings (om_Finalizers m) h in
    ({| om_fields := om_fields m; om_Finalizers := fs |}, h);
  Condition_DeepCopyInto c := c
|}.

#[local] Instance sample_meta_copy_laws : ObjectMetaDeepCopyLaws.
Proof.
  split; [|done]. intros h m v. unfold read_meta. cbn.
  destruct (read_strings h (om_Finalizers m)) as [x|] eqn:Hx; [|done]. intros [= <-].
  destruct (copies_strings h _ _ Hx) as [Hsub Hread]. destruct (copy_strings _ h) as [s h1]. cbn in *.
  split; [done|]. intros h2 Ha. by rewrite (Hread h2 Ha).
Qed.

(** The administrators of the spec and of the recorded configuration share one
    array, as after a first reconciliation. *)
Definition shared_object : CFAPIRef :=
  {| cr_ObjectMeta := {| om_fields := meta_of "cfapi-system" "default"; om_Finalizers := None |};
     cr_Spec := {| sr_fields := {| spec_RootNamespace := "cf"; spec_ContainerRegistrySecret := "";
                     spec_DisableContainerRegistrySecretPropagation := false;
                     spec_ContainerRepositoryPrefix := ""; spec_BuilderRepository := ""; spec_UAA := "";
                     spec_CFAdmins := None; spec_UseSelfSignedCertificates := false;
                     spec_GatewayType := "" |};
                   sr_CFAdmins := Some 1%positive |};
     cr_Status := {| str_Status := StateReady; str_ObservedGeneration := 1; str_Conditions := None;
                     str_InstallationConfig := {| icr_fields := zero_InstallationConfig;
                                                  icr_CFAdmins := Some 1%positive |};
                     str_URL := "" |} |}.

Definition sample_heap : heap := {[1%positive := Strings ["samir"]]}.

Lemma DeepCopy_independent_witness :
  exists o' h' v, CFAPI_DeepCopy (Some shared_object) sample_heap = (Some o', h')
    /\ spec_CFAdmins (cfapi_spec v) = Some ["samir"]
    /\ read_cfapi (<[1%positive := Strings []]> h') o' = Some v.
Proof.
  destruct (DeepCopy_independent sample_heap shared_object
    {| cfapi_meta := meta_of "cfapi-system" "default";
       cfapi_spec := spec_with (Some ["samir"]) (sr_fields (cr_Spec shared_object));
       cfapi_status := {| st_State := StateReady; st_ObservedGeneration := 1; st_Conditions := [];
         st_InstallationConfig := config_with (Some ["samir"]) zero_InstallationConfig; st_URL := "" |} |}
    ltac:(vm_compute; reflexivity)) as (o' & h' & Hcopy & _ & _ & Hold & _).
  eexists o', h', _. split; [exact Hcopy|]. split; [|apply Hold; set_solver]. reflexivity.
Defined.
