(* ===== verification/Cluster.v ===== *)
(** * The outside world: data and calls

    The Kubernetes objects, helm releases and service manager records that the
    program reads and writes (the fields it uses), the dynamic values of Go's
    [any], and the external calls with the types of their answers.  The calls
    are uninterpreted: an environment answers them. *)

From S2P Require Export Api.

#[local] Open Scope Z_scope.
#[local] Open Scope list_scope.

(** ** Dynamic values ([any], [map[string]any])

    A number is kept as the literal it was written with. *)
Inductive Value :=
| VNull
| VBool (b : bool)
| VNumber (literal : string)
| VString (s : string)
| VList (l : list Value)
| VMap (m : gmap string Value).

(** [reflect.DeepEqual] on such values is equality: maps are compared by their
    entries, lists elementwise. *)
#[export] Instance Value_eq_dec : EqDecision Value.
Proof.
  refine (fix go (v1 v2 : Value) : Decision (v1 = v2) :=
    let _ : EqDecision Value := @go in
    match v1, v2 with
    | VNull, VNull => left eq_refl
    | VBool b1, VBool b2 => cast_if (decide (b1 = b2))
    | VNumber n1, VNumber n2 => cast_if (decide (n1 = n2))
    | VString s1, VString s2 => cast_if (decide (s1 = s2))
    | VList l1, VList l2 => cast_if (decide (l1 = l2))
    | VMap m1, VMap m2 => cast_if (decide (m1 = m2))
    | _, _ => right _
    end); congruence.
Defined.

(** A [map[string]any]. *)
Abbreviation Values := (gmap string Value).

(** A map literal; Go refuses a literal with a duplicate constant key. *)
Definition map_of (l : list (string * Value)) : Values := list_to_map l.
Definition VObject (l : list (string * Value)) : Value := VMap (map_of l).

(** ** Kubernetes objects *)

(** [corev1.Secret] *)
Record Secret := { secret_meta : ObjectMeta; secret_Data : gmap string string }.

(** [corev1.Service], with the load balancer ingresses of its status. *)
Record Ingress := { ing_Hostname : string; ing_IP : string }.
Record Service := { service_meta : ObjectMeta; service_Ingress : list Ingress }.

(** The Istio resource of the kyma istio module: [Spec.Experimental] is a
    pointer. *)
Record Istio := { istio_meta : ObjectMeta; istio_Experimental : option bool }.

(** Istio's networking Gateway: the hosts of each server. *)
Record IstioGateway := { gateway_meta : ObjectMeta; gateway_Servers : list (list string) }.

(** [rbacv1.ClusterRoleBinding] *)
Record Subject := { subject_Kind : string; subject_Name : string }.
Record ClusterRoleBinding := {
  crb_RoleRefName : string;
  crb_Subjects : list Subject
}.

(** [CustomResourceDefinition]: [Spec.Names.Kind] *)
Record CRD := { crd_NamesKind : string }.

Record Issuer := { issuer_meta : ObjectMeta }.
Record CFOrg := { org_meta : ObjectMeta }.

(** [btpv1.ServiceInstance] and [btpv1.ServiceBinding].  [Parameters] is a
    pointer to a RawExtension holding raw bytes. *)
Record ServiceInstanceSpec := {
  si_ServiceOfferingName : string;
  si_ServicePlanName : string;
  si_ServicePlanID : string;
  si_Parameters : option string
}.
Record ServiceInstance := {
  si_meta : ObjectMeta;
  si_Spec : ServiceInstanceSpec;
  si_Conditions : list Condition;
  si_OperationType : string
}.

Record ServiceBindingSpec := {
  sb_ServiceInstanceName : string;
  sb_SecretName : string;
  sb_Parameters : option string
}.
Record ServiceBinding := {
  sb_meta : ObjectMeta;
  sb_Spec : ServiceBindingSpec;
  sb_Conditions : list Condition;
  sb_OperationType : string
}.

(** The typed objects the program asks the API server for. *)
Inductive kind :=
| KCFAPI | KSecret | KService | KIstio | KIstioGateway | KClusterRoleBinding
| KCRD | KIssuer | KCFOrg | KServiceInstance | KServiceBinding.

#[export] Instance kind_eq_dec : EqDecision kind.
Proof. solve_decision. Defined.

Definition object (k : kind) : Type :=
  match k with
  | KCFAPI => CFAPI
  | KSecret => Secret
  | KService => Service
  | KIstio => Istio
  | KIstioGateway => IstioGateway
  | KClusterRoleBinding => ClusterRoleBinding
  | KCRD => CRD
  | KIssuer => Issuer
  | KCFOrg => CFOrg
  | KServiceInstance => ServiceInstance
  | KServiceBinding => ServiceBinding
  end.

(** [unstructured.Unstructured] and [metav1.PartialObjectMetadata]; the
    group, version and kind of the latter are one string. *)
Record Unstructured := { Object : Values }.
Record PartialObjectMetadata := { partial_gvk : string; partial_meta : ObjectMeta }.

(** ** Helm *)

(** [chart.Chart]: its metadata's version and its opaque content. *)
Record Chart := { chart_Version : option string; chart_content : string }.

(** [release.Release]: Info and Chart are pointers. *)
Record Release := {
  rel_Status : option string;
  rel_Chart : option Chart;
  rel_Config : Values
}.

(** [release.UninstallReleaseResponse] *)
Record UninstallReleaseResponse := { unr_Release : option Release; unr_Info : string }.

(** The constants of type [release.Status] the code names. *)
Definition StatusUnknown : string := "unknown".
Definition StatusDeployed : string := "deployed".
Definition StatusFailed : string := "failed".
Definition StatusUninstalling : string := "uninstalling".

(** ** Service manager *)

(** [types.ServicePlan] and [types.ServiceOffering]: JSON fields are raw. *)
Record SMPlan := {
  smp_ID : string; smp_Name : string; smp_Description : string;
  smp_Free : bool; smp_Bindable : bool; smp_Metadata : string;
  smp_ServiceOfferingID : string
}.
Record SMOffering := {
  smo_ID : string; smo_Name : string; smo_Description : string;
  smo_Bindable : bool; smo_PlanUpdatable : bool;
  smo_Tags : string; smo_Metadata : string; smo_Requires : string
}.

(** ** External calls *)

Inductive call :=
(** the controller-runtime client, and its [controllerutil.CreateOrPatch],
    which reads the object and then creates or patches it *)
| CGet (k : kind) (key : ObjectKey)
| CGetMetadata (gvk : string) (key : ObjectKey)
| CList (k : kind)
| CCreate (obj : Unstructured)
| CUpdate (obj : Unstructured)
| CDeleteUnstructured (obj : Unstructured)
| CDelete (k : kind) (key : ObjectKey)
| CDeleteAllOf (k : kind) (ns : string)
| CPatch (k : kind) (obj from : object k)
| CStatusPatch (k : kind) (obj from : object k)
| CCreateOrPatch (k : kind) (key : ObjectKey) (mutate : object k -> object k)
(** the event recorder and the clock *)
| CEventf (regarding : ObjectKey) (eventtype reason action note : string)
| CNow
(** the order in which [range] visits the keys of a map *)
| CRangeKeys (keys : gset string)
(** the file system *)
| CGlob (pattern : string)
| CReadFile (path : string)
(** the helm library *)
| CLoadChart (path : string)
| CInitActionConfig (ns : string)
| CListReleases (ns filter : string)
| CRunInstall (ns name : string) (c : Chart) (values : Values)
| CRunUpgrade (ns name : string) (c : Chart) (values : Values)
| CRunUninstall (ns name : string)
(** the service manager client *)
| CListOfferings
| CListPlans.

Definition reply (c : call) : Type :=
  match c with
  | CGet k _ => result error (object k)
  | CGetMetadata _ _ => result error ObjectMeta
  | CList k => result error (list (object k))
  | CCreate _ | CUpdate _ | CDeleteUnstructured _ => result error unit
  | CDelete _ _ | CDeleteAllOf _ _ => result error unit
  | CPatch k _ _ | CStatusPatch k _ _ => result error (object k)
  | CCreateOrPatch k _ _ => result error (object k)
  | CEventf _ _ _ _ _ => unit
  | CNow => Z
  | CRangeKeys _ => list string
  | CGlob _ => result error (list string)
  | CReadFile _ => result error string
  | CLoadChart _ => result error Chart
  | CInitActionConfig _ => result error unit
  | CListReleases _ _ => result error (list Release)
  | CRunInstall _ _ _ _ | CRunUpgrade _ _ _ _ => result error Release
  | CRunUninstall _ _ => result error (option UninstallReleaseResponse)
  | CListOfferings => result error (list SMOffering)
  | CListPlans => result error (list SMPlan)
  end.

Definition ext : signature := Sig call reply.

(** Programs of the repository. *)
Abbreviation M := (go ext error).
Abbreviation Env := (environment ext).

(** Calls whose answer is a value or an error. *)
Definition Get (k : kind) (key : ObjectKey) : M (object k) :=
  Call (S:=ext) (CGet k key) of_result.
Definition List_ (k : kind) : M (list (object k)) :=
  Call (S:=ext) (CList k) of_result.
Definition Delete (k : kind) (key : ObjectKey) : M unit :=
  Call (S:=ext) (CDelete k key) of_result.
Definition DeleteAllOf (k : kind) (ns : string) : M unit :=
  Call (S:=ext) (CDeleteAllOf k ns) of_result.
Definition Now : M Z := Call (S:=ext) CNow Ret.

(** Calls that only read. *)
Definition is_read (c : call) : Prop :=
  match c with
  | CGet _ _ | CGetMetadata _ _ | CList _ | CNow | CRangeKeys _ | CGlob _ | CReadFile _
  | CLoadChart _ | CInitActionConfig _ | CListReleases _ _ | CListOfferings | CListPlans => True
  | _ => False
  end.

#[export] Instance is_read_dec c : Decision (is_read c).
Proof. destruct c; cbn; apply _. Defined.

(** What the operator reads of the cluster, the clock included: neither the
    service manager's catalogue, nor the objects that only the service broker
    deals with, nor files. *)
Definition operator_kind (k : kind) : Prop :=
  match k with KServiceInstance | KServiceBinding => False | _ => True end.

Definition operator_read (c : call) : Prop :=
  match c with
  | CGet k _ | CList k => operator_kind k
  | CListOfferings | CListPlans | CGlob _ | CReadFile _ | CLoadChart _ => False
  | c => is_read c
  end.

Lemma operator_read_is_read c : operator_read c -> is_read c.
Proof. by destruct c. Qed.

(** Calls that may change the cluster: neither reads nor events. *)
Definition changes_cluster (c : call) : Prop :=
  match c with
  | CCreate _ | CUpdate _ | CDeleteUnstructured _ | CDelete _ _ | CDeleteAllOf _ _
  | CPatch _ _ _ | CStatusPatch _ _ _ | CCreateOrPatch _ _ _
  | CRunInstall _ _ _ _ | CRunUpgrade _ _ _ _ | CRunUninstall _ _ => True
  | _ => False
  end.

#[export] Instance changes_cluster_dec c : Decision (changes_cluster c).
Proof. destruct c; cbn; apply _. Defined.

(** The calls of a run that may change the cluster, in order. *)
Definition mutations (e : Env) {A} (p : M A) (w : world e) : list call :=
  filter changes_cluster (calls e p w).
#[global] Arguments mutations : simpl never.

Lemma run_Get e k key w :
  run e (Get k key) w =
  let '(r, w') := answer e (CGet k key) w in
  match r with Ok o => (Returned o, w') | Fail x => (Errored x, w') end.
Proof. unfold Get. cbn. destruct (answer e _ w) as [[o|x] w']; reflexivity. Qed.

Lemma run_List e k w :
  run e (List_ k) w =
  let '(r, w') := answer e (CList k) w in
  match r with Ok o => (Returned o, w') | Fail x => (Errored x, w') end.
Proof. unfold List_. cbn. destruct (answer e _ w) as [[o|x] w']; reflexivity. Qed.

Lemma run_Delete e k key w :
  run e (Delete k key) w =
  let '(r, w') := answer e (CDelete k key) w in
  match r with Ok o => (Returned o, w') | Fail x => (Errored x, w') end.
Proof. unfold Delete. cbn. destruct (answer e _ w) as [[o|x] w']; reflexivity. Qed.

Lemma run_DeleteAllOf e k ns w :
  run e (DeleteAllOf k ns) w =
  let '(r, w') := answer e (CDeleteAllOf k ns) w in
  match r with Ok o => (Returned o, w') | Fail x => (Errored x, w') end.
Proof. unfold DeleteAllOf. cbn. destruct (answer e _ w) as [[o|x] w']; reflexivity. Qed.

Lemma run_Now e w : run e Now w = let '(t, w') := answer e CNow w in (Returned t, w').
Proof. reflexivity. Qed.

#[export] Hint Rewrite run_Get run_List run_Delete run_DeleteAllOf run_Now : go_db.

Lemma only_calls_Get (P : call -> Prop) k key : P (CGet k key) -> only_calls (S:=ext) P (Get k key).
Proof. intros H. split; [done|]. intros r. apply only_calls_of_result. Qed.

Lemma only_calls_List (P : call -> Prop) k : P (CList k) -> only_calls (S:=ext) P (List_ k).
Proof. intros H. split; [done|]. intros r. apply only_calls_of_result. Qed.

Lemma only_calls_Now (P : call -> Prop) : P CNow -> only_calls (S:=ext) P Now.
Proof. by split. Qed.

Lemma operator_reads_are_reads {A} (p : M A) :
  only_calls (S:=ext) operator_read p -> only_calls (S:=ext) is_read p.
Proof. apply only_calls_impl, operator_read_is_read. Qed.

#[export] Hint Resolve only_calls_Get only_calls_List only_calls_Now : calls.
#[export] Hint Extern 0 (is_read _) => exact I : calls.
#[export] Hint Extern 0 (operator_read _) => exact I : calls.

Lemma reads_change_nothing c : is_read c -> ~ changes_cluster c.
Proof. destruct c; cbn; tauto. Qed.

Lemma mutations_bind (e : Env) {A B} (p : M A) (k : A -> M B) w :
  mutations e (p ≫= k) w =
  mutations e p w ++ match run e p w with
                     | (Returned a, w') => mutations e (k a) w'
                     | _ => []
                     end.
Proof.
  unfold mutations. rewrite calls_bind, filter_app. f_equal.
  by destruct (run e p w) as [[a|x|s] w'].
Qed.

Lemma mutations_try (e : Env) {A} (p : M A) w : mutations e (try p) w = mutations e p w.
Proof. unfold mutations. by rewrite calls_try. Qed.

Lemma mutations_wrapping (e : Env) {A} f (p : M A) w :
  mutations e (wrapping f p) w = mutations e p w.
Proof. unfold mutations. by rewrite calls_wrapping. Qed.

Lemma mutations_reads (e : Env) {A} (p : M A) w :
  only_calls (S:=ext) is_read p -> mutations e p w = [].
Proof.
  intros H. unfold mutations.
  pose proof (only_calls_sound (S:=ext) is_read e p w H) as Hall.
  induction Hall as [|c cs Hc Hcs IH]; [done|].
  rewrite filter_cons_False by by apply reads_change_nothing. done.
Qed.

#[export] Hint Rewrite mutations_bind @mutations_try @mutations_wrapping : go_db.

(** An environment in which reading changes nothing: no one else acts on the
    cluster between two reads. *)
Class PureReads (e : Env) : Prop :=
  pure_reads : forall c w, is_read c -> (answer e c w).2 = w.

(** A read of an environment with pure reads, as a pair. *)
Lemma answer_read (e : Env) `{!PureReads e} c w :
  is_read c -> answer e c w = ((answer e c w).1, w).
Proof.
  intros H. pose proof (pure_reads c w H) as Hw.
  destruct (answer e c w) as [r w']. cbn in *. by subst.
Qed.

(** The environment answers [r] to the call [c]. *)
Definition answers (e : Env) (c : call) (w : world e) (r : reply c) : Prop :=
  (answer e c w).1 = r.

Lemma read_is (e : Env) `{!PureReads e} c w r :
  answers e c w r -> is_read c -> answer e c w = (r, w).
Proof. intros <- Hc. by apply answer_read. Qed.

(** Programs that only read leave such an environment alone. *)
Lemma reads_world (e : Env) `{!PureReads e} {A} (p : M A) w :
  only_calls (S:=ext) is_read p -> (run e p w).2 = w.
Proof. apply (only_calls_world (S:=ext) is_read e). intros c Hc v. by apply pure_reads. Qed.

(** The environment that always gives the same answers. *)
Definition const_env (f : forall c : call, reply c) : Env :=
  Environment (S:=ext) unit (fun c w => (f c, w)).

(** Nothing can be read, no call succeeds: the base of concrete environments. *)
Definition unavailable : error := ErrExt "unavailable".
Definition no_answers (c : call) : reply c :=
  match c with
  | CEventf _ _ _ _ _ => tt
  | CNow => 0
  | CRangeKeys keys => elements keys
  | CGet _ _ | CList _ | CPatch _ _ _ | CStatusPatch _ _ _ | CCreateOrPatch _ _ _ => Fail unavailable
  | CGetMetadata _ _ | CCreate _ | CUpdate _ | CDeleteUnstructured _
  | CDelete _ _ | CDeleteAllOf _ _ => Fail unavailable
  | CGlob _ | CReadFile _ => Fail unavailable
  | CLoadChart _ | CInitActionConfig _ | CListReleases _ _ => Fail unavailable
  | CRunInstall _ _ _ _ | CRunUpgrade _ _ _ _ | CRunUninstall _ _ => Fail unavailable
  | CListOfferings | CListPlans => Fail unavailable
  end.

#[export] Instance const_env_pure f : PureReads (const_env f).
Proof. by intros c w _. Qed.
