(* ===== verification/Process.v ===== *)
(** * Processes

    What src/main.go and src/components/btp-service-broker/main.go have in
    common: a process logs, makes the calls of the rest of the development
    and takes steps of its own; the first step that fails is logged and ends
    it with exit code 1.  A library may also end the process itself. *)

From S2P Require Export Cluster.

#[local] Open Scope Z_scope.
#[local] Open Scope list_scope.

(** The steps of a process, and those by which a library may end it: they
    answer an exit code or go on. *)
Class ProcessSteps := {
  process_step : Type;
  step_reply : process_step -> Type;
  exiting_step : Type;
  exiting_reply : exiting_step -> Type
}.

Section Process.
Context {steps : ProcessSteps}.

Inductive process_call :=
| PCall (c : call)
| PInfo (msg : string) (attrs : list (string * string))
| PError (msg : string) (err : error)
| PStep (s : process_step)
| PExiting (s : exiting_step).

Definition process_reply (c : process_call) : Type :=
  match c with
  | PCall c => reply c
  | PInfo _ _ | PError _ _ => unit
  | PStep s => step_reply s
  | PExiting s => Z + exiting_reply s
  end.

Definition process : signature := Sig process_call process_reply.
Abbreviation P := (go process error).

Definition info (msg : string) (attrs : list (string * string)) : P unit :=
  invoke (S:=process) (PInfo msg attrs).
Definition do_step (s : process_step) : P (step_reply s) := invoke (S:=process) (PStep s).

(** A program of the rest of the development, run by the process. *)
Fixpoint lift {A} (p : M A) : P A :=
  match p with
  | Ret a => Ret a
  | Err err => Err err
  | Panic why => Panic why
  | Call c k => Call (S:=process) (PCall c) (fun r => lift (k r))
  end.

(** Logging an error and [os.Exit(1)]. *)
Definition die (msg : string) (err : error) : P Z :=
  _ ← invoke (S:=process) (PError msg err); mret 1.

(** [if err != nil { ...; os.Exit(1) }], and on with the result. *)
Definition or_die {A} (p : P A) (msg : string) (k : A -> P Z) : P Z :=
  r ← try p; match r with Fail err => die msg err | Ok a => k a end.

(** A call into a library that may end the process. *)
Definition or_exit (s : exiting_step) (k : exiting_reply s -> P Z) : P Z :=
  r ← invoke (S:=process) (PExiting s); match r with inl code => mret code | inr a => k a end.

(** ** How a process ends *)

Definition is_error_log (c : process_call) : Prop := match c with PError _ _ => True | _ => False end.
#[export] Instance is_error_log_dec c : Decision (is_error_log c).
Proof. destruct c; cbn; apply _. Defined.

(** Cleanly, with one error logged last, or in a library. *)
Definition well_ended (code : Z) (cs : list process_call) : Prop :=
  code = 0 /\ filter is_error_log cs = []
  \/ code = 1 /\ (exists msg err, filter is_error_log cs = [PError msg err] /\ last cs = Some (PError msg err))
  \/ filter is_error_log cs = [] /\ exists s, last cs = Some (PExiting s).

Lemma well_ended_cons code c cs :
  ~ is_error_log c -> cs <> [] \/ code = 0 -> well_ended code cs -> well_ended code (c :: cs).
Proof.
  unfold well_ended. intros Hc Hne. rewrite filter_cons_False by done.
  assert (Hlast : forall x, last cs = Some x -> last (c :: cs) = Some x) by (by intros x Hx; destruct cs).
  intros [[-> Hf]|[(-> & msg & err & Hf & Hl)|(Hf & s & Hl)]].
  - by left.
  - right. left. split; [done|]. exists msg, err. split; [done|]. by apply Hlast.
  - right. right. split; [done|]. exists s. by apply Hlast.
Qed.

(** A program that ends well in every environment. *)
Definition ends_well (p : P Z) : Prop := forall (e : environment process) w,
  exists code, (run e p w).1 = Returned code /\ well_ended code (calls e p w)
    /\ (calls e p w <> [] \/ code = 0).

Lemma ends_ret : ends_well (mret 0).
Proof. intros e w. exists 0. split; [done|]. split; [by left|by right]. Qed.

Lemma ends_die msg err : ends_well (die msg err).
Proof.
  intros e w. exists 1. cbn. destruct (answer e (PError msg err) w) as [[] w']. split; [done|]. split; [|by left].
  right. left. split; [done|]. by exists msg, err.
Qed.

Lemma ends_call c (k : process_reply c -> P Z) :
  ~ is_error_log c -> (forall r, ends_well (k r)) -> ends_well (Call (S:=process) c k).
Proof.
  intros Hc Hk e w. cbn. destruct (answer e c w) as [r w']. destruct (Hk r e w') as (code & Hrun & Hend & Hne).
  exists code. split; [done|]. split; [by apply well_ended_cons|by left].
Qed.

Lemma ends_or_exit s k : (forall a, ends_well (k a)) -> ends_well (or_exit s k).
Proof.
  intros Hk e w. unfold or_exit. cbn. destruct (answer e (PExiting s) w) as [[code|a] w'].
  - exists code. split; [done|]. split; [|by left]. right. right. split; [done|]. by exists s.
  - destruct (Hk a e w') as (code & Hrun & Hend & Hne).
    exists code. split; [done|]. split; [|by left]. apply well_ended_cons; [by intros []|done..].
Qed.

(** A program that logs no error of its own and does not panic. *)
Fixpoint quiet {A} (p : P A) : Prop :=
  match p with
  | Panic _ => False
  | Call c k => ~ is_error_log c /\ forall r, quiet (k r)
  | _ => True
  end.

Lemma ends_or_die {A} (p : P A) msg k :
  quiet p -> (forall a, ends_well (k a)) -> ends_well (or_die p msg k).
Proof.
  unfold or_die, mbind, go_mbind. intros Hp Hk.
  induction p as [a|err|why|c f IH]; cbn in *; [apply Hk|apply ends_die|done|].
  destruct Hp as [Hc Hp]. apply ends_call; [done|]. auto.
Qed.

Lemma ends_info msg attrs k : (forall u, ends_well (k u)) -> ends_well (info msg attrs ≫= k).
Proof. intros Hk. apply ends_call; [by intros []|done]. Qed.

Lemma ends_step s k : (forall r, ends_well (k r)) -> ends_well (do_step s ≫= k).
Proof. intros Hk. apply ends_call; [by intros []|done]. Qed.

(** The run of a program asks for something and is answered. *)
Fixpoint asked (e : environment process) {A} (p : P A) (w : world e) (c : process_call) (r : process_reply c) : Prop :=
  match p with
  | Call c' k => let '(r', w') := answer e c' w in
                 existT c' r' = existT c r \/ asked e (k r') w' c r
  | _ => False
  end.
End Process.
#[global] Arguments process _ : clear implicits.
