(* ===== verification/Libs.v ===== *)
(** * Third-party libraries

    The pure library functions the program calls are parameters: one class per
    library for the functions, and one class of laws for what their
    documentation promises and the program relies on.  The module [Reference]
    at the end gives an instance of every class, which the witnesses use to
    evaluate theorems on concrete inputs. *)

From S2P Require Export Cluster.
From Stdlib Require Import DecimalString DecimalZ.

#[local] Open Scope Z_scope.
#[local] Open Scope list_scope.

(** ** github.com/BooleanCat/go-functional/v2/it *)

Class ItLib := {
  it_Map : forall {A B : Type}, (A -> B) -> list A -> list B;
  it_Filter : forall {A : Type}, (A -> bool) -> list A -> list A;
  (** [it.TryCollect(it.MapError(seq, f))] *)
  it_TryCollectMapError : forall {A B : Type}, (A -> result error B) -> list A -> result error (list B)
}.

(** The first error, or all the values in order. *)
Fixpoint try_map {E A B} (f : A -> result E B) (l : list A) : result E (list B) :=
  match l with
  | [] => Ok []
  | x :: l' =>
      match f x with
      | Fail e => Fail e
      | Ok y => match try_map f l' with Ok ys => Ok (y :: ys) | Fail e => Fail e end
      end
  end.

Class ItLaws `{ItLib} : Prop := {
  it_Map_spec {A B} (f : A -> B) l : it_Map f l = map f l;
  it_Filter_spec {A} (f : A -> bool) l : it_Filter f l = List.filter f l;
  it_TryCollect_spec {A B} (f : A -> result error B) l : it_TryCollectMapError f l = try_map f l
}.

(** ** k8s.io/apimachinery/pkg/api/meta *)

Class MetaLib := {
  SetStatusCondition : list Condition -> Condition -> list Condition;
  FindStatusCondition : list Condition -> string -> option Condition;
  IsStatusConditionTrue : list Condition -> string -> bool
}.

(** The same condition but for the transition time, which SetStatusCondition
    keeps when the status does not change. *)
Definition same_condition (c d : Condition) : Prop :=
  c_Type c = c_Type d /\ c_Status c = c_Status d /\
  c_ObservedGeneration c = c_ObservedGeneration d /\
  c_Reason c = c_Reason d /\ c_Message c = c_Message d.

Class MetaLaws `{MetaLib} : Prop := {
  (** the first condition of the type *)
  FindStatusCondition_spec cs t :
    FindStatusCondition cs t = List.find (fun c => bool_decide (c_Type c = t)) cs;
  IsStatusConditionTrue_spec cs t :
    IsStatusConditionTrue cs t =
    match FindStatusCondition cs t with
    | Some c => bool_decide (c_Status c = ConditionTrue)
    | None => false
    end;
  SetStatusCondition_same cs c :
    exists d, FindStatusCondition (SetStatusCondition cs c) (c_Type c) = Some d /\ same_condition d c;
  SetStatusCondition_other cs c t :
    t <> c_Type c -> FindStatusCondition (SetStatusCondition cs c) t = FindStatusCondition cs t;
  (** setting a condition to what it is changes nothing, its time included *)
  SetStatusCondition_again cs c d :
    FindStatusCondition cs (c_Type c) = Some d -> same_condition d c -> SetStatusCondition cs c = cs;
  (** a condition of a new type is appended, the others stay in their places *)
  SetStatusCondition_types cs c :
    map c_Type (SetStatusCondition cs c) =
    if decide (c_Type c ∈ map c_Type cs) then map c_Type cs else map c_Type cs ++ [c_Type c];
  SetStatusCondition_elem cs c d :
    d ∈ SetStatusCondition cs c -> d ∈ cs \/ same_condition d c
}.

(** ** sigs.k8s.io/controller-runtime/pkg/controller/controllerutil *)

Class FinalizerLib := {
  AddFinalizer : list string -> string -> list string;
  RemoveFinalizer : list string -> string -> list string
}.

Class FinalizerLaws `{FinalizerLib} : Prop := {
  AddFinalizer_spec fs f : AddFinalizer fs f = if decide (f ∈ fs) then fs else fs ++ [f];
  RemoveFinalizer_spec fs f : RemoveFinalizer fs f = filter (fun g => g <> f) fs
}.

(** ** k8s.io/apimachinery/pkg/runtime: the default unstructured converter *)

Class ConverterLib := {
  ToUnstructured : forall k : kind, object k -> result error Values;
  FromUnstructured : forall k : kind, Values -> object k -> result error (object k)
}.

(** A kind whose objects have a status and survive the conversion there and
    back. *)
Class ConverterLaws `{ConverterLib} (k : kind) : Prop := {
  ToUnstructured_status (o : object k) :
    exists m, ToUnstructured k o = Ok m /\ is_Some (m !! "status")
      /\ forall target, FromUnstructured k m target = Ok o
}.

(** ** helm.sh/helm/v3/pkg/release *)

Class HelmLib := IsPending : string -> bool.

Class HelmLaws `{HelmLib} : Prop := {
  IsPending_spec s :
    IsPending s = true <-> s = "pending-install" \/ s = "pending-upgrade" \/ s = "pending-rollback"
}.

(** ** gopkg.in/yaml.v3 and sigs.k8s.io/yaml, and the document reader of
    k8s.io/apimachinery/pkg/util/yaml *)

Class YamlLib := {
  yaml_Marshal : Values -> result error string;
  yaml_Unmarshal : string -> result error Values;
  yaml_UnmarshalObject : string -> result error Unstructured;
  YAMLReader : Type;
  NewYAMLReader : string -> YAMLReader;
  YAMLReader_Read : YAMLReader -> result error string * YAMLReader
}.

(** A reader over a string hands out at most as many documents as the string
    has bytes before it returns an error (io.EOF at the end): every document
    takes at least one byte of the input. *)
Class YamlLaws `{YamlLib} := {
  yaml_remaining : YAMLReader -> nat;
  NewYAMLReader_remaining s : (yaml_remaining (NewYAMLReader s) <= String.length s)%nat;
  YAMLReader_Read_remaining r doc r' :
    YAMLReader_Read r = (Ok doc, r') -> (yaml_remaining r' < yaml_remaining r)%nat
}.

(** ** k8s.io/apimachinery: unstructured objects *)

Class UnstructuredLib := {
  GetKind : Unstructured -> string;
  GetName : Unstructured -> string;
  GetNamespace : Unstructured -> string;
  (** [meta.Accessor(obj)]: whether the object has metadata *)
  MetaAccessor : Unstructured -> result error unit;
  SetResourceVersion : string -> Unstructured -> Unstructured;
  FromUnstructuredPartial : Unstructured -> result error PartialObjectMetadata
}.

(** ** Reference instances *)

Module Reference.

#[export] Instance it : ItLib := {|
  it_Map _ _ f l := map f l;
  it_Filter _ f l := List.filter f l;
  it_TryCollectMapError _ _ f l := try_map f l
|}.

#[export] Instance it_laws : ItLaws.
Proof. by split. Qed.

Definition find_condition (cs : list Condition) (t : string) : option Condition :=
  List.find (fun c => bool_decide (c_Type c = t)) cs.

Definition keep_time (old new : Condition) : Condition :=
  {| c_Type := c_Type new; c_Status := c_Status new;
     c_ObservedGeneration := c_ObservedGeneration new;
     c_LastTransitionTime :=
       if decide (c_Status old = c_Status new) then c_LastTransitionTime old
       else c_LastTransitionTime new;
     c_Reason := c_Reason new; c_Message := c_Message new |}.

Fixpoint set_condition (cs : list Condition) (c : Condition) : list Condition :=
  match cs with
  | [] => [c]
  | d :: cs' =>
      if decide (c_Type d = c_Type c) then keep_time d c :: cs'
      else d :: set_condition cs' c
  end.

#[export] Instance meta : MetaLib := {|
  SetStatusCondition := set_condition;
  FindStatusCondition := find_condition;
  IsStatusConditionTrue cs t :=
    match find_condition cs t with
    | Some c => bool_decide (c_Status c = ConditionTrue)
    | None => false
    end
|}.

#[export] Instance meta_laws : MetaLaws.
Proof.
  split; try done.
  - intros cs c. cbn. unfold find_condition.
    induction cs as [|d cs (e & He & Hs)]; cbn.
    + exists c. rewrite bool_decide_eq_true_2 by done. by split.
    + destruct (decide (c_Type d = c_Type c)) as [Heq|Hne]; cbn.
      * rewrite bool_decide_eq_true_2 by done. eexists. split; [done|]. by repeat split.
      * rewrite bool_decide_eq_false_2 by done. by exists e.
  - intros cs c t Ht. cbn. unfold find_condition.
    induction cs as [|d cs IH]; cbn.
    + by rewrite bool_decide_eq_false_2 by congruence.
    + destruct (decide (c_Type d = c_Type c)) as [Heq|Hne]; cbn.
      * rewrite !bool_decide_eq_false_2 by congruence. done.
      * by rewrite IH.
  - intros cs c d. cbn. unfold find_condition. induction cs as [|x cs IH]; cbn; [done|].
    case_bool_decide as Ht.
    + intros [= ->] (_ & H2 & H3 & H4 & H5). rewrite decide_True by done. f_equal.
      unfold keep_time. rewrite decide_True by done. destruct d; cbn in *; congruence.
    + intros Hf Hs. rewrite decide_False by done. by rewrite IH.
  - intros cs c. cbn. induction cs as [|d cs IH]; cbn.
    + by rewrite decide_False by (by intros ?%not_elem_of_nil).
    + destruct (decide (c_Type d = c_Type c)) as [Heq|Hne]; cbn.
      * rewrite decide_True by (rewrite Heq; left). by rewrite Heq.
      * rewrite IH. repeat case_decide; set_solver.
  - intros cs c d. cbn. induction cs as [|x cs IH]; cbn.
    + intros ->%list_elem_of_singleton. right. by repeat split.
    + destruct (decide (c_Type x = c_Type c)) as [Heq|Hne].
      * intros [->|Hd]%elem_of_cons; [right; by repeat split|left; by right].
      * intros [->|Hd]%elem_of_cons; [left; by left|].
        destruct (IH Hd); [left; by right|by right].
Qed.

#[export] Instance finalizers : FinalizerLib := {|
  AddFinalizer fs f := if decide (f ∈ fs) then fs else fs ++ [f];
  RemoveFinalizer fs f := filter (fun g => g <> f) fs
|}.

#[export] Instance finalizers_laws : FinalizerLaws.
Proof. by split. Qed.

#[export] Instance helm : HelmLib := fun s =>
  bool_decide (s = "pending-install" \/ s = "pending-upgrade" \/ s = "pending-rollback").

#[export] Instance helm_laws : HelmLaws.
Proof. split. intros s. unfold IsPending, helm. apply bool_decide_eq_true. Qed.

(** A YAML library that knows the documents of a table, for maps of values
    and for objects; its reader takes one document per line. *)
Definition newline : ascii := chr 10.

Definition nonempty (s : string) : bool :=
  match s with EmptyString => false | String _ _ => true end.

Definition yaml_table (maps : list (string * Values)) (objects : list (string * Values)) : YamlLib := {|
  yaml_Marshal v :=
    match List.find (fun kv => bool_decide (VMap kv.2 = VMap v)) maps with
    | Some kv => Ok kv.1
    | None => Fail (ErrExt "cannot marshal")
    end;
  yaml_Unmarshal s :=
    match List.find (fun kv => bool_decide (kv.1 = s)) maps with
    | Some kv => Ok kv.2
    | None => Fail (ErrExt "cannot unmarshal")
    end;
  yaml_UnmarshalObject s :=
    match List.find (fun kv => bool_decide (kv.1 = s)) objects with
    | Some kv => Ok {| Object := kv.2 |}
    | None => Fail (ErrExt "cannot unmarshal")
    end;
  YAMLReader := list string;
  NewYAMLReader s := List.filter nonempty (Split s newline);
  YAMLReader_Read r :=
    match r with
    | [] => (Fail ErrEOF, [])
    | doc :: r' => (Ok doc, r')
    end
|}.

Lemma split_count s :
  (length (List.filter nonempty (Split s newline)) <= String.length s)%nat.
Proof.
  enough (length (List.filter nonempty (Split s newline)) <= String.length s /\
          (length (List.filter nonempty (tail (Split s newline))) <= String.length s
           /\ (s <> "" -> length (List.filter nonempty (tail (Split s newline))) < String.length s)))%nat
    by tauto.
  induction s as [|c s (IH1 & IH2 & IH3)]; [repeat split; cbn; (lia || done)|]. cbn.
  destruct (ascii_dec c newline); cbn.
  - repeat split; intros; lia.
  - pose proof (Split_nonempty s newline) as Hn.
    destruct (Split s newline) as [|p ps]; [done|]. cbn in *.
    destruct s; cbn in *; repeat split; intros; try lia.
Qed.

#[export] Instance yaml_table_laws maps objects : YamlLaws (H:=yaml_table maps objects).
Proof.
  refine {| yaml_remaining := fun r => length (r : @YAMLReader (yaml_table maps objects)) |}.
  - intros s. apply split_count.
  - intros [|d r] doc r' [=]; subst; cbn; lia.
Defined.

(** Unstructured objects by the paths of their nested fields. *)
Definition string_at (v : option Value) : string :=
  match v with Some (VString s) => s | _ => "" end.

Definition metadata_of (o : Unstructured) : option Values :=
  match Object o !! "metadata" with Some (VMap m) => Some m | _ => None end.

Definition metadata_string (o : Unstructured) (key : string) : string :=
  string_at (metadata_of o ≫= fun m => m !! key).

#[export] Instance unstructured : UnstructuredLib := {|
  GetKind o := string_at (Object o !! "kind");
  GetName o := metadata_string o "name";
  GetNamespace o := metadata_string o "namespace";
  MetaAccessor o := Ok tt;
  SetResourceVersion v o :=
    {| Object := <["metadata" :=
         VMap (<["resourceVersion" := VString v]> (default ∅ (metadata_of o)))]> (Object o) |};
  FromUnstructuredPartial o :=
    match metadata_of o with
    | Some _ =>
        Ok {| partial_gvk := string_at (Object o !! "kind");
              partial_meta := meta_of (metadata_string o "namespace") (metadata_string o "name") |}
    | None => Fail (ErrExt "no metadata")
    end
|}.

(** No rune outside ASCII is printable. *)
#[export] Instance unicode : Unicode := fun _ => false.
End Reference.
