(* ===== verification/Kyma.v ===== *)
(** * The kyma client: gateway, UAA, users, container registry

    Models src/controllers/kyma: gateway.go, uaa.go, users.go, registry.go
    (and client.go, which bundles the four).  One Module per file. *)

From S2P Require Export Libs.

#[local] Open Scope Z_scope.
#[local] Open Scope list_scope.

Definition kyma_system : string := "kyma-system".
Definition dot : ascii := "."%char.

(** ** gateway.go *)

Module Gateway.

Definition KorifiGatewayType (cfAPI : CFAPI) : string :=
  if decide (spec_GatewayType (cfapi_spec cfAPI) = "") then GatewayTypeContour
  else spec_GatewayType (cfapi_spec cfAPI).

Definition istio_key : ObjectKey := {| key_ns := kyma_system; key_name := "default" |}.

Definition isAplhaGatewayAPIEnabled : M bool :=
  istio ← wrapping (fun err =>
            ErrWrap "failed to get the istio resource: " err
                    ". Make sure the istio kyma module is enabled")
            (Get KIstio istio_key);
  match istio_Experimental istio with
  | None => mret false
  | Some enabled => mret enabled
  end.

Definition alpha_not_enabled : error := ErrText
  "alpha gateway API feature is not enabled in istio. To fix this, enable the `experimental` channel on the istio module and set `spec.experimental.pilot.enableAlphaGatewayAPI` to `true` on the `kyma-system/default` Istio resource".

Definition invalid_gateway_type (t : string) : error := ErrText
  ("invalid gateway type: " +:+ t +:+ ". Valid values are: "
     +:+ GatewayTypeContour +:+ ", " +:+ GatewayTypeIstio).

Definition Validate (cfAPI : CFAPI) : M unit :=
  if decide (KorifiGatewayType cfAPI <> GatewayTypeContour
             /\ KorifiGatewayType cfAPI <> GatewayTypeIstio)
  then Err (invalid_gateway_type (spec_GatewayType (cfapi_spec cfAPI)))
  else if decide (spec_GatewayType (cfapi_spec cfAPI) = GatewayTypeIstio)
  then enabled ← isAplhaGatewayAPIEnabled;
       if negb enabled then Err alpha_not_enabled else mret tt
  else mret tt.

Definition gateway_key : ObjectKey := {| key_ns := kyma_system; key_name := "kyma-gateway" |}.

Definition KymaDomain : M string :=
  istioGateway ← wrapping (fun err =>
                   ErrWrap "failed to get the kyma system gateway: " err "")
                   (Get KIstioGateway gateway_key);
  if decide (length (gateway_Servers istioGateway) = 0%nat)
  then Err (ErrText "failed to get the kyma gateway domain: gateway has no servers")
  else server ← index (gateway_Servers istioGateway) 0;
       wildCardDomain ← index server 0;
       slice_from wildCardDomain 2.

Definition KorifiIngressService (cfAPI : CFAPI) : string :=
  if decide (spec_GatewayType (cfapi_spec cfAPI) = GatewayTypeIstio)
  then "korifi-istio" else "contour-envoy".

Lemma only_calls_Validate cf : only_calls (S:=ext) operator_read (Validate cf).
Proof.
  unfold Validate, isAplhaGatewayAPIEnabled. repeat case_decide; try exact I.
  apply only_calls_bind.
  - apply only_calls_bind; [auto with calls|].
    intros o. by destruct (istio_Experimental o).
  - intros b. by destruct b.
Qed.

Lemma only_calls_KymaDomain : only_calls (S:=ext) operator_read KymaDomain.
Proof.
  unfold KymaDomain. apply only_calls_bind; [auto with calls|].
  intros o. case_decide; [exact I|].
  apply only_calls_bind; [auto with calls|]. intros s.
  apply only_calls_bind; [auto with calls|]. intros h.
  unfold slice_from. by destruct (drop_bytes 2 h).
Qed.

Lemma Validate_type (e : Env) cfAPI w w' :
  run e (Validate cfAPI) w = (Returned tt, w') ->
  spec_GatewayType (cfapi_spec cfAPI) = ""
  \/ spec_GatewayType (cfapi_spec cfAPI) = GatewayTypeContour
  \/ spec_GatewayType (cfapi_spec cfAPI) = GatewayTypeIstio.
Proof.
  unfold Validate, KorifiGatewayType.
  set (t := spec_GatewayType (cfapi_spec cfAPI)).
  destruct (decide (t = "")) as [Ht|Ht]; [by left|].
  destruct (decide (t = GatewayTypeContour)) as [Hc|Hc]; [by right; left|].
  destruct (decide (t = GatewayTypeIstio)) as [Hi|Hi]; [by right; right|].
  by rewrite decide_True by done.
Qed.

(** [Validate] accepts a CFAPI exactly when its gateway type is empty or
    contour, or it is istio and the Istio resource kyma-system/default can
    be read and enables the alpha gateway API; no other type is accepted. *)
Theorem Validate_accepts (e : Env) cfAPI w :
  (run e (Validate cfAPI) w).1 = Returned tt <->
  spec_GatewayType (cfapi_spec cfAPI) = ""
  \/ spec_GatewayType (cfapi_spec cfAPI) = GatewayTypeContour
  \/ (spec_GatewayType (cfapi_spec cfAPI) = GatewayTypeIstio
      /\ exists istio, answers e (CGet KIstio istio_key) w (Ok istio)
                       /\ istio_Experimental istio = Some true).
Proof.
  unfold Validate, KorifiGatewayType.
  set (t := spec_GatewayType (cfapi_spec cfAPI)).
  destruct (decide (t = "")) as [Ht|Ht].
  { rewrite Ht. repeat case_decide; cbn; naive_solver. }
  destruct (decide (t = GatewayTypeContour)) as [Hc|Hc].
  { rewrite Hc. repeat case_decide; cbn; naive_solver. }
  destruct (decide (t = GatewayTypeIstio)) as [Hi|Hi].
  - rewrite decide_False by intuition congruence.
    unfold isAplhaGatewayAPIEnabled, answers. go_simpl.
    destruct (answer e (CGet KIstio istio_key) w) as [[istio|x] w1]; cbn.
    + destruct (istio_Experimental istio) as [[|]|] eqn:Hx; cbn.
      * naive_solver.
      * split; [done|]. naive_solver.
      * split; [done|]. naive_solver.
    + split; [done|]. naive_solver.
  - rewrite decide_True by done. cbn. split; [done|]. naive_solver.
Qed.
End Gateway.

(** ** uaa.go *)

Module UAA.

(** [extractUaaURLFromTokenUrl]: a token URL without a dot makes
    [parts[2:]] panic. *)
Definition extractUaaURLFromTokenUrl (tokenUrl : string) : M string :=
  let parts := Split tokenUrl dot in
  parts ← list_from parts 2;
  mret ("https://uaa.cf." +:+ Join parts ".").

Definition secret_key : ObjectKey :=
  {| key_ns := kyma_system; key_name := "sap-btp-service-operator" |}.

Definition GetURL : M string :=
  btpServiceOperatorSecret ← wrapping (fun err =>
      ErrWrap "failed to get the btp service operator secret: " err
              ". Make sure the btp operator kyma module is enbled")
    (Get KSecret secret_key);
  match secret_Data btpServiceOperatorSecret !! "tokenurl" with
  | None => Err (ErrText "btp service operator secret does not contain key 'tokenurl'")
  | Some tokenURLBytes => extractUaaURLFromTokenUrl tokenURLBytes
  end.

Lemma only_calls_GetURL : only_calls (S:=ext) operator_read GetURL.
Proof.
  unfold GetURL. apply only_calls_bind; [auto with calls|]. intros s.
  destruct (secret_Data s !! _); [|exact I].
  unfold extractUaaURLFromTokenUrl, list_from. by case_decide.
Qed.

(** A string has no dot, one dot, or a first and a second dot. *)
Lemma dot_cases (t : string) :
  no_byte dot t
  \/ (exists a b, no_byte dot a /\ no_byte dot b /\ t = a +:+ String dot b)
  \/ (exists a b rest, no_byte dot a /\ no_byte dot b
        /\ t = a +:+ String dot (b +:+ String dot rest)).
Proof.
  assert (Hcut : forall s, no_byte dot s \/ exists a b, no_byte dot a /\ s = a +:+ String dot b).
  { induction s as [|c s [IH|(a & b & Ha & ->)]]; cbn; [by left| |].
    - destruct (decide (c = dot)) as [->|Hc]; [|by left].
      right. by exists EmptyString, s.
    - right. destruct (decide (c = dot)) as [->|Hc].
      + by exists EmptyString, (a +:+ String dot b).
      + by exists (String c a), b. }
  destruct (Hcut t) as [Ht|(a & b & Ha & ->)]; [by left|].
  destruct (Hcut b) as [Hb|(b' & rest & Hb & ->)]; right; [left|right]; eauto 10.
Qed.

(** The UAA URL drops the first two dot separated labels of the token
    URL and keeps the rest: a token URL [a.b.rest] gives
    [https://uaa.cf.rest], one with a single dot gives [https://uaa.cf.],
    and one without any dot panics; these are all the cases. *)
Theorem extractUaaURL_cases (t : string) :
  (no_byte dot t
     /\ extractUaaURLFromTokenUrl t = Panic "slice bounds out of range")
  \/ (exists a b, no_byte dot a /\ no_byte dot b /\ t = a +:+ String dot b
        /\ extractUaaURLFromTokenUrl t = Ret "https://uaa.cf.")
  \/ (exists a b rest, no_byte dot a /\ no_byte dot b
        /\ t = a +:+ String dot (b +:+ String dot rest)
        /\ extractUaaURLFromTokenUrl t = Ret ("https://uaa.cf." +:+ rest)).
Proof.
  unfold extractUaaURLFromTokenUrl.
  destruct (dot_cases t) as [Ht|[(a & b & Ha & Hb & ->)|(a & b & rest & Ha & Hb & ->)]].
  - left. split; [done|]. by rewrite Split_no_sep.
  - right. left. exists a, b. repeat split; try done.
    by rewrite Split_app, Split_no_sep.
  - right. right. exists a, b, rest. repeat split; try done.
    rewrite !Split_app by done. unfold list_from. rewrite decide_True by (cbn; lia).
    change (drop 2 (a :: b :: Split rest dot)) with (Split rest dot).
    unfold mbind, go_mbind. cbn. by rewrite Join_Split.
Qed.
End UAA.

(** ** users.go *)

Module Users.

(** The inner loop over the subjects of one binding. *)
Fixpoint append_users (subjects : list Subject) (l : list Subject) : list Subject :=
  match l with
  | [] => subjects
  | subject :: l' =>
      if decide (subject_Kind subject <> "User") then append_users subjects l'
      else append_users (subjects ++ [subject]) l'
  end.

(** The outer loop over the cluster role bindings. *)
Fixpoint append_admins (subjects : list Subject) (items : list ClusterRoleBinding) : list Subject :=
  match items with
  | [] => subjects
  | crb :: items' =>
      if decide (crb_RoleRefName crb <> "cluster-admin") then append_admins subjects items'
      else append_admins (append_users subjects (crb_Subjects crb)) items'
  end.

Definition GetClusterAdmins : M (list Subject) :=
  items ← wrapping (fun err => ErrWrap "failed to list cluster role bindings: " err "")
            (List_ KClusterRoleBinding);
  mret (append_admins [] items).

Lemma only_calls_GetClusterAdmins : only_calls (S:=ext) operator_read GetClusterAdmins.
Proof. unfold GetClusterAdmins. apply only_calls_bind; [auto with calls|]. done. Qed.

Lemma append_users_spec l subjects :
  append_users subjects l = subjects ++ filter (fun s => subject_Kind s = "User") l.
Proof.
  revert subjects. induction l as [|s l IH]; intros subjects; cbn [append_users].
  - by rewrite app_nil_r.
  - rewrite filter_cons, !IH. repeat case_decide; try tauto.
    by rewrite <- app_assoc.
Qed.

Lemma append_admins_spec items subjects :
  append_admins subjects items =
  subjects ++ concat (map (fun crb => filter (fun s => subject_Kind s = "User") (crb_Subjects crb))
                          (filter (fun crb => crb_RoleRefName crb = "cluster-admin") items)).
Proof.
  revert subjects. induction items as [|crb items IH]; intros subjects; cbn [append_admins].
  - by rewrite app_nil_r.
  - rewrite filter_cons, !IH. repeat case_decide; try tauto; cbn.
    by rewrite append_users_spec, app_assoc.
Qed.

(** When the bindings can be listed, GetClusterAdmins returns the
    subjects of kind User of the bindings to the role cluster-admin, in the
    order of the list, and nothing else; when they cannot, it returns the
    wrapped error of the list call. *)
Theorem GetClusterAdmins_spec (e : Env) w :
  run e GetClusterAdmins w =
  match answer e (CList KClusterRoleBinding) w with
  | (Ok items, w') =>
      (Returned (concat (map (fun crb => filter (fun s => subject_Kind s = "User") (crb_Subjects crb))
                   (filter (fun crb => crb_RoleRefName crb = "cluster-admin") items))), w')
  | (Fail err, w') => (Errored (ErrWrap "failed to list cluster role bindings: " err ""), w')
  end.
Proof.
  unfold GetClusterAdmins. go_simpl.
  destruct (answer e (CList KClusterRoleBinding) w) as [[items|x] w']; [|done].
  by rewrite append_admins_spec.
Qed.
End Users.

(** ** registry.go *)

Module ContainerRegistry.

Definition ContainerRegistrySecretName : string := "dockerregistry-config-external".

(** The loop over the custom resource definitions. *)
Fixpoint has_docker_registry (items : list CRD) : bool :=
  match items with
  | [] => false
  | i :: items' => if decide (crd_NamesKind i = "DockerRegistry") then true
                   else has_docker_registry items'
  end.

Definition dockerRegistryModuleIsEnabled : M bool :=
  r ← try (List_ KCRD);
  match r with
  | Fail _ => mret false
  | Ok items => mret (has_docker_registry items)
  end.

Definition secret_key (namespace : string) : ObjectKey :=
  {| key_ns := namespace; key_name := ContainerRegistrySecretName |}.

Definition GetRegistrySecret (namespace : string) : M Secret :=
  enabled ← dockerRegistryModuleIsEnabled;
  if negb enabled then Err (ErrText "dockerregistry kyma module is not enabled")
  else wrapping (fun err =>
         ErrWrap "could not get the kyma docker container registry external secret: " err
           ". Make sure a docker registry resource exists and has its external access is enabled")
         (Get KSecret (secret_key namespace)).

Definition GetRegistryURL (namespace : string) : M string :=
  registrySecret ← GetRegistrySecret namespace;
  match secret_Data registrySecret !! "pushRegAddr" with
  | None => Err (ErrText ("registry secret " +:+ Namespace (secret_meta registrySecret) +:+ "/"
                    +:+ Name (secret_meta registrySecret) +:+ " is missing the pushRegAddr key"))
  | Some registryURL => mret registryURL
  end.

Lemma only_calls_GetRegistrySecret ns : only_calls (S:=ext) operator_read (GetRegistrySecret ns).
Proof.
  unfold GetRegistrySecret, dockerRegistryModuleIsEnabled.
  apply only_calls_bind.
  - apply only_calls_bind; [auto with calls|]. by intros [items|].
  - intros [|]; [|exact I]. apply only_calls_wrapping. auto with calls.
Qed.

Lemma only_calls_GetRegistryURL ns : only_calls (S:=ext) operator_read (GetRegistryURL ns).
Proof.
  apply only_calls_bind; [apply only_calls_GetRegistrySecret|]. intros s.
  by destruct (secret_Data s !! _).
Qed.

Lemma has_docker_registry_spec items :
  has_docker_registry items = true <-> exists i, i ∈ items /\ crd_NamesKind i = "DockerRegistry".
Proof.
  induction items as [|i items IH]; cbn; [split; [done|set_solver]|].
  case_decide; [set_solver|]. rewrite IH. set_solver.
Qed.
End ContainerRegistry.
