(* ===== verification/Json.v ===== *)
(** * encoding/json

    JSON syntax trees, the parser as an interface ([JsonParser]), and
    [json.Unmarshal] into the shapes the program decodes: strings, structs,
    slices, maps and [any].  A decoder gets the value the target holds before
    the call, as Go decodes in place: null leaves it unchanged, a key that
    occurs twice is decoded twice into the same field. *)

From S2P Require Export Cluster.

#[local] Open Scope Z_scope.
#[local] Open Scope list_scope.

(** A number is kept as its literal; an object keeps the order of its keys
    and their duplicates. *)
Inductive json :=
| JNull
| JBool (b : bool)
| JNumber (literal : string)
| JString (s : string)
| JArray (l : list json)
| JObject (kvs : list (string * json)).

(** The parser, and the errors (SyntaxError, UnmarshalTypeError) whose texts
    are not modelled. *)
Class JsonParser := {
  json_parse : string -> result error json;
  json_UnmarshalTypeError : json -> error
}.

(** Decoding into a variable of type [A] that already holds a value. *)
Definition decoder (A : Type) : Type := A -> json -> result error A.

(** Object keys are matched to field names exactly, or else ignoring case
    ([foldName]: ASCII letters, the long s and the Kelvin sign). *)
Definition upper (c : ascii) : ascii :=
  let n := byte_of c in
  if (97 <=? n) && (n <=? 122) then chr (Z.to_nat (n - 32)) else c.

Fixpoint fold_name (s : string) : string :=
  match s with
  | EmptyString => EmptyString
  | String c s' =>
      if byte_of c <? 128 then String (upper c) (fold_name s')
      else match s' with
           | String c1 s2 =>
               if (byte_of c =? 197) && (byte_of c1 =? 191)
               then String "S"%char (fold_name s2)
               else match s2 with
                    | String c2 s3 =>
                        if (byte_of c =? 226) && (byte_of c1 =? 132) && (byte_of c2 =? 170)
                        then String "K"%char (fold_name s3)
                        else String c (fold_name s')
                    | EmptyString => String c (fold_name s')
                    end
           | EmptyString => String c EmptyString
           end
  end.

Fixpoint field_exact {F} (fields : list (string * F)) (key : string) : option F :=
  match fields with
  | [] => None
  | (n, d) :: fs => if decide (n = key) then Some d else field_exact fs key
  end.

Fixpoint field_folded {F} (fields : list (string * F)) (key : string) : option F :=
  match fields with
  | [] => None
  | (n, d) :: fs => if decide (fold_name n = fold_name key) then Some d else field_folded fs key
  end.

Definition find_field {F} (fields : list (string * F)) (key : string) : option F :=
  match field_exact fields key with
  | Some d => Some d
  | None => field_folded fields key
  end.

Section Decoders.
Context `{JsonParser}.

Definition decode_string : decoder string := fun old j =>
  match j with
  | JNull => Ok old
  | JString s => Ok s
  | _ => Fail (json_UnmarshalTypeError j)
  end.

(** The keys of an object are decoded in order; unknown keys are ignored.
    A type error does not stop Go's decoder, but the first one is returned
    and the callers drop the target, so the decoders stop there. *)
Fixpoint decode_fields {A} (fields : list (string * decoder A)) (old : A)
    (kvs : list (string * json)) : result error A :=
  match kvs with
  | [] => Ok old
  | (key, j) :: kvs' =>
      match find_field fields key with
      | None => decode_fields fields old kvs'
      | Some d => match d old j with
                  | Fail e => Fail e
                  | Ok new => decode_fields fields new kvs'
                  end
      end
  end.

Definition decode_struct {A} (fields : list (string * decoder A)) : decoder A := fun old j =>
  match j with
  | JNull => Ok old
  | JObject kvs => decode_fields fields old kvs
  | _ => Fail (json_UnmarshalTypeError j)
  end.

(** [map[string]A]: every value is decoded into a fresh zero element. *)
Fixpoint decode_entries {A} (zero : A) (d : decoder A) (old : gmap string A)
    (kvs : list (string * json)) : result error (gmap string A) :=
  match kvs with
  | [] => Ok old
  | (key, j) :: kvs' =>
      match d zero j with
      | Fail e => Fail e
      | Ok a => decode_entries zero d (<[key := a]> old) kvs'
      end
  end.

Definition decode_map {A} (zero : A) (d : decoder A) : decoder (gmap string A) := fun old j =>
  match j with
  | JNull => Ok ∅
  | JObject kvs => decode_entries zero d old kvs
  | _ => Fail (json_UnmarshalTypeError j)
  end.

(** [[]A]: the elements already there are decoded in place. *)
Fixpoint decode_elements {A} (zero : A) (d : decoder A) (old : list A)
    (l : list json) : result error (list A) :=
  match l with
  | [] => Ok []
  | j :: l' =>
      match d (default zero (head old)) j with
      | Fail e => Fail e
      | Ok a => match decode_elements zero d (tail old) l' with
                | Fail e => Fail e
                | Ok l'' => Ok (a :: l'')
                end
      end
  end.

Definition decode_slice {A} (zero : A) (d : decoder A) : decoder (list A) := fun old j =>
  match j with
  | JNull => Ok []
  | JArray l => decode_elements zero d old l
  | _ => Fail (json_UnmarshalTypeError j)
  end.

(** [json.Unmarshal(data, &v)] for a [v] that holds [old]. *)
Definition Unmarshal {A} (d : decoder A) (old : A) (data : string) : result error A :=
  match json_parse data with
  | Fail e => Fail e
  | Ok j => d old j
  end.
End Decoders.

(** Decoding into [any]: objects become [map[string]any], where the last
    value of a key wins. *)
Fixpoint to_any (j : json) : Value :=
  match j with
  | JNull => VNull
  | JBool b => VBool b
  | JNumber n => VNumber n
  | JString s => VString s
  | JArray l => VList (map to_any l)
  | JObject kvs => VMap (foldl (fun m kv => <[kv.1 := kv.2]> m) ∅ (map (fun kv => (kv.1, to_any kv.2)) kvs))
  end.

Definition decode_any : decoder Value := fun _ j => Ok (to_any j).
