(* ===== verification/JsonText.v ===== *)
(** * The text syntax of JSON

    The parser of encoding/json: RFC 8259 as Go's scanner accepts it, with
    its treatment of invalid UTF-8, of surrogate escapes and of deep nesting.
    It is an instance of the interface [JsonParser]; the texts of the errors
    are parameters. *)

From S2P Require Export Json.

#[local] Open Scope Z_scope.
#[local] Open Scope list_scope.

Definition is_space (c : ascii) : bool :=
  let n := byte_of c in (n =? 32) || (n =? 9) || (n =? 10) || (n =? 13).

Fixpoint skip_space (s : string) : string :=
  match s with
  | String c s' => if is_space c then skip_space s' else s
  | EmptyString => EmptyString
  end.

(** [strip p s]: what follows the prefix [p] of [s]. *)
Fixpoint strip (p s : string) : option string :=
  match p, s with
  | EmptyString, _ => Some s
  | String a p', String b s' => if ascii_dec a b then strip p' s' else None
  | String _ _, EmptyString => None
  end.

(** ** Numbers *)

Definition is_digit (c : ascii) : bool := let n := byte_of c in (48 <=? n) && (n <=? 57).

Fixpoint digits (s : string) : string * string :=
  match s with
  | String c s' =>
      if is_digit c then let '(d, rest) := digits s' in (String c d, rest) else (EmptyString, s)
  | EmptyString => (EmptyString, EmptyString)
  end.

(** One digit or more. *)
Definition some_digits (s : string) : option (string * string) :=
  match digits s with
  | (EmptyString, _) => None
  | (d, rest) => Some (d, rest)
  end.

(** 0, or digits that do not start with 0. *)
Definition int_part (s : string) : option (string * string) :=
  match s with
  | String c s' =>
      if byte_of c =? 48 then Some (String c EmptyString, s')
      else some_digits s
  | EmptyString => None
  end.

Definition frac_part (s : string) : option (string * string) :=
  match strip "." s with
  | Some s' => match some_digits s' with Some (d, rest) => Some ("." +:+ d, rest) | None => None end
  | None => Some ("", s)
  end.

Definition exp_part (s : string) : option (string * string) :=
  match s with
  | String c s' =>
      if (byte_of c =? 101) || (byte_of c =? 69) then
        let '(sign, s2) :=
          match s' with
          | String d s2 => if (byte_of d =? 43) || (byte_of d =? 45) then (String d EmptyString, s2)
                           else (EmptyString, s')
          | EmptyString => (EmptyString, s')
          end in
        match some_digits s2 with
        | Some (d, rest) => Some (String c (sign +:+ d), rest)
        | None => None
        end
      else Some ("", s)
  | EmptyString => Some ("", s)
  end.

Definition parse_number (s : string) : option (string * string) :=
  let '(sign, s1) := match strip "-" s with Some s' => ("-", s') | None => ("", s) end in
  '(i, s2) ← int_part s1; '(f, s3) ← frac_part s2; '(e, s4) ← exp_part s3;
  Some (sign +:+ i +:+ f +:+ e, s4).

(** ** Strings *)

(** [utf8.AppendRune] for a valid rune. *)
Definition encode_rune (r : Z) : string :=
  let byte (n : Z) := chr (Z.to_nat n) in
  let cont (shift : Z) := byte (128 + Z.land (Z.shiftr r shift) 63) in
  if r <? 128 then String (byte r) EmptyString
  else if r <? 2048 then String (byte (192 + Z.shiftr r 6)) (String (cont 0) EmptyString)
  else if r <? 65536 then
    String (byte (224 + Z.shiftr r 12)) (String (cont 6) (String (cont 0) EmptyString))
  else String (byte (240 + Z.shiftr r 18))
         (String (cont 12) (String (cont 6) (String (cont 0) EmptyString))).

Definition replacement : Z := 65533.

Definition hex_value (c : ascii) : option Z :=
  let n := byte_of c in
  if (48 <=? n) && (n <=? 57) then Some (n - 48)
  else if (97 <=? n) && (n <=? 102) then Some (n - 87)
  else if (65 <=? n) && (n <=? 70) then Some (n - 55)
  else None.

(** Four hexadecimal digits. *)
Definition parse_u4 (s : string) : option (Z * string) :=
  match s with
  | String a (String b (String c (String d rest))) =>
      x ← hex_value a; y ← hex_value b; z ← hex_value c; t ← hex_value d;
      Some (x * 4096 + y * 256 + z * 16 + t, rest)
  | _ => None
  end.

Definition is_surrogate (r : Z) : bool := (55296 <=? r) && (r <? 57344).

(** A high surrogate followed by an escaped low one is one rune; any other
    surrogate becomes the replacement character, and what follows it is read
    on its own. *)
Definition parse_unicode_escape (s : string) : option (string * string) :=
  '(r, rest) ← parse_u4 s;
  if is_surrogate r then
    match strip "\u" rest ≫= parse_u4 with
    | Some (r2, rest2) =>
        if (r <? 56320) && (56320 <=? r2) && (r2 <? 57344)
        then Some (encode_rune (65536 + (r - 55296) * 1024 + (r2 - 56320)), rest2)
        else Some (encode_rune replacement, rest)
    | None => Some (encode_rune replacement, rest)
    end
  else Some (encode_rune r, rest).

Definition simple_escape (c : ascii) : option ascii :=
  let n := byte_of c in
  if (n =? 34) || (n =? 92) || (n =? 47) then Some c
  else if n =? 98 then Some (chr 8) else if n =? 102 then Some (chr 12)
  else if n =? 110 then Some (chr 10) else if n =? 114 then Some (chr 13)
  else if n =? 116 then Some (chr 9) else None.

(** The rest of a string literal after its opening quote: its value and what
    follows the closing quote. *)
Fixpoint parse_string (fuel : nat) (s : string) : option (string * string) :=
  match fuel, s with
  | O, _ | _, EmptyString => None
  | S fuel, String c s' =>
      if byte_of c =? 34 then Some (EmptyString, s')
      else if byte_of c <? 32 then None
      else if byte_of c =? 92 then
        match s' with
        | EmptyString => None
        | String d s2 =>
            '(piece, rest) ←
              (if byte_of d =? 117 then parse_unicode_escape s2
               else match simple_escape d with
                    | Some e => Some (String e EmptyString, s2)
                    | None => None
                    end);
            '(v, rest) ← parse_string fuel rest; Some (piece +:+ v, rest)
        end
      else
        match decode_rune s with
        | Some (_, width) =>
            rest ← drop_bytes width s; '(v, rest') ← parse_string fuel rest;
            Some (String.substring 0 width s +:+ v, rest')
        | None => '(v, rest) ← parse_string fuel s'; Some (encode_rune replacement +:+ v, rest)
        end
  end.

(** ** Values *)

(** [maxNestingDepth] *)
Definition max_depth : nat := 100 * 100.

Fixpoint parse_value (fuel depth : nat) (s : string) : option (json * string) :=
  match fuel with
  | O => None
  | S fuel =>
      match skip_space s with
      | EmptyString => None
      | String c s' as s =>
          if byte_of c =? 34 then '(v, rest) ← parse_string (S (String.length s')) s'; Some (JString v, rest)
          else if byte_of c =? 91 then
            if decide (max_depth <= depth)%nat then None
            else match strip "]" (skip_space s') with
                 | Some rest => Some (JArray [], rest)
                 | None => '(l, rest) ← parse_elements fuel (S depth) s'; Some (JArray l, rest)
                 end
          else if byte_of c =? 123 then
            if decide (max_depth <= depth)%nat then None
            else match strip "}" (skip_space s') with
                 | Some rest => Some (JObject [], rest)
                 | None => '(l, rest) ← parse_members fuel (S depth) s'; Some (JObject l, rest)
                 end
          else
            match strip "null" s, strip "true" s, strip "false" s with
            | Some rest, _, _ => Some (JNull, rest)
            | _, Some rest, _ => Some (JBool true, rest)
            | _, _, Some rest => Some (JBool false, rest)
            | None, None, None => '(n, rest) ← parse_number s; Some (JNumber n, rest)
            end
      end
  end
with parse_elements (fuel depth : nat) (s : string) : option (list json * string) :=
  match fuel with
  | O => None
  | S fuel =>
      '(j, rest) ← parse_value fuel depth s;
      match strip "," (skip_space rest), strip "]" (skip_space rest) with
      | Some rest, _ => '(l, rest) ← parse_elements fuel depth rest; Some (j :: l, rest)
      | None, Some rest => Some ([j], rest)
      | None, None => None
      end
  end
with parse_members (fuel depth : nat) (s : string) : option (list (string * json) * string) :=
  match fuel with
  | O => None
  | S fuel =>
      s1 ← strip (String (chr 34) EmptyString) (skip_space s);
      '(key, rest) ← parse_string (S (String.length s1)) s1;
      s2 ← strip ":" (skip_space rest);
      '(j, rest) ← parse_value fuel depth s2;
      match strip "," (skip_space rest), strip "}" (skip_space rest) with
      | Some rest, _ => '(l, rest) ← parse_members fuel depth rest; Some ((key, j) :: l, rest)
      | None, Some rest => Some ([(key, j)], rest)
      | None, None => None
      end
  end.

(** Every call that consumes no byte itself is followed by one that does. *)
Definition parse_text (s : string) : option json :=
  match parse_value (2 * String.length s + 2) 0 s with
  | Some (j, rest) => if decide (skip_space rest = "") then Some j else None
  | None => None
  end.

(** The parser of encoding/json, for given errors. *)
Definition go_json (syntax_error : string -> error) (type_error : json -> error) : JsonParser := {|
  json_parse s := match parse_text s with Some j => Ok j | None => Fail (syntax_error s) end;
  json_UnmarshalTypeError := type_error
|}.

(** ** The fuel is enough

    Whatever a parse returns with some fuel, it returns with any fuel that is
    in proportion to the length of its input; so an answer [None] of
    [parse_text] is a syntax error and never a lack of fuel. *)

#[local] Abbreviation len := String.length.

Lemma skip_space_len s : (len (skip_space s) <= len s)%nat.
Proof. induction s as [|c s IH]; cbn; [done|]. destruct (is_space c); cbn; lia. Qed.

Lemma strip_len p s r : strip p s = Some r -> len s = (len p + len r)%nat.
Proof.
  revert s. induction p as [|a p IH]; intros [|b s]; cbn; try done; try (by intros [= <-]).
  destruct (ascii_dec a b); [|done]. intros H%IH. lia.
Qed.

Lemma drop_bytes_len n s r : drop_bytes n s = Some r -> len s = (n + len r)%nat.
Proof.
  revert s. induction n as [|n IH]; intros s; cbn; [by intros [= <-]|].
  destruct s as [|c s]; cbn; [done|]. intros H%IH. lia.
Qed.

Lemma digits_len s d r : digits s = (d, r) -> len s = (len d + len r)%nat.
Proof.
  revert d r. induction s as [|c s IH]; intros d r; cbn; [by intros [= <- <-]|].
  destruct (is_digit c); [|by intros [= <- <-]].
  destruct (digits s) as [d' r'] eqn:Hd. intros [= <- <-]. cbn. by rewrite (IH _ _ eq_refl).
Qed.

Lemma some_digits_len s d r : some_digits s = Some (d, r) -> (len r < len s)%nat.
Proof.
  unfold some_digits. destruct (digits s) as [d' r'] eqn:Hd. apply digits_len in Hd.
  destruct d'; [done|]. intros [= <- <-]. cbn in Hd. lia.
Qed.

Lemma int_part_len s d r : int_part s = Some (d, r) -> (len r < len s)%nat.
Proof.
  destruct s as [|c s]; [done|]. unfold int_part. destruct (byte_of c =? 48).
  - intros [= <- <-]. cbn. lia.
  - apply some_digits_len.
Qed.

Lemma frac_part_len s d r : frac_part s = Some (d, r) -> (len r <= len s)%nat.
Proof.
  unfold frac_part. destruct (strip "." s) as [s'|] eqn:Hs; [|intros [= <- <-]; lia].
  apply strip_len in Hs. cbn in Hs. destruct (some_digits s') as [[d' r']|] eqn:Hd; [|done].
  apply some_digits_len in Hd. intros [= <- <-]. lia.
Qed.

Lemma exp_part_len s d r : exp_part s = Some (d, r) -> (len r <= len s)%nat.
Proof.
  destruct s as [|c s]; [intros [= <- <-]; done|]. cbn.
  destruct (_ || _); [|intros [= <- <-]; done].
  assert (H : forall sign s2, (len s2 <= len s)%nat ->
    match some_digits s2 with Some (d, rest) => Some (String c (sign +:+ d), rest) | None => None end
      = Some (d, r) -> (len r <= S (len s))%nat).
  { intros sign s2 Hle. destruct (some_digits s2) as [[d' r']|] eqn:Hd; [|done].
    apply some_digits_len in Hd. intros [= _ <-]. lia. }
  destruct s as [|x s']; [apply (H EmptyString); done|].
  destruct (_ || _); apply H; cbn; lia.
Qed.

Lemma parse_number_len s n r : parse_number s = Some (n, r) -> (len r < len s)%nat.
Proof.
  unfold parse_number.
  assert (H : forall sign s1, (len s1 <= len s)%nat ->
    ('(i, s2) ← int_part s1; '(f, s3) ← frac_part s2; '(e, s4) ← exp_part s3;
     Some (sign +:+ i +:+ f +:+ e, s4)) = Some (n, r) -> (len r < len s)%nat).
  { intros sign s1 Hle. destruct (int_part s1) as [[i s2]|] eqn:Hi; [|done]. cbn.
    destruct (frac_part s2) as [[f s3]|] eqn:Hf; [|done]. cbn.
    destruct (exp_part s3) as [[e s4]|] eqn:He; [|done]. cbn. intros [= _ <-].
    apply int_part_len in Hi. apply frac_part_len in Hf. apply exp_part_len in He. lia. }
  destruct (strip "-" s) as [s'|] eqn:Hs.
  - apply strip_len in Hs. cbn in Hs. apply H. lia.
  - by apply H.
Qed.

Lemma parse_u4_len s v r : parse_u4 s = Some (v, r) -> len s = (4 + len r)%nat.
Proof.
  destruct s as [|a [|b [|c [|d s]]]]; try done. unfold parse_u4.
  destruct (hex_value a), (hex_value b), (hex_value c), (hex_value d); try done.
  by intros [= _ <-].
Qed.

#[local] Arguments encode_rune : simpl never.
#[local] Arguments strip : simpl never.

Lemma parse_unicode_escape_len s p r : parse_unicode_escape s = Some (p, r) -> (len r <= len s)%nat.
Proof.
  unfold parse_unicode_escape. destruct (parse_u4 s) as [[v rest]|] eqn:Hv; [|done]. cbn.
  apply parse_u4_len in Hv. destruct (is_surrogate v); [|intros [= _ <-]; lia].
  destruct (strip "\u" rest ≫= parse_u4) as [[v2 rest2]|] eqn:Hs; [|intros [= _ <-]; lia].
  apply bind_Some in Hs as (s2 & Hs & Hv2). apply strip_len in Hs. apply parse_u4_len in Hv2.
  cbn in Hs. destruct (_ && _); intros [= _ <-]; lia.
Qed.

Lemma decode_rune_width s r w : decode_rune s = Some (r, w) -> (1 <= w)%nat.
Proof.
  destruct s as [|c s]; [done|]. unfold decode_rune.
  repeat case_match; try done; intros [= _ <-]; lia.
Qed.

Lemma parse_string_fuel n s v r :
  parse_string n s = Some (v, r) ->
  (len r < len s)%nat /\ forall m, (len s < m)%nat -> parse_string m s = Some (v, r).
Proof.
  revert s v r. induction n as [|n IH]; intros s v r; [done|]. destruct s as [|c s]; [done|].
  cbn [parse_string].
  assert (Hgo : forall rest (f : string -> string), (len rest <= len s)%nat ->
    ('(v, rest') ← parse_string n rest; Some (f v, rest')) = Some (v, r) ->
    (len r < S (len s))%nat /\ forall m, (len s < m)%nat ->
      ('(v, rest') ← parse_string m rest; Some (f v, rest')) = Some (v, r)).
  { intros rest f Hle H. destruct (parse_string n rest) as [[v' r']|] eqn:Hp; [|done].
    cbn in H. injection H as <- <-. apply IH in Hp as [Hlen Hm].
    split; [lia|]. intros m Hlt. by rewrite Hm by lia. }
  intros H. cbn [len String.length].
  assert (Hmain : (len r < S (len s))%nat /\ forall m, (len s < m)%nat -> parse_string (S m) (String c s) = Some (v, r)).
  { cbn [parse_string]. destruct (byte_of c =? 34); [injection H as <- <-; split; [lia|done]|].
    destruct (byte_of c <? 32); [done|]. destruct (byte_of c =? 92).
    - destruct s as [|d s2]; [done|].
      destruct (if byte_of d =? 117 then _ else _) as [[piece rest]|] eqn:Hpiece; [|done].
      apply Hgo; [|done]. cbn in *. destruct (byte_of d =? 117).
      + apply parse_unicode_escape_len in Hpiece. lia.
      + destruct (simple_escape d); [|done]. injection Hpiece as _ <-. lia.
    - destruct (decode_rune (String c s)) as [[x w]|] eqn:Hw; [|by apply Hgo].
      apply decode_rune_width in Hw.
      destruct (drop_bytes w (String c s)) as [rest|] eqn:Hd; [|done].
      apply drop_bytes_len in Hd. cbn in Hd. apply Hgo; [lia|done]. }
  destruct Hmain as [H1 H2]. split; [done|]. intros [|m] Hm; [lia|]. apply H2. lia.
Qed.

#[local] Arguments parse_string : simpl never.
#[local] Arguments skip_space : simpl never.

(** The three parsers with at most [n] fuel, on any input. *)
Definition value_ok (n : nat) : Prop := forall depth s j r,
  parse_value n depth s = Some (j, r) ->
  (len r < len s)%nat /\ forall m, (2 * len s <= m)%nat -> parse_value m depth s = Some (j, r).

Definition elements_ok (n : nat) : Prop := forall depth s l r,
  parse_elements n depth s = Some (l, r) ->
  (len r < len s)%nat /\ forall m, (2 * len s < m)%nat -> parse_elements m depth s = Some (l, r).

Definition members_ok (n : nat) : Prop := forall depth s l r,
  parse_members n depth s = Some (l, r) ->
  (len r < len s)%nat /\ forall m, (2 * len s < m)%nat -> parse_members m depth s = Some (l, r).

Lemma strip_skip_len p s r : strip p (skip_space s) = Some r -> (len p + len r <= len s)%nat.
Proof. intros H%strip_len. pose proof (skip_space_len s). lia. Qed.

Lemma elements_ok_step n : value_ok n -> elements_ok n -> elements_ok (S n).
Proof.
  intros Hv He depth s l r. cbn [parse_elements].
  destruct (parse_value n depth s) as [[j rest]|] eqn:Hj; [|done]. cbn.
  apply Hv in Hj as [Hlen Hm].
  destruct (strip "," (skip_space rest)) as [rest1|] eqn:Hc.
  - pose proof (strip_skip_len _ _ _ Hc) as Hc'. cbn in Hc'.
    destruct (parse_elements n depth rest1) as [[l' r']|] eqn:Hl; [|done]. cbn. intros [= <- <-].
    apply He in Hl as [Hlen' Hm']. split; [lia|]. intros [|m] Hlt; [lia|]. cbn [parse_elements].
    rewrite Hm by lia. cbn. rewrite Hc. by rewrite Hm' by lia.
  - destruct (strip "]" (skip_space rest)) as [rest1|] eqn:Hb; [|done]. intros [= <- <-].
    pose proof (strip_skip_len _ _ _ Hb) as Hb'. cbn in Hb'.
    split; [lia|]. intros [|m] Hlt; [lia|]. cbn [parse_elements].
    rewrite Hm by lia. cbn. by rewrite Hc, Hb.
Qed.

Lemma members_ok_step n : value_ok n -> members_ok n -> members_ok (S n).
Proof.
  intros Hv He depth s l r. cbn [parse_members].
  destruct (strip _ (skip_space s)) as [s1|] eqn:Hq; [|done]. cbn.
  pose proof (strip_skip_len _ _ _ Hq) as Hq'. cbn in Hq'.
  destruct (parse_string (S (len s1)) s1) as [[key rest]|] eqn:Hk; [|done]. cbn.
  pose proof (parse_string_fuel _ _ _ _ Hk) as [Hklen _].
  destruct (strip ":" (skip_space rest)) as [s2|] eqn:Hcol; [|done]. cbn.
  pose proof (strip_skip_len _ _ _ Hcol) as Hcol'. cbn in Hcol'.
  destruct (parse_value n depth s2) as [[j rest2]|] eqn:Hj; [|done]. cbn.
  apply Hv in Hj as [Hlen Hm].
  destruct (strip "," (skip_space rest2)) as [rest3|] eqn:Hc.
  - pose proof (strip_skip_len _ _ _ Hc) as Hc'. cbn in Hc'.
    destruct (parse_members n depth rest3) as [[l' r']|] eqn:Hl; [|done]. cbn. intros [= <- <-].
    apply He in Hl as [Hlen' Hm']. split; [lia|]. intros [|m] Hlt; [lia|]. cbn [parse_members].
    rewrite Hq. cbn. rewrite Hk. cbn. rewrite Hcol. cbn. rewrite Hm by lia. cbn. rewrite Hc.
    by rewrite Hm' by lia.
  - destruct (strip "}" (skip_space rest2)) as [rest3|] eqn:Hb; [|done]. intros [= <- <-].
    pose proof (strip_skip_len _ _ _ Hb) as Hb'. cbn in Hb'.
    split; [lia|]. intros [|m] Hlt; [lia|]. cbn [parse_members].
    rewrite Hq. cbn. rewrite Hk. cbn. rewrite Hcol. cbn. rewrite Hm by lia. cbn. by rewrite Hc, Hb.
Qed.

Lemma value_ok_step n : elements_ok n -> members_ok n -> value_ok (S n).
Proof.
  intros He Hm depth s j r. cbn [parse_value]. pose proof (skip_space_len s) as Hs.
  destruct (skip_space s) as [|c s'] eqn:Hskip; [done|]. cbn in Hs.
  assert (Hlast : forall rest a, (len rest < len s)%nat -> Some (a, rest) = Some (j, r) ->
    (len r < len s)%nat) by (intros rest a Hlt [= _ <-]; done).
  enough (H : forall body : nat -> option (json * string),
      (forall m, parse_value (S m) depth s = body m) ->
      body n = Some (j, r) -> (len r < len s)%nat /\ forall m, (2 * len s <= S m)%nat -> body m = Some (j, r)).
  { intros Hn. specialize (H (fun m => parse_value (S m) depth s) (fun m => eq_refl)).
    cbn beta in H. cbn [parse_value] in H. rewrite Hskip in H. destruct (H Hn) as [H1 H2].
    split; [done|]. intros [|m] Hlt; [lia|]. cbn [parse_value]. rewrite Hskip. by apply H2. }
  intros body Hbody Hn. rewrite <- Hbody in Hn. cbn [parse_value] in Hn. rewrite Hskip in Hn.
  assert (Hgoal : (len r < len s)%nat /\ forall m, (2 * len s <= S m)%nat ->
    parse_value (S m) depth s = Some (j, r)).
  2:{ destruct Hgoal as [H1 H2]. split; [done|]. intros m Hlt. rewrite <- Hbody. by apply H2. }
  cbn [parse_value]. rewrite Hskip.
  destruct (byte_of c =? 34).
  { destruct (parse_string _ s') as [[v rest]|] eqn:Hv; [|done]. cbn in *.
    apply parse_string_fuel in Hv as [Hlen _]. split; [|done]. eapply Hlast; [|exact Hn]. lia. }
  destruct (byte_of c =? 91).
  { case_decide; [done|]. destruct (strip "]" (skip_space s')) as [rest|] eqn:Hb.
    - apply strip_skip_len in Hb. cbn in Hb. split; [|done]. eapply Hlast; [|exact Hn]. lia.
    - destruct (parse_elements n (S depth) s') as [[l rest]|] eqn:Hl; [|done]. cbn in Hn.
      apply He in Hl as [Hlen Hfuel]. split; [eapply Hlast; [|exact Hn]; lia|].
      intros m Hlt. rewrite Hfuel by lia. exact Hn. }
  destruct (byte_of c =? 123).
  { case_decide; [done|]. destruct (strip "}" (skip_space s')) as [rest|] eqn:Hb.
    - apply strip_skip_len in Hb. cbn in Hb. split; [|done]. eapply Hlast; [|exact Hn]. lia.
    - destruct (parse_members n (S depth) s') as [[l rest]|] eqn:Hl; [|done]. cbn in Hn.
      apply Hm in Hl as [Hlen Hfuel]. split; [eapply Hlast; [|exact Hn]; lia|].
      intros m Hlt. rewrite Hfuel by lia. exact Hn. }
  split; [|done].
  destruct (strip "null" (String c s')) as [rest|] eqn:H1.
  { apply strip_len in H1. cbn in H1. eapply Hlast; [|exact Hn]. lia. }
  destruct (strip "true" (String c s')) as [rest|] eqn:H2.
  { apply strip_len in H2. cbn in H2. eapply Hlast; [|exact Hn]. lia. }
  destruct (strip "false" (String c s')) as [rest|] eqn:H3.
  { apply strip_len in H3. cbn in H3. eapply Hlast; [|exact Hn]. lia. }
  destruct (parse_number (String c s')) as [[num rest]|] eqn:H4; [|done]. cbn in Hn.
  apply parse_number_len in H4. cbn in H4. eapply Hlast; [|exact Hn]. lia.
Qed.

Lemma fuel_ok n : value_ok n /\ elements_ok n /\ members_ok n.
Proof.
  induction n as [|n (Hv & He & Hm)].
  - by repeat split.
  - split_and!; [by apply value_ok_step|by apply elements_ok_step|by apply members_ok_step].
Qed.

(** No amount of fuel finds a value that [parse_text] does not find. *)
Lemma parse_text_complete n s j r :
  parse_value n 0 s = Some (j, r) -> skip_space r = "" -> parse_text s = Some j.
Proof.
  intros H Hr. destruct (fuel_ok n) as (Hv & _). apply Hv in H as [_ H]. unfold parse_text.
  rewrite H by lia. by rewrite decide_True.
Qed.
