(* ===== verification/Docker.v ===== *)
(** * Docker registry secrets

    Models src/controllers/cfapi/secrets/docker.go: the docker configuration
    of a registry secret. *)

From S2P Require Export Libs Json.

#[local] Open Scope list_scope.

Record DockerRegistryAuth := { auth_Username : string; auth_Password : string }.
Record DockerRegistryConfig := { Auths : gmap string DockerRegistryAuth }.

Definition zero_auth : DockerRegistryAuth := {| auth_Username := ""; auth_Password := "" |}.

(** [corev1.DockerConfigJsonKey] *)
Definition DockerConfigJsonKey : string := ".dockerconfigjson".

Section Docker.
Context `{JsonParser}.

(** The json tags of the two structs. *)
Definition decode_auth : decoder DockerRegistryAuth :=
  decode_struct
    [("username", fun old j =>
        match decode_string (auth_Username old) j with
        | Ok u => Ok {| auth_Username := u; auth_Password := auth_Password old |}
        | Fail e => Fail e
        end);
     ("password", fun old j =>
        match decode_string (auth_Password old) j with
        | Ok p => Ok {| auth_Username := auth_Username old; auth_Password := p |}
        | Fail e => Fail e
        end)].

Definition decode_config : decoder DockerRegistryConfig :=
  decode_struct
    [("auths", fun old j =>
        match decode_map zero_auth decode_auth (Auths old) j with
        | Ok m => Ok {| Auths := m |}
        | Fail e => Fail e
        end)].

Definition GetRegistryConfig (secretNamespace secretName : string) : M DockerRegistryConfig :=
  let where_ := secretNamespace +:+ "/" +:+ secretName in
  secret ← wrapping (fun err => ErrWrap ("failed to get docker registry secret " +:+ where_ +:+ ": ") err "")
             (Get KSecret {| key_ns := secretNamespace; key_name := secretName |});
  wrapping (fun err => ErrWrap ("failed to unmarshal docker registry config from secret "
                          +:+ where_ +:+ ": ") err "")
    (of_result (Unmarshal decode_config {| Auths := ∅ |}
                  (default "" (secret_Data secret !! DockerConfigJsonKey)))).

Lemma only_calls_GetRegistryConfig ns name :
  only_calls (S:=ext) operator_read (GetRegistryConfig ns name).
Proof. unfold GetRegistryConfig. auto with calls. Qed.
End Docker.
