(* ===== verification/HelmValues.v ===== *)
(** * Helm values providers

    Models src/controllers/installable/values: values.go (Override),
    contour.go, korifi.go, prerequisites.go and cfapi_config.go.  A provider
    is an implementation of the interface HelmValuesProvider of
    src/controllers/installable/helm.go. *)

From S2P Require Export Kyma.

#[local] Open Scope Z_scope.
#[local] Open Scope list_scope.

(** [type HelmValuesProvider interface] *)
Record HelmValuesProvider := {
  GetValues : InstallationConfig -> M Values
}.

(** ** values.go, contour.go *)

Definition Override (v : Values) : HelmValuesProvider := {| GetValues _ := mret v |}.

Definition ContourValues : HelmValuesProvider := Override (map_of
  [("gatewayAPI", VObject [("manageCRDs", VBool false)]);
   ("configInline", VObject
      [("gateway", VObject
          [("gatewayRef", VObject
              [("name", VString "korifi");
               ("namespace", VString "cfapi-system")])])])]).

(** ** korifi.go *)

Module Korifi.

Definition certificate_secrets : list string :=
  ["korifi-api-ingress-cert"; "korifi-workloads-ingress-cert";
   "korifi-api-internal-cert"; "korifi-controllers-webhook-cert"].

Definition ensureCertificateSecrets (releaseNamespace : string) : M unit :=
  for_each (fun certSecret =>
              _ ← Get KSecret {| key_ns := releaseNamespace; key_name := certSecret |};
              mret tt)
           certificate_secrets.

Definition values_of (config : InstallationConfig) : Values := map_of
  [("systemNamespace", VString "cfapi-system");
   ("adminUserName", VString "cf-admin");
   ("generateInternalCertificates", VBool false);
   ("containerRegistrySecrets", VList [VString (cfg_ContainerRegistrySecret config)]);
   ("containerRepositoryPrefix", VString (cfg_ContainerRepositoryPrefix config));
   ("defaultAppDomainName", VString ("apps." +:+ cfg_CFDomain config));
   ("api", VObject
      [("apiServer", VObject [("url", VString ("cfapi." +:+ cfg_CFDomain config))]);
       ("uaaURL", VString (cfg_UAAURL config))]);
   ("kpackImageBuilder", VObject [("builderRepository", VString (cfg_BuilderRepository config))]);
   ("networking", VObject
      [("gatewayNamespace", VString "cfapi-system");
       ("gatewayClass", VString (cfg_GatewayType config))]);
   ("experimental", VObject
      [("managedServices", VObject [("enabled", VBool true)]);
       ("uaa", VObject [("enabled", VBool true); ("url", VString (cfg_UAAURL config))])])].

Definition Korifi_GetValues (releaseNamespace : string) (config : InstallationConfig) : M Values :=
  _ ← wrapping (fun err => ErrWrap "failed to ensure required certificate secrets: " err "")
        (ensureCertificateSecrets releaseNamespace);
  mret (values_of config).

Definition NewKorifi (releaseNamespace : string) : HelmValuesProvider :=
  {| GetValues := Korifi_GetValues releaseNamespace |}.
End Korifi.

(** ** prerequisites.go *)

Module Prerequisites.

Definition selfSignedIssuerName : string := "cfapi-self-signed-issuer".

Definition ensureSelfSignedIssuer (systemNamespace : string) : M unit :=
  _ ← Get KIssuer {| key_ns := systemNamespace; key_name := selfSignedIssuerName |};
  mret tt.

Definition propagation_enabled (config : InstallationConfig) : bool :=
  let enabled := bool_decide (cfg_ContainerRegistrySecret config
                              <> ContainerRegistry.ContainerRegistrySecretName) in
  if cfg_DisableContainerRegistrySecretPropagation config then false else enabled.

Definition propagation_config (config : InstallationConfig) : Values :=
  let propagationEnabled := propagation_enabled config in
  let propagationConfig := map_of [("enabled", VBool propagationEnabled)] in
  if propagationEnabled
  then <["destinationNamespace" := VString (cfg_RootNamespace config)]>
         (<["sourceNamespace" := VString "cfapi-system"]> propagationConfig)
  else propagationConfig.

Definition Prerequisites_GetValues (config : InstallationConfig) : M Values :=
  let systemNamespace := "kyma-system" in
  _ ← wrapping (fun err => ErrWrap "failed to get self seigned issuer: " err "")
        (ensureSelfSignedIssuer systemNamespace);
  mret (map_of
    [("systemNamespace", VString systemNamespace);
     ("useSelfSignedCertificates", VBool (cfg_UseSelfSignedCertificates config));
     ("selfSignedIssuer", VString selfSignedIssuerName);
     ("cfDomain", VString (cfg_CFDomain config));
     ("gatewayType", VString (cfg_GatewayType config));
     ("containerRegistrySecret", VObject
        [("name", VString (cfg_ContainerRegistrySecret config));
         ("propagation", VMap (propagation_config config))])]).

Definition NewPrerequisites : HelmValuesProvider := {| GetValues := Prerequisites_GetValues |}.
End Prerequisites.

(** ** cfapi_config.go *)

Module CFAPIConfig.
Section WithIt.
Context `{ItLib}.

Definition withOIDCPrefix (user : string) : Value :=
  if negb (HasPrefix user "sap.ids:") then VString ("sap.ids:" +:+ user) else VString user.

Definition getKorifiIngressHost (korifiIngressServiceName : string) : M string :=
  korifiIngressService ← wrapping (fun err => ErrWrap "failed to get korifi ingress service: " err "")
    (Get KService {| key_ns := "cfapi-system"; key_name := korifiIngressServiceName |});
  if decide (length (service_Ingress korifiIngressService) = 0%nat)
  then Err (ErrText "korifi ingress service does not have an ingress assigned yet")
  else ingress ← index (service_Ingress korifiIngressService) 0;
       let hostname := ing_Hostname ingress in
       if decide (hostname = "") then mret (ing_IP ingress) else mret hostname.

Definition CFAPIConfig_GetValues (config : InstallationConfig) : M Values :=
  korifiIngressHost ← wrapping (fun err => ErrWrap "failed to get korifi ingress host: " err "")
    (getKorifiIngressHost (cfg_KorifiIngressService config));
  mret (map_of
    [("cfDomain", VString (cfg_CFDomain config));
     ("korifiIngressHost", VString korifiIngressHost);
     ("uaaUrl", VString (cfg_UAAURL config));
     ("rootNamespace", VString (cfg_RootNamespace config));
     ("cfapiAdmins", VList (elems (Collect (it_Map withOIDCPrefix (elems (cfg_CFAdmins config))))))]).

Definition NewCFAPIConfig : HelmValuesProvider := {| GetValues := CFAPIConfig_GetValues |}.
End WithIt.
End CFAPIConfig.

(** ** Theorems *)

(** The value at a path of keys of nested maps. *)
Fixpoint path (v : Value) (keys : list string) : option Value :=
  match keys with
  | [] => Some v
  | k :: ks => match v with VMap m => m !! k ≫= fun v' => path v' ks | _ => None end
  end.

(** The registry secret is propagated to the root namespace exactly when
    it is not the secret of the kyma registry and propagation is not disabled:
    the helm values enable propagation in that case only, and only then carry
    the source namespace cfapi-system and the root namespace as destination. *)
Theorem Prerequisites_propagation (e : Env) config w values w' :
  run e (Prerequisites.Prerequisites_GetValues config) w = (Returned values, w') ->
  let enabled := Prerequisites.propagation_enabled config in
  let at_ k := path (VMap values) ["containerRegistrySecret"; "propagation"; k] in
  (enabled = true <->
     cfg_ContainerRegistrySecret config <> ContainerRegistry.ContainerRegistrySecretName
     /\ cfg_DisableContainerRegistrySecretPropagation config = false)
  /\ at_ "enabled" = Some (VBool enabled)
  /\ at_ "sourceNamespace" = (if enabled then Some (VString "cfapi-system") else None)
  /\ at_ "destinationNamespace" = (if enabled then Some (VString (cfg_RootNamespace config)) else None).
Proof.
  intros Hrun enabled at_.
  assert (values !! "containerRegistrySecret" = Some (VObject
    [("name", VString (cfg_ContainerRegistrySecret config));
     ("propagation", VMap (Prerequisites.propagation_config config))])) as Hv.
  { unfold Prerequisites.Prerequisites_GetValues, Prerequisites.ensureSelfSignedIssuer in Hrun.
    go_inv Hrun. done. }
  assert (forall k, at_ k = Prerequisites.propagation_config config !! k) as Hat.
  { intros k. unfold at_. cbn [path]. rewrite Hv. cbn. simplify_map_eq. by destruct (_ !! k). }
  rewrite !Hat. subst enabled. clear.
  unfold Prerequisites.propagation_config, Prerequisites.propagation_enabled.
  destruct (cfg_DisableContainerRegistrySecretPropagation config);
    [|case_bool_decide]; cbn; repeat split; naive_solver.
Qed.

(** An environment in which every secret, issuer and service of the module
    exists, and the service has one ingress without a host name. *)
Definition sample_service : Service :=
  {| service_meta := meta_of "cfapi-system" "contour-envoy";
     service_Ingress := [{| ing_Hostname := ""; ing_IP := "10.0.0.1" |}] |}.

Definition sample_answers (c : call) : reply c :=
  match c with
  | CGet KIssuer key => Ok {| issuer_meta := meta_of (key_ns key) (key_name key) |}
  | CGet KSecret key => Ok {| secret_meta := meta_of (key_ns key) (key_name key); secret_Data := ∅ |}
  | CGet KService _ => Ok sample_service
  | c => no_answers c
  end.

Definition sample_config : InstallationConfig :=
  {| cfg_RootNamespace := "cf"; cfg_ContainerRegistrySecret := "dockerhub";
     cfg_DisableContainerRegistrySecretPropagation := false;
     cfg_ContainerRegistryURL := "index.docker.io"; cfg_ContainerRepositoryPrefix := "index.docker.io/me/";
     cfg_BuilderRepository := "index.docker.io/me/builder"; cfg_UAAURL := "https://uaa.cf.eu12";
     cfg_CFAdmins := Some ["samir@example.com"; "sap.ids:danail@example.com"];
     cfg_CFDomain := "kyma.example.com"; cfg_KorifiIngressService := "contour-envoy";
     cfg_UseSelfSignedCertificates := false; cfg_GatewayType := "contour" |}.

Lemma Prerequisites_propagation_witness :
  exists values,
    path (VMap values) ["containerRegistrySecret"; "propagation"; "destinationNamespace"]
    = Some (VString "cf").
Proof.
  destruct (run (const_env sample_answers) (Prerequisites.Prerequisites_GetValues sample_config) tt)
    as [[values| |] w'] eqn:H; [|discriminate H|discriminate H].
  exists values. exact (proj2 (proj2 (proj2 (Prerequisites_propagation _ _ _ _ _ H)))).
Defined.

(** A loop of reads in an environment with pure reads succeeds when each of
    its reads does. *)
Lemma for_each_reads (e : Env) `{!PureReads e} {A} (k : kind) (key : A -> ObjectKey) (l : list A) w :
  (run e (for_each (fun x => _ ← Get k (key x); mret tt) l) w).1 = Returned tt
  <-> forall x, x ∈ l -> exists o, answers e (CGet k (key x)) w (Ok o).
Proof.
  induction l as [|x l IH]; cbn [for_each].
  { split; [set_solver|done]. }
  go_simpl. rewrite (answer_read e (CGet k (key x)) w) by exact I.
  destruct ((answer e (CGet k (key x)) w).1) as [o|err] eqn:Hx; cbn.
  - rewrite IH. split.
    + intros H y [->|Hy]%elem_of_cons; eauto.
    + intros H y Hy. apply H. by right.
  - split; [done|]. intros H. destruct (H x) as [o Ho]; [by left|]. unfold answers in Ho.
    discriminate (eq_trans (eq_sym Hx) Ho).
Qed.

(** The korifi chart gets values only when the four certificate secrets
    of the release namespace can all be read; then the values are those
    computed from the configuration, with nothing partial in between. *)
Theorem Korifi_values_iff_certificates (e : Env) (pure : PureReads e) ns config w :
  (run e (Korifi.Korifi_GetValues ns config) w).1 = Returned (Korifi.values_of config)
  <-> forall s, s ∈ ["korifi-api-ingress-cert"; "korifi-workloads-ingress-cert";
                     "korifi-api-internal-cert"; "korifi-controllers-webhook-cert"] ->
      exists secret, answers e (CGet KSecret {| key_ns := ns; key_name := s |}) w (Ok secret).
Proof.
  unfold Korifi.Korifi_GetValues, Korifi.ensureCertificateSecrets.
  rewrite <- (for_each_reads e KSecret (fun s => {| key_ns := ns; key_name := s |})).
  rewrite run_bind, run_wrapping. unfold Korifi.certificate_secrets.
  destruct (run e (for_each _ _) w) as [[[]|x|x] wq]; cbn; split; congruence.
Qed.

Lemma Korifi_values_iff_certificates_witness :
  (run (const_env sample_answers) (Korifi.Korifi_GetValues "korifi" sample_config) tt).1
  = Returned (Korifi.values_of sample_config).
Proof.
  apply Korifi_values_iff_certificates; [apply _|].
  intros s _. by eexists.
Defined.

Section CFAPIConfigTheorems.
Context {lib : ItLib} {laws : ItLaws}.

(** A user name with the prefix of the OIDC provider, added once. *)
Definition prefixed (user admin : string) : Prop :=
  (HasPrefix user "sap.ids:" = true /\ admin = user)
  \/ (HasPrefix user "sap.ids:" = false /\ admin = "sap.ids:" +:+ user).

Definition add_prefix (u : string) : string :=
  if HasPrefix u "sap.ids:" then u else "sap.ids:" +:+ u.

Lemma add_prefix_prefixed u : prefixed u (add_prefix u) /\ prefixed (add_prefix u) (add_prefix u).
Proof.
  unfold prefixed, add_prefix. destruct (HasPrefix u "sap.ids:") eqn:Hu; [by auto|].
  split; [by auto|]. left. split; [|done]. apply (HasPrefix_app "sap.ids:").
Qed.

Lemma prefix_all l :
  Forall2 prefixed l (map add_prefix l) /\ Forall2 prefixed (map add_prefix l) (map add_prefix l).
Proof.
  induction l as [|u l [IH1 IH2]]; cbn; [by repeat constructor|].
  destruct (add_prefix_prefixed u). split; by constructor.
Qed.

(** The administrators handed to the chart are the configured users in
    order, each with the prefix [sap.ids:] exactly where it was missing; so
    prefixing is idempotent.  The ingress host is the host name of the
    service's first ingress, or its IP when the host name is empty. *)
Theorem CFAPIConfig_values (e : Env) config w values w' :
  run e (CFAPIConfig.CFAPIConfig_GetValues config) w = (Returned values, w') ->
  (exists admins, values !! "cfapiAdmins" = Some (VList (map VString admins))
     /\ Forall2 prefixed (elems (cfg_CFAdmins config)) admins
     /\ Forall2 prefixed admins admins)
  /\ (exists svc ing rest, answers e (CGet KService {| key_ns := "cfapi-system";
                        key_name := cfg_KorifiIngressService config |}) w (Ok svc)
       /\ service_Ingress svc = ing :: rest
       /\ values !! "korifiIngressHost" =
          Some (VString (if decide (ing_Hostname ing = "") then ing_IP ing else ing_Hostname ing))).
Proof.
  unfold CFAPIConfig.CFAPIConfig_GetValues, CFAPIConfig.getKorifiIngressHost, answers. go_simpl.
  destruct (answer e (CGet KService _) w) as [[svc|x] w1]; cbn; [|done].
  case_decide as Hlen; cbn; [done|].
  destruct (service_Ingress svc) as [|ing rest] eqn:Hing; [done|]. cbn.
  intros Hrun. split.
  - exists (map add_prefix (elems (cfg_CFAdmins config))).
    assert (values !! "cfapiAdmins" =
            Some (VList (elems (Collect (it_Map CFAPIConfig.withOIDCPrefix (elems (cfg_CFAdmins config)))))))
      as -> by (case_decide; cbn in Hrun; by simplify_eq).
    rewrite elems_Collect, it_Map_spec.
    rewrite map_map. split; [|apply prefix_all].
    do 2 f_equal. apply map_ext. intros u. unfold CFAPIConfig.withOIDCPrefix, add_prefix.
    by destruct (HasPrefix u "sap.ids:").
  - exists svc, ing, rest. split; [done|]. split; [done|].
    case_decide; cbn in Hrun; by simplify_eq.
Qed.
End CFAPIConfigTheorems.

Lemma CFAPIConfig_values_witness :
  exists values,
    path (VMap values) ["cfapiAdmins"] =
      Some (VList [VString "sap.ids:samir@example.com"; VString "sap.ids:danail@example.com"])
    /\ Forall2 prefixed ["samir@example.com"; "sap.ids:danail@example.com"]
         ["sap.ids:samir@example.com"; "sap.ids:danail@example.com"].
Proof.
  destruct (run (const_env sample_answers)
              (CFAPIConfig.CFAPIConfig_GetValues (H:=Reference.it) sample_config) tt)
    as [[values| |] w'] eqn:H; [|discriminate H|discriminate H].
  exists values.
  destruct (proj1 (CFAPIConfig_values (laws:=Reference.it_laws) _ _ _ _ _ H))
    as (admins & Hv & Hp & _).
  assert (admins = ["sap.ids:samir@example.com"; "sap.ids:danail@example.com"]) as ->.
  { inversion H. subst values. vm_compute in Hv.
    destruct admins as [|a [|b [|]]]; try discriminate Hv. by injection Hv as <- <-. }
  split; [|exact Hp]. cbn. rewrite Hv. reflexivity.
Defined.
