(* ===== verification/HelmClient.v ===== *)
(** * The helm client

    Models src/controllers/helm/client.go: installing, upgrading and
    uninstalling a release through the helm library, whose actions are
    external calls. *)

From S2P Require Export Libs.

#[local] Open Scope Z_scope.
#[local] Open Scope list_scope.

(** [type HelmResult struct]; [release.Status] is a string type. *)
Record HelmResult := { ReleaseStatus : string; hr_Message : string }.

#[export] Instance HelmResult_eq_dec : EqDecision HelmResult.
Proof. solve_decision. Defined.

(** [HelmResult{}] and [reflect.ValueOf(helmResult).IsZero()] *)
Definition zero_HelmResult : HelmResult := {| ReleaseStatus := ""; hr_Message := "" |}.
Definition IsZero_HelmResult (r : HelmResult) : bool := bool_decide (r = zero_HelmResult).

Section Client.
Context {yaml : YamlLib} {helm : HelmLib}.

Definition newHelmActionConfig (releaseNamespace : string) : M unit :=
  wrapping (fun err => ErrWrap "failed to init helm action config: " err "")
    (Call (S:=ext) (CInitActionConfig releaseNamespace) of_result).

Definition getLatestReleases (releaseNamespace releaseName : string) : M (option Release) :=
  _ ← wrapping (fun err => ErrWrap "failed to init helm action config: " err "")
        (newHelmActionConfig releaseNamespace);
  versions ← wrapping (fun err => ErrWrap ("failed to list helm release " +:+ releaseNamespace
                                     +:+ releaseName +:+ ": ") err "")
        (Call (S:=ext) (CListReleases releaseNamespace ("^" +:+ releaseName +:+ "$")) of_result);
  if decide (length versions = 0%nat) then mret None
  else v ← index versions 0; mret (Some v).

Definition marshalUnmarshal (values : Values) : result error Values :=
  match yaml_Marshal values with
  | Fail err => Fail (ErrWrap "failed to marshal values: " err "")
  | Ok valuesBytes =>
      match yaml_Unmarshal valuesBytes with
      | Fail err => Fail (ErrWrap "failed to unmarshal values: " err "")
      | Ok valuesUnmarshalled => Ok valuesUnmarshalled
      end
  end.

Definition equalValues (values1 values2 : Values) : result error bool :=
  match marshalUnmarshal values1 with
  | Fail err => Fail (ErrWrap "failed to marshal-unmarshal values1: " err "")
  | Ok v1 =>
      match marshalUnmarshal values2 with
      | Fail err => Fail (ErrWrap "failed to marshal-unmarshal values2: " err "")
      | Ok v2 => Ok (bool_decide (VMap v1 = VMap v2))
      end
  end.

Definition init_config (releaseNamespace : string) : M unit :=
  wrapping (fun err => ErrWrap "failed to init helm action config: " err "")
    (newHelmActionConfig releaseNamespace).

(** [func (c *Client) install] *)
Definition install (installedChart : Chart) (releaseNamespace releaseName : string)
    (values : Values) : M HelmResult :=
  _ ← init_config releaseNamespace;
  r ← Call (S:=ext) (CRunInstall releaseNamespace releaseName installedChart values) Ret;
  match r with
  | Fail err => mret {| ReleaseStatus := StatusUnknown; hr_Message := error_string err |}
  | Ok rel => status ← deref (rel_Status rel);
              mret {| ReleaseStatus := status; hr_Message := "" |}
  end.

(** [func (c *Client) upgrade] *)
Definition upgrade (upgradedChart : Chart) (releaseNamespace releaseName : string)
    (values : Values) : M HelmResult :=
  _ ← init_config releaseNamespace;
  r ← Call (S:=ext) (CRunUpgrade releaseNamespace releaseName upgradedChart values) Ret;
  match r with
  | Fail err => mret {| ReleaseStatus := StatusUnknown; hr_Message := error_string err |}
  | Ok rel => status ← deref (rel_Status rel);
              mret {| ReleaseStatus := status; hr_Message := "" |}
  end.

Definition failed_latest (releaseNamespace releaseName : string) (err : error) : error :=
  ErrWrap ("failed to get latest release " +:+ releaseName +:+ " in namespace "
             +:+ releaseNamespace +:+ ": ") err "".

(** [func (c *Client) Apply] *)
Definition Apply (chartPath releaseNamespace releaseName : string) (values : Values) : M HelmResult :=
  chart ← wrapping (fun err => ErrWrap ("failed to load chart at " +:+ chartPath +:+ ": ") err "")
            (Call (S:=ext) (CLoadChart chartPath) of_result);
  latestRelease ← wrapping (failed_latest releaseNamespace releaseName)
                    (getLatestReleases releaseNamespace releaseName);
  match latestRelease with
  | None => install chart releaseNamespace releaseName values
  | Some latestRelease =>
      status ← deref (rel_Status latestRelease);
      if IsPending status
      then mret {| ReleaseStatus := status; hr_Message := "operation pending" |}
      else
        equal_values ← wrapping (fun err => ErrWrap "failed to compare release values: " err "")
                         (of_result (equalValues (rel_Config latestRelease) values));
        chartVersion ← deref (chart_Version chart);
        latestChart ← deref (rel_Chart latestRelease);
        latestVersion ← deref (chart_Version latestChart);
        let equalVersions := bool_decide (chartVersion = latestVersion) in
        if equal_values && equalVersions && bool_decide (status <> StatusFailed)
        then mret {| ReleaseStatus := status; hr_Message := "" |}
        else upgrade chart releaseNamespace releaseName values
  end.

(** [func (c *Client) Uninstall] *)
Definition Uninstall (releaseNamespace releaseName : string) : M HelmResult :=
  latestRelease ← wrapping (failed_latest releaseNamespace releaseName)
                    (getLatestReleases releaseNamespace releaseName);
  match latestRelease with
  | None => mret zero_HelmResult
  | Some latestRelease =>
      status ← deref (rel_Status latestRelease);
      if decide (status = StatusUninstalling)
      then mret {| ReleaseStatus := status; hr_Message := "operation pending" |}
      else
        _ ← init_config releaseNamespace;
        r ← Call (S:=ext) (CRunUninstall releaseNamespace releaseName) Ret;
        match r with
        | Fail err => mret {| ReleaseStatus := StatusUnknown; hr_Message := error_string err |}
        | Ok None => mret zero_HelmResult
        | Ok (Some uninstResult) =>
            mret {| ReleaseStatus :=
                      match unr_Release uninstResult with
                      | Some rel => match rel_Status rel with Some s => s | None => "" end
                      | None => ""
                      end;
                    hr_Message := unr_Info uninstResult |}
        end
  end.
End Client.

#[global] Arguments newHelmActionConfig : simpl never.
#[global] Arguments init_config : simpl never.
#[global] Arguments getLatestReleases : simpl never.
#[global] Arguments install : simpl never.
#[global] Arguments upgrade : simpl never.
#[global] Arguments Apply : simpl never.
#[global] Arguments Uninstall : simpl never.

(** ** Abstract specification: what to do with a release *)

Inductive plan :=
| PInstall
| PUpgrade
| PReport (status message : string).

Section Plan.
Context {yaml : YamlLib} {helm : HelmLib}.

(** Two maps of values are the same for helm when they have the same
    normal form under marshalling and unmarshalling. *)
Definition same_values (v1 v2 : Values) : Prop :=
  exists n, marshalUnmarshal v1 = Ok n /\ marshalUnmarshal v2 = Ok n.

(** What [Apply] owes to the latest release of a name: install what is not
    there, leave a pending operation alone, upgrade what failed or differs
    in values or chart version, report the rest. *)
Inductive planned (ch : Chart) (values : Values) : option Release -> plan -> Prop :=
| plan_install : planned ch values None PInstall
| plan_pending rel status :
    rel_Status rel = Some status -> IsPending status = true ->
    planned ch values (Some rel) (PReport status "operation pending")
| plan_keep rel status old :
    rel_Status rel = Some status -> IsPending status = false -> status <> StatusFailed ->
    rel_Chart rel = Some old -> is_Some (chart_Version ch) ->
    chart_Version old = chart_Version ch -> same_values (rel_Config rel) values ->
    planned ch values (Some rel) (PReport status "")
| plan_upgrade rel status old n1 n2 :
    rel_Status rel = Some status -> IsPending status = false ->
    rel_Chart rel = Some old -> is_Some (chart_Version old) -> is_Some (chart_Version ch) ->
    marshalUnmarshal (rel_Config rel) = Ok n1 -> marshalUnmarshal values = Ok n2 ->
    status = StatusFailed \/ chart_Version old <> chart_Version ch \/ n1 <> n2 ->
    planned ch values (Some rel) PUpgrade.
End Plan.

(** ** Theorems *)

(** What the library's answer to an install or upgrade becomes. *)
Definition helm_outcome (r : result error Release) : outcome error HelmResult :=
  match r with
  | Fail err => Returned {| ReleaseStatus := StatusUnknown; hr_Message := error_string err |}
  | Ok rel => match rel_Status rel with
              | Some s => Returned {| ReleaseStatus := s; hr_Message := "" |}
              | None => Panicked "invalid memory address or nil pointer dereference"
              end
  end.

Section Refinement.
Context {yaml : YamlLib} {helm : HelmLib}.
Context (e : Env) {pure : PureReads e} (w : world e).
Context (path ns name : string) (ch : Chart) (rels : list Release).

(** The chart loads, helm can be configured, and [rels] is its answer to
    the query for the latest release. *)
Definition helm_reachable : Prop :=
  answers e (CInitActionConfig ns) w (Ok tt)
  /\ answers e (CListReleases ns ("^" +:+ name +:+ "$")) w (Ok rels).

Definition chart_loads : Prop := answers e (CLoadChart path) w (Ok ch).

Lemma run_newHelmActionConfig :
  answers e (CInitActionConfig ns) w (Ok tt) ->
  run e (newHelmActionConfig ns) w = (Returned tt, w)
  /\ calls e (newHelmActionConfig ns) w = [CInitActionConfig ns].
Proof.
  intros Hinit. unfold newHelmActionConfig. go_simpl.
  rewrite (read_is e _ w _ Hinit I). by split.
Qed.

Lemma run_init_config :
  answers e (CInitActionConfig ns) w (Ok tt) ->
  run e (init_config ns) w = (Returned tt, w)
  /\ calls e (init_config ns) w = [CInitActionConfig ns].
Proof.
  intros Hinit. unfold init_config. rewrite run_wrapping, calls_wrapping.
  destruct (run_newHelmActionConfig Hinit) as [-> ->]. by split.
Qed.

Lemma run_getLatestReleases :
  helm_reachable ->
  run e (getLatestReleases ns name) w = (Returned (head rels), w)
  /\ calls e (getLatestReleases ns name) w
     = [CInitActionConfig ns; CListReleases ns ("^" +:+ name +:+ "$")].
Proof.
  intros [Hinit Hlist]. unfold getLatestReleases.
  rewrite run_bind, calls_bind, run_wrapping, calls_wrapping.
  destruct (run_newHelmActionConfig Hinit) as [-> ->]. cbn.
  rewrite (read_is e _ w _ Hlist I). by destruct rels as [|r rs].
Qed.

Lemma marshal_equal v1 v2 n1 n2 :
  marshalUnmarshal v1 = Ok n1 -> marshalUnmarshal v2 = Ok n2 ->
  equalValues v1 v2 = Ok (bool_decide (n1 = n2)).
Proof.
  unfold equalValues. intros -> ->. f_equal. apply bool_decide_ext.
  split; [by intros [=]|by intros ->].
Qed.

Lemma run_install values :
  helm_reachable ->
  (run e (install ch ns name values) w).1
    = helm_outcome (answer e (CRunInstall ns name ch values) w).1
  /\ mutations e (install ch ns name values) w = [CRunInstall ns name ch values].
Proof.
  intros [Hinit _]. unfold mutations, install.
  rewrite run_bind, calls_bind. destruct (run_init_config Hinit) as [-> ->]. cbn.
  destruct (answer e (CRunInstall ns name ch values) w) as [[rel|err] w1]; cbn;
    [|done]. destruct (rel_Status rel); done.
Qed.

Lemma run_upgrade values :
  helm_reachable ->
  (run e (upgrade ch ns name values) w).1
    = helm_outcome (answer e (CRunUpgrade ns name ch values) w).1
  /\ mutations e (upgrade ch ns name values) w = [CRunUpgrade ns name ch values].
Proof.
  intros [Hinit _]. unfold mutations, upgrade.
  rewrite run_bind, calls_bind. destruct (run_init_config Hinit) as [-> ->]. cbn.
  destruct (answer e (CRunUpgrade ns name ch values) w) as [[rel|err] w1]; cbn;
    [|done]. destruct (rel_Status rel); done.
Qed.

(** What [Apply] does once the chart and the latest release are known. *)
Lemma Apply_after_reads values :
  chart_loads -> helm_reachable ->
  exists p : M HelmResult,
    (run e (Apply path ns name values) w = run e p w)
    /\ (mutations e (Apply path ns name values) w = mutations e p w)
    /\ p = match head rels with
           | None => install ch ns name values
           | Some rel =>
               status ← deref (rel_Status rel);
               if IsPending status
               then mret {| ReleaseStatus := status; hr_Message := "operation pending" |}
               else
                 equal_values ← wrapping (fun err => ErrWrap "failed to compare release values: " err "")
                                  (of_result (equalValues (rel_Config rel) values));
                 chartVersion ← deref (chart_Version ch);
                 latestChart ← deref (rel_Chart rel);
                 latestVersion ← deref (chart_Version latestChart);
                 if equal_values && bool_decide (chartVersion = latestVersion)
                    && bool_decide (status <> StatusFailed)
                 then mret {| ReleaseStatus := status; hr_Message := "" |}
                 else upgrade ch ns name values
           end.
Proof.
  intros Hch Hreach. destruct (run_getLatestReleases Hreach) as [Hrun Hcalls]. eexists. split; [|split; [|reflexivity]];
    unfold mutations, Apply; rewrite ?run_bind, ?calls_bind, ?run_wrapping, ?calls_wrapping;
    cbn; rewrite (read_is e _ w _ Hch I); cbn; rewrite ?run_bind, ?calls_bind, ?run_wrapping, ?calls_wrapping;
    rewrite ?Hcalls, Hrun; by destruct (head rels).
Qed.

(** (C18) [Apply] implements the plan for the latest release: with the chart
    loaded and helm reachable it issues exactly the helm operation the plan
    names, and none when the plan is to report a status; a report returns
    that status and changes nothing, an install or upgrade returns the
    status the library answers with, or status unknown with its error. *)
Theorem Apply_refines_plan values p :
  chart_loads -> helm_reachable -> planned ch values (head rels) p ->
  match p with
  | PInstall =>
      mutations e (Apply path ns name values) w = [CRunInstall ns name ch values]
      /\ (run e (Apply path ns name values) w).1
         = helm_outcome (answer e (CRunInstall ns name ch values) w).1
  | PUpgrade =>
      mutations e (Apply path ns name values) w = [CRunUpgrade ns name ch values]
      /\ (run e (Apply path ns name values) w).1
         = helm_outcome (answer e (CRunUpgrade ns name ch values) w).1
  | PReport status message =>
      mutations e (Apply path ns name values) w = []
      /\ run e (Apply path ns name values) w
         = (Returned {| ReleaseStatus := status; hr_Message := message |}, w)
  end.
Proof.
  intros Hch Hreach Hplan.
  destruct (Apply_after_reads values Hch Hreach) as (q & -> & -> & ->).
  destruct Hplan as [|rel status Hs Hp|rel status old Hs Hp Hf Hold [v Hv] Hver (n & Hn1 & Hn2)
                    |rel status old n1 n2 Hs Hp Hold [v' Hv'] [v Hv] Hn1 Hn2 Hdiff]; cbn [head].
  - by destruct (run_install values Hreach) as [-> ->].
  - rewrite Hs. cbn. rewrite Hp. by split.
  - rewrite Hs. cbn. rewrite Hp, (marshal_equal _ _ _ _ Hn1 Hn2), Hv, Hold. cbn.
    rewrite Hver, Hv. cbn.
    rewrite !bool_decide_eq_true_2 by done. by split.
  - rewrite Hs. cbn. rewrite Hp, (marshal_equal _ _ _ _ Hn1 Hn2), Hv, Hold. cbn.
    rewrite Hv'. cbn.
    assert (bool_decide (n1 = n2) && bool_decide (v = v') && bool_decide (status <> StatusFailed)
            = false) as ->.
    { rewrite !andb_false_iff, !bool_decide_eq_false.
      destruct Hdiff as [->|[Hd|Hd]]; [right; tauto| |by left; left].
      left. right. congruence. }
    by destruct (run_upgrade values Hreach) as [-> ->].
Qed.

(** [Uninstall] answers with the zero result, which its caller takes for
    "uninstalled", exactly when helm lists no release of the name, or the
    uninstall action answers nothing: no response at all, or a response
    without a message whose release has no status.  In particular a
    successful uninstall that reports the status of the removed release is
    not yet the end: one more call has to find the release gone. *)
Theorem Uninstall_zero_iff :
  helm_reachable -> (forall rel, head rels = Some rel -> is_Some (rel_Status rel)) ->
  (run e (Uninstall ns name) w).1 = Returned zero_HelmResult
  <-> match head rels with
      | None => True
      | Some rel =>
          rel_Status rel <> Some StatusUninstalling
          /\ match (answer e (CRunUninstall ns name) w).1 with
             | Ok None => True
             | Ok (Some resp) =>
                 unr_Info resp = ""
                 /\ default "" (unr_Release resp ≫= rel_Status) = ""
             | Fail _ => False
             end
      end.
Proof.
  intros Hreach Hstatus. unfold Uninstall. rewrite run_bind, run_wrapping.
  destruct (run_getLatestReleases Hreach) as [-> _].
  destruct (head rels) as [rel|] eqn:Hhead; [|done]. cbn.
  destruct (Hstatus rel eq_refl) as [status Hs]. rewrite Hs. cbn.
  destruct (decide (status = StatusUninstalling)) as [->|Hne].
  { split; [done|]. intros [Hx _]. by destruct Hx. }
  rewrite run_bind. destruct Hreach as [Hinit _].
  destruct (run_init_config Hinit) as [-> _]. cbn.
  destruct (answer e (CRunUninstall ns name) w) as [[[resp|]|err] w1]; cbn.
  - assert (match unr_Release resp with
            | Some r => match rel_Status r with Some s => s | None => "" end
            | None => "" end = default "" (unr_Release resp ≫= rel_Status)) as ->
      by (by destruct (unr_Release resp)).
    unfold zero_HelmResult. split; [intros [= -> ->]|intros (_ & -> & ->)]; [|done].
    split; [congruence|done].
  - split; [split; [congruence|done]|done].
  - split; [done|]. by intros [_ []].
Qed.
End Refinement.

(** ** Witnesses *)

Definition sample_values : Values := map_of [("domain", VString "example.com")].
Definition sample_chart : Chart := {| chart_Version := Some "1.2.0"; chart_content := "korifi" |}.
Definition sample_release (status version : string) : Release :=
  {| rel_Status := Some status;
     rel_Chart := Some {| chart_Version := Some version; chart_content := "korifi" |};
     rel_Config := sample_values |}.

(** Helm with one release: upgrades succeed, uninstalling reports the release
    it removed. *)
Definition helm_answers (rel : Release) (c : call) : reply c :=
  match c with
  | CLoadChart _ => Ok sample_chart
  | CInitActionConfig _ => Ok tt
  | CListReleases _ _ => Ok [rel]
  | CRunUpgrade _ _ _ _ => Ok (sample_release StatusDeployed "1.2.0")
  | CRunUninstall _ _ => Ok (Some {| unr_Release := Some (sample_release "uninstalled" "1.2.0"); unr_Info := "" |})
  | c => no_answers c
  end.

Definition sample_yaml : YamlLib := Reference.yaml_table [("domain: example.com", sample_values)] [].

Lemma Apply_refines_plan_witness :
  let e := const_env (helm_answers (sample_release StatusFailed "1.2.0")) in
  mutations e (Apply (yaml:=sample_yaml) (helm:=Reference.helm) "./chart" "korifi" "korifi" sample_values) tt
  = [CRunUpgrade "korifi" "korifi" sample_chart sample_values].
Proof.
  intros e.
  refine (proj1 (Apply_refines_plan (yaml:=sample_yaml) (helm:=Reference.helm) e tt "./chart" "korifi" "korifi"
    sample_chart [sample_release StatusFailed "1.2.0"] sample_values PUpgrade _ _ _)).
  - reflexivity.
  - by split.
  - eapply plan_upgrade with (n1 := sample_values) (n2 := sample_values);
      try reflexivity; try (eexists; reflexivity). by left.
Defined.

Lemma Uninstall_zero_iff_witness :
  let e := const_env (helm_answers (sample_release StatusDeployed "1.2.0")) in
  ~ (run e (Uninstall "korifi" "korifi") tt).1 = Returned zero_HelmResult.
Proof.
  intros e H.
  apply (Uninstall_zero_iff e tt "korifi" "korifi" [sample_release StatusDeployed "1.2.0"]) in H.
  - destruct H as (_ & _ & H). discriminate H.
  - by split.
  - intros rel [= <-]. by eexists.
Defined.
