(* ===== verification/Installable.v ===== *)
(** * Installables

    Models src/controllers/installable: installable.go (the interface and its
    results), events.go, conditional.go, helm.go, yaml.go and orgs.go.  One
    Module per implementation of the interface. *)

From S2P Require Export HelmValues HelmClient.

#[local] Open Scope Z_scope.
#[local] Open Scope list_scope.

(** ** installable.go *)

(** [type ResultState int] with its iota constants. *)
Inductive ResultState :=
| ResultStateSuccess
| ResultStateInProgress
| ResultStateFailed.

#[export] Instance ResultState_eq_dec : EqDecision ResultState.
Proof. solve_decision. Defined.

(** [int(state)] *)
Definition int_of_state (s : ResultState) : Z :=
  match s with
  | ResultStateSuccess => 0
  | ResultStateInProgress => 1
  | ResultStateFailed => 2
  end.

Record Result := { r_State : ResultState; r_Message : string }.

(** ** events.go *)

Definition EventWarning : string := "Warning".
Definition EventNormal : string := "Normal".

(** [type EventRecorder interface] *)
Record EventRecorder := { Event : string -> string -> string -> M unit }.

(** [NewCFAPIEventRecorder]: events regard the CFAPI the pointer refers to. *)
Definition NewCFAPIEventRecorder (cfAPI : ObjectKey) : EventRecorder :=
  {| Event eventtype reason message :=
       Call (S:=ext) (CEventf cfAPI eventtype reason "Reconcile" message) Ret |}.

(** [type Installable interface]; a Go error is an [Err] of the program. *)
Record Installable := {
  Install : InstallationConfig -> EventRecorder -> M Result;
  Uninstall : InstallationConfig -> EventRecorder -> M Result;
  InstallableName : string
}.

(** ** conditional.go *)

Definition Predicate : Type := InstallationConfig -> bool.

Module Conditional.
Section Conditional.
Context (predicate : Predicate) (delegate : Installable).

Definition Conditional_Name : string :=
  "Conditional Installable: " +:+ InstallableName delegate.

Definition Conditional_Install (config : InstallationConfig) (eventRecorder : EventRecorder) : M Result :=
  if predicate config then Install delegate config eventRecorder
  else Uninstall delegate config eventRecorder.

Definition Conditional_Uninstall (config : InstallationConfig) (eventRecorder : EventRecorder) : M Result :=
  Uninstall delegate config eventRecorder.

Definition NewConditional : Installable :=
  {| Install := Conditional_Install; Uninstall := Conditional_Uninstall;
     InstallableName := Conditional_Name |}.
End Conditional.
End Conditional.

(** ** helm.go *)

(** [type HelmClient interface] *)
Record HelmClient := {
  client_Apply : string -> string -> string -> Values -> M HelmResult;
  client_Uninstall : string -> string -> M HelmResult
}.

(** The client of src/controllers/helm implements it. *)
Definition NewClient `{YamlLib} `{HelmLib} : HelmClient :=
  {| client_Apply := HelmClient.Apply; client_Uninstall := HelmClient.Uninstall |}.

Module HelmChart.
Section HelmChart.
Context (chartPath namespace name : string)
  (valuesProvider : HelmValuesProvider) (helmClient : HelmClient).

Definition HelmChart_Name : string := "Helm Installable: " +:+ name.

Definition in_status (r : HelmResult) : string :=
  "helm chart " +:+ name +:+ " is in status " +:+ ReleaseStatus r +:+ ": " +:+ hr_Message r.

Definition HelmChart_Install (config : InstallationConfig) (eventRecorder : EventRecorder) : M Result :=
  values ← try (GetValues valuesProvider config);
  match values with
  | Fail err =>
      mret {| r_State := ResultStateInProgress;
              r_Message := "failed to get helm chart " +:+ name +:+ " values: " +:+ error_string err |}
  | Ok values =>
      helmResult ← try (client_Apply helmClient chartPath namespace name values);
      match helmResult with
      | Fail err =>
          mret {| r_State := ResultStateFailed;
                  r_Message := "failed to install/upgrade helm chart " +:+ name +:+ ": "
                                 +:+ error_string err |}
      | Ok helmResult =>
          _ ← Event eventRecorder EventNormal "HelmChartApplied"
                ("Helm chart " +:+ name +:+ " applied with status " +:+ ReleaseStatus helmResult);
          if decide (ReleaseStatus helmResult = StatusDeployed) then
            _ ← Event eventRecorder EventNormal "HelmChartDeployed"
                  ("Helm chart " +:+ name +:+ " deployed successfully");
            mret {| r_State := ResultStateSuccess; r_Message := "" |}
          else if decide (ReleaseStatus helmResult = StatusFailed) then
            _ ← Event eventRecorder EventWarning "HelmChartDeploymentFailed"
                  ("Helm chart " +:+ name +:+ " failed to deploy: " +:+ hr_Message helmResult);
            mret {| r_State := ResultStateFailed; r_Message := hr_Message helmResult |}
          else
            _ ← Event eventRecorder EventNormal "HelmChartDeploying"
                  ("Helm chart " +:+ name +:+ " is being deployed");
            mret {| r_State := ResultStateInProgress; r_Message := in_status helmResult |}
      end
  end.

Definition HelmChart_Uninstall (config : InstallationConfig) (eventRecorder : EventRecorder) : M Result :=
  helmResult ← try (client_Uninstall helmClient namespace name);
  match helmResult with
  | Fail err =>
      mret {| r_State := ResultStateFailed;
              r_Message := "failed to uninstall helm chart " +:+ name +:+ ": " +:+ error_string err |}
  | Ok helmResult =>
      _ ← Event eventRecorder EventNormal "HelmChartUninstalled"
            ("Helm chart " +:+ name +:+ " uninstalled with status " +:+ ReleaseStatus helmResult);
      if IsZero_HelmResult helmResult then
        _ ← Event eventRecorder EventNormal "HelmChartUninstalled"
              ("Helm chart " +:+ name +:+ " uninstalled successfully");
        mret {| r_State := ResultStateSuccess; r_Message := "" |}
      else
        _ ← Event eventRecorder EventNormal "HelmChartUninstalling"
              ("Helm chart " +:+ name +:+ " is being uninstalled");
        mret {| r_State := ResultStateInProgress; r_Message := in_status helmResult |}
  end.

Definition NewHelmChart : Installable :=
  {| Install := HelmChart_Install; Uninstall := HelmChart_Uninstall;
     InstallableName := HelmChart_Name |}.
End HelmChart.
End HelmChart.

(** ** orgs.go *)

Module Orgs.

Definition Orgs_Name : string := "Orgs Installable".

Definition Orgs_Install (config : InstallationConfig) (eventRecorder : EventRecorder) : M Result :=
  Panic "not supported".

Definition deleteAllOrgs (rootNs : string) : M unit :=
  r ← try (DeleteAllOf KCFOrg rootNs); of_result (IgnoreNotFound r).

Definition remainingOrgsCount : M Z :=
  r ← try (List_ KCFOrg);
  match r with
  | Fail err => if IsNotFound err then mret 0 else Err err
  | Ok items => mret (Z.of_nat (length items))
  end.

Definition failed_event (eventRecorder : EventRecorder) : M unit :=
  Event eventRecorder EventWarning "InstallableFailed" ("Installable " +:+ Orgs_Name +:+ " failed").

Definition Orgs_Uninstall (config : InstallationConfig) (eventRecorder : EventRecorder) : M Result :=
  r ← try (deleteAllOrgs (cfg_RootNamespace config));
  match r with
  | Fail err => _ ← failed_event eventRecorder; Err (ErrWrap "failed to delete orgs: " err "")
  | Ok _ =>
      r ← try remainingOrgsCount;
      match r with
      | Fail err => _ ← failed_event eventRecorder; Err (ErrWrap "failed to list remaining orgs: " err "")
      | Ok orgsCount =>
          if orgsCount >? 0
          then mret {| r_State := ResultStateInProgress;
                       r_Message := Itoa orgsCount +:+ " orgs remaining" |}
          else mret {| r_State := ResultStateSuccess; r_Message := "Orgs deleted successfully" |}
      end
  end.

Definition NewOrgs : Installable :=
  {| Install := Orgs_Install; Uninstall := Orgs_Uninstall; InstallableName := Orgs_Name |}.
End Orgs.

(** ** yaml.go *)

Module Yaml.
Section Yaml.
Context {yaml : YamlLib} {unstr : UnstructuredLib} {uni : Unicode}.

(** The loop of [parseToUnstructuredObjects]; the fuel bounds the number of
    documents read. *)
Fixpoint parse_loop (fuel : nat) (reader : YAMLReader) (objects : list Unstructured)
    : option (result error (list Unstructured)) :=
  match fuel with
  | O => None
  | S fuel =>
      match YAMLReader_Read reader with
      | (Fail err, _) =>
          if IsEOF err then Some (Ok objects)
          else Some (Fail (ErrWrap "invalid YAML doc: " err ""))
      | (Ok rawBytes, reader) =>
          let rawBytes := TrimSpace rawBytes in
          if decide (rawBytes = "" \/ rawBytes = "null") then parse_loop fuel reader objects
          else
            match yaml_UnmarshalObject rawBytes with
            | Fail err =>
                Some (Fail (ErrWrap ("failed to unmarshal " +:+ Quote rawBytes
                                       +:+ " to unstructured: ") err ""))
            | Ok unstructuredObj =>
                if decide (size (Object unstructuredObj) = 0%nat) then parse_loop fuel reader objects
                else parse_loop fuel reader (objects ++ [unstructuredObj])
            end
      end
  end.

Definition parse (yamlContent : string) : option (result error (list Unstructured)) :=
  parse_loop (S (String.length yamlContent)) (NewYAMLReader yamlContent) [].

Definition parseToUnstructuredObjects (yamlContent : string) : M (list Unstructured) :=
  match parse yamlContent with
  | Some r => of_result r
  | None => Panic "parse loop out of fuel"
  end.

Definition fileToUnstructuredObjects (yamlFilePath : string) : M (list Unstructured) :=
  yamlBytes ← wrapping (fun err => ErrWrap ("failed to read file " +:+ yamlFilePath +:+ ": ") err "")
                (Call (S:=ext) (CReadFile yamlFilePath) of_result);
  parseToUnstructuredObjects yamlBytes.

Fixpoint files_loop (objects : list Unstructured) (matchedFiles : list string) : M (list Unstructured) :=
  match matchedFiles with
  | [] => mret objects
  | file :: files =>
      fileObject ← fileToUnstructuredObjects file;
      files_loop (objects ++ fileObject) files
  end.

Definition globToUnstructuredObjects (yamlGlob : string) : M (list Unstructured) :=
  matchedFiles ← Call (S:=ext) (CGlob yamlGlob) of_result;
  if decide (length matchedFiles = 0%nat)
  then Err (ErrText ("no matches found for pattern " +:+ yamlGlob))
  else files_loop [] matchedFiles.

Definition slash (a b : string) : string := a +:+ "/" +:+ b.

(** [func setResourceVersion], on success the changed object. *)
Definition setResourceVersion (obj : Unstructured) (resourceVersion : string) : M Unstructured :=
  _ ← wrapping (fun err => ErrWrap ("failed to get meta accessor for "
                             +:+ slash (GetNamespace obj) (GetName obj) +:+ ": ") err "")
        (of_result (MetaAccessor obj));
  mret (SetResourceVersion resourceVersion obj).

Definition createOrUpdate (obj : Unstructured) : M unit :=
  partialObj ← wrapping (fun err => ErrWrap ("failed to convert unstructured "
                            +:+ slash (GetNamespace obj) (GetName obj) +:+ " to partialObj: ") err "")
                 (of_result (FromUnstructuredPartial obj));
  r ← Call (S:=ext) (CGetMetadata (partial_gvk partialObj)
                       (ObjectKeyFromObject (partial_meta partialObj))) Ret;
  match r with
  | Fail err =>
      if IsNotFound err then Call (S:=ext) (CCreate obj) of_result
      else Err (ErrWrap ("failed to get existing object "
                 +:+ slash (Namespace (partial_meta partialObj)) (Name (partial_meta partialObj))
                 +:+ ": ") err "")
  | Ok existing =>
      obj ← wrapping (fun err => ErrWrap ("failed to set resource version for "
                       +:+ slash (GetNamespace obj) (GetName obj) +:+ ": ") err "")
              (setResourceVersion obj (ResourceVersion existing));
      wrapping (fun err => ErrWrap "failed to update existing object: " err "")
        (Call (S:=ext) (CUpdate obj) of_result)
  end.

(** [func (y *Yaml) delete] *)
Definition delete (obj : Unstructured) : M bool :=
  r ← Call (S:=ext) (CDeleteUnstructured obj) Ret;
  match r with
  | Fail err => if IsNotFound err then mret true else Err err
  | Ok _ => mret false
  end.

Context (yamlGlob displayName : string).

Definition Yaml_Name : string := "Yaml Installable: " +:+ displayName.

Fixpoint install_loop (eventRecorder : EventRecorder) (objects : list Unstructured) : M unit :=
  match objects with
  | [] => mret tt
  | obj :: objs =>
      r ← try (createOrUpdate obj);
      match r with
      | Fail err =>
          _ ← Event eventRecorder EventWarning "InstallableFailed"
                ("Installable " +:+ displayName +:+ " failed");
          Err (ErrWrap ("failed to create/update " +:+ slash (GetKind obj) (GetName obj) +:+ ": ") err "")
      | Ok _ => install_loop eventRecorder objs
      end
  end.

Definition Yaml_Install (config : InstallationConfig) (eventRecorder : EventRecorder) : M Result :=
  r ← try (globToUnstructuredObjects yamlGlob);
  match r with
  | Fail err => mret {| r_State := ResultStateFailed; r_Message := error_string err |}
  | Ok objects =>
      _ ← install_loop eventRecorder objects;
      _ ← Event eventRecorder EventNormal "InstallableDeployed"
            ("Installable " +:+ displayName +:+ " deployed");
      mret {| r_State := ResultStateSuccess;
              r_Message := displayName +:+ " installed successfully" |}
  end.

Fixpoint uninstall_loop (eventRecorder : EventRecorder) (allDeleted : bool)
    (objects : list Unstructured) : M bool :=
  match objects with
  | [] => mret allDeleted
  | obj :: objs =>
      r ← try (delete obj);
      match r with
      | Fail err =>
          _ ← Event eventRecorder EventWarning "InstallableFailed"
                ("Uninstalling " +:+ displayName +:+ " failed");
          Err (ErrWrap ("failed to delete " +:+ slash (GetKind obj) (GetName obj) +:+ ": ") err "")
      | Ok isGone => uninstall_loop eventRecorder (allDeleted && isGone) objs
      end
  end.

Definition Yaml_Uninstall (config : InstallationConfig) (eventRecorder : EventRecorder) : M Result :=
  r ← try (globToUnstructuredObjects yamlGlob);
  match r with
  | Fail err => mret {| r_State := ResultStateFailed; r_Message := error_string err |}
  | Ok objects =>
      allDeleted ← uninstall_loop eventRecorder true objects;
      if allDeleted : bool then
        _ ← Event eventRecorder EventNormal "InstallableUninstalled"
              ("Installable " +:+ displayName +:+ " uninstalled");
        mret {| r_State := ResultStateSuccess;
                r_Message := displayName +:+ " uninstalled successfully" |}
      else
        mret {| r_State := ResultStateInProgress;
                r_Message := displayName +:+ " is being uninstalled" |}
  end.

Definition NewYaml : Installable :=
  {| Install := Yaml_Install; Uninstall := Yaml_Uninstall; InstallableName := Yaml_Name |}.
End Yaml.
End Yaml.
