(* ===== verification/YamlSpec.v ===== *)
(** * Correctness of the YAML installable

    Termination and functional behaviour of the manifest parser, creation or
    update of an object, and what an installation and an uninstallation of a
    manifest do to the cluster (src/controllers/installable/yaml.go). *)

From S2P Require Export Installable.

#[local] Open Scope Z_scope.
#[local] Open Scope list_scope.

#[global] Arguments Yaml.globToUnstructuredObjects : simpl never.
#[global] Arguments Yaml.createOrUpdate : simpl never.
#[global] Arguments Yaml.delete : simpl never.

Section Parser.
Context {yaml : YamlLib} {uni : Unicode}.

(** The documents a reader hands out, and the error it ends with. *)
Inductive reads : YAMLReader -> list string -> error -> Prop :=
| reads_end r r' err : YAMLReader_Read r = (Fail err, r') -> reads r [] err
| reads_doc r doc r' docs err :
    YAMLReader_Read r = (Ok doc, r') -> reads r' docs err -> reads r (doc :: docs) err.

(** What one document contributes: nothing when it is blank, [null] or
    decodes to an object without fields. *)
Definition decode_doc (doc : string) : result error (list Unstructured) :=
  let rawBytes := TrimSpace doc in
  if decide (rawBytes = "" \/ rawBytes = "null") then Ok []
  else match yaml_UnmarshalObject rawBytes with
       | Fail err => Fail (ErrWrap ("failed to unmarshal " +:+ Quote rawBytes
                                      +:+ " to unstructured: ") err "")
       | Ok o => if decide (size (Object o) = 0%nat) then Ok [] else Ok [o]
       end.

(** The objects of a list of documents in order, or the first failure. *)
Definition decode_docs (docs : list string) : result error (list Unstructured) :=
  match try_map decode_doc docs with
  | Ok l => Ok (concat l)
  | Fail err => Fail err
  end.

Definition parse_result (docs : list string) (err : error) (objects : list Unstructured)
    : result error (list Unstructured) :=
  match decode_docs docs with
  | Fail e => Fail e
  | Ok objs => if IsEOF err then Ok (objects ++ objs)
               else Fail (ErrWrap "invalid YAML doc: " err "")
  end.

Lemma parse_loop_reads r docs err :
  reads r docs err -> forall fuel objects, (length docs < fuel)%nat ->
  Yaml.parse_loop fuel r objects = Some (parse_result docs err objects).
Proof.
  unfold parse_result, decode_docs.
  induction 1 as [r r' err Hr|r doc r' docs err Hr _ IH]; intros [|fuel] objects Hfuel; cbn in *;
    try lia; rewrite Hr.
  - rewrite app_nil_r. by destruct (IsEOF err).
  - unfold decode_doc at 1. case_decide.
    + rewrite IH by lia. by destruct (try_map decode_doc docs).
    + destruct (yaml_UnmarshalObject (TrimSpace doc)) as [o|x]; [|done].
      case_decide; rewrite IH by lia; destruct (try_map decode_doc docs); cbn; try done.
      by rewrite <- app_assoc.
Qed.

Lemma reads_total {laws : YamlLaws} r :
  exists docs err, reads r docs err /\ (length docs <= yaml_remaining r)%nat.
Proof.
  enough (forall n r, yaml_remaining r = n ->
            exists docs err, reads r docs err /\ (length docs <= n)%nat) by eauto.
  clear r. intros n. induction (lt_wf n) as [n _ IH]. intros r Hr.
  destruct (YAMLReader_Read r) as [[doc|err] r'] eqn:Hread.
  - pose proof (YAMLReader_Read_remaining r doc r' Hread) as Hlt.
    destruct (IH (yaml_remaining r') ltac:(lia) r' eq_refl) as (docs & err & Hd & Hlen).
    exists (doc :: docs), err. split; [by econstructor|cbn; lia].
  - exists [], err. split; [by econstructor|cbn; lia].
Qed.

(** (C21) Parsing a manifest terminates: the fuel of one more than its bytes
    is never used up, so the parser always comes to a list of objects or an
    error, and the program never panics there. *)
Theorem parse_terminates (laws : YamlLaws) (yamlContent : string) :
  exists r, Yaml.parse yamlContent = Some r
            /\ Yaml.parseToUnstructuredObjects yamlContent = of_result r.
Proof.
  destruct (reads_total (NewYAMLReader yamlContent)) as (docs & err & Hd & Hlen).
  pose proof (NewYAMLReader_remaining yamlContent) as Hrem.
  assert (Yaml.parse yamlContent = Some (parse_result docs err [])) as Hp.
  { unfold Yaml.parse. apply parse_loop_reads; [done|lia]. }
  eexists. split; [exact Hp|]. unfold Yaml.parseToUnstructuredObjects. by rewrite Hp.
Qed.

(** (C20) The parser is the declarative decoding of the reader's documents:
    when the reader hands out [docs] and then the error [err], the result is
    the concatenation of the objects of the documents (blank documents,
    [null] and empty objects contribute nothing), the first document that
    cannot be decoded makes it fail, and an end other than EOF makes it fail
    as an invalid document. *)
Theorem parse_is_decode (laws : YamlLaws) (yamlContent : string) docs err :
  reads (NewYAMLReader yamlContent) docs err ->
  Yaml.parse yamlContent =
  Some (match decode_docs docs with
        | Fail e => Fail e
        | Ok objs => if IsEOF err then Ok objs else Fail (ErrWrap "invalid YAML doc: " err "")
        end).
Proof.
  intros Hd. unfold Yaml.parse.
  assert (Hdet : forall r ds e, reads r ds e -> forall ds' e', reads r ds' e' -> ds = ds' /\ e = e').
  { clear. induction 1 as [r r' e Hr|r doc r' ds e Hr _ IH]; intros ds' e' H';
      inversion H' as [? ? ? Hr'|? ? ? ? ? Hr' Hd']; subst; rewrite Hr in Hr'; simplify_eq; [done|].
    by destruct (IH _ _ Hd') as [-> ->]. }
  destruct (reads_total (NewYAMLReader yamlContent)) as (docs' & err' & Hd' & Hlen).
  destruct (Hdet _ _ _ Hd' _ _ Hd) as [-> ->].
  pose proof (NewYAMLReader_remaining yamlContent).
  rewrite (parse_loop_reads _ _ _ Hd) by lia. done.
Qed.
End Parser.

(** ** Creating, updating and deleting objects *)

Section Cluster.
Context {yaml : YamlLib} {unstr : UnstructuredLib} {uni : Unicode}.
Context (e : Env).

Lemma mutations_createOrUpdate obj w :
  mutations e (Yaml.createOrUpdate obj) w =
  match FromUnstructuredPartial obj with
  | Fail _ => []
  | Ok partial =>
      match (answer e (CGetMetadata (partial_gvk partial)
                         (ObjectKeyFromObject (partial_meta partial))) w).1 with
      | Fail err => if IsNotFound err then [CCreate obj] else []
      | Ok existing =>
          match MetaAccessor obj with
          | Ok _ => [CUpdate (SetResourceVersion (ResourceVersion existing) obj)]
          | Fail _ => []
          end
      end
  end.
Proof.
  unfold mutations, Yaml.createOrUpdate.
  destruct (FromUnstructuredPartial obj) as [p|x]; [|done]. cbn.
  destruct (answer e (CGetMetadata _ _) w) as [[existing|x] w1]; cbn.
  - unfold Yaml.setResourceVersion. autorewrite with go_db. cbn.
    destruct (MetaAccessor obj) as [u|x]; [|done]. cbn. autorewrite with go_db. cbn.
    by destruct (answer e (CUpdate _) w1) as [[] ?].
  - destruct (IsNotFound x); [|done]. cbn.
    destruct (answer e (CCreate obj) w1) as [r w2]. by destruct r.
Qed.

(** [createOrUpdate] looks the object up by its own kind, namespace and
    name, and then makes at most one change: it creates the object when the
    lookup says NotFound, it updates it with the resource version just read
    when the lookup finds it, so that a concurrent change makes the update
    fail instead of being overwritten, and it changes nothing when the
    lookup fails otherwise or the object has no readable metadata. *)
Theorem createOrUpdate_mutations obj w :
  mutations e (Yaml.createOrUpdate obj) w =
  match FromUnstructuredPartial obj with
  | Fail _ => []
  | Ok partial =>
      match (answer e (CGetMetadata (partial_gvk partial)
                         (ObjectKeyFromObject (partial_meta partial))) w).1 with
      | Fail err => if IsNotFound err then [CCreate obj] else []
      | Ok existing =>
          match MetaAccessor obj with
          | Ok _ => [CUpdate (SetResourceVersion (ResourceVersion existing) obj)]
          | Fail _ => []
          end
      end
  end.
Proof. exact (mutations_createOrUpdate obj w). Qed.

(** The one change that brings an object to its manifest. *)
Definition applied (obj : Unstructured) (c : call) : Prop :=
  c = CCreate obj \/ exists version, c = CUpdate (SetResourceVersion version obj).

Lemma createOrUpdate_ok obj w w' :
  run e (Yaml.createOrUpdate obj) w = (Returned tt, w') ->
  exists c, mutations e (Yaml.createOrUpdate obj) w = [c] /\ applied obj c.
Proof.
  intros Hrun. rewrite mutations_createOrUpdate. revert Hrun. unfold Yaml.createOrUpdate.
  rewrite run_bind, run_wrapping.
  destruct (FromUnstructuredPartial obj) as [p|x]; [|done]. cbn.
  destruct (answer e (CGetMetadata _ _) w) as [[existing|x] w1]; cbn.
  - unfold Yaml.setResourceVersion. rewrite run_bind, run_wrapping, run_bind, run_wrapping.
    destruct (MetaAccessor obj) as [u|x]; [|done]. intros _.
    eexists. split; [done|]. right. by eexists.
  - destruct (IsNotFound x); [|done]. intros _. eexists. split; [done|]. by left.
Qed.

Lemma only_calls_parse content : only_calls (S:=ext) is_read (Yaml.parseToUnstructuredObjects content).
Proof.
  unfold Yaml.parseToUnstructuredObjects. destruct (Yaml.parse content); [|exact I].
  apply only_calls_of_result.
Qed.

Lemma only_calls_glob glob : only_calls (S:=ext) is_read (Yaml.globToUnstructuredObjects glob).
Proof.
  unfold Yaml.globToUnstructuredObjects. apply only_calls_bind.
  { split; [exact I|]. intros r. apply only_calls_of_result. }
  intros files. case_decide as H; [exact I|].
  generalize (@nil Unstructured). clear H. induction files as [|f fs IH]; intros objs; [exact I|].
  cbn [Yaml.files_loop]. apply only_calls_bind; [|intros; apply IH].
  unfold Yaml.fileToUnstructuredObjects. apply only_calls_bind; [|intros; apply only_calls_parse].
  apply only_calls_wrapping. split; [exact I|]. intros r. apply only_calls_of_result.
Qed.

Context (cfapi : ObjectKey).
Abbreviation recorder := (NewCFAPIEventRecorder cfapi).

Lemma run_event t reason msg w :
  run e (Event recorder t reason msg) w
  = (Returned tt, (answer e (CEventf cfapi t reason "Reconcile" msg) w).2)
  /\ mutations e (Event recorder t reason msg) w = [].
Proof.
  unfold mutations. cbn. by destruct (answer e (CEventf cfapi t reason "Reconcile" msg) w) as [[] w'].
Qed.

Lemma mutations_event t reason msg w : mutations e (Event recorder t reason msg) w = [].
Proof. apply run_event. Qed.

Lemma run_event_ok t reason msg w :
  exists w', run e (Event recorder t reason msg) w = (Returned tt, w').
Proof. eexists. apply run_event. Qed.

Lemma install_loop_ok displayName objs w w' :
  run e (Yaml.install_loop displayName recorder objs) w = (Returned tt, w') ->
  exists cs, mutations e (Yaml.install_loop displayName recorder objs) w = cs
             /\ Forall2 applied objs cs.
Proof.
  revert w. induction objs as [|obj objs IH]; intros w; cbn [Yaml.install_loop].
  { intros _. exists []. by split. }
  rewrite run_bind, run_try, mutations_bind, mutations_try, run_try.
  destruct (run e (Yaml.createOrUpdate obj) w) as [[[]|x|x] w1] eqn:Hobj; [| |done].
  - intros Hrun. destruct (IH w1 Hrun) as (cs & Hcs & Hall).
    destruct (createOrUpdate_ok obj w w1 Hobj) as (c & Hc & Happ).
    exists (c :: cs). rewrite Hc, Hcs. split; [done|]. by constructor.
  - rewrite run_bind. by destruct (run_event_ok EventWarning "InstallableFailed"
      ("Installable " +:+ displayName +:+ " failed") w1) as [w2 ->].
Qed.

(** (C22) When a YAML installation reports success, the manifest could be
    loaded and every object of it has been created or updated, each by
    exactly one call, in the order of the manifest, and nothing else in the
    cluster was touched. *)
Theorem Yaml_Install_success glob displayName config msg w w' :
  run e (Yaml.Yaml_Install glob displayName config recorder) w
    = (Returned {| r_State := ResultStateSuccess; r_Message := msg |}, w') ->
  exists objs w1, run e (Yaml.globToUnstructuredObjects glob) w = (Returned objs, w1)
    /\ Forall2 applied objs (mutations e (Yaml.Yaml_Install glob displayName config recorder) w).
Proof.
  unfold Yaml.Yaml_Install. rewrite run_bind, run_try, mutations_bind, mutations_try, run_try.
  rewrite (mutations_reads e _ w (only_calls_glob glob)).
  destruct (run e (Yaml.globToUnstructuredObjects glob) w) as [[objs|x|x] w1]; [|done|done].
  cbn [app]. rewrite run_bind, mutations_bind.
  destruct (run e (Yaml.install_loop displayName recorder objs) w1) as [[[]|x|x] w2] eqn:Hloop;
    [|done|done].
  intros _. exists objs, w1. split; [done|].
  destruct (install_loop_ok displayName objs w1 w2 Hloop) as (cs & -> & Hall).
  rewrite mutations_bind, mutations_event.
  destruct (run_event_ok EventNormal "InstallableDeployed"
              ("Installable " +:+ displayName +:+ " deployed") w2) as [w3 ->].
  cbn. by rewrite app_nil_r.
Qed.

(** How the deletions of a list of objects go when none of them fails: for
    every object whether it was already gone, and the world at the end. *)
Inductive deletions : list Unstructured -> world e -> list bool -> world e -> Prop :=
| deletions_nil w : deletions [] w [] w
| deletions_gone obj objs w err w1 gone w2 :
    answer e (CDeleteUnstructured obj) w = (Fail err, w1) -> IsNotFound err = true ->
    deletions objs w1 gone w2 -> deletions (obj :: objs) w (true :: gone) w2
| deletions_asked obj objs w w1 gone w2 :
    answer e (CDeleteUnstructured obj) w = (Ok tt, w1) ->
    deletions objs w1 gone w2 -> deletions (obj :: objs) w (false :: gone) w2.

Lemma uninstall_loop_deletions displayName objs w gone w' :
  deletions objs w gone w' -> forall acc,
  run e (Yaml.uninstall_loop displayName recorder acc objs) w
    = (Returned (acc && forallb id gone), w')
  /\ mutations e (Yaml.uninstall_loop displayName recorder acc objs) w
     = map CDeleteUnstructured objs.
Proof.
  induction 1 as [w|obj objs w err w1 gone w2 Ha Hn _ IH|obj objs w w1 gone w2 Ha _ IH];
    intros acc; cbn [Yaml.uninstall_loop].
  { by rewrite andb_true_r. }
  all: rewrite run_bind, run_try, mutations_bind, mutations_try, run_try.
  all: assert (mutations e (Yaml.delete obj) w = [CDeleteUnstructured obj]) as ->
    by (unfold mutations, Yaml.delete; cbn; rewrite Ha; cbn; by rewrite ?Hn).
  all: unfold Yaml.delete; cbn; rewrite Ha; cbn; rewrite ?Hn; cbn.
  - destruct (IH (acc && true)) as [-> ->]. by rewrite andb_true_r.
  - destruct (IH (acc && false)) as [-> ->]. by rewrite andb_false_r.
Qed.

(** (C23) Uninstalling a manifest asks the cluster to delete every object of
    it, in order and whatever the answers for the others; it reports success
    exactly when every single object was already gone (NotFound), and in
    progress otherwise, so success is never reported on the strength of a
    deletion that was merely accepted. *)
Theorem Yaml_Uninstall_spec glob displayName config w objs w1 gone w2 :
  run e (Yaml.globToUnstructuredObjects glob) w = (Returned objs, w1) ->
  deletions objs w1 gone w2 ->
  mutations e (Yaml.Yaml_Uninstall glob displayName config recorder) w = map CDeleteUnstructured objs
  /\ exists msg w', run e (Yaml.Yaml_Uninstall glob displayName config recorder) w
     = (Returned {| r_State := if forallb id gone then ResultStateSuccess else ResultStateInProgress;
                    r_Message := msg |}, w').
Proof.
  intros Hglob Hdel. unfold Yaml.Yaml_Uninstall.
  rewrite run_bind, run_try, mutations_bind, mutations_try, run_try, Hglob.
  rewrite (mutations_reads e _ w (only_calls_glob glob)). cbn [app].
  rewrite run_bind, mutations_bind.
  destruct (uninstall_loop_deletions displayName _ _ _ _ Hdel true) as [-> ->]. cbn [andb].
  destruct (forallb id gone).
  - rewrite run_bind, mutations_bind, mutations_event.
    destruct (run_event_ok EventNormal "InstallableUninstalled"
                ("Installable " +:+ displayName +:+ " uninstalled") w2) as [w3 ->].
    split; [by cbn; rewrite app_nil_r|]. by eexists _, _.
  - split; [by cbn; rewrite app_nil_r|]. by eexists _, _.
Qed.
End Cluster.

(** ** Witnesses *)

Definition sample_ns (name : string) : Values :=
  map_of [("kind", VString "Namespace"); ("metadata", VObject [("name", VString name)])].

Definition sample_manifest : string :=
  "{ns: korifi}" +:+ String Reference.newline ("null" +:+ String Reference.newline "  {ns: cf}").

Definition manifest_yaml : YamlLib :=
  Reference.yaml_table [] [("{ns: korifi}", sample_ns "korifi"); ("{ns: cf}", sample_ns "cf")].

(** One manifest file; the namespace korifi exists, cf does not, and deleting
    succeeds for the one and finds nothing for the other. *)
Definition manifest_answers (c : call) : reply c :=
  match c with
  | CGlob _ => Ok ["namespaces.yaml"]
  | CReadFile _ => Ok sample_manifest
  | CGetMetadata _ key =>
      if decide (key_name key = "korifi") then Ok (meta_of "" "korifi")
      else Fail (ErrAPI true "not found")
  | CCreate _ | CUpdate _ => Ok tt
  | CDeleteUnstructured o =>
      if decide (Object o = sample_ns "korifi") then Ok tt else Fail (ErrAPI true "not found")
  | c => no_answers c
  end.

Definition manifest_objects : list Unstructured :=
  [{| Object := sample_ns "korifi" |}; {| Object := sample_ns "cf" |}].

Lemma parse_terminates_witness :
  exists r, Yaml.parse (yaml:=manifest_yaml) (uni:=Reference.unicode) sample_manifest = Some r.
Proof.
  destruct (parse_terminates (yaml:=manifest_yaml) (uni:=Reference.unicode)
              (Reference.yaml_table_laws _ _) sample_manifest) as (r & Hr & _).
  by exists r.
Defined.

Lemma parse_is_decode_witness :
  Yaml.parse (yaml:=manifest_yaml) (uni:=Reference.unicode) sample_manifest
  = Some (Ok manifest_objects).
Proof.
  rewrite (parse_is_decode (yaml:=manifest_yaml) (uni:=Reference.unicode)
    (Reference.yaml_table_laws _ _) sample_manifest
    ["{ns: korifi}"; "null"; "  {ns: cf}"] ErrEOF).
  - vm_compute. reflexivity.
  - repeat (eapply reads_doc; [reflexivity|]). eapply reads_end. reflexivity.
Defined.

Lemma Yaml_Install_success_witness :
  exists objs : list Unstructured, length objs = 2%nat.
Proof.
  assert (H : run (const_env manifest_answers)
    (Yaml.Yaml_Install (yaml:=manifest_yaml) (unstr:=Reference.unstructured) (uni:=Reference.unicode)
       "namespaces.yaml" "Namespaces" zero_InstallationConfig
       (NewCFAPIEventRecorder {| key_ns := "cfapi-system"; key_name := "default" |})) tt
    = (Returned {| r_State := ResultStateSuccess; r_Message := "Namespaces installed successfully" |}, tt))
    by (vm_compute; reflexivity).
  destruct (Yaml_Install_success _ _ _ _ _ _ _ _ H) as (objs & w1 & _ & Hall).
  exists objs. apply Forall2_length in Hall. rewrite Hall. vm_compute. reflexivity.
Defined.

Lemma Yaml_Uninstall_spec_witness :
  exists msg w', run (const_env manifest_answers)
    (Yaml.Yaml_Uninstall (yaml:=manifest_yaml) (unstr:=Reference.unstructured) (uni:=Reference.unicode)
       "namespaces.yaml" "Namespaces" zero_InstallationConfig
       (NewCFAPIEventRecorder {| key_ns := "cfapi-system"; key_name := "default" |})) tt
  = (Returned {| r_State := ResultStateInProgress; r_Message := msg |}, w').
Proof.
  assert (Hglob : run (const_env manifest_answers)
    (Yaml.globToUnstructuredObjects (yaml:=manifest_yaml) (uni:=Reference.unicode) "namespaces.yaml") tt
    = (Returned manifest_objects, tt)) by (vm_compute; reflexivity).
  assert (Hdel : deletions (const_env manifest_answers) manifest_objects tt [false; true] tt).
  { eapply deletions_asked; [vm_compute; reflexivity|].
    eapply deletions_gone; [vm_compute; reflexivity|reflexivity|]. apply deletions_nil. }
  destruct (Yaml_Uninstall_spec (unstr:=Reference.unstructured) _
    {| key_ns := "cfapi-system"; key_name := "default" |} _ "Namespaces" zero_InstallationConfig
    _ _ _ _ _ Hglob Hdel) as [_ (msg & w' & H)].
  exists msg, w'. exact H.
Defined.
