(* ===== verification/InstallableSpec.v ===== *)
(** * Correctness of the helm chart and organisation installables

    What the results of src/controllers/installable/helm.go and orgs.go say
    about the helm release and the organisations. *)

From S2P Require Export YamlSpec.

#[local] Open Scope Z_scope.
#[local] Open Scope list_scope.

Section HelmChart.
Context (e : Env) (cfapi : ObjectKey).
Abbreviation recorder := (NewCFAPIEventRecorder cfapi).
Context (chartPath namespace name : string)
  (valuesProvider : HelmValuesProvider) (helmClient : HelmClient).
Abbreviation chart_install :=
  (HelmChart.HelmChart_Install chartPath namespace name valuesProvider helmClient).
Abbreviation chart_uninstall := (HelmChart.HelmChart_Uninstall namespace name helmClient).

Lemma run_after_event {A} t reason msg (p : M A) w :
  run e (_ ← Event recorder t reason msg; p) w
  = run e p (answer e (CEventf cfapi t reason "Reconcile" msg) w).2.
Proof. rewrite run_bind. by destruct (run_event e cfapi t reason msg w) as [-> _]. Qed.

Lemma mutations_after_event {A} t reason msg (p : M A) w :
  mutations e (_ ← Event recorder t reason msg; p) w
  = mutations e p (answer e (CEventf cfapi t reason "Reconcile" msg) w).2.
Proof. rewrite mutations_bind. by destruct (run_event e cfapi t reason msg w) as [-> ->]. Qed.

(** What a chart installation ends with, by the end of its two calls. *)
Lemma HelmChart_Install_run config w :
  (run e (chart_install config recorder) w).1 =
  match run e (GetValues valuesProvider config) w with
  | (Errored err, _) =>
      Returned {| r_State := ResultStateInProgress;
                  r_Message := "failed to get helm chart " +:+ name +:+ " values: " +:+ error_string err |}
  | (Panicked s, _) => Panicked s
  | (Returned values, w1) =>
      match run e (client_Apply helmClient chartPath namespace name values) w1 with
      | (Errored err, _) =>
          Returned {| r_State := ResultStateFailed;
                      r_Message := "failed to install/upgrade helm chart " +:+ name +:+ ": "
                                     +:+ error_string err |}
      | (Panicked s, _) => Panicked s
      | (Returned r, _) =>
          Returned (if decide (ReleaseStatus r = StatusDeployed)
                    then {| r_State := ResultStateSuccess; r_Message := "" |}
                    else if decide (ReleaseStatus r = StatusFailed)
                    then {| r_State := ResultStateFailed; r_Message := hr_Message r |}
                    else {| r_State := ResultStateInProgress; r_Message := HelmChart.in_status name r |})
      end
  end.
Proof.
  unfold HelmChart.HelmChart_Install. rewrite run_bind, run_try.
  destruct (run e (GetValues valuesProvider config) w) as [[values|x|x] w1]; [|done|done].
  rewrite run_bind, run_try.
  destruct (run e (client_Apply helmClient chartPath namespace name values) w1) as [[r|x|x] w2]; [|done|done].
  rewrite run_after_event. repeat case_decide; by rewrite run_after_event.
Qed.

(** Installing a chart never ends in a Go error: failing to compute the
    values is reported as in progress, failing to apply as failed.  It
    reports success exactly when the values could be computed and the applied
    release is deployed, and failure exactly when applying failed or the
    release has failed. *)
Theorem HelmChart_Install_outcomes config w :
  (forall err, (run e (chart_install config recorder) w).1 <> Errored err)
  /\ ((exists msg, (run e (chart_install config recorder) w).1
                   = Returned {| r_State := ResultStateSuccess; r_Message := msg |})
      <-> exists values w1 r w2,
            run e (GetValues valuesProvider config) w = (Returned values, w1)
            /\ run e (client_Apply helmClient chartPath namespace name values) w1 = (Returned r, w2)
            /\ ReleaseStatus r = StatusDeployed)
  /\ ((exists msg, (run e (chart_install config recorder) w).1
                   = Returned {| r_State := ResultStateFailed; r_Message := msg |})
      <-> exists values w1 o w2,
            run e (GetValues valuesProvider config) w = (Returned values, w1)
            /\ run e (client_Apply helmClient chartPath namespace name values) w1 = (o, w2)
            /\ ((exists err, o = Errored err)
                \/ exists r, o = Returned r /\ ReleaseStatus r = StatusFailed)).
Proof.
  rewrite HelmChart_Install_run.
  destruct (run e (GetValues valuesProvider config) w) as [[values|x|x] w1].
  2, 3: split_and!; [done|split; [by intros [? [=]]|by intros (? & ? & ? & ? & [=] & _)]..].
  destruct (run e (client_Apply helmClient chartPath namespace name values) w1)
    as [o w2] eqn:Ha.
  assert (Hdet : forall v v1 o' v2, (Returned (E:=error) values, w1) = (Returned v, v1) ->
    run e (client_Apply helmClient chartPath namespace name v) v1 = (o', v2) -> o' = o) by congruence.
  split_and!; [destruct o; by repeat case_decide| |]; split.
  - intros [msg Hm]. destruct o as [r|x|x]; [|done|done].
    exists values, w1, r, w2. repeat case_decide; done.
  - intros (v & v1 & r & v2 & Hv & Hr & Hs). rewrite <- (Hdet _ _ _ _ Hv Hr).
    rewrite decide_True by done. by eexists.
  - intros [msg Hm]. exists values, w1, o, w2. split_and!; [done..|].
    destruct o as [r|x|x]; [right|left|done]; [|by eexists].
    exists r. repeat case_decide; done.
  - intros (v & v1 & o' & v2 & Hv & Hr & Hs). rewrite <- (Hdet _ _ _ _ Hv Hr).
    destruct Hs as [[err ->]|(r & -> & Hs)]; [by eexists|].
    rewrite decide_False, decide_True by (rewrite ?Hs; done). by eexists.
Qed.

(** Uninstalling a chart never ends in a Go error either; it reports
    success exactly when the client returns the zero result, which is how
    the client says that nothing of the release is left, and any release
    status, a successful one included, is still in progress. *)
Theorem HelmChart_Uninstall_outcomes config w :
  (forall err, (run e (chart_uninstall config recorder) w).1 <> Errored err)
  /\ ((exists msg, (run e (chart_uninstall config recorder) w).1
                   = Returned {| r_State := ResultStateSuccess; r_Message := msg |})
      <-> (run e (client_Uninstall helmClient namespace name) w).1 = Returned zero_HelmResult)
  /\ ((exists msg, (run e (chart_uninstall config recorder) w).1
                   = Returned {| r_State := ResultStateFailed; r_Message := msg |})
      <-> exists err, (run e (client_Uninstall helmClient namespace name) w).1 = Errored err).
Proof.
  unfold HelmChart.HelmChart_Uninstall. rewrite run_bind, run_try.
  destruct (run e (client_Uninstall helmClient namespace name) w) as [[r|x|x] w1]; cbn [fst].
  - rewrite run_after_event. unfold IsZero_HelmResult.
    case_bool_decide as Hz; rewrite run_after_event; cbn [run mret go_mret fst].
    + subst. split_and!; [done|split; [done|by eexists]|split; [by intros [? [=]]|by intros [? [=]]]].
    + split_and!; [done|split; [by intros [? [=]]|congruence]|split; [by intros [? [=]]|by intros [? [=]]]].
  - split_and!; [done|split; [by intros [? [=]]|done]|split; intros _; by eexists].
  - split_and!; [done|split; [by intros [? [=]]|done]|split; [by intros [? [=]]|by intros [? [=]]]].
Qed.
End HelmChart.

(** The same with the helm client of the program. *)
Section SteadyState.
Context {yaml : YamlLib} {helm : HelmLib} (laws : HelmLaws).
Context (e : Env) (pure : PureReads e) (cfapi : ObjectKey).
Context (chartPath namespace name : string) (valuesProvider : HelmValuesProvider).

(** In the steady state reconciling a chart changes nothing: when the
    computed values and the chart version are those of the latest release
    and it is deployed, installing reports success and issues no call that
    changes the cluster. *)
Theorem HelmChart_steady_state config w values ch rel rels old :
  run e (GetValues valuesProvider config) w = (Returned values, w) ->
  mutations e (GetValues valuesProvider config) w = [] ->
  chart_loads e w chartPath ch -> helm_reachable e w namespace name (rel :: rels) ->
  rel_Status rel = Some StatusDeployed -> rel_Chart rel = Some old ->
  is_Some (chart_Version ch) -> chart_Version old = chart_Version ch ->
  same_values (rel_Config rel) values ->
  mutations e (HelmChart.HelmChart_Install chartPath namespace name valuesProvider NewClient
                 config (NewCFAPIEventRecorder cfapi)) w = []
  /\ exists msg w', run e (HelmChart.HelmChart_Install chartPath namespace name valuesProvider NewClient
                 config (NewCFAPIEventRecorder cfapi)) w
       = (Returned {| r_State := ResultStateSuccess; r_Message := msg |}, w').
Proof.
  intros Hval Hmut Hch Hreach Hst Hold Hv Hver Hsame.
  assert (planned ch values (head (rel :: rels)) (PReport StatusDeployed "")) as Hplan.
  { apply plan_keep with old; try done.
    destruct (IsPending StatusDeployed) eqn:Hp; [|done].
    apply IsPending_spec in Hp as [?|[?|?]]; done. }
  destruct (Apply_after_reads e w chartPath namespace name ch (rel :: rels) values Hch Hreach)
    as (q & Hrunq & Hmutq & ->).
  assert (Hq : run e (Apply chartPath namespace name values) w
               = (Returned {| ReleaseStatus := StatusDeployed; hr_Message := "" |}, w)
               /\ mutations e (Apply chartPath namespace name values) w = []).
  { rewrite Hrunq, Hmutq. destruct Hsame as (n & Hn1 & Hn2), Hv as [v Hv].
    cbn [head]. rewrite Hst. cbn.
    destruct (IsPending StatusDeployed) eqn:Hp; [by apply IsPending_spec in Hp as [?|[?|?]]|].
    rewrite (marshal_equal _ _ _ _ Hn1 Hn2), Hv, Hold. cbn. rewrite Hver, Hv. cbn.
    rewrite !bool_decide_eq_true_2 by done. by split. }
  destruct Hq as [Hrun Hm]. unfold HelmChart.HelmChart_Install, NewClient.
  rewrite run_bind, run_try, mutations_bind, mutations_try, run_try, Hval, Hmut.
  cbn [client_Apply app].
  rewrite run_bind, run_try, mutations_bind, mutations_try, run_try, Hrun, Hm.
  cbn [app]. rewrite run_after_event, mutations_after_event.
  rewrite decide_True by done. rewrite run_after_event, mutations_after_event.
  split; [done|]. by eexists _, _.
Qed.
End SteadyState.

Section Orgs.
Context (e : Env) (cfapi : ObjectKey).

(** The organisations that the list call reports, if it can tell. *)
Definition orgs_listed (r : result error (list CFOrg)) : option nat :=
  match r with
  | Ok orgs => Some (length orgs)
  | Fail err => if IsNotFound err then Some 0%nat else None
  end.

(** Uninstalling the organisations first asks to delete all those of
    the root namespace and then counts what is left in the cluster: it
    reports success exactly when the deletion was accepted (or the kind does
    not exist) and none is listed, in progress with the count when some are,
    and a Go error otherwise.  It never panics, while installing always
    does. *)
Theorem Orgs_outcomes config w :
  let recorder := NewCFAPIEventRecorder cfapi in
  let deleted := answer e (CDeleteAllOf KCFOrg (cfg_RootNamespace config)) w in
  let listed := answer e (CList KCFOrg) deleted.2 in
  match IgnoreNotFound deleted.1, orgs_listed listed.1 with
  | Ok _, Some 0%nat =>
      (run e (Orgs.Orgs_Uninstall config recorder) w).1
      = Returned {| r_State := ResultStateSuccess; r_Message := "Orgs deleted successfully" |}
  | Ok _, Some n =>
      (run e (Orgs.Orgs_Uninstall config recorder) w).1
      = Returned {| r_State := ResultStateInProgress;
                    r_Message := Itoa (Z.of_nat n) +:+ " orgs remaining" |}
  | _, _ => exists err, (run e (Orgs.Orgs_Uninstall config recorder) w).1 = Errored err
  end
  /\ (run e (Orgs.Orgs_Install config recorder) w).1 = Panicked "not supported".
Proof.
  intros recorder deleted listed. split; [|done]. subst listed deleted.
  unfold Orgs.Orgs_Uninstall, Orgs.deleteAllOrgs, Orgs.remainingOrgsCount, Orgs.failed_event.
  rewrite run_bind, run_try, run_bind, run_try, run_DeleteAllOf.
  destruct (answer e (CDeleteAllOf KCFOrg (cfg_RootNamespace config)) w) as [[[]|x] w1]; cbn [fst snd IgnoreNotFound].
  1: rewrite run_of_result, run_bind, run_try, run_bind, run_try, run_List;
    destruct (answer e (CList KCFOrg) w1) as [[orgs|y] w2]; cbn [fst snd orgs_listed].
  - rewrite run_ret. destruct orgs as [|o orgs]; [done|].
    cbn [length]. rewrite (proj2 (Z.gtb_lt _ _)) by lia. done.
  - destruct (IsNotFound y); [done|]. cbn. destruct (answer e _ w2). by eexists.
  - destruct (IsNotFound x).
    + rewrite run_of_result, run_bind, run_try, run_bind, run_try, run_List.
      destruct (answer e (CList KCFOrg) w1) as [[orgs|y] w2]; cbn [fst snd orgs_listed].
      * rewrite run_ret. destruct orgs as [|o orgs]; [done|].
        cbn [length]. rewrite (proj2 (Z.gtb_lt _ _)) by lia. done.
      * destruct (IsNotFound y); [done|]. cbn. destruct (answer e _ w2). by eexists.
    + cbn. destruct (answer e _ w1). by eexists.
Qed.
End Orgs.

Lemma HelmChart_steady_state_witness :
  let e := const_env (helm_answers (sample_release StatusDeployed "1.2.0")) in
  exists msg w', run e (HelmChart.HelmChart_Install "./chart" "korifi" "korifi" (Override sample_values)
      (NewClient (H:=sample_yaml) (H0:=Reference.helm)) sample_config
      (NewCFAPIEventRecorder {| key_ns := "cfapi-system"; key_name := "default" |})) tt
    = (Returned {| r_State := ResultStateSuccess; r_Message := msg |}, w').
Proof.
  intros e.
  refine (proj2 (HelmChart_steady_state (yaml:=sample_yaml) (helm:=Reference.helm) Reference.helm_laws
    e (const_env_pure _) {| key_ns := "cfapi-system"; key_name := "default" |}
    "./chart" "korifi" "korifi" (Override sample_values) sample_config tt sample_values sample_chart
    (sample_release StatusDeployed "1.2.0") [] {| chart_Version := Some "1.2.0"; chart_content := "korifi" |}
    _ _ _ _ _ _ _ _ _)).
  - reflexivity.
  - reflexivity.
  - reflexivity.
  - by split.
  - reflexivity.
  - reflexivity.
  - by eexists.
  - reflexivity.
  - exists sample_values. split; vm_compute; reflexivity.
Defined.
