(* ===== verification/Patch.v ===== *)
(** * Patching objects and the patching reconciler

    Models src/tools/k8s/patch.go (and its copy under
    src/components/btp-service-broker/tools/k8s) and src/tools/k8s/reconcile.go:
    the two patches that persist what a reconciliation did to an object and to
    its status, and the translation of a NotReadyError into a requeue. *)

From S2P Require Export Libs.

#[local] Open Scope Z_scope.
#[local] Open Scope list_scope.

(** ** patch.go *)

Module Patching.
Section Patching.
Context {conv : ConverterLib} {k : kind}.

(** Objects are immutable values of the model, so a deep copy is the value
    itself; what the code then does to either copy is explicit. *)
Definition DeepCopy (o : object k) : object k := o.

Definition hasStatus (obj : object k) : result error bool :=
  match ToUnstructured k obj with
  | Fail err => Fail err
  | Ok unstructuredObj => Ok (bool_decide (is_Some (unstructuredObj !! "status")))
  end.

(** [func copyInto]: the new value of the target. *)
Definition copyInto (sourceObj targetObj : object k) : result error (object k) :=
  match ToUnstructured k sourceObj with
  | Fail err => Fail err
  | Ok unstructuredSource => FromUnstructured k unstructuredSource targetObj
  end.

(** [modify] mutates the object and may leave something behind in variables
    of its closure ([A]).  The patch calls overwrite their argument with the
    object the API server answers. *)
Definition Patch {A} (obj : object k) (modify : object k -> M (object k * A)) : M (object k * A) :=
  let objCopy := DeepCopy obj in
  '(obj, closure) ← modify obj;
  let modifiedObj := DeepCopy obj in
  objHasStatus ← of_result (hasStatus obj);
  obj ← wrapping (fun err => ErrWrap "patching-main-obj-failed: " err "")
          (Call (S:=ext) (CPatch k obj objCopy) of_result);
  if objHasStatus : bool then
    modifiedObj ← wrapping (fun err => ErrWrap "patching-status-failed: " err "")
                    (Call (S:=ext) (CStatusPatch k modifiedObj objCopy) of_result);
    obj ← of_result (copyInto modifiedObj obj);
    mret (obj, closure)
  else mret (obj, closure).

Definition TryPatchResource (obj : object k) (modify : object k -> M (object k)) : M (object k) :=
  let originalObj := DeepCopy obj in
  obj ← modify obj;
  Call (S:=ext) (CPatch k obj originalObj) of_result.

Definition PatchResource (obj : object k) (modify : object k -> object k) : M (object k) :=
  TryPatchResource obj (fun obj => mret (modify obj)).
End Patching.
End Patching.

(** The broker's module has a copy of the file, function for function the
    same. *)
Module BrokerPatching.
Section BrokerPatching.
Context {conv : ConverterLib} {k : kind}.

Definition DeepCopy : object k -> object k := Patching.DeepCopy.
Definition hasStatus : object k -> result error bool := Patching.hasStatus.
Definition copyInto : object k -> object k -> result error (object k) := Patching.copyInto.
Definition Patch {A} : object k -> (object k -> M (object k * A)) -> M (object k * A) := Patching.Patch.
Definition TryPatchResource : object k -> (object k -> M (object k)) -> M (object k) :=
  Patching.TryPatchResource.
Definition PatchResource : object k -> (object k -> object k) -> M (object k) := Patching.PatchResource.
End BrokerPatching.
End BrokerPatching.

(** ** reconcile.go *)

(** [ctrl.Result] *)
Record CtrlResult := { Requeue : bool; RequeueAfter : Z }.
Definition zero_CtrlResult : CtrlResult := {| Requeue := false; RequeueAfter := 0 |}.

#[export] Instance CtrlResult_eq_dec : EqDecision CtrlResult.
Proof. solve_decision. Defined.

(** [ObjectReconciler.ReconcileResource]: it mutates the object, which is
    returned with the result pair. *)
Definition ObjectReconciler (k : kind) : Type :=
  object k -> M (object k * (CtrlResult * option error)).

Module PatchingReconciler.

(** The body of the closure after the delegate returned. *)
Definition requeue_of (r : CtrlResult * option error) : CtrlResult * option error :=
  match r.2 with
  | None => r
  | Some err =>
      match AsNotReadyError err with
      | None => r
      | Some notReadyErr =>
          let r := if noRequeue notReadyErr then (zero_CtrlResult, None) else r in
          let r := match requeueAfter notReadyErr with
                   | Some after => ({| Requeue := false; RequeueAfter := after |}, None)
                   | None => r
                   end in
          if requeue notReadyErr then ({| Requeue := true; RequeueAfter := 0 |}, None) else r
      end
  end.

Section Reconciler.
Context {conv : ConverterLib} {k : kind} (objectReconciler : ObjectReconciler k).

(** The closure handed to Patch. *)
Definition modify (obj : object k) : M (object k * (CtrlResult * option error)) :=
  '(obj, r) ← objectReconciler obj; mret (obj, requeue_of r).

Definition Reconcile (req : ObjectKey) : M (CtrlResult * option error) :=
  r ← try (Get k req);
  match r with
  | Fail err =>
      if IsNotFound err then mret (zero_CtrlResult, None)
      else mret (zero_CtrlResult, Some err)
  | Ok runtimeObj =>
      r ← try (Patching.Patch runtimeObj modify);
      match r with
      | Fail err => mret (zero_CtrlResult, Some err)
      | Ok (_, r) => mret r
      end
  end.
End Reconciler.
End PatchingReconciler.

(** ** What the API server promises about a CFAPI object

    The status is a subresource: patching the object changes its metadata and
    spec but not its status, patching the status changes nothing else.  An
    object under deletion disappears with its last finalizer.  The laws only
    speak of calls that succeed, on an object that is stored as it was read:
    no one else changes it in between. *)

Definition same_main (o p : CFAPI) : Prop :=
  ObjectKeyFromObject (cfapi_meta o) = ObjectKeyFromObject (cfapi_meta p)
  /\ Finalizers (cfapi_meta o) = Finalizers (cfapi_meta p)
  /\ DeletionTimestamp (cfapi_meta o) = DeletionTimestamp (cfapi_meta p)
  /\ cfapi_spec o = cfapi_spec p.

Definition cfapi_key (o : CFAPI) : ObjectKey := ObjectKeyFromObject (cfapi_meta o).

(** Under deletion and without finalizers. *)
Definition terminated (o : CFAPI) : bool :=
  match DeletionTimestamp (cfapi_meta o), Finalizers (cfapi_meta o) with
  | Some _, [] => true
  | _, _ => false
  end.

Class ApiServer (e : Env) := {
  stored : world e -> ObjectKey -> option CFAPI;
  get_stored key w o w' :
    answer e (CGet KCFAPI key) w = (Ok o, w') -> w' = w /\ stored w key = Some o /\ cfapi_key o = key;
  patch_stored w obj from o w' :
    stored w (cfapi_key from) = Some from -> cfapi_key obj = cfapi_key from ->
    answer e (CPatch KCFAPI obj from) w = (Ok o, w') ->
    same_main o obj /\ cfapi_status o = cfapi_status from
    /\ stored w' (cfapi_key from) = (if terminated o then None else Some o);
  status_patch_missing w obj from :
    stored w (cfapi_key obj) = None ->
    exists err w', answer e (CStatusPatch KCFAPI obj from) w = (Fail err, w') /\ IsNotFound err = true;
  status_patch_stored w obj from cur o w' :
    stored w (cfapi_key obj) = Some cur ->
    answer e (CStatusPatch KCFAPI obj from) w = (Ok o, w') ->
    same_main o cur /\ cfapi_status o = cfapi_status obj /\ stored w' (cfapi_key obj) = Some o
}.
