(* ===== verification/PatchSpec.v ===== *)
(** * Correctness of the patching reconciler

    What a reconciliation leaves in the API server, for any delegate
    (src/tools/k8s/patch.go and reconcile.go). *)

From S2P Require Export Patch.

#[local] Open Scope Z_scope.
#[local] Open Scope list_scope.

#[global] Arguments Patching.Patch : simpl never.

Section Patching.
Context {conv : ConverterLib} {convlaws : ConverterLaws KCFAPI}.
Context (e : Env) {server : ApiServer e}.

Lemma hasStatus_true (o : CFAPI) : Patching.hasStatus (k:=KCFAPI) o = Ok true.
Proof.
  unfold Patching.hasStatus. destruct (ToUnstructured_status (k:=KCFAPI) o) as (m & -> & Hs & _).
  by rewrite bool_decide_eq_true_2.
Qed.

Lemma copyInto_id (o target : CFAPI) : Patching.copyInto (k:=KCFAPI) o target = Ok o.
Proof.
  unfold Patching.copyInto. destruct (ToUnstructured_status (k:=KCFAPI) o) as (m & -> & _ & H).
  apply H.
Qed.

(** A patch after [modify] has run, as its two calls. *)
Lemma run_Patch {A} (o o1 : object KCFAPI) (modify : object KCFAPI -> M (object KCFAPI * A)) a w w1 :
  run e (modify o) w = (Returned (o1, a), w1) ->
  run e (Patching.Patch (k:=KCFAPI) o modify) w =
  match answer e (CPatch KCFAPI o1 o) w1 with
  | (Fail err, w2) => (Errored (ErrWrap "patching-main-obj-failed: " err ""), w2)
  | (Ok _, w2) =>
      match answer e (CStatusPatch KCFAPI o1 o) w2 with
      | (Fail err, w3) => (Errored (ErrWrap "patching-status-failed: " err ""), w3)
      | (Ok o3, w3) => (Returned (o3, a), w3)
      end
  end.
Proof.
  intros Hm. unfold Patching.Patch, Patching.DeepCopy. rewrite run_bind, Hm.
  rewrite run_bind, run_of_result, hasStatus_true, run_bind, run_wrapping. cbn.
  destruct (answer e (CPatch KCFAPI o1 o) w1) as [[o2|err] w2]; [|done].
  cbn. autorewrite with go_db. cbn.
  destruct (answer e (CStatusPatch KCFAPI o1 o) w2) as [[o3|err] w3]; [|done].
  cbn. autorewrite with go_db. by rewrite copyInto_id.
Qed.

Lemma calls_Patch {A} (o o1 : object KCFAPI) (modify : object KCFAPI -> M (object KCFAPI * A)) a w w1 :
  run e (modify o) w = (Returned (o1, a), w1) ->
  calls e (Patching.Patch (k:=KCFAPI) o modify) w =
  calls e (modify o) w ++ CPatch KCFAPI o1 o ::
  match (answer e (CPatch KCFAPI o1 o) w1).1 with
  | Ok _ => [CStatusPatch KCFAPI o1 o]
  | Fail _ => []
  end.
Proof.
  intros Hm. unfold Patching.Patch, Patching.DeepCopy. rewrite calls_bind, Hm. f_equal.
  rewrite calls_bind, run_of_result, calls_of_result, hasStatus_true, calls_bind,
    calls_wrapping, run_wrapping. cbn.
  destruct (answer e (CPatch KCFAPI o1 o) w1) as [[o2|err] w2]; [|done].
  cbn. autorewrite with go_db. cbn.
  destruct (answer e (CStatusPatch KCFAPI o1 o) w2) as [[o3|err] w3]; cbn;
    autorewrite with go_db; by rewrite ?copyInto_id.
Qed.

Lemma same_main_terminated (o p : CFAPI) : same_main o p -> terminated o = terminated p.
Proof. intros (_ & Hf & Hd & _). unfold terminated. by rewrite Hf, Hd. Qed.

(** The two patches, accepted, on an object that does not disappear. *)
Lemma patches_persist (o o1 : CFAPI) key w1 o2 w2 o3 w3 :
  cfapi_key o = key -> stored w1 key = Some o -> cfapi_key o1 = key -> terminated o1 = false ->
  answer e (CPatch KCFAPI o1 o) w1 = (Ok o2, w2) ->
  answer e (CStatusPatch KCFAPI o1 o) w2 = (Ok o3, w3) ->
  exists p, stored w3 key = Some p /\ same_main p o1 /\ cfapi_status p = cfapi_status o1.
Proof.
  intros Ho Hst1 Hkey Hterm Hp Hs.
  destruct (patch_stored w1 o1 o o2 w2) as (Hmain & Hstat & Hst2); [by rewrite Ho|by rewrite Ho|done|].
  rewrite (same_main_terminated _ _ Hmain), Hterm, Ho, <- Hkey in Hst2.
  destruct (status_patch_stored w2 o1 o o2 o3 w3 Hst2 Hs) as (Hmain3 & Hstat3 & Hst3).
  exists o3. split; [by rewrite <- Hkey|]. split; [|done].
  destruct Hmain as (A1 & A2 & A3 & A4), Hmain3 as (B1 & B2 & B3 & B4).
  repeat split; [rewrite B1; apply A1|rewrite B2; apply A2|rewrite B3; apply A3|rewrite B4; apply A4].
Qed.

(** An accepted main patch makes an object disappear exactly when it is under
    deletion and has no finalizer left. *)
Lemma patch_disappears (o o1 : CFAPI) key w1 o2 w2 :
  cfapi_key o = key -> stored w1 key = Some o -> cfapi_key o1 = key ->
  answer e (CPatch KCFAPI o1 o) w1 = (Ok o2, w2) ->
  stored w2 key = None <-> terminated o1 = true.
Proof.
  intros Ho Hst1 Hkey Hp.
  destruct (patch_stored w1 o1 o o2 w2) as (Hmain & _ & Hst2); [by rewrite Ho|by rewrite Ho|done|].
  rewrite <- (same_main_terminated _ _ Hmain), <- Ho, Hst2. by destruct (terminated o2).
Qed.

(** The delegate of a reconciliation. *)
Context (delegate : ObjectReconciler KCFAPI).

Abbreviation modify := (PatchingReconciler.modify (k:=KCFAPI) delegate).

Lemma run_modify (o o1 : object KCFAPI) r w w1 :
  run e (delegate o) w = (Returned (o1, r), w1) ->
  run e (modify o) w = (Returned (o1, PatchingReconciler.requeue_of r), w1).
Proof. intros H. unfold PatchingReconciler.modify. by rewrite run_bind, H. Qed.

Lemma run_Reconcile_from (o o1 : object KCFAPI) r key w w0 w1 :
  answer e (CGet KCFAPI key) w = (Ok o, w0) ->
  run e (delegate o) w0 = (Returned (o1, r), w1) ->
  run e (PatchingReconciler.Reconcile (k:=KCFAPI) delegate key) w =
  match answer e (CPatch KCFAPI o1 o) w1 with
  | (Fail err, w2) =>
      (Returned (zero_CtrlResult, Some (ErrWrap "patching-main-obj-failed: " err "")), w2)
  | (Ok _, w2) =>
      match answer e (CStatusPatch KCFAPI o1 o) w2 with
      | (Fail err, w3) =>
          (Returned (zero_CtrlResult, Some (ErrWrap "patching-status-failed: " err "")), w3)
      | (Ok o3, w3) => (Returned (PatchingReconciler.requeue_of r), w3)
      end
  end.
Proof.
  intros Hget Hdel. unfold PatchingReconciler.Reconcile.
  rewrite run_bind, run_try, run_Get, Hget. cbn [fst snd].
  rewrite run_bind, run_try.
  rewrite (run_Patch o o1 modify _ w0 w1 (run_modify _ _ _ _ _ Hdel)).
  destruct (answer e (CPatch KCFAPI o1 o) w1) as [[o2|err] w2]; [|done].
  by destruct (answer e (CStatusPatch KCFAPI o1 o) w2) as [[o3|err] w3].
Qed.

Lemma run_Reconcile (o o1 : object KCFAPI) r key w w1 :
  answer e (CGet KCFAPI key) w = (Ok o, w) ->
  run e (delegate o) w = (Returned (o1, r), w1) ->
  run e (PatchingReconciler.Reconcile (k:=KCFAPI) delegate key) w =
  match answer e (CPatch KCFAPI o1 o) w1 with
  | (Fail err, w2) =>
      (Returned (zero_CtrlResult, Some (ErrWrap "patching-main-obj-failed: " err "")), w2)
  | (Ok _, w2) =>
      match answer e (CStatusPatch KCFAPI o1 o) w2 with
      | (Fail err, w3) =>
          (Returned (zero_CtrlResult, Some (ErrWrap "patching-status-failed: " err "")), w3)
      | (Ok o3, w3) => (Returned (PatchingReconciler.requeue_of r), w3)
      end
  end.
Proof. apply run_Reconcile_from. Qed.

Lemma run_Reconcile_gone (o o1 : object KCFAPI) r key w w1 o2 w2 :
  answer e (CGet KCFAPI key) w = (Ok o, w) ->
  run e (delegate o) w = (Returned (o1, r), w1) -> cfapi_key o1 = key ->
  answer e (CPatch KCFAPI o1 o) w1 = (Ok o2, w2) -> stored w2 key = None ->
  exists err w3, run e (PatchingReconciler.Reconcile (k:=KCFAPI) delegate key) w
       = (Returned (zero_CtrlResult, Some (ErrWrap "patching-status-failed: " err "")), w3)
     /\ IsNotFound err = true.
Proof.
  intros Hget Hdel Hkey Hp Hst2.
  destruct (status_patch_missing w2 o1 o) as (err & w3 & Hs & Hn); [by rewrite Hkey|].
  exists err, w3. by rewrite (run_Reconcile _ _ _ _ _ _ Hget Hdel), Hp, Hs.
Qed.

(** (C11) A reconciliation persists what its delegate did to the object,
    whatever the delegate returned, an error included: if the delegate turns
    the stored object [o] into [o1] and both patches are accepted (and the
    object does not disappear with its last finalizer), then the API server
    holds an object with the key, finalizers and spec of [o1] and exactly
    the status of [o1], and the reconciliation returns the delegate's result
    with a NotReadyError translated. *)
Theorem Reconcile_persists (o o1 : object KCFAPI) r key w w1 :
  stored w key = Some o -> answer e (CGet KCFAPI key) w = (Ok o, w) ->
  run e (delegate o) w = (Returned (o1, r), w1) ->
  stored w1 key = Some o -> cfapi_key o1 = key -> terminated o1 = false ->
  forall o2 w2 o3 w3,
  answer e (CPatch KCFAPI o1 o) w1 = (Ok o2, w2) ->
  answer e (CStatusPatch KCFAPI o1 o) w2 = (Ok o3, w3) ->
  run e (PatchingReconciler.Reconcile (k:=KCFAPI) delegate key) w
    = (Returned (PatchingReconciler.requeue_of r), w3)
  /\ exists p, stored w3 key = Some p /\ same_main p o1 /\ cfapi_status p = cfapi_status o1.
Proof.
  intros Hst Hget Hdel Hst1 Hkey Hterm o2 w2 o3 w3 Hp Hs.
  assert (Ho : cfapi_key o = key) by (by apply get_stored in Hget as (_ & _ & ?)).
  rewrite (run_Reconcile _ _ _ _ _ _ Hget Hdel), Hp, Hs. split; [done|].
  by eapply patches_persist.
Qed.

(** The reconciliation that finishes a deletion ends in an error: when
    the delegate removes the last finalizer of an object under deletion, an
    accepted main patch makes the object disappear, so the status patch that
    follows finds nothing and its NotFound error is what Reconcile returns,
    instead of a clean end. *)
Theorem Reconcile_last_finalizer (o o1 : object KCFAPI) r key w w1 o2 w2 :
  stored w key = Some o -> answer e (CGet KCFAPI key) w = (Ok o, w) ->
  run e (delegate o) w = (Returned (o1, r), w1) ->
  stored w1 key = Some o -> cfapi_key o1 = key ->
  terminated o1 = true ->
  answer e (CPatch KCFAPI o1 o) w1 = (Ok o2, w2) ->
  stored w2 key = None
  /\ exists err w3, run e (PatchingReconciler.Reconcile (k:=KCFAPI) delegate key) w
       = (Returned (zero_CtrlResult, Some (ErrWrap "patching-status-failed: " err "")), w3)
     /\ IsNotFound err = true.
Proof.
  intros Hst Hget Hdel Hst1 Hkey Hterm Hp.
  assert (Ho : cfapi_key o = key) by (by apply get_stored in Hget as (_ & _ & ?)).
  assert (Hst2 : stored w2 key = None) by exact (proj2 (patch_disappears o o1 key w1 o2 w2 Ho Hst1 Hkey Hp) Hterm).
  split; [done|]. by eapply run_Reconcile_gone.
Qed.

(** A reconciliation of an object that no longer exists does nothing
    and succeeds; one that cannot read it for another reason returns that
    error; in neither case is anything changed. *)
Theorem Reconcile_unreadable key w err w' :
  answer e (CGet KCFAPI key) w = (Fail err, w') ->
  run e (PatchingReconciler.Reconcile (k:=KCFAPI) delegate key) w
    = (Returned (zero_CtrlResult, if IsNotFound err then None else Some err), w')
  /\ calls e (PatchingReconciler.Reconcile (k:=KCFAPI) delegate key) w = [CGet KCFAPI key].
Proof.
  intros Hget. unfold PatchingReconciler.Reconcile.
  rewrite run_bind, calls_bind, run_try, calls_try, run_Get, Hget. cbn.
  rewrite Hget. cbn. by destruct (IsNotFound err).
Qed.

(** The status is patched after the object, with what the delegate left
    and relative to what was read, and only when the main patch succeeded. *)
Theorem Patch_order {A} (o o1 : object KCFAPI) (f : object KCFAPI -> M (object KCFAPI * A)) a w w1 :
  run e (f o) w = (Returned (o1, a), w1) ->
  calls e (Patching.Patch (k:=KCFAPI) o f) w =
  calls e (f o) w ++ CPatch KCFAPI o1 o ::
  (if is_ok (answer e (CPatch KCFAPI o1 o) w1).1 then [CStatusPatch KCFAPI o1 o] else []).
Proof.
  intros H. rewrite (calls_Patch o o1 f a w w1 H).
  by destruct (answer e (CPatch KCFAPI o1 o) w1) as [[|] ?].
Qed.
End Patching.

(** How a NotReadyError ends a reconciliation, wherever it sits on the
      chain of wrapped errors: a requeue beats a delay, a delay beats "no
      requeue", and an error that is returned to controller-runtime is one that
      has none of the three marks. *)
Theorem requeue_precedence r err n :
  AsNotReadyError err = Some n ->
  PatchingReconciler.requeue_of (r, Some err) =
  if requeue n then ({| Requeue := true; RequeueAfter := 0 |}, None)
  else match requeueAfter n with
       | Some d => ({| Requeue := false; RequeueAfter := d |}, None)
       | None => if noRequeue n then (zero_CtrlResult, None) else (r, Some err)
       end.
Proof.
  intros H. unfold PatchingReconciler.requeue_of. cbn. rewrite H.
  by destruct (requeue n), (requeueAfter n), (noRequeue n).
Qed.

(** ** A reference API server with one CFAPI object, and witnesses *)

Module SingleObject.

(** An injective encoding of a CFAPI; the converter stores its bits. *)
#[export] Instance ObjectKey_countable : Countable ObjectKey.
Proof.
  apply (inj_countable' (fun k => (key_ns k, key_name k))
    (fun '(a, b) => {| key_ns := a; key_name := b |})). by intros [].
Defined.

#[export] Instance ObjectMeta_countable : Countable ObjectMeta.
Proof.
  apply (inj_countable'
    (fun m => (Namespace m, Name m, Generation m, Finalizers m, DeletionTimestamp m, ResourceVersion m))
    (fun '(a, b, c, d, f, g) => {| Namespace := a; Name := b; Generation := c; Finalizers := d;
                                   DeletionTimestamp := f; ResourceVersion := g |})). by intros [].
Defined.

#[export] Instance ConditionStatus_countable : Countable ConditionStatus.
Proof.
  apply (inj_countable
    (fun s => match s with ConditionTrue => 0 | ConditionFalse => 1 | ConditionUnknown => 2 end)
    (fun z => if z =? 0 then Some ConditionTrue else if z =? 1 then Some ConditionFalse
              else Some ConditionUnknown)). by intros [].
Defined.

#[export] Instance Condition_countable : Countable Condition.
Proof.
  apply (inj_countable'
    (fun c => (c_Type c, c_Status c, c_ObservedGeneration c, c_LastTransitionTime c, c_Reason c, c_Message c))
    (fun '(a, b, c, d, f, g) => {| c_Type := a; c_Status := b; c_ObservedGeneration := c;
       c_LastTransitionTime := d; c_Reason := f; c_Message := g |})). by intros [].
Defined.

#[export] Instance InstallationConfig_countable : Countable InstallationConfig.
Proof.
  apply (inj_countable'
    (fun c => (cfg_RootNamespace c, cfg_ContainerRegistrySecret c,
       cfg_DisableContainerRegistrySecretPropagation c, cfg_ContainerRegistryURL c,
       cfg_ContainerRepositoryPrefix c, cfg_BuilderRepository c, cfg_UAAURL c, cfg_CFAdmins c,
       cfg_CFDomain c, cfg_KorifiIngressService c, cfg_UseSelfSignedCertificates c, cfg_GatewayType c))
    (fun '(a, b, c, d, f, g, h, i, j, k, l, m) =>
       {| cfg_RootNamespace := a; cfg_ContainerRegistrySecret := b;
          cfg_DisableContainerRegistrySecretPropagation := c; cfg_ContainerRegistryURL := d;
          cfg_ContainerRepositoryPrefix := f; cfg_BuilderRepository := g; cfg_UAAURL := h;
          cfg_CFAdmins := i; cfg_CFDomain := j; cfg_KorifiIngressService := k;
          cfg_UseSelfSignedCertificates := l; cfg_GatewayType := m |})). by intros [].
Defined.

#[export] Instance CFAPIStatus_countable : Countable CFAPIStatus.
Proof.
  apply (inj_countable'
    (fun s => (st_State s : string, st_ObservedGeneration s, st_Conditions s, st_InstallationConfig s, st_URL s))
    (fun '(a, b, c, d, f) => {| st_State := a; st_ObservedGeneration := b; st_Conditions := c;
       st_InstallationConfig := d; st_URL := f |})). by intros [].
Defined.

#[export] Instance CFAPISpec_countable : Countable CFAPISpec.
Proof.
  apply (inj_countable'
    (fun s => (spec_RootNamespace s, spec_ContainerRegistrySecret s,
       spec_DisableContainerRegistrySecretPropagation s, spec_ContainerRepositoryPrefix s,
       spec_BuilderRepository s, spec_UAA s, spec_CFAdmins s, spec_UseSelfSignedCertificates s,
       spec_GatewayType s))
    (fun '(a, b, c, d, f, g, h, i, j) => {| spec_RootNamespace := a; spec_ContainerRegistrySecret := b;
       spec_DisableContainerRegistrySecretPropagation := c; spec_ContainerRepositoryPrefix := d;
       spec_BuilderRepository := f; spec_UAA := g; spec_CFAdmins := h;
       spec_UseSelfSignedCertificates := i; spec_GatewayType := j |})). by intros [].
Defined.

Fixpoint bits (p : positive) : list Value :=
  match p with
  | xH => []
  | xO p => VBool false :: bits p
  | xI p => VBool true :: bits p
  end.

Fixpoint of_bits (l : list Value) : positive :=
  match l with
  | [] => xH
  | VBool true :: l => xI (of_bits l)
  | _ :: l => xO (of_bits l)
  end.

Lemma of_bits_bits p : of_bits (bits p) = p.
Proof. induction p as [p IH|p IH|]; cbn; by rewrite ?IH. Qed.

Definition field {A} `{Countable A} (a : A) : Value := VList (bits (encode a)).
Definition unfield {A} `{Countable A} (v : option Value) : option A :=
  match v with Some (VList l) => decode (of_bits l) | _ => None end.

Lemma unfield_field {A} `{Countable A} (a : A) : unfield (Some (field a)) = Some a.
Proof. unfold unfield, field. rewrite of_bits_bits. apply decode_encode. Qed.

Definition to_values (o : CFAPI) : Values :=
  <["metadata" := field (cfapi_meta o)]> (<["spec" := field (cfapi_spec o)]>
    (<["status" := field (cfapi_status o)]> ∅)).

Definition of_values (m : Values) : option CFAPI :=
  meta ← unfield (m !! "metadata"); spec ← unfield (m !! "spec"); status ← unfield (m !! "status");
  Some {| cfapi_meta := meta; cfapi_spec := spec; cfapi_status := status |}.

Lemma of_to_values o : of_values (to_values o) = Some o.
Proof.
  assert (to_values o !! "metadata" = Some (field (cfapi_meta o))
          /\ to_values o !! "spec" = Some (field (cfapi_spec o))
          /\ to_values o !! "status" = Some (field (cfapi_status o))) as (Hm & Hs & Ht)
    by (unfold to_values; split_and!; by simplify_map_eq).
  unfold of_values. rewrite Hm, Hs, Ht, !unfield_field. cbn.
  by destruct o.
Qed.

#[export] Instance converter : ConverterLib := {|
  ToUnstructured k :=
    match k return object k -> result error Values with
    | KCFAPI => fun o => Ok (to_values o)
    | _ => fun _ => Fail (ErrExt "not a CFAPI")
    end;
  FromUnstructured k m :=
    match k return object k -> result error (object k) with
    | KCFAPI => fun _ => match of_values m with Some o => Ok o | None => Fail (ErrExt "malformed") end
    | _ => fun _ => Fail (ErrExt "not a CFAPI")
    end
|}.

#[export] Instance converter_laws : ConverterLaws KCFAPI.
Proof.
  split. intros o. exists (to_values o). split; [done|]. split.
  - unfold to_values. by simplify_map_eq.
  - intros target. cbn. by rewrite of_to_values.
Qed.

(** The server: the world is the object, if it exists; every other call is
    answered by [f]. *)
Definition not_found : error := ErrAPI true "not found".

Definition lookup_object (w : option CFAPI) (key : ObjectKey) : option CFAPI :=
  match w with Some o => if decide (cfapi_key o = key) then Some o else None | None => None end.

Definition patched (obj cur : CFAPI) : CFAPI :=
  {| cfapi_meta := cfapi_meta obj; cfapi_spec := cfapi_spec obj; cfapi_status := cfapi_status cur |}.
Definition status_patched (obj cur : CFAPI) : CFAPI :=
  {| cfapi_meta := cfapi_meta cur; cfapi_spec := cfapi_spec cur; cfapi_status := cfapi_status obj |}.

Section Server.
Context (f : forall c : call, reply c).

Definition get_answer (k : kind) (key : ObjectKey) (w : option CFAPI) : result error (object k) :=
  match k return reply (CGet k key) -> result error (object k) with
  | KCFAPI => fun _ => match lookup_object w key with Some o => Ok o | None => Fail not_found end
  | _ => fun r => r
  end (f (CGet k key)).

Definition patch_answer (k : kind) (w : option CFAPI) :
    forall obj from : object k, result error (object k) * option CFAPI :=
  match k return forall obj from : object k, result error (object k) * option CFAPI with
  | KCFAPI => fun obj _ =>
      match lookup_object w (cfapi_key obj) with
      | Some cur => (Ok (patched obj cur),
                     if terminated (patched obj cur) then None else Some (patched obj cur))
      | None => (Fail not_found, w)
      end
  | k => fun obj from => (f (CPatch k obj from), w)
  end.

Definition status_answer (k : kind) (w : option CFAPI) :
    forall obj from : object k, result error (object k) * option CFAPI :=
  match k return forall obj from : object k, result error (object k) * option CFAPI with
  | KCFAPI => fun obj _ =>
      match lookup_object w (cfapi_key obj) with
      | Some cur => (Ok (status_patched obj cur), Some (status_patched obj cur))
      | None => (Fail not_found, w)
      end
  | k => fun obj from => (f (CStatusPatch k obj from), w)
  end.

Definition server_answer (c : call) (w : option CFAPI) : reply c * option CFAPI :=
  match c with
  | CGet k key => (get_answer k key w, w)
  | CPatch k obj from => patch_answer k w obj from
  | CStatusPatch k obj from => status_answer k w obj from
  | c => (f c, w)
  end.

Definition server : Env := Environment (S:=ext) (option CFAPI) server_answer.

Lemma lookup_object_Some w key o : lookup_object w key = Some o -> w = Some o /\ cfapi_key o = key.
Proof. destruct w as [p|]; cbn; [|done]. case_decide; [|done]. intros [= <-]. done. Qed.

Lemma lookup_object_self o : lookup_object (Some o) (cfapi_key o) = Some o.
Proof. cbn. by rewrite decide_True. Qed.

#[export] Instance server_laws : ApiServer server.
Proof.
  refine {| stored := fun w : world server => lookup_object w |}.
  - intros key w o w' [= Hg <-]. unfold get_answer in Hg.
    destruct (lookup_object w key) as [p|] eqn:Hp; [|done]. injection Hg as <-.
    by apply lookup_object_Some in Hp as [_ ?].
  - intros w obj from o w' Hst Hkey Ha. cbn in Ha. rewrite Hkey, Hst in Ha.
    injection Ha as <- <-. split; [done|]. split; [done|].
    destruct (terminated (patched obj from)); [done|].
    rewrite <- Hkey. apply (lookup_object_self (patched obj from)).
  - intros w obj from Hst. cbn. rewrite Hst. by eexists _, _.
  - intros w obj from cur o w' Hst Ha. cbn in Ha. rewrite Hst in Ha. injection Ha as <- <-.
    apply lookup_object_Some in Hst as [_ Hkey].
    split; [done|]. split; [done|]. rewrite <- Hkey.
    apply (lookup_object_self (status_patched obj cur)).
Defined.
End Server.
End SingleObject.

Definition sample_spec : CFAPISpec :=
  {| spec_RootNamespace := ""; spec_ContainerRegistrySecret := "";
     spec_DisableContainerRegistrySecretPropagation := false; spec_ContainerRepositoryPrefix := "";
     spec_BuilderRepository := ""; spec_UAA := ""; spec_CFAdmins := None;
     spec_UseSelfSignedCertificates := false; spec_GatewayType := "" |}.

Definition sample_cfapi (finalizers : list string) (deleted : option Z) : CFAPI :=
  {| cfapi_meta := {| Namespace := "cfapi-system"; Name := "default-cf-api"; Generation := 1;
                      Finalizers := finalizers; DeletionTimestamp := deleted; ResourceVersion := "7" |};
     cfapi_spec := sample_spec;
     cfapi_status := {| st_State := ""; st_ObservedGeneration := 0; st_Conditions := [];
                        st_InstallationConfig := zero_InstallationConfig; st_URL := "" |} |}.

Definition sample_key : ObjectKey := {| key_ns := "cfapi-system"; key_name := "default-cf-api" |}.

(** A delegate that sets the state and fails, and one that drops the finalizers. *)
Definition failing_delegate : ObjectReconciler KCFAPI := fun o =>
  mret (set_State StateWarning o, (zero_CtrlResult, Some (ErrText "boom"))).
Definition finishing_delegate : ObjectReconciler KCFAPI := fun o =>
  mret (with_meta (set_Finalizers []) o, (zero_CtrlResult, None)).

Abbreviation sample_server := (SingleObject.server no_answers).

Lemma Reconcile_persists_witness :
  exists (w3 : world sample_server) p,
    stored (ApiServer:=SingleObject.server_laws no_answers) w3 sample_key = Some p
    /\ st_State (cfapi_status p) = StateWarning.
Proof.
  destruct (Reconcile_persists (conv:=SingleObject.converter) (convlaws:=SingleObject.converter_laws)
    sample_server (server:=SingleObject.server_laws no_answers) failing_delegate
    (sample_cfapi ["f"] None) (set_State StateWarning (sample_cfapi ["f"] None))
    (zero_CtrlResult, Some (ErrText "boom")) sample_key
    (Some (sample_cfapi ["f"] None)) (Some (sample_cfapi ["f"] None))
    eq_refl eq_refl eq_refl eq_refl eq_refl eq_refl _ _ _ _ eq_refl eq_refl) as (_ & p & Hp & _ & Hs).
  eexists _, p. split; [exact Hp|]. by rewrite Hs.
Defined.

Lemma Reconcile_last_finalizer_witness :
  exists err w3, run sample_server (PatchingReconciler.Reconcile (conv:=SingleObject.converter)
      (k:=KCFAPI) finishing_delegate sample_key) (Some (sample_cfapi ["f"] (Some 1)))
    = (Returned (zero_CtrlResult, Some (ErrWrap "patching-status-failed: " err "")), w3).
Proof.
  destruct (Reconcile_last_finalizer (conv:=SingleObject.converter) (convlaws:=SingleObject.converter_laws)
    sample_server (server:=SingleObject.server_laws no_answers) finishing_delegate
    (sample_cfapi ["f"] (Some 1)) (sample_cfapi [] (Some 1)) (zero_CtrlResult, None) sample_key
    (Some (sample_cfapi ["f"] (Some 1))) (Some (sample_cfapi ["f"] (Some 1))) _ _
    eq_refl eq_refl eq_refl eq_refl eq_refl eq_refl eq_refl) as (_ & err & w3 & H & _).
  exists err, w3. exact H.
Defined.

Lemma Reconcile_unreadable_witness :
  run sample_server (PatchingReconciler.Reconcile (conv:=SingleObject.converter)
      (k:=KCFAPI) finishing_delegate sample_key) None
  = (Returned (zero_CtrlResult, None), None).
Proof.
  exact (proj1 (Reconcile_unreadable (conv:=SingleObject.converter) sample_server finishing_delegate
    sample_key None (SingleObject.not_found) None eq_refl)).
Defined.

Lemma Patch_order_witness :
  length (calls sample_server (Patching.Patch (conv:=SingleObject.converter) (k:=KCFAPI)
    (sample_cfapi ["f"] None) (PatchingReconciler.modify (k:=KCFAPI) failing_delegate))
    (Some (sample_cfapi ["f"] None))) = 2%nat.
Proof.
  rewrite (Patch_order (convlaws:=SingleObject.converter_laws) sample_server _
    (set_State StateWarning (sample_cfapi ["f"] None)) (PatchingReconciler.modify (k:=KCFAPI) failing_delegate)
    (zero_CtrlResult, Some (ErrText "boom")) _ (Some (sample_cfapi ["f"] None)) eq_refl).
  reflexivity.
Defined.

Lemma requeue_precedence_witness :
  PatchingReconciler.requeue_of (zero_CtrlResult,
    Some (ErrWrap "outer: " (ErrNotReady (WithRequeueAfter (10 * Second) (WithRequeue NewNotReadyError))) ""))
  = ({| Requeue := true; RequeueAfter := 0 |}, None).
Proof.
  exact (requeue_precedence zero_CtrlResult
    (ErrWrap "outer: " (ErrNotReady (WithRequeueAfter (10 * Second) (WithRequeue NewNotReadyError))) "")
    (WithRequeueAfter (10 * Second) (WithRequeue NewNotReadyError)) eq_refl).
Defined.
