(* ===== verification/Controller.v ===== *)
(** * The CFAPI reconciler

    Models src/controllers/cfapi/controller.go: compiling the installation
    configuration, installing and uninstalling the installables in order, and
    recording the outcome in the status and the finalizers of the CFAPI
    object. *)

From S2P Require Export InstallableSpec PatchSpec Docker.

#[local] Open Scope Z_scope.
#[local] Open Scope list_scope.

Definition Finalizer : string := "cfapi.kyma-project.io/finalizer".

(** [type Reconciler struct]: the order of the installables and the interval;
    the clients are the external calls. *)
Record Reconciler := {
  requeueInterval : Z;
  installOrder : list Installable;
  uninstallOrder : list Installable
}.

Section Controller.
Context {it : ItLib} {meta : MetaLib} {fin : FinalizerLib} {jsonp : JsonParser}.
Context (r : Reconciler).

(** [meta.SetStatusCondition(&cfAPI.Status.Conditions, ...)] with the
    generation of the object and the time of the call. *)
Definition set_condition (type : string) (status : ConditionStatus) (reason message : string)
    (now : Z) (cfAPI : CFAPI) : CFAPI :=
  set_Conditions (SetStatusCondition (st_Conditions (cfapi_status cfAPI))
    {| c_Type := type; c_Status := status;
       c_ObservedGeneration := Generation (cfapi_meta cfAPI);
       c_LastTransitionTime := now; c_Reason := reason; c_Message := message |}) cfAPI.

Definition add_finalizer : CFAPI -> CFAPI :=
  with_meta (fun m => set_Finalizers (AddFinalizer (Finalizers m) Finalizer) m).

Definition remove_finalizer : CFAPI -> CFAPI :=
  with_meta (fun m => set_Finalizers (RemoveFinalizer (Finalizers m) Finalizer) m).

(** ** The installation configuration *)

Definition computeUaaURL (cfAPI : CFAPI) : M string :=
  if decide (spec_UAA (cfapi_spec cfAPI) <> "") then mret (spec_UAA (cfapi_spec cfAPI))
  else UAA.GetURL.

Definition computeCFAdmins (cfAPI : CFAPI) : M (slice string) :=
  if decide (0 < length (elems (spec_CFAdmins (cfapi_spec cfAPI))))%nat
  then mret (spec_CFAdmins (cfapi_spec cfAPI))
  else
    adminSubjects ← Users.GetClusterAdmins;
    mret (Collect (it_Map subject_Name adminSubjects)).

Definition no_registries (secret : string) : error :=
  ErrText ("container registry secret " +:+ secret +:+ " does not specify container registries").

(** The keys of the auths map come in an order the runtime chooses. *)
Definition ensureContainerRegistry (cfAPI : CFAPI) : M (string * string) :=
  let ns := Namespace (cfapi_meta cfAPI) in
  let secretName := spec_ContainerRegistrySecret (cfapi_spec cfAPI) in
  if decide (secretName <> "") then
    customSecret ← Get KSecret {| key_ns := ns; key_name := secretName |};
    registryConfig ← GetRegistryConfig ns secretName;
    registryURLs ← Call (S:=ext) (CRangeKeys (dom (Auths registryConfig))) Ret;
    if decide (length registryURLs = 0%nat) then Err (no_registries secretName)
    else url ← index registryURLs 0;
         mret (Name (secret_meta customSecret), url)
  else
    kymaRegistrySecret ← ContainerRegistry.GetRegistrySecret ns;
    kymaRegistryURL ← ContainerRegistry.GetRegistryURL ns;
    mret (Name (secret_meta kymaRegistrySecret), kymaRegistryURL).

Definition compileInstallationConfig (cfAPI : CFAPI) : M InstallationConfig :=
  let spec := cfapi_spec cfAPI in
  let rootNs := if decide (spec_RootNamespace spec = "") then "cf" else spec_RootNamespace spec in
  _ ← Gateway.Validate cfAPI;
  kymaDomain ← Gateway.KymaDomain;
  '(registrySecretName, registryURL) ← ensureContainerRegistry cfAPI;
  let containerRepositoryPrefix :=
    if decide (spec_ContainerRepositoryPrefix spec <> "") then spec_ContainerRepositoryPrefix spec
    else registryURL +:+ "/" in
  let builderRepository :=
    if decide (spec_BuilderRepository spec <> "") then spec_BuilderRepository spec
    else registryURL +:+ "/cfapi/kpack-builder" in
  uaaURL ← computeUaaURL cfAPI;
  cfAdmins ← computeCFAdmins cfAPI;
  mret {| cfg_RootNamespace := rootNs;
          cfg_ContainerRegistrySecret := registrySecretName;
          cfg_DisableContainerRegistrySecretPropagation :=
            spec_DisableContainerRegistrySecretPropagation spec;
          cfg_ContainerRegistryURL := registryURL;
          cfg_ContainerRepositoryPrefix := containerRepositoryPrefix;
          cfg_BuilderRepository := builderRepository;
          cfg_UAAURL := uaaURL;
          cfg_CFAdmins := cfAdmins;
          cfg_CFDomain := kymaDomain;
          cfg_KorifiIngressService := Gateway.KorifiIngressService cfAPI;
          cfg_UseSelfSignedCertificates := spec_UseSelfSignedCertificates spec;
          cfg_GatewayType := Gateway.KorifiGatewayType cfAPI |}.

(** ** Installing and uninstalling *)

Fixpoint install_loop (config : InstallationConfig) (eventRecorder : EventRecorder)
    (results : list Result) (order : list Installable) : M (list Result) :=
  match order with
  | [] => mret results
  | inst :: order =>
      result ← Install inst config eventRecorder;
      install_loop config eventRecorder (results ++ [result]) order
  end.

(** [int(r2.State) - int(r1.State)] *)
Definition compare_results (r1 r2 : Result) : Z :=
  int_of_state (r_State r2) - int_of_state (r_State r1).

Definition install (config : InstallationConfig) (eventRecorder : EventRecorder) : M Result :=
  results ← install_loop config eventRecorder [] (installOrder r);
  index (SortStableFunc compare_results results) 0.

Fixpoint uninstall_loop (config : InstallationConfig) (eventRecorder : EventRecorder)
    (order : list Installable) : M Result :=
  match order with
  | [] => mret {| r_State := ResultStateSuccess; r_Message := "" |}
  | uninst :: order =>
      result ← Uninstall uninst config eventRecorder;
      if decide (r_State result <> ResultStateSuccess) then mret result
      else uninstall_loop config eventRecorder order
  end.

Definition uninstall (config : InstallationConfig) (eventRecorder : EventRecorder) : M Result :=
  uninstall_loop config eventRecorder (uninstallOrder r).

(** ** Recording the outcome *)

Definition applyInstallResultToStatus (installResult : Result) (cfAPI : CFAPI)
    : M (CFAPI * (CtrlResult * option error)) :=
  match r_State installResult with
  | ResultStateSuccess =>
      let cfAPI := set_State StateReady cfAPI in
      let cfAPI := set_URL ("https://cfapi."
                     +:+ cfg_CFDomain (st_InstallationConfig (cfapi_status cfAPI))) cfAPI in
      now ← Now;
      let cfAPI := set_condition ConditionTypeInstallation ConditionTrue
                     "InstallationSuccess" "" now cfAPI in
      mret (cfAPI, (zero_CtrlResult, None))
  | ResultStateFailed =>
      let cfAPI := set_URL "" cfAPI in
      let cfAPI := set_State StateError cfAPI in
      now ← Now;
      let cfAPI := set_condition ConditionTypeInstallation ConditionFalse
                     "InstallationFailed" (r_Message installResult) now cfAPI in
      mret (cfAPI, (zero_CtrlResult, None))
  | _ =>
      let cfAPI := set_URL "" cfAPI in
      let cfAPI := set_State StateProcessing cfAPI in
      now ← Now;
      let cfAPI := set_condition ConditionTypeInstallation ConditionUnknown
                     "InstallationInProgress" (r_Message installResult) now cfAPI in
      mret (cfAPI, ({| Requeue := false; RequeueAfter := requeueInterval r |}, None))
  end.

Definition finalize (cfAPI : CFAPI) : M (CFAPI * (CtrlResult * option error)) :=
  let cfAPI := set_State StateDeleting cfAPI in
  let uninstallConfig := st_InstallationConfig (cfapi_status cfAPI) in
  if IsZero_InstallationConfig uninstallConfig
  then mret (remove_finalizer cfAPI, (zero_CtrlResult, None))
  else
    uninstallResult ← try (uninstall uninstallConfig (NewCFAPIEventRecorder (cfapi_key cfAPI)));
    match uninstallResult with
    | Fail err => mret (cfAPI, (zero_CtrlResult, Some err))
    | Ok uninstallResult =>
        if decide (r_State uninstallResult <> ResultStateSuccess) then
          now ← Now;
          let cfAPI := set_condition ConditionTypeDeletion ConditionFalse
                         "DeletionInProgress" (r_Message uninstallResult) now cfAPI in
          mret (cfAPI, ({| Requeue := false; RequeueAfter := requeueInterval r |}, None))
        else mret (remove_finalizer cfAPI, (zero_CtrlResult, None))
    end.

Definition invalid_configuration (err : error) : error :=
  ErrNotReady (WithRequeueAfter (requeueInterval r)
    (WithMessage (error_string err) (WithReason "InvalidConfiguration" NewNotReadyError))).

Definition ReconcileResource (cfAPI : CFAPI) : M (CFAPI * (CtrlResult * option error)) :=
  let cfAPI := set_ObservedGeneration (Generation (cfapi_meta cfAPI)) cfAPI in
  let cfAPI := set_State StateProcessing cfAPI in
  let cfAPI := add_finalizer cfAPI in
  if decide (is_Some (DeletionTimestamp (cfapi_meta cfAPI))) then finalize cfAPI
  else
    installationConfig ← try (compileInstallationConfig cfAPI);
    match installationConfig with
    | Fail err =>
        let cfAPI := set_State StateWarning cfAPI in
        now ← Now;
        let cfAPI := set_condition ConditionTypeConfiguration ConditionFalse
                       "InvalidConfiguration" (error_string err) now cfAPI in
        mret (cfAPI, (zero_CtrlResult, Some (invalid_configuration err)))
    | Ok installationConfig =>
        now ← Now;
        let cfAPI := set_condition ConditionTypeConfiguration ConditionTrue
                       "ValidConiguration" "" now cfAPI in
        let cfAPI := set_InstallationConfig installationConfig cfAPI in
        installResult ← try (install installationConfig (NewCFAPIEventRecorder (cfapi_key cfAPI)));
        match installResult with
        | Fail err => mret (cfAPI, (zero_CtrlResult, Some err))
        | Ok installResult => applyInstallResultToStatus installResult cfAPI
        end
    end.
End Controller.

(** The reconciler that [NewReconciler] hands to controller-runtime. *)
Definition NewReconciler `{ItLib, MetaLib, FinalizerLib, JsonParser, ConverterLib}
    (r : Reconciler) : ObjectKey -> M (CtrlResult * option error) :=
  PatchingReconciler.Reconcile (k:=KCFAPI) (ReconcileResource r).
