(* ===== verification/ControllerSpec.v ===== *)
(** * Correctness of the CFAPI reconciler

    Aggregation of the installation results, order of the uninstallation, the
    compiled configuration, the status a reconciliation leaves and the
    finalizer (src/controllers/cfapi/controller.go). *)

From S2P Require Export Controller.

#[local] Open Scope Z_scope.
#[local] Open Scope list_scope.

#[global] Arguments compileInstallationConfig : simpl never.
#[global] Arguments install : simpl never.
#[global] Arguments uninstall : simpl never.
#[global] Arguments ensureContainerRegistry : simpl never.

(** ** Installing and uninstalling in order *)

Abbreviation state_key := (fun x : Result => int_of_state (r_State x)).

(** The results that report success. *)
Definition succeeded (x : Result) : Prop := r_State x = ResultStateSuccess.

Lemma succeeded_key x : succeeded x <-> int_of_state (r_State x) <= 0.
Proof. unfold succeeded. by destruct (r_State x). Qed.

Lemma first_max_succeeded results x :
  first_max state_key results x -> (succeeded x <-> Forall succeeded results).
Proof.
  intros (l1 & l2 & -> & H1 & H2). split.
  - intros Hx. pose proof (proj1 (succeeded_key x) Hx) as Hx0.
    apply Forall_app. split; [|constructor; [done|]].
    + eapply Forall_impl; [exact H1|]. cbn. intros y Hy. apply succeeded_key. lia.
    + eapply Forall_impl; [exact H2|]. cbn. intros y Hy. apply succeeded_key. lia.
  - intros [_ Hall]%Forall_app. by inversion Hall.
Qed.

Section Orders.
Context (e : Env) (r : Reconciler) (config : InstallationConfig) (recorder : EventRecorder).

(** The installables of a list are installed one after the other, each from
    the world the previous one left, and answer the given results. *)
Inductive installs : list Installable -> world e -> list Result -> world e -> Prop :=
| installs_nil w : installs [] w [] w
| installs_cons inst order w result w1 results w2 :
    run e (Install inst config recorder) w = (Returned result, w1) ->
    installs order w1 results w2 ->
    installs (inst :: order) w (result :: results) w2.

(** All the installables of a list are uninstalled with success. *)
Inductive uninstalled : list Installable -> world e -> world e -> Prop :=
| uninstalled_nil w : uninstalled [] w w
| uninstalled_cons uninst order w msg w1 w2 :
    run e (Uninstall uninst config recorder) w
      = (Returned {| r_State := ResultStateSuccess; r_Message := msg |}, w1) ->
    uninstalled order w1 w2 -> uninstalled (uninst :: order) w w2.

Lemma install_loop_installs order w results w' acc :
  installs order w results w' ->
  run e (install_loop config recorder acc order) w = (Returned (acc ++ results), w').
Proof.
  intros H. revert acc. induction H as [w|inst order w result w1 results w2 Hi _ IH]; intros acc; cbn [install_loop].
  - by rewrite app_nil_r.
  - rewrite run_bind, Hi, IH. by rewrite <- app_assoc.
Qed.

Lemma install_loop_app before after w results w1 acc :
  installs before w results w1 ->
  run e (install_loop config recorder acc (before ++ after)) w
  = run e (install_loop config recorder (acc ++ results) after) w1.
Proof.
  intros H. revert acc. induction H as [w|inst order w result w1 results w2 Hi _ IH]; intros acc; cbn [app install_loop].
  - by rewrite app_nil_r.
  - rewrite run_bind, Hi, IH. by rewrite <- app_assoc.
Qed.

Lemma uninstall_loop_app before after w w1 :
  uninstalled before w w1 ->
  run e (uninstall_loop config recorder (before ++ after)) w
  = run e (uninstall_loop config recorder after) w1.
Proof.
  induction 1 as [w|u order w msg w1 w2 Hu _ IH]; cbn [app uninstall_loop]; [done|].
  by rewrite run_bind, Hu, decide_False by (cbn; congruence).
Qed.

Lemma run_install_worst w results w' :
  installOrder r <> [] -> installs (installOrder r) w results w' ->
  exists result, run e (install r config recorder) w = (Returned result, w')
    /\ first_max state_key results result.
Proof.
  intros Hne Hi. unfold install. rewrite run_bind, (install_loop_installs _ _ _ _ [] Hi). cbn [app].
  unfold index. change compare_results with (by_key state_key).
  pose proof (head_SortStableFunc state_key results) as Hhead.
  pose proof (SortStableFunc_perm (by_key state_key) results) as Hperm.
  destruct (SortStableFunc (by_key state_key) results) as [|result sorted] eqn:Hs.
  - apply Permutation_nil in Hperm. subst results. inversion Hi; congruence.
  - exists result. split; [done|]. by apply Hhead.
Qed.

(** Installing runs every installable of the order, and reports the
    worst of their results: a failure beats progress, progress beats
    success, and among equally bad results the first one of the order is
    reported, message included.  So it reports success exactly when every
    single installable did. *)
Theorem install_reports_worst w results w' :
  installOrder r <> [] -> installs (installOrder r) w results w' ->
  exists result, run e (install r config recorder) w = (Returned result, w')
    /\ first_max state_key results result
    /\ (succeeded result <-> Forall succeeded results).
Proof.
  intros Hne Hi. destruct (run_install_worst w results w' Hne Hi) as (result & Hrun & Hmax).
  exists result. split_and!; try done; by apply first_max_succeeded.
Qed.

(** The first installable that ends in a Go error ends the installation
    with that error, and none of those after it is touched; the results
    obtained before it are dropped. *)
Theorem install_stops_at_error before inst after w results w1 err w2 :
  installOrder r = before ++ inst :: after ->
  installs before w results w1 ->
  run e (Install inst config recorder) w1 = (Errored err, w2) ->
  run e (install r config recorder) w = (Errored err, w2).
Proof.
  intros Ho Hb Hi. unfold install. rewrite Ho, run_bind, (install_loop_app _ _ _ _ _ _ Hb).
  cbn [install_loop]. by rewrite run_bind, Hi.
Qed.

(** Uninstalling goes through the order one by one: it reports success
    exactly when every uninstallable reported success, in order; the first
    one that is not done (in progress or failed) is what it reports, and the
    ones after it are not started before that one has finished. *)
Theorem uninstall_in_order w :
  ((exists msg w', run e (uninstall r config recorder) w
                   = (Returned {| r_State := ResultStateSuccess; r_Message := msg |}, w'))
   <-> exists w', uninstalled (uninstallOrder r) w w')
  /\ (forall before uninst after w1 result w2,
        uninstallOrder r = before ++ uninst :: after -> uninstalled before w w1 ->
        run e (Uninstall uninst config recorder) w1 = (Returned result, w2) ->
        r_State result <> ResultStateSuccess ->
        run e (uninstall r config recorder) w = (Returned result, w2)).
Proof.
  unfold uninstall. split.
  - generalize (uninstallOrder r) as order. intros order. split.
    + intros (msg & w' & Hrun). revert w Hrun.
      induction order as [|u order IH]; intros w Hrun; cbn [uninstall_loop] in Hrun.
      { exists w. constructor. }
      rewrite run_bind in Hrun.
      destruct (run e (Uninstall u config recorder) w) as [[[s m]|x|x] w1] eqn:Hu; [|done|done].
      case_decide as Hs; cbn in Hs.
      * injection Hrun as -> -> ->. by destruct Hs.
      * subst s. destruct (IH w1 Hrun) as [w2 Hw2].
        exists w2. by econstructor.
    + intros (w' & Hall). exists "", w'.
      rewrite <- (app_nil_r order), (uninstall_loop_app _ _ _ _ Hall). done.
  - intros before u after w1 result w2 -> Hb Hu Hs.
    rewrite (uninstall_loop_app _ _ _ _ Hb). cbn [uninstall_loop].
    by rewrite run_bind, Hu, decide_True.
Qed.
End Orders.

(** What a finished loop says about the single installables. *)
Lemma install_loop_inv e config recorder order acc w all w' :
  run e (install_loop config recorder acc order) w = (Returned all, w') ->
  exists results, all = acc ++ results /\ installs e config recorder order w results w'.
Proof.
  revert acc w. induction order as [|inst order IH]; intros acc w Hrun; cbn [install_loop] in Hrun.
  - injection Hrun as <- <-. exists []. rewrite app_nil_r. split; [done|constructor].
  - rewrite run_bind in Hrun.
    destruct (run e (Install inst config recorder) w) as [[result|x|x] w1] eqn:Hi; [|done|done].
    destruct (IH _ _ Hrun) as (results & -> & Hall). exists (result :: results).
    rewrite <- app_assoc. split; [done|]. by econstructor.
Qed.

Lemma install_inv e r config recorder w result w' :
  run e (install r config recorder) w = (Returned result, w') ->
  exists results, installs e config recorder (installOrder r) w results w' /\ result ∈ results
    /\ (succeeded result -> Forall succeeded results).
Proof.
  unfold install. rewrite run_bind.
  destruct (run e (install_loop config recorder [] (installOrder r)) w) as [[all|x|x] w1] eqn:Hl; [|done|done].
  destruct (install_loop_inv _ _ _ _ _ _ _ _ Hl) as (results & -> & Hi). cbn [app].
  unfold index. change compare_results with (by_key state_key).
  pose proof (head_SortStableFunc state_key results) as Hhead.
  destruct (SortStableFunc (by_key _) results) as [|y sorted]; [done|]. cbn. intros [= -> ->].
  exists results. split; [done|].
  pose proof (Hhead result eq_refl) as Hmax. split; [|by apply first_max_succeeded].
  destruct Hmax as (l1 & l2 & -> & _). set_solver.
Qed.

Lemma uninstall_inv e r config recorder w msg w' :
  run e (uninstall r config recorder) w
    = (Returned {| r_State := ResultStateSuccess; r_Message := msg |}, w') ->
  uninstalled e config recorder (uninstallOrder r) w w'.
Proof.
  unfold uninstall. generalize (uninstallOrder r) as order. intros order. revert w.
  induction order as [|u order IH]; intros w Hrun; cbn [uninstall_loop] in Hrun.
  { injection Hrun as _ <-. constructor. }
  rewrite run_bind in Hrun.
  destruct (run e (Uninstall u config recorder) w) as [[[s m]|x|x] w1] eqn:Hu; [|done|done].
  case_decide as Hs; cbn in Hs.
  - injection Hrun as -> -> ->. by destruct Hs.
  - subst s. econstructor; [done|]. by apply IH.
Qed.

(** ** The installation configuration *)

(** The environment [e], except that the runtime visits the keys of a map in
    the given order. *)
Definition reorder (e : Env) (order : gset string -> list string) : Env :=
  Environment (S:=ext) (world e) (fun c =>
    match c return world e -> reply c * world e with
    | CRangeKeys keys => fun w => (order keys, w)
    | c => answer e c
    end).

(** First [k], then the other keys. *)
Definition starting_with (k : string) (keys : gset string) : list string :=
  k :: elements (keys ∖ {[k]}).

Lemma starting_with_perm k keys : k ∈ keys -> starting_with k keys ≡ₚ elements keys.
Proof.
  intros Hk. unfold starting_with.
  rewrite <- elements_union_singleton by set_solver.
  by rewrite <- union_difference_singleton_L.
Qed.

Section Configuration.
Context {it : ItLib} {jsonp : JsonParser}.

Lemma only_calls_ensureContainerRegistry cf : only_calls (S:=ext) operator_read (ensureContainerRegistry cf).
Proof.
  unfold ensureContainerRegistry. case_decide.
  - apply only_calls_bind; [by apply (only_calls_Get _ KSecret)|]. intros secret.
    apply only_calls_bind; [apply only_calls_GetRegistryConfig|]. intros config.
    apply only_calls_bind; [by split|]. intros urls.
    case_decide; [exact I|]. apply only_calls_bind; [auto with calls|]. done.
  - apply only_calls_bind; [apply ContainerRegistry.only_calls_GetRegistrySecret|]. intros s.
    apply only_calls_bind; [apply ContainerRegistry.only_calls_GetRegistryURL|]. done.
Qed.

Lemma only_calls_computeUaaURL cf : only_calls (S:=ext) operator_read (computeUaaURL cf).
Proof. unfold computeUaaURL. case_decide; [exact I|]. apply UAA.only_calls_GetURL. Qed.

Lemma only_calls_computeCFAdmins cf : only_calls (S:=ext) operator_read (computeCFAdmins cf).
Proof.
  unfold computeCFAdmins. case_decide; [exact I|].
  apply only_calls_bind; [apply Users.only_calls_GetClusterAdmins|]. done.
Qed.

Lemma only_calls_compileInstallationConfig cf :
  only_calls (S:=ext) operator_read (compileInstallationConfig cf).
Proof.
  unfold compileInstallationConfig.
  apply only_calls_bind; [apply Gateway.only_calls_Validate|]. intros _.
  apply only_calls_bind; [apply Gateway.only_calls_KymaDomain|]. intros domain.
  apply only_calls_bind; [apply only_calls_ensureContainerRegistry|]. intros [secret url].
  apply only_calls_bind; [apply only_calls_computeUaaURL|]. intros uaa.
  apply only_calls_bind; [apply only_calls_computeCFAdmins|]. done.
Qed.

(** The value of a setting: the one of the spec unless it is empty. *)
Definition or_default (setting fallback : string) : string :=
  if decide (setting = "") then fallback else setting.

(** (C28) What is compiled from a CFAPI: every setting of the spec that is
    not empty is used as it is; the root namespace defaults to cf, the
    repositories to paths below the registry's URL; the gateway type is one
    of the two known ones, and the ingress service is the one that belongs
    to it.  The result is never the zero configuration, so a CFAPI whose
    configuration was once compiled is uninstalled when it is deleted. *)
Theorem compile_settings (e : Env) cfAPI w config w' :
  run e (compileInstallationConfig cfAPI) w = (Returned config, w') ->
  let spec := cfapi_spec cfAPI in
  let registry := cfg_ContainerRegistryURL config in
  cfg_RootNamespace config = or_default (spec_RootNamespace spec) "cf"
  /\ cfg_ContainerRepositoryPrefix config
     = or_default (spec_ContainerRepositoryPrefix spec) (registry +:+ "/")
  /\ cfg_BuilderRepository config
     = or_default (spec_BuilderRepository spec) (registry +:+ "/cfapi/kpack-builder")
  /\ (spec_UAA spec <> "" -> cfg_UAAURL config = spec_UAA spec)
  /\ (elems (spec_CFAdmins spec) <> [] -> cfg_CFAdmins config = spec_CFAdmins spec)
  /\ cfg_UseSelfSignedCertificates config = spec_UseSelfSignedCertificates spec
  /\ cfg_DisableContainerRegistrySecretPropagation config
     = spec_DisableContainerRegistrySecretPropagation spec
  /\ cfg_GatewayType config = or_default (spec_GatewayType spec) GatewayTypeContour
  /\ ((cfg_GatewayType config = GatewayTypeContour
         /\ cfg_KorifiIngressService config = "contour-envoy")
      \/ (cfg_GatewayType config = GatewayTypeIstio
         /\ cfg_KorifiIngressService config = "korifi-istio"))
  /\ IsZero_InstallationConfig config = false.
Proof.
  unfold compileInstallationConfig. rewrite run_bind.
  pose proof (Gateway.Validate_type e cfAPI w) as Htype.
  destruct (run e (Gateway.Validate cfAPI) w) as [[[]|x|x] w1]; [|done|done].
  specialize (Htype w1 eq_refl). rewrite run_bind.
  destruct (run e Gateway.KymaDomain w1) as [[domain|x|x] w2]; [|done|done]. rewrite run_bind.
  destruct (run e (ensureContainerRegistry cfAPI) w2) as [[[secret url]|x|x] w3]; [|done|done].
  rewrite run_bind.
  destruct (run e (computeUaaURL cfAPI) w3) as [[uaa|x|x] w4] eqn:Hu; [|done|done]. rewrite run_bind.
  destruct (run e (computeCFAdmins cfAPI) w4) as [[admins|x|x] w5] eqn:Ha; [|done|done].
  rewrite run_ret. intros [= <- <-]. cbn.
  unfold or_default, Gateway.KorifiGatewayType, Gateway.KorifiIngressService.
  split_and!; try done; try (repeat case_decide; congruence).
  - unfold computeUaaURL in Hu. intros Hne. rewrite decide_True in Hu by done. by injection Hu as <- _.
  - unfold computeCFAdmins in Ha. intros Hne.
    rewrite decide_True in Ha by (destruct (elems _); [done|cbn; lia]). by injection Ha as <- _.
  - destruct Htype as [->|[->| ->]]; by vm_compute; auto.
  - apply IsZero_InstallationConfig_root. cbn. by case_decide.
Qed.

#[local] Instance reorder_pure e order : PureReads e -> PureReads (reorder e order).
Proof. intros Hp c w Hc. destruct c; try done; by apply (Hp _ w). Qed.

(** (C29) The registry of a custom secret.  A secret without registries is an
    error that names it.  Otherwise the URL is one of the secret's
    registries, but which one is decided by the order in which the runtime
    happens to visit the keys of a map: every registry of the secret is
    used in some run of the same reconciliation on the same cluster. *)
Theorem registry_of_secret (e : Env) (pure : PureReads e) cfAPI w secret config :
  spec_ContainerRegistrySecret (cfapi_spec cfAPI) <> "" ->
  answers e (CGet KSecret {| key_ns := Namespace (cfapi_meta cfAPI);
                             key_name := spec_ContainerRegistrySecret (cfapi_spec cfAPI) |})
    w (Ok secret) ->
  Unmarshal decode_config {| Auths := ∅ |}
    (default "" (secret_Data secret !! DockerConfigJsonKey)) = Ok config ->
  (Auths config = ∅ ->
   forall order, order ∅ = [] ->
   run (reorder e order) (ensureContainerRegistry cfAPI) w
   = (Errored (no_registries (spec_ContainerRegistrySecret (cfapi_spec cfAPI))), w))
  /\ (forall order, order (dom (Auths config)) ≡ₚ elements (dom (Auths config)) ->
      Auths config <> ∅ ->
      exists url, url ∈ dom (Auths config)
        /\ run (reorder e order) (ensureContainerRegistry cfAPI) w
           = (Returned (Name (secret_meta secret), url), w))
  /\ (forall url, url ∈ dom (Auths config) ->
      run (reorder e (starting_with url)) (ensureContainerRegistry cfAPI) w
      = (Returned (Name (secret_meta secret), url), w)).
Proof.
  intros Hname Hget Hdec.
  assert (Hrun : forall order,
    run (reorder e order) (ensureContainerRegistry cfAPI) w =
    match order (dom (Auths config)) with
    | [] => (Errored (no_registries (spec_ContainerRegistrySecret (cfapi_spec cfAPI))), w)
    | url :: _ => (Returned (Name (secret_meta secret), url), w)
    end).
  { intros order. unfold ensureContainerRegistry. rewrite decide_True by done.
    assert (Ha : answer (reorder e order) (CGet KSecret {| key_ns := Namespace (cfapi_meta cfAPI);
       key_name := spec_ContainerRegistrySecret (cfapi_spec cfAPI) |}) w = (Ok secret, w))
      by exact (read_is (reorder e order) (CGet KSecret _) w (Ok secret) Hget I).
    pose proof (run_Get (reorder e order) KSecret {| key_ns := Namespace (cfapi_meta cfAPI);
       key_name := spec_ContainerRegistrySecret (cfapi_spec cfAPI) |} w) as Hg. rewrite Ha in Hg.
    unfold GetRegistryConfig. rewrite run_bind.
    change (object KSecret) with Secret in Hg. rewrite Hg.
    rewrite run_bind, run_bind, run_wrapping, run_Get, Ha.
    rewrite run_wrapping, run_of_result, Hdec.
    rewrite run_bind. cbn [run answer reorder].
    destruct (order (dom (Auths config))) as [|url urls]; [by rewrite decide_True|].
    by rewrite decide_False. }
  split_and!.
  - intros He order Ho. by rewrite Hrun, He, dom_empty_L, Ho.
  - intros order Ho Hne. rewrite Hrun.
    destruct (order (dom (Auths config))) as [|url urls].
    + apply Permutation_nil, elements_empty_inv in Ho.
      exfalso. apply Hne. by apply dom_empty_iff.
    + exists url. split; [|done]. apply elem_of_elements. rewrite <- Ho. by left.
  - intros url Hu. rewrite Hrun. by unfold starting_with.
Qed.
End Configuration.

(** ** A reconciliation *)

Section Reconciliation.
Context {it : ItLib} {meta : MetaLib} {metalaws : MetaLaws}.
Context {fin : FinalizerLib} {finlaws : FinalizerLaws} {jsonp : JsonParser}.
Context (e : Env) (r : Reconciler).

(** The object the first lines of ReconcileResource leave. *)
Definition prepared (cfAPI : CFAPI) : CFAPI :=
  add_finalizer (set_State StateProcessing
    (set_ObservedGeneration (Generation (cfapi_meta cfAPI)) cfAPI)).

Abbreviation recorder cfAPI := (NewCFAPIEventRecorder (cfapi_key cfAPI)).

(** The condition of a type, as a reader of the status finds it. *)
Definition condition (o : CFAPI) (type : string) (status : ConditionStatus)
    (reason message : string) : Prop :=
  exists c, FindStatusCondition (st_Conditions (cfapi_status o)) type = Some c
    /\ c_Status c = status /\ c_Reason c = reason /\ c_Message c = message
    /\ c_ObservedGeneration c = Generation (cfapi_meta o).

Lemma condition_set o type status reason message now :
  condition (set_condition type status reason message now o) type status reason message.
Proof.
  unfold condition, set_condition. cbn.
  destruct (SetStatusCondition_same (st_Conditions (cfapi_status o))
    {| c_Type := type; c_Status := status; c_ObservedGeneration := Generation (cfapi_meta o);
       c_LastTransitionTime := now; c_Reason := reason; c_Message := message |})
    as (d & Hd & H1 & H2 & H3 & H4 & H5).
  exists d. by cbn in *.
Qed.

Lemma condition_set_other o type status reason message now type' status' reason' message' :
  type' <> type ->
  condition o type' status' reason' message' ->
  condition (set_condition type status reason message now o) type' status' reason' message'.
Proof.
  intros Ht (c & Hf & Hc). exists c. split; [|done]. rewrite <- Hf.
  unfold set_condition. cbn. by apply SetStatusCondition_other.
Qed.

(** Setting a field of the status that is not the conditions keeps them. *)
Lemma condition_status o p type status reason message :
  st_Conditions (cfapi_status p) = st_Conditions (cfapi_status o) ->
  Generation (cfapi_meta p) = Generation (cfapi_meta o) ->
  condition o type status reason message -> condition p type status reason message.
Proof. unfold condition. intros -> -> H. exact H. Qed.

(** The object after a valid configuration, and after an invalid one. *)
Definition configured (config : InstallationConfig) (now : Z) (cfAPI : CFAPI) : CFAPI :=
  set_InstallationConfig config
    (set_condition ConditionTypeConfiguration ConditionTrue "ValidConiguration" "" now (prepared cfAPI)).

Definition misconfigured (err : error) (now : Z) (cfAPI : CFAPI) : CFAPI :=
  set_condition ConditionTypeConfiguration ConditionFalse "InvalidConfiguration" (error_string err) now
    (set_State StateWarning (prepared cfAPI)).

Lemma run_ReconcileResource cfAPI w :
  DeletionTimestamp (cfapi_meta cfAPI) = None ->
  run e (ReconcileResource r cfAPI) w =
  match run e (compileInstallationConfig cfAPI) w with
  | (Panicked why, w1) => (Panicked why, w1)
  | (Errored err, w1) =>
      let '(now, w2) := answer e CNow w1 in
      (Returned (misconfigured err now cfAPI, (zero_CtrlResult, Some (invalid_configuration r err))), w2)
  | (Returned config, w1) =>
      let '(now, w2) := answer e CNow w1 in
      match run e (install r config (recorder cfAPI)) w2 with
      | (Panicked why, w3) => (Panicked why, w3)
      | (Errored err, w3) => (Returned (configured config now cfAPI, (zero_CtrlResult, Some err)), w3)
      | (Returned result, w3) =>
          run e (applyInstallResultToStatus r result (configured config now cfAPI)) w3
      end
  end.
Proof.
  intros Hd. unfold ReconcileResource. fold (prepared cfAPI). rewrite decide_False by (cbn; rewrite Hd; by intros [? ?]).
  rewrite run_bind, run_try. change (compileInstallationConfig (prepared cfAPI)) with (compileInstallationConfig cfAPI).
  destruct (run e (compileInstallationConfig cfAPI) w) as [[config|err|why] w1]; [| |done].
  - rewrite run_bind, run_Now. destruct (answer e CNow w1) as [now w2].
    rewrite run_bind, run_try.
    change (cfapi_key (set_InstallationConfig _ _)) with (cfapi_key cfAPI).
    by destruct (run e (install r config (recorder cfAPI)) w2) as [[result|err|why] w3].
  - rewrite run_bind, run_Now. by destruct (answer e CNow w1) as [now w2].
Qed.

Lemma run_finalize cfAPI deleted w :
  DeletionTimestamp (cfapi_meta cfAPI) = Some deleted ->
  run e (ReconcileResource r cfAPI) w = run e (finalize r (prepared cfAPI)) w.
Proof.
  intros Hd. unfold ReconcileResource. fold (prepared cfAPI).
  by rewrite decide_True by (cbn; rewrite Hd; eauto).
Qed.

(** What the outcome of an installation leaves in the object. *)
Definition applied (result : Result) (now : Z) (o : CFAPI) : CFAPI :=
  match r_State result with
  | ResultStateSuccess =>
      set_condition ConditionTypeInstallation ConditionTrue "InstallationSuccess" "" now
        (set_URL ("https://cfapi." +:+ cfg_CFDomain (st_InstallationConfig (cfapi_status o)))
          (set_State StateReady o))
  | ResultStateFailed =>
      set_condition ConditionTypeInstallation ConditionFalse "InstallationFailed" (r_Message result) now
        (set_State StateError (set_URL "" o))
  | ResultStateInProgress =>
      set_condition ConditionTypeInstallation ConditionUnknown "InstallationInProgress" (r_Message result) now
        (set_State StateProcessing (set_URL "" o))
  end.

Definition applied_result (result : Result) : CtrlResult * option error :=
  match r_State result with
  | ResultStateInProgress => ({| Requeue := false; RequeueAfter := requeueInterval r |}, None)
  | _ => (zero_CtrlResult, None)
  end.

Lemma run_applyInstallResultToStatus result o w :
  run e (applyInstallResultToStatus r result o) w =
  let '(now, w') := answer e CNow w in (Returned (applied result now o, applied_result result), w').
Proof.
  unfold applyInstallResultToStatus, applied, applied_result.
  destruct (r_State result); rewrite run_bind, run_Now; by destruct (answer e CNow w).
Qed.

Lemma applied_state result now o :
  st_State (cfapi_status (applied result now o)) =
  match r_State result with
  | ResultStateSuccess => StateReady
  | ResultStateInProgress => StateProcessing
  | ResultStateFailed => StateError
  end.
Proof. unfold applied. by destruct (r_State result). Qed.

(** (C2) A CFAPI that is not being deleted is reported Ready exactly when its
    configuration could be compiled and every installable of the order,
    installed with that configuration one after the other, reported
    success. *)
Theorem ready_iff cfAPI w :
  DeletionTimestamp (cfapi_meta cfAPI) = None -> installOrder r <> [] ->
  (exists o res w', run e (ReconcileResource r cfAPI) w = (Returned (o, res), w')
                    /\ st_State (cfapi_status o) = StateReady)
  <-> exists config w1 now w2 results w3,
        run e (compileInstallationConfig cfAPI) w = (Returned config, w1)
        /\ answer e CNow w1 = (now, w2)
        /\ installs e config (recorder cfAPI) (installOrder r) w2 results w3
        /\ Forall succeeded results.
Proof.
  intros Hd Hne. rewrite (run_ReconcileResource _ _ Hd). split.
  - intros (o & res & w' & Hrun & Hs).
    destruct (run e (compileInstallationConfig cfAPI) w) as [[config|err|why] w1]; [| |done].
    + destruct (answer e CNow w1) as [now w2] eqn:Hnow.
      destruct (run e (install r config (recorder cfAPI)) w2) as [[result|err|why] w3] eqn:Hi; [| |done].
      * rewrite run_applyInstallResultToStatus in Hrun.
        destruct (answer e CNow w3) as [now' w4]. injection Hrun as <- _ _.
        rewrite applied_state in Hs.
        destruct (install_inv _ _ _ _ _ _ _ Hi) as (results & Hall & _ & Hsucc).
        exists config, w1, now, w2, results, w3. split_and!; try done.
        apply Hsucc. unfold succeeded. by destruct (r_State result).
      * injection Hrun as <- _ _. done.
    + destruct (answer e CNow w1) as [now w2]. injection Hrun as <- _ _. done.
  - intros (config & w1 & now & w2 & results & w3 & -> & -> & Hall & Hsucc).
    destruct (run_install_worst e r config (recorder cfAPI) w2 results w3 Hne Hall) as (result & -> & Hmax).
    apply first_max_succeeded in Hmax.
    rewrite run_applyInstallResultToStatus. destruct (answer e CNow w3) as [now' w4].
    eexists _, _, _. split; [done|]. rewrite applied_state. by rewrite (proj2 Hmax Hsucc).
Qed.

Lemma condition_configured config now cfAPI :
  condition (configured config now cfAPI) ConditionTypeConfiguration ConditionTrue "ValidConiguration" "".
Proof. eapply condition_status; [..|apply (condition_set (prepared cfAPI))]; done. Qed.

(** The result of an installation, as the status shows it. *)
Lemma applied_conditions result now o :
  condition o ConditionTypeConfiguration ConditionTrue "ValidConiguration" "" ->
  condition (applied result now o) ConditionTypeConfiguration ConditionTrue "ValidConiguration" ""
  /\ match r_State result with
     | ResultStateSuccess =>
         condition (applied result now o) ConditionTypeInstallation ConditionTrue "InstallationSuccess" ""
     | ResultStateInProgress =>
         condition (applied result now o) ConditionTypeInstallation ConditionUnknown
           "InstallationInProgress" (r_Message result)
     | ResultStateFailed =>
         condition (applied result now o) ConditionTypeInstallation ConditionFalse
           "InstallationFailed" (r_Message result)
     end.
Proof.
  intros Hc. unfold applied.
  destruct (r_State result); (split; [|apply condition_set]);
    (apply condition_set_other; [done|]); (eapply condition_status; [..|exact Hc]); done.
Qed.

(** (C5) What the status of a CFAPI that is not being deleted says after a
    reconciliation.  The observed generation is the current one and the
    conditions carry it.  The state is
    - Ready, with the URL of the installed domain and both conditions true,
      and nothing is requeued; or
    - Error, without URL and with the message of the failed installable, and
      nothing is requeued either; or
    - Processing, without URL, and the reconciliation is repeated after the
      interval; or
    - Processing with a valid configuration, when an installable ended in a
      Go error, which is returned; or
    - Warning, with the compile error in the condition and the previous
      configuration and URL still in place, and the error asks for a requeue
      after the interval. *)
Theorem status_of_reconciliation cfAPI o res err w w' :
  DeletionTimestamp (cfapi_meta cfAPI) = None ->
  run e (ReconcileResource r cfAPI) w = (Returned (o, (res, err)), w') ->
  let status := cfapi_status o in
  let state := st_State status in
  let url := st_URL status in
  let config := st_InstallationConfig status in
  let valid := condition o ConditionTypeConfiguration ConditionTrue "ValidConiguration" "" in
  let installation := condition o ConditionTypeInstallation in
  cfapi_spec o = cfapi_spec cfAPI /\ cfapi_key o = cfapi_key cfAPI
  /\ st_ObservedGeneration status = Generation (cfapi_meta cfAPI)
  /\ ((state = StateReady /\ valid /\ installation ConditionTrue "InstallationSuccess" ""
         /\ url = "https://cfapi." +:+ cfg_CFDomain config
         /\ (res, err) = (zero_CtrlResult, None))
      \/ (exists msg, state = StateError /\ valid /\ installation ConditionFalse "InstallationFailed" msg
            /\ url = "" /\ (res, err) = (zero_CtrlResult, None))
      \/ (exists msg, state = StateProcessing /\ valid
            /\ installation ConditionUnknown "InstallationInProgress" msg
            /\ url = "" /\ (res, err) = ({| Requeue := false; RequeueAfter := requeueInterval r |}, None))
      \/ (exists x, state = StateProcessing /\ valid /\ url = st_URL (cfapi_status cfAPI)
            /\ (res, err) = (zero_CtrlResult, Some x))
      \/ (exists x, state = StateWarning
            /\ condition o ConditionTypeConfiguration ConditionFalse "InvalidConfiguration" (error_string x)
            /\ url = st_URL (cfapi_status cfAPI)
            /\ config = st_InstallationConfig (cfapi_status cfAPI)
            /\ (res, err) = (zero_CtrlResult, Some (invalid_configuration r x)))).
Proof.
  intros Hd. rewrite (run_ReconcileResource _ _ Hd).
  destruct (run e (compileInstallationConfig cfAPI) w) as [[config|x|why] w1]; [| |done].
  - destruct (answer e CNow w1) as [now w2].
    destruct (run e (install r config (recorder cfAPI)) w2) as [[result|x|why] w3]; [| |done].
    + rewrite run_applyInstallResultToStatus. destruct (answer e CNow w3) as [now' w4].
      intros [= <- Hres _]. cbn zeta.
      destruct (applied_conditions result now' _ (condition_configured config now cfAPI)) as [Hv Hi].
      unfold applied_result in Hres.
      destruct result as [[] msg]; cbn [r_State r_Message] in *; split_and!; try done; eauto 15.
    + intros [= <- <- <-]. cbn zeta. split_and!; try done. do 3 right. left. exists x.
      split; [done|]. split; [apply condition_configured|done].
  - destruct (answer e CNow w1) as [now w2]. intros [= <- <- <-]. cbn zeta. split_and!; try done.
    do 4 right. exists x. split; [done|]. split; [apply condition_set|done].
Qed.

(** An invalid configuration changes nothing in the cluster: no
    installable is started, and the only calls are reads. *)
Theorem invalid_configuration_changes_nothing cfAPI err w w1 :
  DeletionTimestamp (cfapi_meta cfAPI) = None ->
  run e (compileInstallationConfig cfAPI) w = (Errored err, w1) ->
  Forall is_read (calls e (ReconcileResource r cfAPI) w)
  /\ mutations e (ReconcileResource r cfAPI) w = [].
Proof.
  intros Hd Hc.
  assert (Hreads : Forall is_read (calls e (ReconcileResource r cfAPI) w)).
  { unfold ReconcileResource. fold (prepared cfAPI).
    rewrite decide_False by (cbn; rewrite Hd; by intros [? ?]).
    rewrite calls_bind, calls_try, run_try.
    change (compileInstallationConfig (prepared cfAPI)) with (compileInstallationConfig cfAPI).
    rewrite Hc. apply Forall_app. split.
    - apply (only_calls_sound (S:=ext)), operator_reads_are_reads, only_calls_compileInstallationConfig.
    - cbn. destruct (answer e CNow w1). by repeat constructor. }
  split; [done|]. unfold mutations.
  induction Hreads as [|c cs Hr Hrs IH]; [done|].
  by rewrite filter_cons_False by by apply reads_change_nothing.
Qed.

(** The finalizers of others. *)
Definition foreign (o : CFAPI) : list string :=
  filter (fun f => f <> Finalizer) (Finalizers (cfapi_meta o)).

Lemma foreign_add o : foreign (add_finalizer o) = foreign o.
Proof.
  unfold foreign, add_finalizer. cbn. rewrite AddFinalizer_spec. case_decide; [done|].
  rewrite filter_app, filter_cons_False by (intros H'; by apply H'). by rewrite app_nil_r.
Qed.

Lemma foreign_remove o : foreign (remove_finalizer o) = foreign o.
Proof.
  unfold foreign, remove_finalizer. cbn. rewrite RemoveFinalizer_spec, list_filter_filter_l; done.
Qed.

Lemma finalizer_added o : Finalizer ∈ Finalizers (cfapi_meta (add_finalizer o)).
Proof. unfold add_finalizer. cbn. rewrite AddFinalizer_spec. case_decide; set_solver. Qed.

Lemma finalizer_removed o : Finalizer ∉ Finalizers (cfapi_meta (remove_finalizer o)).
Proof.
  unfold remove_finalizer. cbn. rewrite RemoveFinalizer_spec, list_elem_of_filter.
  by intros [? _].
Qed.

Lemma applied_meta result now o : cfapi_meta (applied result now o) = cfapi_meta o.
Proof. unfold applied. by destruct (r_State result). Qed.

Lemma meta_of_reconciliation cfAPI o res w w' :
  DeletionTimestamp (cfapi_meta cfAPI) = None ->
  run e (ReconcileResource r cfAPI) w = (Returned (o, res), w') ->
  cfapi_meta o = cfapi_meta (prepared cfAPI).
Proof.
  intros Hd. rewrite (run_ReconcileResource _ _ Hd).
  destruct (run e (compileInstallationConfig cfAPI) w) as [[config|x|why] w1]; [| |done].
  - destruct (answer e CNow w1) as [now w2].
    destruct (run e (install r config (recorder cfAPI)) w2) as [[result|x|why] w3]; [| |done].
    + rewrite run_applyInstallResultToStatus. destruct (answer e CNow w3).
      intros [= <- _ _]. by rewrite applied_meta.
    + by intros [= <- _ _].
  - destruct (answer e CNow w1). by intros [= <- _ _].
Qed.

(** A finished uninstallation, as the loop reports it. *)
Lemma run_uninstall_iff config rec w :
  (exists result w', run e (uninstall r config rec) w = (Returned result, w')
                     /\ r_State result = ResultStateSuccess)
  <-> exists w', uninstalled e config rec (uninstallOrder r) w w'.
Proof.
  split.
  - intros ([s msg] & w' & Hrun & Hs). cbn in Hs. subst s. exists w'. by eapply uninstall_inv.
  - intros (w' & Hall). exists {| r_State := ResultStateSuccess; r_Message := "" |}, w'.
    unfold uninstall. rewrite <- (app_nil_r (uninstallOrder r)).
    by rewrite (uninstall_loop_app _ _ _ _ _ _ _ Hall).
Qed.

Lemma finalizer_when_deleted cfAPI deleted o res w w' :
  DeletionTimestamp (cfapi_meta cfAPI) = Some deleted ->
  run e (ReconcileResource r cfAPI) w = (Returned (o, res), w') ->
  let config := st_InstallationConfig (cfapi_status cfAPI) in
  foreign o = foreign cfAPI
  /\ st_State (cfapi_status o) = StateDeleting
  /\ (Finalizer ∉ Finalizers (cfapi_meta o) <->
      config = zero_InstallationConfig
      \/ exists w2, uninstalled e config (recorder cfAPI) (uninstallOrder r) w w2).
Proof.
  intros Hd. cbn zeta.
  rewrite (run_finalize _ _ _ Hd). unfold finalize.
  change (st_InstallationConfig (cfapi_status (set_State _ (prepared cfAPI))))
    with (st_InstallationConfig (cfapi_status cfAPI)).
  change (cfapi_key (set_State _ (prepared cfAPI))) with (cfapi_key cfAPI).
  destruct (IsZero_InstallationConfig _) eqn:Hz.
  { intros [= <- _ _]. apply IsZero_InstallationConfig_spec in Hz.
    rewrite foreign_remove. split; [exact (foreign_add cfAPI)|]. split; [done|].
    split; [by left|]. intros _. apply finalizer_removed. }
  assert (Hnz : st_InstallationConfig (cfapi_status cfAPI) <> zero_InstallationConfig).
  { intros H'. apply IsZero_InstallationConfig_spec in H'. congruence. }
  pose proof (run_uninstall_iff (st_InstallationConfig (cfapi_status cfAPI)) (recorder cfAPI) w) as Hiff.
  rewrite run_bind, run_try.
  set (all_done := exists w', uninstalled e _ _ (uninstallOrder r) w w') in *.
  assert (Hkept : forall p : CFAPI, cfapi_meta p = cfapi_meta (prepared cfAPI) -> ~ all_done ->
    foreign p = foreign cfAPI
    /\ (Finalizer ∉ Finalizers (cfapi_meta p) <->
        st_InstallationConfig (cfapi_status cfAPI) = zero_InstallationConfig \/ all_done)).
  { intros p Hp Hnot. unfold foreign. rewrite Hp. split; [exact (foreign_add cfAPI)|].
    split; [intros []; apply finalizer_added|]. by intros [?|?]. }
  destruct (run e (uninstall r _ _) w) as [[result|x|why] w1]; [| |done].
  + case_decide as Hs.
    * rewrite run_bind, run_Now. destruct (answer e CNow w1). intros [= <- _ _].
      destruct (Hkept (set_State StateDeleting (prepared cfAPI))) as [H1 H2]; [done| |done].
      rewrite <- Hiff. by intros (? & ? & [= <- _] & ?).
    * intros [= <- _ _]. rewrite foreign_remove. split; [exact (foreign_add cfAPI)|].
      split; [done|]. split; [|by intros _; apply finalizer_removed].
      intros _. right. apply Hiff. by exists result, w1.
  + intros [= <- _ _].
    destruct (Hkept (set_State StateDeleting (prepared cfAPI))) as [H1 H2]; [done| |done].
    rewrite <- Hiff. by intros (? & ? & [=] & ?).
Qed.

(** The finalizers.  Those of others are never touched.  While the
    CFAPI is not being deleted it carries the operator's finalizer; once it
    is, its state is Deleting and the finalizer is removed exactly when
    nothing was ever installed (the recorded configuration is still the zero
    one) or everything in the uninstall order was uninstalled with success,
    with the recorded configuration. *)
Theorem finalizer_kept_until_uninstalled cfAPI o res w w' :
  run e (ReconcileResource r cfAPI) w = (Returned (o, res), w') ->
  let config := st_InstallationConfig (cfapi_status cfAPI) in
  foreign o = foreign cfAPI
  /\ match DeletionTimestamp (cfapi_meta cfAPI) with
     | None => Finalizer ∈ Finalizers (cfapi_meta o)
     | Some _ =>
         st_State (cfapi_status o) = StateDeleting
         /\ (Finalizer ∉ Finalizers (cfapi_meta o) <->
             config = zero_InstallationConfig
             \/ exists w2, uninstalled e config (recorder cfAPI) (uninstallOrder r) w w2)
     end.
Proof.
  intros Hrun. cbn zeta. destruct (DeletionTimestamp (cfapi_meta cfAPI)) as [deleted|] eqn:Hd.
  - exact (finalizer_when_deleted _ _ _ _ _ _ Hd Hrun).
  - pose proof (meta_of_reconciliation _ _ _ _ _ Hd Hrun) as Hm.
    unfold foreign. rewrite Hm. split; [exact (foreign_add cfAPI)|apply finalizer_added].
Qed.

Lemma meta_when_deleted cfAPI deleted o res w w' :
  DeletionTimestamp (cfapi_meta cfAPI) = Some deleted ->
  run e (ReconcileResource r cfAPI) w = (Returned (o, res), w') ->
  cfapi_key o = cfapi_key cfAPI /\ DeletionTimestamp (cfapi_meta o) = Some deleted.
Proof.
  intros Hd. rewrite (run_finalize _ _ _ Hd). unfold finalize.
  destruct (IsZero_InstallationConfig _); [by intros [= <- _ _]|].
  rewrite run_bind, run_try.
  destruct (run e (uninstall r _ _) w) as [[result|x|why] w1]; [|by intros [= <- _ _]|done].
  case_decide; [|by intros [= <- _ _]].
  rewrite run_bind, run_Now. destruct (answer e CNow w1). by intros [= <- _ _].
Qed.

(** *** Through the patching reconciler *)

Context {conv : ConverterLib} {convlaws : ConverterLaws KCFAPI} {server : ApiServer e}.

(** (C12) A misconfigured CFAPI, end to end: the API server ends up with the
    state Warning and the text of the error in the Configuration condition,
    and controller-runtime is asked to try again after the interval, without
    an error. *)
Theorem misconfigured_end_to_end (o : object KCFAPI) key err w w1 now w2 :
  answer e (CGet KCFAPI key) w = (Ok o, w) -> DeletionTimestamp (cfapi_meta o) = None ->
  run e (compileInstallationConfig o) w = (Errored err, w1) ->
  answer e CNow w1 = (now, w2) -> stored w2 key = Some o ->
  forall o2 w3 o3 w4,
  answer e (CPatch KCFAPI (misconfigured err now o) o) w2 = (Ok o2, w3) ->
  answer e (CStatusPatch KCFAPI (misconfigured err now o) o) w3 = (Ok o3, w4) ->
  run e (NewReconciler r key) w
    = (Returned ({| Requeue := false; RequeueAfter := requeueInterval r |}, None), w4)
  /\ exists p, stored w4 key = Some p /\ st_State (cfapi_status p) = StateWarning
       /\ exists c, FindStatusCondition (st_Conditions (cfapi_status p)) ConditionTypeConfiguration = Some c
            /\ c_Status c = ConditionFalse /\ c_Message c = error_string err.
Proof.
  intros Hget Hd Hc Hnow Hst o2 w3 o3 w4 Hp Hs.
  assert (Hkey : cfapi_key o = key) by (by apply get_stored in Hget as (_ & _ & ?)).
  assert (Hrun : run e (ReconcileResource r o) w
      = (Returned (misconfigured err now o, (zero_CtrlResult, Some (invalid_configuration r err))), w2)).
  { by rewrite (run_ReconcileResource _ _ Hd), Hc, Hnow. }
  unfold NewReconciler.
  rewrite (run_Reconcile e (ReconcileResource r) _ _ _ _ _ _ Hget Hrun), Hp, Hs. split; [done|].
  destruct (patches_persist e o (misconfigured err now o) key w2 o2 w3 o3 w4)
    as (p & Hp' & _ & Hstat); try done.
  { unfold terminated, misconfigured. cbn. by rewrite Hd. }
  exists p. split; [done|]. rewrite Hstat. split; [done|].
  destruct (condition_set (set_State StateWarning (prepared o)) ConditionTypeConfiguration ConditionFalse
    "InvalidConfiguration" (error_string err) now) as (c & Hf & H1 & _ & H2 & _).
  by exists c.
Qed.

(** (C6) The end of a CFAPI: when one under deletion that only carries the
    operator's finalizer is reconciled and the main patch is accepted, the
    object disappears from the API server exactly when nothing was ever
    installed or everything was uninstalled; nothing else makes it go.  But
    the reconciliation that makes it disappear then ends in a NotFound error
    of the status patch, which controller-runtime retries. *)
Theorem gone_iff_uninstalled (o o1 : object KCFAPI) res key deleted w w1 o2 w2 :
  answer e (CGet KCFAPI key) w = (Ok o, w) ->
  DeletionTimestamp (cfapi_meta o) = Some deleted -> foreign o = [] ->
  run e (ReconcileResource r o) w = (Returned (o1, res), w1) ->
  stored w1 key = Some o ->
  answer e (CPatch KCFAPI o1 o) w1 = (Ok o2, w2) ->
  let config := st_InstallationConfig (cfapi_status o) in
  (stored w2 key = None <->
   config = zero_InstallationConfig
   \/ exists w', uninstalled e config (recorder o) (uninstallOrder r) w w')
  /\ (stored w2 key = None ->
      exists err w3, run e (NewReconciler r key) w
        = (Returned (zero_CtrlResult, Some (ErrWrap "patching-status-failed: " err "")), w3)
        /\ IsNotFound err = true).
Proof.
  intros Hget Hd Hforeign Hrun Hst Hp. cbn zeta.
  assert (Ho : cfapi_key o = key) by (by apply get_stored in Hget as (_ & _ & ?)).
  destruct (finalizer_when_deleted _ _ _ _ _ _ Hd Hrun) as (Hf & _ & Hiff).
  destruct (meta_when_deleted _ _ _ _ _ _ Hd Hrun) as [Hkey Hd1]. rewrite Ho in Hkey.
  split; [|intros Hgone; by eapply run_Reconcile_gone].
  rewrite (patch_disappears e o o1 key w1 o2 w2 Ho Hst Hkey Hp), <- Hiff.
  unfold terminated. rewrite Hd1. rewrite Hforeign in Hf. unfold foreign in Hf.
  destruct (Finalizers (cfapi_meta o1)) as [|f fs]; [split; [set_solver|done]|].
  split; [done|]. intros Hnot. exfalso. rewrite filter_cons in Hf. case_decide as Hne; [done|].
  subst f. set_solver.
Qed.
End Reconciliation.
