(* ===== verification/ControllerExamples.v ===== *)
(** * The reconciler on concrete clusters

    A small cluster with the kyma modules the operator needs, installables
    with fixed results, and the theorems of ControllerSpec applied to them. *)

From S2P Require Export ControllerSpec.

#[local] Open Scope Z_scope.
#[local] Open Scope list_scope.

#[local] Existing Instances Reference.it Reference.it_laws Reference.meta Reference.meta_laws
  Reference.finalizers Reference.finalizers_laws SingleObject.converter SingleObject.converter_laws.

(** A parser that knows one document: a secret with two registries. *)
Definition two_registries : json :=
  JObject [("auths", JObject
    [("ghcr.io", JObject [("username", JString "me"); ("password", JString "pw")]);
     ("index.docker.io", JObject [("username", JString "me")])])].

#[local] Instance sample_parser : JsonParser := {|
  json_parse s := if decide (s = "two-registries") then Ok two_registries else Fail (ErrExt "invalid JSON");
  json_UnmarshalTypeError _ := ErrExt "cannot unmarshal"
|}.

(** ** The cluster *)

Definition sample_secret (key : ObjectKey) : result error Secret :=
  let with_data data := Ok {| secret_meta := meta_of (key_ns key) (key_name key); secret_Data := data |} in
  if decide (key_name key = "dockerregistry-config-external")
  then with_data {["pushRegAddr" := "registry.example.com"]}
  else if decide (key_name key = "sap-btp-service-operator")
  then with_data {["tokenurl" := "https://sub.authentication.eu10.example.com"]}
  else if decide (key_name key = "custom") then with_data {[".dockerconfigjson" := "two-registries"]}
  else Fail (ErrAPI true "not found").

Definition sample_gateway : IstioGateway :=
  {| gateway_meta := meta_of "kyma-system" "kyma-gateway"; gateway_Servers := [["*.kyma.example.com"]] |}.

Definition cluster (gateway : result error IstioGateway) (c : call) : reply c :=
  match c with
  | CGet k key =>
      match k return result error (object k) with
      | KSecret => sample_secret key
      | KIstioGateway => gateway
      | k => no_answers (CGet k key)
      end
  | CList k =>
      match k return result error (list (object k)) with
      | KCRD => Ok [{| crd_NamesKind := "Istio" |}; {| crd_NamesKind := "DockerRegistry" |}]
      | KClusterRoleBinding =>
          Ok [{| crb_RoleRefName := "cluster-admin";
                 crb_Subjects := [{| subject_Kind := "User"; subject_Name := "samir@example.com" |}] |}]
      | k => no_answers (CList k)
      end
  | CNow => 42
  | c => no_answers c
  end.

Definition gateway_missing : error := ErrAPI true "gateway not found".

Abbreviation kyma := (SingleObject.server (cluster (Ok sample_gateway))).
Abbreviation kyma_without_gateway := (SingleObject.server (cluster (Fail gateway_missing))).

(** ** Installables with fixed answers *)

Definition fixed (install uninstall : M Result) (name : string) : Installable :=
  {| Install _ _ := install; Uninstall _ _ := uninstall; InstallableName := name |}.

Definition done_ : M Result := mret {| r_State := ResultStateSuccess; r_Message := "" |}.
Definition pending : M Result := mret {| r_State := ResultStateInProgress; r_Message := "pending" |}.
Definition failed : M Result := mret {| r_State := ResultStateFailed; r_Message := "failed" |}.

Definition reconciler_of (order : list Installable) : Reconciler :=
  {| requeueInterval := 10 * Second; installOrder := order; uninstallOrder := order |}.

Definition all_good : list Installable := [fixed done_ done_ "a"; fixed done_ done_ "b"].

Abbreviation no_object := (None : world kyma).
Abbreviation sample_recorder := (NewCFAPIEventRecorder sample_key).

(** A CFAPI that was installed before. *)
Definition installed_config : InstallationConfig :=
  {| cfg_RootNamespace := "cf"; cfg_ContainerRegistrySecret := "dockerregistry-config-external";
     cfg_DisableContainerRegistrySecretPropagation := false;
     cfg_ContainerRegistryURL := "registry.example.com";
     cfg_ContainerRepositoryPrefix := "registry.example.com/";
     cfg_BuilderRepository := "registry.example.com/cfapi/kpack-builder";
     cfg_UAAURL := "https://uaa.cf.eu10.example.com"; cfg_CFAdmins := Some ["samir@example.com"];
     cfg_CFDomain := "kyma.example.com"; cfg_KorifiIngressService := "contour-envoy";
     cfg_UseSelfSignedCertificates := false; cfg_GatewayType := "contour" |}.

Definition deleted_cfapi : CFAPI := set_InstallationConfig installed_config (sample_cfapi [Finalizer] (Some 9)).

Example compile_sample :
  run kyma (compileInstallationConfig (sample_cfapi [] None)) (Some (sample_cfapi [] None))
  = (Returned installed_config, Some (sample_cfapi [] None)).
Proof. vm_compute. reflexivity. Qed.

Lemma install_reports_worst_witness :
  exists result, run kyma (install (reconciler_of [fixed done_ done_ "a"; fixed pending done_ "b";
                                                   fixed failed done_ "c"; fixed failed done_ "d"])
                             installed_config sample_recorder) no_object = (Returned result, no_object)
    /\ (succeeded result <-> False).
Proof.
  destruct (install_reports_worst kyma (reconciler_of [fixed done_ done_ "a"; fixed pending done_ "b";
      fixed failed done_ "c"; fixed failed done_ "d"]) installed_config sample_recorder no_object
    [{| r_State := ResultStateSuccess; r_Message := "" |};
     {| r_State := ResultStateInProgress; r_Message := "pending" |};
     {| r_State := ResultStateFailed; r_Message := "failed" |};
     {| r_State := ResultStateFailed; r_Message := "failed" |}] no_object)
    as (result & Hrun & _ & Hs).
  - done.
  - repeat (econstructor; [reflexivity|]). constructor.
  - exists result. split; [exact Hrun|]. rewrite Hs. split; [|done].
    intros H. inversion H as [|? ? _ H2]. by inversion H2.
Defined.

Lemma install_stops_at_error_witness :
  run kyma (install (reconciler_of [fixed done_ done_ "a"; fixed (Err ErrEOF) done_ "b"; fixed done_ done_ "c"])
             installed_config sample_recorder) no_object = (Errored ErrEOF, no_object).
Proof.
  apply (install_stops_at_error kyma _ installed_config sample_recorder [fixed done_ done_ "a"]
    (fixed (Err ErrEOF) done_ "b") [fixed done_ done_ "c"] no_object
    [{| r_State := ResultStateSuccess; r_Message := "" |}] no_object ErrEOF no_object).
  - reflexivity.
  - econstructor; [reflexivity|constructor].
  - reflexivity.
Defined.

Lemma uninstall_in_order_witness :
  run kyma (uninstall (reconciler_of [fixed done_ done_ "a"; fixed done_ pending "b"; fixed done_ done_ "c"])
             installed_config sample_recorder) no_object
  = (Returned {| r_State := ResultStateInProgress; r_Message := "pending" |}, no_object).
Proof.
  apply (proj2 (uninstall_in_order kyma (reconciler_of [fixed done_ done_ "a"; fixed done_ pending "b";
      fixed done_ done_ "c"]) installed_config sample_recorder no_object)
    [fixed done_ done_ "a"] (fixed done_ pending "b") [fixed done_ done_ "c"] no_object).
  - reflexivity.
  - econstructor; [reflexivity|constructor].
  - reflexivity.
  - done.
Defined.

Lemma compile_settings_witness :
  IsZero_InstallationConfig installed_config = false
  /\ cfg_RootNamespace installed_config = "cf".
Proof.
  pose proof (compile_settings kyma (sample_cfapi [] None) (Some (sample_cfapi [] None)) installed_config
    (Some (sample_cfapi [] None)) compile_sample) as H.
  cbn zeta in H. destruct H as (Hroot & _ & _ & _ & _ & _ & _ & _ & _ & Hz).
  split; [exact Hz|exact Hroot].
Defined.

(** A CFAPI whose registry secret is the one with two registries. *)
Definition custom_registry : CFAPI :=
  {| cfapi_meta := cfapi_meta (sample_cfapi [] None);
     cfapi_spec := {| spec_RootNamespace := ""; spec_ContainerRegistrySecret := "custom";
       spec_DisableContainerRegistrySecretPropagation := false; spec_ContainerRepositoryPrefix := "";
       spec_BuilderRepository := ""; spec_UAA := ""; spec_CFAdmins := None;
       spec_UseSelfSignedCertificates := false; spec_GatewayType := "" |};
     cfapi_status := cfapi_status (sample_cfapi [] None) |}.

Definition two_auths : DockerRegistryConfig := {| Auths :=
  <["index.docker.io" := {| auth_Username := "me"; auth_Password := "" |}]>
    (<["ghcr.io" := {| auth_Username := "me"; auth_Password := "pw" |}]> ∅) |}.

#[local] Instance fixed_cluster_pure : PureReads (const_env (cluster (Ok sample_gateway))) := const_env_pure _.

Lemma registry_of_secret_witness :
  run (reorder (const_env (cluster (Ok sample_gateway))) (starting_with "ghcr.io"))
    (ensureContainerRegistry custom_registry) tt = (Returned ("custom", "ghcr.io"), tt)
  /\ run (reorder (const_env (cluster (Ok sample_gateway))) (starting_with "index.docker.io"))
    (ensureContainerRegistry custom_registry) tt = (Returned ("custom", "index.docker.io"), tt).
Proof.
  destruct (registry_of_secret (const_env (cluster (Ok sample_gateway))) _ custom_registry tt
    {| secret_meta := meta_of "cfapi-system" "custom";
       secret_Data := {[".dockerconfigjson" := "two-registries"]} |} two_auths)
    as (_ & _ & Hany).
  - done.
  - reflexivity.
  - vm_compute. reflexivity.
  - split; [apply (Hany "ghcr.io")|apply (Hany "index.docker.io")]; set_solver.
Defined.

Lemma ready_iff_witness :
  exists o res w', run kyma (ReconcileResource (reconciler_of all_good) (sample_cfapi [] None)) no_object
                   = (Returned (o, res), w')
                   /\ st_State (cfapi_status o) = StateReady.
Proof.
  apply ready_iff; [reflexivity|done|].
  exists installed_config, no_object, 42, no_object,
    [{| r_State := ResultStateSuccess; r_Message := "" |}; {| r_State := ResultStateSuccess; r_Message := "" |}],
    no_object.
  split_and!.
  - vm_compute. reflexivity.
  - reflexivity.
  - repeat (econstructor; [reflexivity|]). constructor.
  - by repeat constructor.
Defined.

Lemma status_of_reconciliation_witness :
  exists o res err w', run kyma (ReconcileResource (reconciler_of all_good) (sample_cfapi [] None)) no_object
    = (Returned (o, (res, err)), w') /\ st_ObservedGeneration (cfapi_status o) = 1.
Proof.
  destruct (run kyma (ReconcileResource (reconciler_of all_good) (sample_cfapi [] None)) no_object)
    as [[[o [res err]]|x|x] w'] eqn:H.
  - exists o, res, err, w'. split; [reflexivity|].
    pose proof (status_of_reconciliation kyma (reconciler_of all_good) (sample_cfapi [] None) o res err
      no_object w' eq_refl H) as (_ & _ & Hg & _). exact Hg.
  - exfalso. revert H. vm_compute. discriminate.
  - exfalso. revert H. vm_compute. discriminate.
Defined.

Definition no_gateway_error : error :=
  ErrWrap "failed to get the kyma system gateway: " gateway_missing "".

Example compile_without_gateway :
  run kyma_without_gateway (compileInstallationConfig (sample_cfapi [] None)) (Some (sample_cfapi [] None))
  = (Errored no_gateway_error, Some (sample_cfapi [] None)).
Proof. vm_compute. reflexivity. Qed.

Lemma invalid_configuration_changes_nothing_witness :
  mutations kyma_without_gateway (ReconcileResource (reconciler_of all_good) (sample_cfapi [] None))
    (Some (sample_cfapi [] None)) = [].
Proof.
  exact (proj2 (invalid_configuration_changes_nothing kyma_without_gateway (reconciler_of all_good)
    (sample_cfapi [] None) _ _ _ eq_refl compile_without_gateway)).
Defined.

Lemma misconfigured_end_to_end_witness :
  exists w, run kyma_without_gateway (NewReconciler (reconciler_of all_good) sample_key)
      (Some (sample_cfapi [] None))
    = (Returned ({| Requeue := false; RequeueAfter := 10 * Second |}, None), w).
Proof.
  eexists.
  refine (proj1 (misconfigured_end_to_end kyma_without_gateway (reconciler_of all_good)
    (server:=SingleObject.server_laws _) (sample_cfapi [] None) sample_key no_gateway_error
    (Some (sample_cfapi [] None)) (Some (sample_cfapi [] None)) 42 (Some (sample_cfapi [] None))
    eq_refl eq_refl compile_without_gateway eq_refl eq_refl _ _ _ _ _ _));
    vm_compute; reflexivity.
Defined.

(** The object a deletion leaves when everything is uninstalled. *)
Definition finished : CFAPI :=
  remove_finalizer (set_State StateDeleting (prepared deleted_cfapi)).

Example finalize_sample :
  run kyma (ReconcileResource (reconciler_of all_good) deleted_cfapi) (Some deleted_cfapi)
  = (Returned (finished, (zero_CtrlResult, None)), Some deleted_cfapi).
Proof. vm_compute. reflexivity. Qed.

Lemma finalizer_kept_until_uninstalled_witness :
  Finalizer ∉ Finalizers (cfapi_meta finished).
Proof.
  destruct (finalizer_kept_until_uninstalled kyma (reconciler_of all_good) deleted_cfapi finished _ _ _
    finalize_sample) as (_ & _ & Hiff).
  apply Hiff. right. exists (Some deleted_cfapi).
  repeat (econstructor; [reflexivity|]). constructor.
Defined.

Lemma gone_iff_uninstalled_witness :
  exists err w, run kyma (NewReconciler (reconciler_of all_good) sample_key) (Some deleted_cfapi)
    = (Returned (zero_CtrlResult, Some (ErrWrap "patching-status-failed: " err "")), w)
    /\ IsNotFound err = true.
Proof.
  destruct (gone_iff_uninstalled kyma (reconciler_of all_good) (server:=SingleObject.server_laws _)
    deleted_cfapi finished (zero_CtrlResult, None) sample_key 9 (Some deleted_cfapi) (Some deleted_cfapi)
    (SingleObject.patched finished deleted_cfapi) None) as [Hiff Hgone];
    try (vm_compute; reflexivity).
  destruct Hgone as (err & w & Hrun & Hn).
  - apply Hiff. right. exists (Some deleted_cfapi). repeat (econstructor; [reflexivity|]). constructor.
  - exists err, w. split; [exact Hrun|exact Hn].
Defined.
