(* ===== verification/Handed.v ===== *)
(** * What a reconciliation hands to its installables

    With which configuration a reconciliation installs, and with which one it
    has uninstalled everything, is read off [ReconcileResource] itself: some
    of its installables are replaced by ones that set a trap, and a trap that
    springs, whatever it is made of, has been stepped on. *)

From S2P Require Export ControllerExamples.

#[local] Open Scope Z_scope.
#[local] Open Scope list_scope.

(** ** Traps *)

(** Panics instead of being installed with [config]. *)
Definition trap_install (why : string) (config : InstallationConfig) (i : Installable) : Installable :=
  {| Install c recorder := if decide (c = config) then Panic why else Install i c recorder;
     Uninstall := Uninstall i; InstallableName := InstallableName i |}.

(** Panics once it has been uninstalled with [config] and reported success. *)
Definition trap_uninstalled (why : string) (config : InstallationConfig) (i : Installable) : Installable :=
  {| Install := Install i;
     Uninstall c recorder :=
       result ← Uninstall i c recorder;
       if decide (c = config /\ r_State result = ResultStateSuccess) then Panic why else mret result;
     InstallableName := InstallableName i |}.

Section Handed.
Context {it : ItLib} {meta : MetaLib} {metalaws : MetaLaws}.
Context {fin : FinalizerLib} {finlaws : FinalizerLaws} {jsonp : JsonParser}.
Context (r : Reconciler).

Definition trapping_installs (why : string) (config : InstallationConfig) : Reconciler :=
  {| requeueInterval := requeueInterval r; installOrder := trap_install why config <$> installOrder r;
     uninstallOrder := uninstallOrder r |}.

Definition trapping_uninstalled (why : string) (config : InstallationConfig) (n : nat) : Reconciler :=
  {| requeueInterval := requeueInterval r; installOrder := installOrder r;
     uninstallOrder := alter (trap_uninstalled why config) n (uninstallOrder r) |}.

(** The reconciliation installs an installable with this configuration. *)
Definition starts_install (e : Env) (o : CFAPI) (w : world e) (config : InstallationConfig) : Prop :=
  forall why, (run e (ReconcileResource (trapping_installs why config) o) w).1 = Panicked why.

(** Every uninstallable, of which there are some, reports to the
    reconciliation that it is uninstalled with this configuration. *)
Definition finishes_uninstall (e : Env) (o : CFAPI) (w : world e) (config : InstallationConfig) : Prop :=
  uninstallOrder r <> []
  /\ forall n, (n < length (uninstallOrder r))%nat ->
     forall why, (run e (ReconcileResource (trapping_uninstalled why config n) o) w).1 = Panicked why.

(** Nothing panics with every message. *)
Lemma not_every_message {A} (x : outcome error A) : ~ forall why, x = Panicked why.
Proof. intros H. pose proof (H "a") as Ha. rewrite (H "b") in Ha. done. Qed.

(** ** Installing *)

Lemma trapped_install_loop (e : Env) why config config' rec order acc w :
  config' <> config ->
  run e (install_loop config' rec acc (trap_install why config <$> order)) w
  = run e (install_loop config' rec acc order) w.
Proof.
  intros Hne. revert acc w. induction order as [|i order IH]; intros acc w; [done|].
  change (run e (result ← Install (trap_install why config i) config' rec;
    install_loop config' rec (acc ++ [result]) (trap_install why config <$> order)) w
    = run e (result ← Install i config' rec; install_loop config' rec (acc ++ [result]) order) w).
  rewrite !run_bind. cbn [Install trap_install]. rewrite decide_False by done.
  destruct (run e (Install i config' rec) w) as [[result|x|x] w1]; [|done..]. apply IH.
Qed.

Lemma trapped_install (e : Env) why config rec w i order :
  installOrder r = i :: order ->
  run e (install (trapping_installs why config) config rec) w = (Panicked why, w).
Proof.
  intros Ho. unfold install. cbn [installOrder trapping_installs]. rewrite Ho. cbn [fmap list_fmap install_loop].
  rewrite !run_bind. cbn [Install trap_install]. by rewrite decide_True.
Qed.

Lemma starts_install_iff (e : Env) o w config :
  starts_install e o w config <->
  DeletionTimestamp (cfapi_meta o) = None /\ (run e (compileInstallationConfig o) w).1 = Returned config
  /\ installOrder r <> [].
Proof.
  unfold starts_install. split.
  - intros H. destruct (DeletionTimestamp (cfapi_meta o)) as [t|] eqn:Hd.
    { destruct (not_every_message (run e (ReconcileResource r o) w).1). intros why.
      rewrite <- (H why), (run_finalize e r o t w Hd), (run_finalize e _ o t w Hd). done. }
    split; [done|].
    assert (H' := fun why => eq_sym (run_ReconcileResource e (trapping_installs why config) o w Hd)).
    destruct (run e (compileInstallationConfig o) w) as [[config'|x|x] w1] eqn:Hc.
    + destruct (answer e CNow w1) as [now w2] eqn:Hnow.
      destruct (installOrder r) as [|i order] eqn:Ho.
      { destruct (not_every_message (Panicked "index out of range" : outcome error unit)). intros why.
        specialize (H why). rewrite <- (H' why) in H. unfold install in H. cbn [installOrder trapping_installs] in H.
        rewrite Ho in H. cbn in H. by injection H as ->. }
      split; [|done]. destruct (decide (config' = config)) as [->|Hne]; [done|exfalso].
      apply (not_every_message (run e (ReconcileResource r o) w).1). intros why.
      rewrite <- (H why), <- (H' why), (run_ReconcileResource e r o w Hd), Hc, Hnow.
      unfold install. cbn [installOrder trapping_installs]. rewrite !run_bind, trapped_install_loop by done. done.
    + destruct (answer e CNow w1) as [now w2].
      exfalso. specialize (H "a"). rewrite <- H' in H. done.
    + exfalso. apply (not_every_message (Panicked x : outcome error unit)). intros why.
      specialize (H why). rewrite <- H' in H. by injection H as ->.
  - intros (Hd & Hc & Hne) why. rewrite (run_ReconcileResource e _ o w Hd).
    destruct (run e (compileInstallationConfig o) w) as [[config'|x|x] w1]; try done. cbn in Hc. injection Hc as ->.
    destruct (answer e CNow w1) as [now w2]. destruct (installOrder r) as [|i order] eqn:Ho; [done|].
    by rewrite (trapped_install e why config _ w2 i order Ho).
Qed.

(** ** Uninstalling *)

(** A trap on the [n]-th uninstallable springs exactly when all up to it
    reported success. *)
Lemma trapped_uninstall_loop (e : Env) why config config' rec order n w :
  (n < length order)%nat ->
  run e (uninstall_loop config' rec (alter (trap_uninstalled why config) n order)) w
  = match run e (uninstall_loop config' rec (take (S n) order)) w with
    | (Returned result, w1) =>
        if decide (config' = config /\ r_State result = ResultStateSuccess) then (Panicked why, w1)
        else run e (uninstall_loop config' rec order) w
    | _ => run e (uninstall_loop config' rec order) w
    end.
Proof.
  revert n w. induction order as [|u order IH]; intros n w Hn; [cbn in Hn; lia|].
  destruct n as [|n].
  - cbn [alter list_alter take uninstall_loop]. rewrite !run_bind. cbn [Uninstall trap_uninstalled].
    rewrite run_bind. destruct (run e (Uninstall u config' rec) w) as [[result|x|x] w1]; [|done..].
    destruct (decide (config' = config /\ r_State result = ResultStateSuccess)) as [[-> Hs]|Hn'].
    + rewrite (decide_False (P := r_State result <> _)) by (by intros []). cbn [r_State].
      change (take 0 order) with (@nil Installable). cbn. by rewrite decide_True.
    + destruct (decide (r_State result <> ResultStateSuccess)) as [Hs|Hs].
      * rewrite !run_ret, (decide_True (P := r_State result <> _)) by done.
        by rewrite run_ret, (decide_False (P := config' = config /\ _)).
      * change (take 0 order) with (@nil Installable). cbn. rewrite !(decide_False (P := _ <> _)) by done.
        rewrite decide_False; [done|]. intros [-> _]. apply Hn'. split; [done|]. destruct (decide (r_State result = ResultStateSuccess)); [done|by destruct Hs].
  - cbn [alter list_alter take uninstall_loop]. rewrite !run_bind.
    destruct (run e (Uninstall u config' rec) w) as [[result|x|x] w1]; [|done..].
    destruct (decide (r_State result <> ResultStateSuccess)) as [Hs|Hs].
    + rewrite !run_ret. cbn. by rewrite decide_False by tauto.
    + cbn in Hn. rewrite IH by lia. done.
Qed.

Lemma uninstall_loop_prefix (e : Env) config rec before after w result w1 :
  run e (uninstall_loop config rec (before ++ after)) w = (Returned result, w1) ->
  r_State result = ResultStateSuccess ->
  exists result' w2, run e (uninstall_loop config rec before) w = (Returned result', w2)
    /\ r_State result' = ResultStateSuccess.
Proof.
  revert w. induction before as [|u before IH]; intros w Hrun Hs; [by eexists _, _|].
  cbn [app uninstall_loop] in *. rewrite run_bind in *.
  destruct (run e (Uninstall u config rec) w) as [[result'|x|x] w2]; [|done..].
  case_decide; [|by apply IH]. exists result', w2. split; [done|].
  rewrite run_ret in Hrun. by injection Hrun as -> _.
Qed.

Lemma finishes_uninstall_iff (e : Env) o w config :
  finishes_uninstall e o w config <->
  uninstallOrder r <> [] /\ is_Some (DeletionTimestamp (cfapi_meta o))
  /\ config = st_InstallationConfig (cfapi_status o) /\ config <> zero_InstallationConfig
  /\ exists result w', run e (uninstall r config (NewCFAPIEventRecorder (cfapi_key o))) w = (Returned result, w')
       /\ r_State result = ResultStateSuccess.
Proof.
  unfold finishes_uninstall. split.
  - intros [Hne H]. split; [done|].
    assert (Hlast : (length (uninstallOrder r) - 1 < length (uninstallOrder r))%nat).
    { destruct (uninstallOrder r); [done|]. cbn. lia. }
    specialize (H _ Hlast).
    destruct (DeletionTimestamp (cfapi_meta o)) as [t|] eqn:Hd.
    2:{ destruct (not_every_message (run e (ReconcileResource r o) w).1). intros why.
        by rewrite <- (H why), !run_ReconcileResource by done. }
    split; [by eexists|].
    assert (Hf : forall why, (run e (finalize (trapping_uninstalled why config (length (uninstallOrder r) - 1))
      (prepared o)) w).1 = Panicked why) by (intros why; by rewrite <- (run_finalize e _ o t w Hd)).
    unfold finalize in Hf. cbn [cfapi_status prepared] in Hf.
    change (st_InstallationConfig (cfapi_status (set_State _ (prepared o))))
      with (st_InstallationConfig (cfapi_status o)) in Hf.
    destruct (IsZero_InstallationConfig (st_InstallationConfig (cfapi_status o))) eqn:Hz.
    { specialize (Hf "a"). done. }
    change (cfapi_key (set_State _ (prepared o))) with (cfapi_key o) in Hf.
    assert (Hrun := fun why => trapped_uninstall_loop e why config (st_InstallationConfig (cfapi_status o))
      (NewCFAPIEventRecorder (cfapi_key o)) (uninstallOrder r) _ w Hlast).
    rewrite firstn_all2 in Hrun by lia.
    destruct (run e (uninstall_loop (st_InstallationConfig (cfapi_status o)) (NewCFAPIEventRecorder (cfapi_key o))
      (uninstallOrder r)) w) as [[result|x|x] w1] eqn:Hu.
    + destruct (decide (st_InstallationConfig (cfapi_status o) = config /\ r_State result = ResultStateSuccess))
        as [[<- Hs]|Hn].
      * split; [done|]. split; [|by exists result, w1].
        intros Hzero. apply IsZero_InstallationConfig_spec in Hzero. congruence.
      * exfalso. specialize (Hf "a"). rewrite run_bind, run_try in Hf. unfold uninstall in Hf.
        cbn [uninstallOrder trapping_uninstalled] in Hf. rewrite Hrun in Hf. case_decide; [|done].
        rewrite run_bind, run_Now in Hf. by destruct (answer e CNow w1).
    + exfalso. specialize (Hf "a"). rewrite run_bind, run_try in Hf. unfold uninstall in Hf.
      cbn [uninstallOrder trapping_uninstalled] in Hf. by rewrite Hrun in Hf.
    + exfalso. apply (not_every_message (Panicked x : outcome error unit)). intros why.
      specialize (Hf why). rewrite run_bind, run_try in Hf. unfold uninstall in Hf.
      cbn [uninstallOrder trapping_uninstalled] in Hf. rewrite Hrun in Hf. by injection Hf as ->.
  - intros (Hne & [t Hd] & -> & Hnz & result & w' & Hu & Hs). split; [done|]. intros n Hn why.
    rewrite (run_finalize e _ o t w Hd). unfold finalize.
    change (st_InstallationConfig (cfapi_status (set_State _ (prepared o))))
      with (st_InstallationConfig (cfapi_status o)).
    change (cfapi_key (set_State _ (prepared o))) with (cfapi_key o).
    destruct (IsZero_InstallationConfig (st_InstallationConfig (cfapi_status o))) eqn:Hz.
    { by apply IsZero_InstallationConfig_spec in Hz. }
    rewrite run_bind, run_try. unfold uninstall in *. cbn [uninstallOrder trapping_uninstalled].
    rewrite trapped_uninstall_loop by done.
    rewrite <- (take_drop (S n) (uninstallOrder r)) in Hu.
    destruct (uninstall_loop_prefix _ _ _ _ _ _ _ _ Hu Hs) as (result' & w2 & -> & Hs').
    by rewrite decide_True.
Qed.

(** ** As functions of the run *)

(** What is known of the run as a whole. *)
Definition started (e : Env) (o : CFAPI) (w : world e) (si : option InstallationConfig) : Prop :=
  forall config, si = Some config <-> starts_install e o w config.

Definition finished (e : Env) (o : CFAPI) (w : world e) (fu : option InstallationConfig) : Prop :=
  forall config, fu = Some config <-> finishes_uninstall e o w config.

Definition start_of (e : Env) (o : CFAPI) (w : world e) : option InstallationConfig :=
  match DeletionTimestamp (cfapi_meta o), (run e (compileInstallationConfig o) w).1, installOrder r with
  | None, Returned config, _ :: _ => Some config
  | _, _, _ => None
  end.

Definition finish_of (e : Env) (o : CFAPI) (w : world e) : option InstallationConfig :=
  let config := st_InstallationConfig (cfapi_status o) in
  if IsZero_InstallationConfig config then None
  else match DeletionTimestamp (cfapi_meta o), uninstallOrder r,
             (run e (uninstall r config (NewCFAPIEventRecorder (cfapi_key o))) w).1 with
       | Some _, _ :: _, Returned result =>
           if decide (r_State result = ResultStateSuccess) then Some config else None
       | _, _, _ => None
       end.

Lemma start_of_spec (e : Env) o w : started e o w (start_of e o w).
Proof.
  intros config. rewrite starts_install_iff. unfold start_of.
  destruct (DeletionTimestamp _); [by split; [|intros (? & _)]|].
  destruct (run e (compileInstallationConfig o) w).1; [|by split; [|intros (_ & ? & _)]..].
  destruct (installOrder r); [by split; [|intros (_ & _ & ?)]|].
  split; [by intros [= ->]|by intros (_ & [= ->] & _)].
Qed.

Lemma finish_of_spec (e : Env) o w : finished e o w (finish_of e o w).
Proof.
  intros config. rewrite finishes_uninstall_iff. unfold finish_of.
  destruct (IsZero_InstallationConfig _) eqn:Hz.
  { apply IsZero_InstallationConfig_spec in Hz. split; [done|]. by intros (_ & _ & -> & ? & _). }
  destruct (DeletionTimestamp _); [|by split; [|intros (_ & [? [=]] & _)]].
  destruct (uninstallOrder r); [by split; [|intros [? _]]|].
  destruct (run e (uninstall r (st_InstallationConfig (cfapi_status o)) _) w) as [[result|x|x] w1] eqn:Hu; cbn.
  - case_decide as Hs; (split; [|intros (_ & _ & -> & _ & result' & w' & Hu' & Hs')]).
    + intros [= <-]. split; [done|]. split; [by eexists|]. split; [done|]. split; [|by exists result, w1].
      intros Hzero. apply IsZero_InstallationConfig_spec in Hzero. congruence.
    + done.
    + done.
    + rewrite Hu in Hu'. injection Hu' as -> _. done.
  - split; [done|]. intros (_ & _ & -> & _ & result' & w' & Hu' & _). by rewrite Hu in Hu'.
  - split; [done|]. intros (_ & _ & -> & _ & result' & w' & Hu' & _). by rewrite Hu in Hu'.
Qed.

Lemma started_is (e : Env) o w si : started e o w si -> si = start_of e o w.
Proof.
  intros H. destruct si as [c|]; [symmetry; by apply start_of_spec, H|].
  destruct (start_of e o w) as [c|] eqn:Hs; [|done]. apply start_of_spec in Hs. by apply H in Hs.
Qed.

Lemma finished_is (e : Env) o w fu : finished e o w fu -> fu = finish_of e o w.
Proof.
  intros H. destruct fu as [c|]; [symmetry; by apply finish_of_spec, H|].
  destruct (finish_of e o w) as [c|] eqn:Hs; [|done]. apply finish_of_spec in Hs. by apply H in Hs.
Qed.
End Handed.
