(* ===== verification/Lifecycle.v ===== *)
(** * The life of a CFAPI

    A CFAPI as a state machine: users create, edit and delete it, others keep
    finalizers of their own on it, and it is reconciled any number of times,
    in clusters that may differ each time.  The machine remembers with which
    configuration an installation was last started and with which one
    everything was last uninstalled, and the theorems relate these to what
    the API server stores.  [reconcile_is_step] ties its reconciliation steps
    to runs of the patching reconciler. *)

From S2P Require Export Handed.

#[local] Open Scope Z_scope.
#[local] Open Scope list_scope.

Section Lifecycle.
Context {it : ItLib} {meta : MetaLib} {metalaws : MetaLaws}.
Context {fin : FinalizerLib} {finlaws : FinalizerLaws} {jsonp : JsonParser}.
Context (r : Reconciler).

(** ** States and steps *)

Record lifecycle := Lifecycle {
  resource : option CFAPI;
  installed_with : option InstallationConfig;
  uninstalled_with : option InstallationConfig
}.

(** Which of the two patches of a reconciliation arrive. *)
Inductive delivery := BothPatches | MainPatchOnly | NoPatch.

Definition delivered (d : delivery) (o o1 : CFAPI) (p : option CFAPI) : Prop :=
  let main_patched status :=
    if terminated o1 then p = None
    else exists q, p = Some q /\ same_main q o1 /\ cfapi_status q = status in
  match d with
  | BothPatches => main_patched (cfapi_status o1)
  | MainPatchOnly => main_patched (cfapi_status o)
  | NoPatch => p = Some o
  end.

Definition or_before (now before : option InstallationConfig) : option InstallationConfig :=
  match now with Some c => Some c | None => before end.

(** An object whose last finalizer goes while it is under deletion is gone. *)
Definition unless_terminated (o : CFAPI) : option CFAPI := if terminated o then None else Some o.

Definition set_DeletionTimestamp (t : Z) : CFAPI -> CFAPI := with_meta (fun m =>
  {| Namespace := Namespace m; Name := Name m; Generation := Generation m;
     Finalizers := Finalizers m; DeletionTimestamp := Some t; ResourceVersion := ResourceVersion m |}).

Definition new_status : CFAPIStatus :=
  {| st_State := ""; st_ObservedGeneration := 0; st_Conditions := [];
     st_InstallationConfig := zero_InstallationConfig; st_URL := "" |}.

(** The status of a new object is empty; a user never touches the status nor
    the finalizer of the operator.  A reconciliation is seen to install and
    to have uninstalled as Handed.v defines it.  An operator that dies in the
    middle of one may have done either, but stores nothing. *)
Inductive step (allowed : delivery -> Prop) : lifecycle -> lifecycle -> Prop :=
| step_create o i u :
    DeletionTimestamp (cfapi_meta o) = None -> cfapi_status o = new_status ->
    step allowed (Lifecycle None i u) (Lifecycle (Some o) None None)
| step_edit o o' i u :
    cfapi_key o' = cfapi_key o -> cfapi_status o' = cfapi_status o ->
    DeletionTimestamp (cfapi_meta o') = DeletionTimestamp (cfapi_meta o) ->
    (Finalizer ∈ Finalizers (cfapi_meta o') <-> Finalizer ∈ Finalizers (cfapi_meta o)) ->
    step allowed (Lifecycle (Some o) i u) (Lifecycle (unless_terminated o') i u)
| step_delete o t i u :
    DeletionTimestamp (cfapi_meta o) = None ->
    step allowed (Lifecycle (Some o) i u)
      (Lifecycle (unless_terminated (set_DeletionTimestamp t o)) i u)
| step_reconcile (e : Env) (w : world e) o o1 res w' d p i u si fu :
    run e (ReconcileResource r o) w = (Returned (o1, res), w') ->
    started r e o w si -> finished r e o w fu ->
    allowed d -> delivered d o o1 p ->
    step allowed (Lifecycle (Some o) i u) (Lifecycle p (or_before si i) (or_before fu u))
| step_crash (e : Env) (w : world e) o i u si fu :
    allowed NoPatch ->
    (forall config, si = Some config -> starts_install r e o w config) ->
    (forall config, fu = Some config -> finishes_uninstall r e o w config) ->
    step allowed (Lifecycle (Some o) i u) (Lifecycle (Some o) (or_before si i) (or_before fu u)).

Definition reachable (allowed : delivery -> Prop) : lifecycle -> Prop :=
  rtc (step allowed) (Lifecycle None None None).

(** Rule induction: what holds at the start and is kept by every step. *)
Lemma reachable_invariant allowed (P : lifecycle -> Prop) :
  P (Lifecycle None None None) -> (forall s s', P s -> step allowed s s' -> P s') ->
  forall s, reachable allowed s -> P s.
Proof.
  intros Hstart Hkept s. unfold reachable. revert Hstart.
  generalize (Lifecycle None None None) as s0. intros s0 Hs0 Hreach.
  induction Hreach as [|s1 s2 s3 Hstep _ IH]; [done|]. apply IH. by eapply Hkept.
Qed.

(** ** What a reconciliation does to the recorded configuration *)

Lemma recorded_config (e : Env) o o1 res w w' :
  run e (ReconcileResource r o) w = (Returned (o1, res), w') ->
  st_InstallationConfig (cfapi_status o1)
  = default (st_InstallationConfig (cfapi_status o)) (start_of r e o w).
Proof.
  intros Hrun. unfold start_of. destruct (DeletionTimestamp (cfapi_meta o)) as [t|] eqn:Hd; cbn.
  - revert Hrun. rewrite (run_finalize e r o t w Hd). unfold finalize.
    destruct (IsZero_InstallationConfig _); [by intros [= <- _ _]|].
    rewrite run_bind, run_try.
    destruct (run e (uninstall r _ _) w) as [[result|x|why] w1]; [|by intros [= <- _ _]|done].
    case_decide; [|by intros [= <- _ _]].
    rewrite run_bind, run_Now. destruct (answer e CNow w1). by intros [= <- _ _].
  - revert Hrun. rewrite (run_ReconcileResource e r o w Hd).
    destruct (run e (compileInstallationConfig o) w) as [[config|x|why] w1]; cbn; [| |done].
    + destruct (answer e CNow w1) as [now w2]. destruct (installOrder r) as [|inst order] eqn:Ho;
        [unfold install; by rewrite Ho|]. destruct (run e (install r config _) w2) as [[result|x|why] w3]; [|by intros [= <- _ _]|done].
      rewrite run_applyInstallResultToStatus. destruct (answer e CNow w3).
      intros [= <- _ _]. unfold applied. by destruct (r_State result).
    + destruct (answer e CNow w1). by intros [= <- _ _].
Qed.

Lemma deletion_kept (e : Env) o o1 res w w' :
  run e (ReconcileResource r o) w = (Returned (o1, res), w') ->
  cfapi_key o1 = cfapi_key o
  /\ DeletionTimestamp (cfapi_meta o1) = DeletionTimestamp (cfapi_meta o).
Proof.
  intros Hrun. destruct (DeletionTimestamp (cfapi_meta o)) as [t|] eqn:Hd.
  - exact (meta_when_deleted e r o t o1 res w w' Hd Hrun).
  - unfold cfapi_key. by rewrite (meta_of_reconciliation e r o o1 res w w' Hd Hrun).
Qed.

Lemma compiled_not_zero (e : Env) o w config w' :
  run e (compileInstallationConfig o) w = (Returned config, w') -> config <> zero_InstallationConfig.
Proof.
  unfold compileInstallationConfig. rewrite run_bind.
  destruct (run e (Gateway.Validate o) w) as [[[]|x|x] w1]; [|done|done]. rewrite run_bind.
  destruct (run e Gateway.KymaDomain w1) as [[domain|x|x] w2]; [|done|done]. rewrite run_bind.
  destruct (run e (ensureContainerRegistry o) w2) as [[[secret url]|x|x] w3]; [|done|done]. rewrite run_bind.
  destruct (run e (computeUaaURL o) w3) as [[uaa|x|x] w4]; [|done|done]. rewrite run_bind.
  destruct (run e (computeCFAdmins o) w4) as [[admins|x|x] w5]; [|done|done].
  rewrite run_ret. intros [= <- _] Hz. apply (f_equal cfg_RootNamespace) in Hz. cbn in Hz.
  by case_decide.
Qed.

Lemma started_not_zero (e : Env) o w config :
  start_of r e o w = Some config -> config <> zero_InstallationConfig.
Proof.
  intros (_ & Hc & _)%start_of_spec%starts_install_iff.
  destruct (run e (compileInstallationConfig o) w) as [x w1] eqn:Hrun. cbn in Hc. subst x.
  by eapply compiled_not_zero.
Qed.

Context (uninstalls_something : uninstallOrder r <> []).

(** The operator's finalizer after a reconciliation of an object with a
    recorded configuration. *)
Lemma finalizer_after (e : Env) o o1 res w w' :
  run e (ReconcileResource r o) w = (Returned (o1, res), w') ->
  st_InstallationConfig (cfapi_status o1) <> zero_InstallationConfig ->
  Finalizer ∈ Finalizers (cfapi_meta o1)
  \/ finish_of r e o w = Some (st_InstallationConfig (cfapi_status o1))
     /\ is_Some (DeletionTimestamp (cfapi_meta o1)).
Proof.
  intros Hrun Hnz. pose proof (deletion_kept e o o1 res w w' Hrun) as [_ Hdel].
  pose proof (recorded_config e o o1 res w w' Hrun) as Hc.
  destruct (DeletionTimestamp (cfapi_meta o)) as [t|] eqn:Hd.
  - unfold start_of in Hc. rewrite Hd in Hc. cbn in Hc. rewrite Hc in Hnz |- *.
    destruct (finalizer_when_deleted e r o t o1 res w w' Hd Hrun) as (_ & _ & Hiff).
    destruct (decide (Finalizer ∈ Finalizers (cfapi_meta o1))) as [|Hout]; [by left|right].
    split; [|by rewrite Hdel].
    apply Hiff in Hout as [|Hall]; [done|].
    apply run_uninstall_iff in Hall as (result & w2 & Hu & Hs).
    apply finish_of_spec, finishes_uninstall_iff. split; [done|]. split; [by rewrite Hd; eexists|].
    split; [done|]. split; [done|]. by exists result, w2.
  - left. rewrite (meta_of_reconciliation e r o o1 res w w' Hd Hrun). apply finalizer_added.
Qed.
(** ** Nothing is left behind when both patches arrive *)

(** What is stored knows of what was installed. *)
Definition accounted (s : lifecycle) : Prop :=
  forall config, installed_with s = Some config ->
  match resource s with
  | None => uninstalled_with s = Some config
  | Some o =>
      st_InstallationConfig (cfapi_status o) = config /\ config <> zero_InstallationConfig
      /\ (Finalizer ∈ Finalizers (cfapi_meta o)
          \/ uninstalled_with s = Some config /\ is_Some (DeletionTimestamp (cfapi_meta o)))
  end.

(** Losing the object, or keeping it, after a change that keeps its status. *)
Lemma accounted_kept o o' i u :
  accounted (Lifecycle (Some o) i u) -> cfapi_status o' = cfapi_status o ->
  (Finalizer ∈ Finalizers (cfapi_meta o) -> Finalizer ∈ Finalizers (cfapi_meta o')) ->
  (is_Some (DeletionTimestamp (cfapi_meta o)) -> is_Some (DeletionTimestamp (cfapi_meta o'))) ->
  accounted (Lifecycle (unless_terminated o') i u).
Proof.
  intros Hacc Hs Hf Hd config Hi. cbn in Hi. destruct (Hacc config Hi) as (Hc & Hnz & Hor).
  unfold unless_terminated. destruct (terminated o') eqn:Ht; cbn.
  - destruct Hor as [Hin|[Hu _]]; [|done]. apply Hf in Hin. unfold terminated in Ht.
    destruct (DeletionTimestamp (cfapi_meta o')); [|done].
    destruct (Finalizers (cfapi_meta o')); [by apply not_elem_of_nil in Hin|done].
  - rewrite Hs. cbn in *. tauto.
Qed.

Lemma accounted_reconciled (e : Env) o o1 res w w' p i u :
  accounted (Lifecycle (Some o) i u) ->
  run e (ReconcileResource r o) w = (Returned (o1, res), w') -> delivered BothPatches o o1 p ->
  accounted (Lifecycle p (or_before (start_of r e o w) i) (or_before (finish_of r e o w) u)).
Proof.
  intros Hacc Hrun Hp config Hi. cbn in Hi.
  pose proof (recorded_config e o o1 res w w' Hrun) as Hrec.
  assert (Hcfg : st_InstallationConfig (cfapi_status o1) = config /\ config <> zero_InstallationConfig).
  { rewrite Hrec. destruct (start_of r e o w) as [c|] eqn:Hs; cbn in *.
    - injection Hi as <-. split; [done|]. by eapply started_not_zero.
    - destruct (Hacc config Hi) as (? & ? & _). done. }
  destruct Hcfg as [Hc Hnz].
  assert (Hor : Finalizer ∈ Finalizers (cfapi_meta o1)
    \/ or_before (finish_of r e o w) u = Some config /\ is_Some (DeletionTimestamp (cfapi_meta o1))).
  { destruct (finalizer_after e o o1 res w w' Hrun) as [Hin|[Hf Hd]]; [by rewrite Hc|by left|right].
    by rewrite Hf, Hc. }
  unfold delivered in Hp. destruct (terminated o1) eqn:Ht.
  - subst p. cbn. destruct Hor as [Hin|[? _]]; [|done]. unfold terminated in Ht.
    destruct (DeletionTimestamp (cfapi_meta o1)); [|done].
    destruct (Finalizers (cfapi_meta o1)); [by apply not_elem_of_nil in Hin|done].
  - destruct Hp as (q & -> & (_ & Hqf & Hqd & _) & Hqs). cbn. by rewrite Hqs, Hqf, Hqd.
Qed.

Lemma accounted_step s s' : accounted s -> step (fun d => d = BothPatches) s s' -> accounted s'.
Proof.
  intros Hacc Hstep. destruct Hstep as [| | |e w o o1 res w' d p i u si fu Hrun Hsi Hfu -> Hp|]; [..|done].
  - intros config. done.
  - eapply accounted_kept; [done|done|tauto|congruence].
  - eapply accounted_kept; [done..|]. by eexists.
  - apply started_is in Hsi as ->. apply finished_is in Hfu as ->. by eapply accounted_reconciled.
Qed.

(** Nothing is left behind.  Whatever users do to a CFAPI and to its
    foreign finalizers, and however often and in whatever clusters it is
    reconciled: as long as both patches of every reconciliation arrive, a
    CFAPI whose installation was ever started disappears only after
    everything in the uninstall order was uninstalled, with the very
    configuration that was installed last. *)
Theorem nothing_left_behind s config :
  reachable (fun d => d = BothPatches) s ->
  resource s = None -> installed_with s = Some config -> uninstalled_with s = Some config.
Proof.
  intros Hreach Hnone Hi.
  assert (Hacc : accounted s); [|specialize (Hacc config Hi); by rewrite Hnone in Hacc].
  revert Hreach. apply reachable_invariant; [by intros c|]. intros s1 s2. apply accounted_step.
Qed.
End Lifecycle.

(** ** What is left behind when a status patch is lost *)

Section Leak.
Context {it : ItLib} {meta : MetaLib} {metalaws : MetaLaws}.
Context {fin : FinalizerLib} {finlaws : FinalizerLaws} {jsonp : JsonParser}.
Context (r : Reconciler).

Lemma no_finalizers_left (o : CFAPI) :
  foreign o = [] -> Finalizers (cfapi_meta (remove_finalizer (prepared o))) = [].
Proof.
  intros Hf. pose proof (foreign_remove (prepared o)) as H.
  rewrite (foreign_add (set_State StateProcessing (set_ObservedGeneration _ o)) : foreign (prepared o) = _) in H.
  change (foreign (set_State _ _)) with (foreign o) in H. rewrite Hf in H. unfold foreign in H.
  pose proof (finalizer_removed (prepared o)) as Hout.
  destruct (Finalizers _) as [|f fs]; [done|]. rewrite filter_cons_True in H; [done|].
  intros ->. apply Hout. by left.
Qed.

(** (C16) The configuration is only stored after the installation, by the
    second of the two patches.  If that patch of the first reconciliation is
    lost and the CFAPI is deleted next, it still records the zero
    configuration: the next reconciliation takes it for one that was never
    installed, removes the finalizer and lets it go.  Whatever the
    reconciler installs, nothing of it was uninstalled. *)
Theorem lost_status_patch_leaks (e : Env) o o1 res w w' config deleted :
  DeletionTimestamp (cfapi_meta o) = None -> foreign o = [] -> cfapi_status o = new_status ->
  run e (ReconcileResource r o) w = (Returned (o1, res), w') ->
  starts_install r e o w config ->
  exists q, same_main q o1
    /\ rtc (step r (fun d => d = MainPatchOnly)) (Lifecycle None None None)
         (Lifecycle (Some (set_DeletionTimestamp deleted q)) (Some config) None)
    /\ step r (fun d => d = BothPatches)
         (Lifecycle (Some (set_DeletionTimestamp deleted q)) (Some config) None)
         (Lifecycle None (Some config) None).
Proof.
  intros Hd Hforeign Hnew Hrun Hstart%start_of_spec.
  assert (Hz : st_InstallationConfig (cfapi_status o) = zero_InstallationConfig) by by rewrite Hnew.
  pose proof (meta_of_reconciliation e r o o1 res w w' Hd Hrun) as Hmeta.
  set (q := {| cfapi_meta := cfapi_meta o1; cfapi_spec := cfapi_spec o1; cfapi_status := cfapi_status o |}).
  assert (Hdq : DeletionTimestamp (cfapi_meta q) = None) by (cbn; by rewrite Hmeta).
  exists q. split; [done|]. split.
  - apply rtc_l with (Lifecycle (Some o) None None); [by constructor|].
    apply rtc_l with (Lifecycle (Some q) (Some config) None).
    { pose proof (step_reconcile r (fun d => d = MainPatchOnly) e w o o1 res w' MainPatchOnly (Some q) None None _ _
        Hrun (start_of_spec r e o w) (finish_of_spec r e o w) eq_refl) as Hstep.
      unfold finish_of in Hstep. rewrite Hz, Hstart in Hstep. cbn in Hstep.
      apply Hstep. unfold terminated. cbn in Hdq. rewrite Hdq. by exists q. }
    apply rtc_once.
    replace (Some (set_DeletionTimestamp deleted q)) with (unless_terminated (set_DeletionTimestamp deleted q));
      [by constructor|].
    unfold unless_terminated, terminated. cbn. rewrite Hmeta.
    pose proof (finalizer_added (set_State StateProcessing (set_ObservedGeneration (Generation (cfapi_meta o)) o))) as Hin.
    fold (prepared o) in Hin.
    destruct (Finalizers (cfapi_meta (prepared o))); [by apply not_elem_of_nil in Hin|done].
  - set (q' := set_DeletionTimestamp deleted q).
    assert (Hq' : DeletionTimestamp (cfapi_meta q') = Some deleted) by done.
    assert (Hzq : st_InstallationConfig (cfapi_status q') = zero_InstallationConfig) by done.
    assert (Hrun2 : run e (ReconcileResource r q') w
      = (Returned (remove_finalizer (set_State StateDeleting (prepared q')), (zero_CtrlResult, None)), w)).
    { rewrite (run_finalize e r q' deleted w Hq'). unfold finalize.
      change (st_InstallationConfig (cfapi_status (set_State _ (prepared q'))))
        with (st_InstallationConfig (cfapi_status q')).
      by rewrite Hzq. }
    pose proof (step_reconcile r (fun d => d = BothPatches) e w q' _ _ w BothPatches None (Some config) None _ _
      Hrun2 (start_of_spec r e q' w) (finish_of_spec r e q' w) eq_refl) as Hstep.
    unfold finish_of, start_of in Hstep. rewrite Hq', Hzq in Hstep. apply Hstep.
    cbn. unfold terminated. cbn [remove_finalizer with_meta cfapi_meta set_Finalizers Finalizers].
    assert (Hnil : Finalizers (cfapi_meta (remove_finalizer (prepared q'))) = []).
    { apply no_finalizers_left. unfold foreign. cbn. rewrite Hmeta.
      exact (eq_trans (foreign_add (set_State StateProcessing (set_ObservedGeneration _ o))) Hforeign). }
    unfold remove_finalizer in Hnil. cbn in Hnil |- *. by rewrite Hnil.
Qed.
End Leak.

(** ** Reconciling again *)

Section Again.
Context {it : ItLib} {meta : MetaLib} {metalaws : MetaLaws}.
Context {fin : FinalizerLib} {finlaws : FinalizerLaws} {jsonp : JsonParser}.
Context (r : Reconciler).

(** What a reconciliation finds out: the configuration, or why there is
    none, and the result of the installation, or the error it ended in. *)
Definition findings (e : Env) (o : CFAPI) (w : world e)
    : option (result error (InstallationConfig * result error Result)) :=
  match run e (compileInstallationConfig o) w with
  | (Panicked _, _) => None
  | (Errored err, _) => Some (Fail err)
  | (Returned config, w1) =>
      match (run e (install r config (NewCFAPIEventRecorder (cfapi_key o))) (answer e CNow w1).2).1 with
      | Returned result => Some (Ok (config, Ok result))
      | Errored err => Some (Ok (config, Fail err))
      | Panicked _ => None
      end
  end.

Lemma condition_again o type status reason message now :
  condition o type status reason message -> set_condition type status reason message now o = o.
Proof.
  intros (c & Hf & H1 & H2 & H3 & H4). unfold set_condition.
  rewrite (SetStatusCondition_again _ _ c); [by destruct o as [? ? []]|exact Hf|].
  repeat split; try done. cbn. rewrite FindStatusCondition_spec in Hf.
  apply find_some in Hf as [_ Hf]. by apply bool_decide_eq_true in Hf.
Qed.

(** An object that a reconciliation of the current generation left. *)
Definition observed (o : CFAPI) : Prop :=
  Finalizer ∈ Finalizers (cfapi_meta o) /\ st_ObservedGeneration (cfapi_status o) = Generation (cfapi_meta o).

Lemma prepared_again o : observed o -> prepared o = set_State StateProcessing o.
Proof.
  intros [Hf Hg]. unfold prepared, add_finalizer, with_meta. cbn.
  rewrite AddFinalizer_spec, decide_True by done.
  destruct o as [[] ? []]; cbn in *. by subst.
Qed.

Lemma set_State_back o s s' : st_State (cfapi_status o) = s -> set_State s (set_State s' o) = o.
Proof. destruct o as [? ? []]; cbn. by intros ->. Qed.

Lemma set_State_same o s : st_State (cfapi_status o) = s -> set_State s o = o.
Proof. destruct o as [? ? []]; cbn. by intros ->. Qed.

Lemma condition_state o s type status reason message :
  condition o type status reason message -> condition (set_State s o) type status reason message.
Proof. by apply condition_status. Qed.

Lemma configured_again o config now :
  observed o -> st_InstallationConfig (cfapi_status o) = config ->
  condition o ConditionTypeConfiguration ConditionTrue "ValidConiguration" "" ->
  configured config now o = set_State StateProcessing o.
Proof.
  intros Ho Hc Hcond. unfold configured. rewrite (prepared_again o Ho).
  rewrite condition_again by by apply condition_state.
  destruct o as [? ? []]; cbn in *. by subst.
Qed.

Lemma misconfigured_again o err now :
  observed o -> st_State (cfapi_status o) = StateWarning ->
  condition o ConditionTypeConfiguration ConditionFalse "InvalidConfiguration" (error_string err) ->
  misconfigured err now o = o.
Proof.
  intros Ho Hs Hcond. unfold misconfigured.
  by rewrite (prepared_again o Ho), set_State_back, condition_again.
Qed.

Lemma observed_prepared o : observed (prepared o).
Proof. split; [apply finalizer_added|done]. Qed.
Lemma observed_configured config now o : observed (configured config now o).
Proof. exact (observed_prepared o). Qed.

Lemma observed_misconfigured err now o : observed (misconfigured err now o).
Proof. exact (observed_prepared o). Qed.

Lemma observed_applied result now o : observed o -> observed (applied result now o).
Proof. unfold observed, applied. by destruct (r_State result). Qed.

Lemma applied_config result now o :
  st_InstallationConfig (cfapi_status (applied result now o)) = st_InstallationConfig (cfapi_status o).
Proof. unfold applied. by destruct (r_State result). Qed.

(** Applying a result to an object that shows it already. *)
Lemma applied_again result now now' o s :
  applied result now' (set_State s (applied result now o)) = applied result now o.
Proof.
  unfold applied. destruct (r_State result).
  all: match goal with |- set_condition _ _ _ _ _ ?x = ?y =>
    replace x with y; [apply condition_again, condition_set|] end.
  all: unfold set_condition, set_Conditions, set_State, set_URL, with_status; by cbn.
Qed.

(** (C4) Reconciling settles.  A second reconciliation that finds out the same
    as the first one - the same configuration or error, the same result of
    the installation - leaves the object exactly as the first one left it,
    transition times included, and returns the same.  Its patches are empty,
    so a CFAPI whose cluster has settled does not trigger reconciliations of
    itself, whether it is ready, in progress, failed or misconfigured. *)
Theorem reconcile_settles (e e' : Env) cfAPI o res w w' v :
  DeletionTimestamp (cfapi_meta cfAPI) = None ->
  run e (ReconcileResource r cfAPI) w = (Returned (o, res), w') ->
  findings e' o v = findings e cfAPI w ->
  exists v', run e' (ReconcileResource r o) v = (Returned (o, res), v').
Proof.
  intros Hd Hrun Hsame.
  assert (Hdo : DeletionTimestamp (cfapi_meta o) = None).
  { by rewrite (proj2 (deletion_kept r e cfAPI o res w w' Hrun)). }
  rewrite (run_ReconcileResource e r _ _ Hd) in Hrun. rewrite (run_ReconcileResource e' r _ _ Hdo).
  unfold findings in Hsame.
  destruct (run e (compileInstallationConfig cfAPI) w) as [[config|err|why] w1]; [| |done].
  - destruct (answer e CNow w1) as [now w2]; cbn [snd] in Hsame.
    destruct (run e' (compileInstallationConfig o) v) as [[config'|err'|why'] v1];
      [|by destruct (run e (install r config _) w2) as [[?|?|?] ?]|
        by destruct (run e (install r config _) w2) as [[?|?|?] ?]].
    destruct (answer e' CNow v1) as [t v2]; cbn [snd] in Hsame.
    destruct (run e (install r config _) w2) as [[result|err|why] w3]; [| |done];
      destruct (run e' (install r config' _) v2) as [[result'|err'|why'] v3]; try done;
      injection Hsame as -> ->.
    + rewrite run_applyInstallResultToStatus in Hrun. destruct (answer e CNow w3) as [now' w4].
      injection Hrun as <- <- _. rewrite run_applyInstallResultToStatus.
      destruct (answer e' CNow v3) as [t' v4]. exists v4. do 3 f_equal.
      rewrite configured_again; [apply applied_again|apply observed_applied, observed_configured|
        by rewrite applied_config|apply applied_conditions, condition_configured].
    + injection Hrun as <- <- _. exists v3. do 3 f_equal.
      rewrite configured_again; [by apply set_State_same|apply observed_configured|done|apply condition_configured].
  - destruct (answer e CNow w1) as [now w2]. injection Hrun as <- <- _.
    destruct (run e' (compileInstallationConfig _) v) as [[config'|err'|why'] v1]; [|injection Hsame as ->|done].
    + by destruct (run e' (install r config' _) (answer e' CNow v1).2) as [[?|?|?] ?].
    + destruct (answer e' CNow v1) as [t v2]. exists v2. do 3 f_equal.
      apply misconfigured_again; [apply observed_misconfigured|done|apply condition_set].
Qed.
End Again.

(** ** The steps are runs of the patching reconciler *)

(** A patch that fails changes nothing. *)
Class FailedPatches (e : Env) `{!ApiServer e} : Prop := {
  patch_failed w obj from err w' key :
    answer e (CPatch KCFAPI obj from) w = (Fail err, w') -> stored w' key = stored w key;
  status_patch_failed w obj from err w' key :
    answer e (CStatusPatch KCFAPI obj from) w = (Fail err, w') -> stored w' key = stored w key
}.

Section Simulation.
Context {it : ItLib} {meta : MetaLib} {metalaws : MetaLaws}.
Context {fin : FinalizerLib} {finlaws : FinalizerLaws} {jsonp : JsonParser}.
Context {conv : ConverterLib} {convlaws : ConverterLaws KCFAPI}.
Context (r : Reconciler) (e : Env) {server : ApiServer e} {failures : FailedPatches e}.

(** Which patches of [o] to [o1] the API server accepts in the world the
    reconciliation left: the first one, and the second one after it. *)
Definition arrived (o o1 : object KCFAPI) (w1 : world e) : delivery :=
  match answer e (CPatch KCFAPI o1 o) w1 with
  | (Fail _, _) => NoPatch
  | (Ok _, w2) =>
      match (answer e (CStatusPatch KCFAPI o1 o) w2).1 with
      | Fail _ => MainPatchOnly
      | Ok _ => BothPatches
      end
  end.

(** (C13) Running the patching reconciler on a stored CFAPI that no one else
    changes meanwhile is a reconciliation step of the life cycle, in which
    exactly those patches arrive that the API server accepts: what it stores
    afterwards is what the step says for them. *)
Theorem reconcile_is_step key w (o o1 : object KCFAPI) res w1 i u :
  answer e (CGet KCFAPI key) w = (Ok o, w) ->
  run e (ReconcileResource r o) w = (Returned (o1, res), w1) -> stored w1 key = Some o ->
  step r (fun d => d = arrived o o1 w1) (Lifecycle (Some o) i u)
    (Lifecycle (stored (run e (NewReconciler r key) w).2 key)
       (or_before (start_of r e o w) i) (or_before (finish_of r e o w) u)).
Proof.
  intros Hget Hrun Hst.
  assert (Ho : cfapi_key o = key) by (by apply get_stored in Hget as (_ & _ & ?)).
  destruct (deletion_kept r e o o1 res w w1 Hrun) as [Hkey _]. rewrite Ho in Hkey.
  refine (step_reconcile r _ e w o o1 res w1 _ _ i u _ _ Hrun (start_of_spec r e o w) (finish_of_spec r e o w)
    eq_refl _).
  unfold NewReconciler, arrived. rewrite (run_Reconcile e (ReconcileResource r) _ _ _ _ _ _ Hget Hrun).
  destruct (answer e (CPatch KCFAPI o1 o) w1) as [[o2|err] w2] eqn:Hp;
    [|by cbn; rewrite (patch_failed w1 o1 o err w2 key Hp)].
  destruct (patch_disappears e o o1 key w1 o2 w2 Ho Hst Hkey Hp) as [Hgone1 Hgone2].
  destruct (answer e (CStatusPatch KCFAPI o1 o) w2) as [[o3|err] w3] eqn:Hs; cbn.
  - destruct (terminated o1) eqn:Ht; [|by apply (patches_persist e o o1 key w1 o2 w2 o3 w3)].
    destruct (status_patch_missing w2 o1 o) as (x & w4 & Hx & _); [by rewrite Hkey, Hgone2|].
    by rewrite Hs in Hx.
  - rewrite (status_patch_failed w2 o1 o err w3 key Hs).
    destruct (terminated o1) eqn:Ht; [by apply Hgone2|].
    destruct (patch_stored w1 o1 o o2 w2) as (Hmain & Hstat & Hst2); [by rewrite Ho|by rewrite Ho|done|].
    rewrite Ho in Hst2. rewrite (same_main_terminated _ _ Hmain), Ht in Hst2. by exists o2.
Qed.
End Simulation.

(** ** Witnesses *)

#[local] Existing Instances Reference.it Reference.it_laws Reference.meta Reference.meta_laws
  Reference.finalizers Reference.finalizers_laws SingleObject.converter SingleObject.converter_laws
  ControllerExamples.sample_parser SingleObject.server_laws.

#[local] Instance server_failed_patches f : FailedPatches (SingleObject.server f).
Proof.
  split; intros w obj from err w' key; cbn;
    destruct (SingleObject.lookup_object _ _); try done; by intros [= _ <-].
Qed.

Abbreviation good := (reconciler_of all_good).

(** A new CFAPI, the object its first reconciliation leaves, and that object
    under deletion. *)
Definition new_cfapi : CFAPI := sample_cfapi [] None.

Definition ready_cfapi : CFAPI :=
  match (run kyma (ReconcileResource good new_cfapi) (Some new_cfapi)).1 with
  | Returned (o, _) => o
  | _ => new_cfapi
  end.

Definition leaving_cfapi : CFAPI := set_DeletionTimestamp 9 ready_cfapi.

Example run_new : run kyma (ReconcileResource good new_cfapi) (Some new_cfapi)
  = (Returned (ready_cfapi, (zero_CtrlResult, None)), Some new_cfapi).
Proof. vm_compute. reflexivity. Qed.

Example run_leaving : run kyma (ReconcileResource good leaving_cfapi) (Some leaving_cfapi)
  = (Returned (remove_finalizer (set_State StateDeleting (prepared leaving_cfapi)), (zero_CtrlResult, None)),
     Some leaving_cfapi).
Proof. vm_compute. reflexivity. Qed.

Lemma new_starts : starts_install good kyma new_cfapi (Some new_cfapi) installed_config.
Proof. apply start_of_spec. vm_compute. reflexivity. Qed.

Lemma reconcile_to (e : Env) (w : world e) o o1 res w' p i u si fu :
  run e (ReconcileResource good o) w = (Returned (o1, res), w') ->
  start_of good e o w = si -> finish_of good e o w = fu ->
  delivered BothPatches o o1 p ->
  step good (fun d => d = BothPatches) (Lifecycle (Some o) i u) (Lifecycle p (or_before si i) (or_before fu u)).
Proof.
  intros Hrun <- <- Hp.
  by apply (step_reconcile good (fun d => d = BothPatches) e w o o1 res w' BothPatches p i u _ _ Hrun
    (start_of_spec good e o w) (finish_of_spec good e o w)).
Qed.

(** Created and reconciled. *)
Lemma ready_life :
  reachable good (fun d => d = BothPatches) (Lifecycle (Some ready_cfapi) (Some installed_config) None).
Proof.
  apply rtc_l with (Lifecycle (Some new_cfapi) None None); [by constructor|]. apply rtc_once.
  refine (reconcile_to kyma _ _ _ _ _ (Some ready_cfapi) None None (Some installed_config) None run_new _ _ _);
    [vm_compute; reflexivity..|].
  change (exists q, Some ready_cfapi = Some q /\ same_main q ready_cfapi
                    /\ cfapi_status q = cfapi_status ready_cfapi).
  by exists ready_cfapi.
Qed.

(** And deleted and reconciled again. *)
Lemma whole_life :
  reachable good (fun d => d = BothPatches) (Lifecycle None (Some installed_config) (Some installed_config)).
Proof.
  eapply rtc_r.
  { eapply rtc_r; [exact ready_life|].
    exact (step_delete good _ ready_cfapi 9 (Some installed_config) None eq_refl). }
  refine (reconcile_to kyma _ _ _ _ _ None (Some installed_config) None None (Some installed_config)
    run_leaving _ _ _); vm_compute; reflexivity.
Qed.

Lemma nothing_left_behind_witness :
  uninstalled_with (Lifecycle None (Some installed_config) (Some installed_config)) = Some installed_config.
Proof. exact (nothing_left_behind good ltac:(discriminate) _ installed_config whole_life eq_refl eq_refl). Defined.

Lemma lost_status_patch_leaks_witness :
  exists q, rtc (step good (fun d => d = MainPatchOnly)) (Lifecycle None None None)
      (Lifecycle (Some q) (Some installed_config) None)
    /\ step good (fun d => d = BothPatches) (Lifecycle (Some q) (Some installed_config) None)
         (Lifecycle None (Some installed_config) None).
Proof.
  destruct (lost_status_patch_leaks good kyma new_cfapi ready_cfapi _ _ _ installed_config 9 eq_refl eq_refl
    eq_refl run_new new_starts) as (q & _ & H1 & H2).
  exists (set_DeletionTimestamp 9 q). split; [exact H1|exact H2].
Defined.

Lemma reconcile_settles_witness :
  exists v', run kyma (ReconcileResource good ready_cfapi) (Some ready_cfapi)
    = (Returned (ready_cfapi, (zero_CtrlResult, None)), v').
Proof.
  exact (reconcile_settles good kyma kyma new_cfapi ready_cfapi _ _ _ (Some ready_cfapi) eq_refl run_new
    ltac:(vm_compute; reflexivity)).
Defined.

Lemma reconcile_is_step_witness :
  step good (fun d => d = BothPatches) (Lifecycle (Some new_cfapi) None None)
    (Lifecycle (stored (run kyma (NewReconciler good sample_key) (Some new_cfapi)).2 sample_key)
       (or_before (start_of good kyma new_cfapi (Some new_cfapi)) None)
       (or_before (finish_of good kyma new_cfapi (Some new_cfapi)) None)).
Proof.
  exact (reconcile_is_step good kyma sample_key (Some new_cfapi) new_cfapi ready_cfapi _ _ None None
    eq_refl run_new eq_refl).
Defined.
