(* ===== verification/Status.v ===== *)
(** * The status of a CFAPI, over its whole life

    What the stored status can look like in any reachable state of the life
    cycle, that a recorded installation is never forgotten, and that every
    outcome of a reconciliation that is not final is tried again. *)

From S2P Require Export Lifecycle.

#[local] Open Scope Z_scope.
#[local] Open Scope list_scope.

Section Status.
Context {it : ItLib} {meta : MetaLib} {metalaws : MetaLaws}.
Context {fin : FinalizerLib} {finlaws : FinalizerLaws} {jsonp : JsonParser}.
Context (r : Reconciler).

(** ** Well-formed statuses *)

(** The conditions that the reconciler writes: type, status and reason. *)
Definition known_conditions : list (string * ConditionStatus * string) :=
  [(ConditionTypeConfiguration, ConditionTrue, "ValidConiguration");
   (ConditionTypeConfiguration, ConditionFalse, "InvalidConfiguration");
   (ConditionTypeInstallation, ConditionTrue, "InstallationSuccess");
   (ConditionTypeInstallation, ConditionFalse, "InstallationFailed");
   (ConditionTypeInstallation, ConditionUnknown, "InstallationInProgress");
   (ConditionTypeDeletion, ConditionFalse, "DeletionInProgress")].

Definition known_states : list State :=
  [""; StateReady; StateProcessing; StateError; StateDeleting; StateWarning].

Definition known (c : Condition) : Prop := (c_Type c, c_Status c, c_Reason c) ∈ known_conditions.

(** At most one condition of each type, all of them known ones. *)
Definition wf_conditions (cs : list Condition) : Prop :=
  NoDup (map c_Type cs) /\ Forall known cs.

(** The status shows a condition for the generation it was observed at. *)
Definition shows (st : CFAPIStatus) (type : string) (status : ConditionStatus) : Prop :=
  exists c, FindStatusCondition (st_Conditions st) type = Some c
    /\ c_Status c = status /\ c_ObservedGeneration c = st_ObservedGeneration st.

(** The conditions and the URL say what the state says. *)
Definition coherent (st : CFAPIStatus) : Prop :=
  (st_State st = StateReady ->
     shows st ConditionTypeConfiguration ConditionTrue /\ shows st ConditionTypeInstallation ConditionTrue
     /\ st_URL st = "https://cfapi." +:+ cfg_CFDomain (st_InstallationConfig st))
  /\ (st_State st = StateError ->
     shows st ConditionTypeConfiguration ConditionTrue /\ shows st ConditionTypeInstallation ConditionFalse
     /\ st_URL st = "")
  /\ (st_State st = StateWarning -> shows st ConditionTypeConfiguration ConditionFalse).

(** A URL is that of a CF API. *)
Definition wf_url (url : string) : Prop := url = "" \/ exists domain, url = "https://cfapi." +:+ domain.

(** A condition that only a compiled configuration leads to. *)
Definition configured_once (c : Condition) : Prop :=
  c_Type c = ConditionTypeConfiguration -> c_Status c = ConditionTrue.

(** Once there is a URL or such a condition, a configuration is recorded. *)
Definition wf_record (st : CFAPIStatus) : Prop :=
  st_URL st <> "" \/ Exists configured_once (st_Conditions st) ->
  st_InstallationConfig st <> zero_InstallationConfig.

Definition wf_base (st : CFAPIStatus) : Prop :=
  wf_conditions (st_Conditions st) /\ wf_url (st_URL st) /\ wf_record st.

Definition wf_status (st : CFAPIStatus) : Prop := st_State st ∈ known_states /\ wf_base st /\ coherent st.

Lemma wf_set_condition cs c :
  known c -> wf_conditions cs -> wf_conditions (SetStatusCondition cs c).
Proof.
  intros Hc [Hnd Hk]. split.
  - rewrite SetStatusCondition_types. case_decide as Hin; [done|].
    apply NoDup_app. split; [done|]. split; [|apply NoDup_singleton].
    intros t Ht ->%list_elem_of_singleton. done.
  - apply Forall_forall. intros d [Hd|(Ht & Hs & _ & Hr & _)]%SetStatusCondition_elem.
    + rewrite Forall_forall in Hk. by apply Hk.
    + unfold known. by rewrite Ht, Hs, Hr.
Qed.

(** A condition is set next to a recorded configuration, or says nothing of one. *)
Lemma wf_base_set st st' c :
  wf_base st -> known c -> st_Conditions st' = SetStatusCondition (st_Conditions st) c -> wf_url (st_URL st') ->
  st_InstallationConfig st' <> zero_InstallationConfig
  \/ ~ configured_once c /\ st_InstallationConfig st' = st_InstallationConfig st /\ st_URL st' = st_URL st ->
  wf_base st'.
Proof.
  intros (Hwf & _ & Hrec) Hc Hcs Hurl Hor. split; [rewrite Hcs; by apply wf_set_condition|]. split; [done|].
  destruct Hor as [Hnz|(Hn & Hcfg & Hu)]; [by intros _|]. unfold wf_record. rewrite Hcs, Hcfg, Hu. intros H. apply Hrec.
  destruct H as [H|H]; [by left|right]. apply Exists_exists in H as (d & Hd & Hd'). apply Exists_exists.
  apply SetStatusCondition_elem in Hd as [Hd|(Ht & Hs & _)]; [by exists d|].
  destruct Hn. unfold configured_once in *. rewrite <- Ht, <- Hs. exact Hd'.
Qed.

(** The condition of an object that was just observed, as its status shows it. *)
Lemma shows_condition (o : CFAPI) type status reason message :
  observed o -> condition o type status reason message -> shows (cfapi_status o) type status.
Proof. intros [_ Hg] (c & Hf & Hs & _ & _ & Hc). exists c. by rewrite Hg. Qed.

Ltac known_condition := unfold known, known_conditions; cbn; set_solver.

Lemma wf_configured config now (o : CFAPI) :
  config <> zero_InstallationConfig -> wf_base (cfapi_status o) ->
  wf_base (cfapi_status (configured config now o)).
Proof.
  intros Hnz Hwf. eapply (wf_base_set (cfapi_status o)); [exact Hwf| |reflexivity|apply Hwf|by left]. known_condition.
Qed.

(** ** Each outcome of a reconciliation *)

Lemma wf_applied result now (o : CFAPI) :
  observed o -> condition o ConditionTypeConfiguration ConditionTrue "ValidConiguration" "" ->
  st_InstallationConfig (cfapi_status o) <> zero_InstallationConfig ->
  wf_base (cfapi_status o) -> wf_status (cfapi_status (applied result now o)).
Proof.
  intros Ho Hconf Hnz Hwf.
  pose proof (applied_conditions result now o Hconf) as [Hc Hi].
  pose proof (observed_applied result now o Ho) as Ho'.
  split; [rewrite applied_state; destruct (r_State result); unfold known_states; set_solver|].
  split.
  - unfold applied. destruct (r_State result);
      (eapply (wf_base_set (cfapi_status o)); [exact Hwf| |reflexivity| |by left]);
      try known_condition; [|by left..]. right. by eexists.
  - unfold coherent. rewrite applied_state.
    pose proof (shows_condition _ _ _ _ _ Ho' Hc). unfold applied in *. destruct (r_State result);
      pose proof (shows_condition _ _ _ _ _ Ho' Hi); done.
Qed.

Lemma wf_of_state st s :
  wf_base st -> st_State st = s -> s ∈ [StateProcessing; StateDeleting] -> wf_status st.
Proof.
  intros Hwf Hs Hin. unfold wf_status, coherent. rewrite Hs.
  apply elem_of_cons in Hin as [-> | ->%list_elem_of_singleton];
    (split; [unfold known_states; set_solver|]); done.
Qed.

Lemma wf_misconfigured err now (o : CFAPI) :
  wf_base (cfapi_status o) -> wf_status (cfapi_status (misconfigured err now o)).
Proof.
  intros Hwf. split; [unfold known_states; set_solver|]. split.
  - eapply (wf_base_set (cfapi_status o)); [exact Hwf| |reflexivity|apply Hwf|right]; [known_condition|].
    split; [|done]. intros H. by discriminate H.
  - split; [done|]. split; [done|]. intros _.
    eapply shows_condition; [apply observed_misconfigured|apply condition_set].
Qed.

Lemma wf_reconciled (e : Env) o o1 res w w' :
  wf_base (cfapi_status o) ->
  run e (ReconcileResource r o) w = (Returned (o1, res), w') -> wf_status (cfapi_status o1).
Proof.
  intros Hwf Hrun. destruct (DeletionTimestamp (cfapi_meta o)) as [t|] eqn:Hd.
  - revert Hrun. rewrite (run_finalize e r o t w Hd). unfold finalize.
    assert (Hdel : forall p : CFAPI, wf_base (cfapi_status p) ->
      st_State (cfapi_status p) = StateDeleting -> wf_status (cfapi_status p)).
    { intros p Hp Hs. eapply wf_of_state; [done..|set_solver]. }
    destruct (IsZero_InstallationConfig _) eqn:Hz; [intros [= <- _ _]; by apply Hdel|].
    rewrite run_bind, run_try.
    destruct (run e (uninstall r _ _) w) as [[result|x|why] w1]; [|intros [= <- _ _]; by apply Hdel|done].
    case_decide; [|intros [= <- _ _]; by apply Hdel].
    rewrite run_bind, run_Now. destruct (answer e CNow w1). intros [= <- _ _]. apply Hdel; [|done].
    eapply (wf_base_set (cfapi_status o)); [exact Hwf| |reflexivity|apply Hwf|left]; [known_condition|].
    intros Hzero. apply IsZero_InstallationConfig_spec in Hzero.
    change (st_InstallationConfig (cfapi_status (set_State _ (prepared o))))
      with (st_InstallationConfig (cfapi_status o)) in Hz.
    change (IsZero_InstallationConfig (st_InstallationConfig (cfapi_status o)) = true) in Hzero. congruence.
  - revert Hrun. rewrite (run_ReconcileResource e r o w Hd).
    destruct (run e (compileInstallationConfig o) w) as [[config|x|why] w1] eqn:Hc; [| |done].
    + pose proof (compiled_not_zero e o w config w1 Hc) as Hnz. destruct (answer e CNow w1) as [now w2].
      destruct (run e (install r config _) w2) as [[result|x|why] w3]; [| |done].
      * rewrite run_applyInstallResultToStatus. destruct (answer e CNow w3). intros [= <- _ _].
        apply wf_applied; [apply observed_configured|apply condition_configured|done|by apply wf_configured].
      * intros [= <- _ _]. eapply wf_of_state; [by apply wf_configured|done|set_solver].
    + destruct (answer e CNow w1). intros [= <- _ _]. by apply wf_misconfigured.
Qed.

(** (C7) The status is well formed in every reachable state of the life of a
    CFAPI, whichever patches are lost and whenever the operator dies.  Its
    state is one of the known ones, and it has at most one condition of each
    of the three types, each with a reason that belongs to its status.  The
    conditions agree with the state and were observed together with it.  The
    URL is that of a CF API or empty; a Ready CFAPI has the URL of the domain
    in its recorded configuration, and one in Error has none.  A URL, or any
    condition but that of an invalid configuration, only appears together
    with a recorded configuration. *)
Theorem status_well_formed allowed s :
  reachable r allowed s ->
  match resource s with Some o => wf_status (cfapi_status o) | None => True end.
Proof.
  revert s. apply reachable_invariant; [done|]. intros s1 s2 Hs0 Hstep.
  assert (Hunless : forall o o' : CFAPI, wf_status (cfapi_status o) -> cfapi_status o' = cfapi_status o ->
    match unless_terminated o' with Some p => wf_status (cfapi_status p) | None => True end).
  { intros o o' Ho Hs. unfold unless_terminated. destruct (terminated o'); [done|]. by rewrite Hs. }
  destruct Hstep as [o i u _ Hnew|o o' i u _ Hs _ _|o t i u _|e w o o1 res w' d p i u si fu Hrun _ _ _ Hp|];
    cbn in *.
  - rewrite Hnew. split; [unfold known_states; set_solver|]. split; [|done].
    split; [split; [apply NoDup_nil_2|constructor]|]. split; [by left|]. intros [H|H]; [done|by inversion H].
  - by eapply Hunless.
  - by apply (Hunless o).
  - pose proof (wf_reconciled e o o1 res w w' (proj1 (proj2 Hs0)) Hrun) as Hwf.
    unfold delivered in Hp. destruct d; [| |by subst p]; destruct (terminated o1);
      [by subst p|destruct Hp as (q & -> & _ & ->); done|by subst p|destruct Hp as (q & -> & _ & ->); done].
  - done.
Qed.
(** ** A recorded installation is never forgotten *)

Context (uninstalls_something : uninstallOrder r <> []).

(** What the finalizer of an object that records a configuration means. *)
Definition guarded (s : lifecycle) : Prop :=
  match resource s with
  | None => True
  | Some o =>
      st_InstallationConfig (cfapi_status o) <> zero_InstallationConfig ->
      Finalizer ∈ Finalizers (cfapi_meta o)
      \/ is_Some (uninstalled_with s) /\ is_Some (DeletionTimestamp (cfapi_meta o))
  end.

(** What a step from an object that records a configuration leaves. *)
Definition remembered (o : CFAPI) (s : lifecycle) : Prop :=
  st_InstallationConfig (cfapi_status o) <> zero_InstallationConfig ->
  match resource s with
  | None => is_Some (uninstalled_with s)
  | Some o' => st_InstallationConfig (cfapi_status o') <> zero_InstallationConfig
  end.

Lemma in_terminated (o : CFAPI) : terminated o = true -> Finalizer ∉ Finalizers (cfapi_meta o).
Proof.
  unfold terminated. destruct (DeletionTimestamp _); [|done].
  destruct (Finalizers _); [|done]. intros _. apply not_elem_of_nil.
Qed.

(** A change that keeps the status and the operator's finalizer. *)
Lemma guarded_kept (o o' : CFAPI) i u :
  guarded (Lifecycle (Some o) i u) -> cfapi_status o' = cfapi_status o ->
  (Finalizer ∈ Finalizers (cfapi_meta o) -> Finalizer ∈ Finalizers (cfapi_meta o')) ->
  (is_Some (DeletionTimestamp (cfapi_meta o)) -> is_Some (DeletionTimestamp (cfapi_meta o'))) ->
  guarded (Lifecycle (unless_terminated o') i u) /\ remembered o (Lifecycle (unless_terminated o') i u).
Proof.
  unfold guarded, remembered, unless_terminated. cbn. intros Hg Hs Hf Hd.
  destruct (terminated o') eqn:Ht; cbn; rewrite ?Hs.
  - split; [done|]. intros Hnz. destruct (Hg Hnz) as [Hin|[? _]]; [|done].
    by apply in_terminated in Ht as []; auto.
  - split; [|done]. intros Hnz. destruct (Hg Hnz) as [Hin|[? ?]]; auto.
Qed.

Lemma is_Some_or_before now before : is_Some before -> is_Some (or_before now before).
Proof. by destruct now. Qed.

(** The main patch of a reconciliation, with the status of before or after. *)
Lemma guarded_patched (e : Env) o o1 res w w' p status i u i' :
  guarded (Lifecycle (Some o) i u) ->
  run e (ReconcileResource r o) w = (Returned (o1, res), w') ->
  status = cfapi_status o \/ status = cfapi_status o1 ->
  (if terminated o1 then p = None
   else exists q, p = Some q /\ same_main q o1 /\ cfapi_status q = status) ->
  let s := Lifecycle p i' (or_before (finish_of r e o w) u) in
  guarded s /\ remembered o s.
Proof.
  intros Hg Hrun Hstatus Hp. cbn zeta.
  pose proof (recorded_config r e o o1 res w w' Hrun) as Hrec.
  pose proof (deletion_kept r e o o1 res w w' Hrun) as [_ Hdel].
  assert (Hnz1 : st_InstallationConfig (cfapi_status o) <> zero_InstallationConfig ->
                 st_InstallationConfig (cfapi_status o1) <> zero_InstallationConfig).
  { intros Hnz. rewrite Hrec. destruct (start_of r e o w) eqn:Hs; cbn; [|done]. by eapply started_not_zero. }
  assert (Hafter : st_InstallationConfig (cfapi_status o1) <> zero_InstallationConfig ->
    Finalizer ∈ Finalizers (cfapi_meta o1)
    \/ is_Some (or_before (finish_of r e o w) u) /\ is_Some (DeletionTimestamp (cfapi_meta o1))).
  { intros Hnz. destruct (finalizer_after r uninstalls_something e o o1 res w w' Hrun Hnz) as [?|[-> ?]]; [by left|right].
    split; [by eexists|done]. }
  destruct (terminated o1) eqn:Ht.
  - subst p. split; [done|]. intros Hnz. cbn.
    destruct (Hafter (Hnz1 Hnz)) as [Hin|[? _]]; [|done]. by apply in_terminated in Ht as [].
  - destruct Hp as (q & -> & (_ & Hqf & Hqd & _) & Hqs). unfold guarded, remembered. cbn.
    rewrite Hqs, Hqf, Hqd. destruct Hstatus as [-> | ->]; split; auto.
Qed.

Lemma guarded_step allowed s s' :
  guarded s -> step r allowed s s' ->
  guarded s' /\ match resource s with Some o => remembered o s' | None => True end.
Proof.
  intros Hg Hstep. destruct Hstep as [o i u _ Hnew|o o' i u _ Hs Hd Hf|o t i u Hd|
    e w o o1 res w' d p i u si fu Hrun _ Hfu _ Hp|e w o i u si fu _ _ _]; cbn [resource].
  - split; [|done]. unfold guarded. cbn. by rewrite Hnew.
  - apply guarded_kept; [done|done|tauto|congruence].
  - apply guarded_kept; [done..|by eexists].
  - apply finished_is in Hfu as ->. destruct d; cbn in Hp.
    + by apply (guarded_patched e o o1 res w w' p (cfapi_status o1) i u); [| |right|].
    + by apply (guarded_patched e o o1 res w w' p (cfapi_status o) i u); [| |left|].
    + subst p. split; [|by unfold remembered]. unfold guarded in *. cbn in *. intros Hnz.
      destruct (Hg Hnz) as [?|[? ?]]; [by left|right]. split; [by apply is_Some_or_before|done].
  - split; [|by unfold remembered]. unfold guarded in *. cbn in *. intros Hnz.
    destruct (Hg Hnz) as [?|[? ?]]; [by left|right]. split; [by apply is_Some_or_before|done].
Qed.

(** A recorded installation is never forgotten, whichever patches are
    lost and whenever the operator dies.  From any reachable state whose
    object records a configuration, the next step either leaves an object
    that records one, or takes the object away after everything in the
    uninstall order was uninstalled. *)
Theorem kept_once_recorded allowed s o s' :
  reachable r allowed s -> resource s = Some o ->
  st_InstallationConfig (cfapi_status o) <> zero_InstallationConfig ->
  step r allowed s s' ->
  match resource s' with
  | None => is_Some (uninstalled_with s')
  | Some o' => st_InstallationConfig (cfapi_status o') <> zero_InstallationConfig
  end.
Proof.
  intros Hreach Ho Hnz Hstep.
  assert (Hg : guarded s).
  { revert Hreach. apply reachable_invariant; [done|]. intros s1 s2 H1 H2. by eapply guarded_step. }
  destruct (guarded_step allowed s s' Hg Hstep) as [_ Hr]. rewrite Ho in Hr. by apply Hr.
Qed.

(** ** What is not final is tried again *)

(** controller-runtime reconciles again when it is told to, or given an error. *)
Definition retries (r : CtrlResult * option error) : Prop :=
  is_Some r.2 \/ Requeue r.1 = true \/ 0 < RequeueAfter r.1.

(** An error opts out of the retry if it is a NotReadyError that was built
    with NoRequeue, or with a delay that is not positive, and without
    Requeue. *)
Definition opts_out (r : CtrlResult * option error) : Prop :=
  exists err n, r.2 = Some err /\ AsNotReadyError err = Some n /\ requeue n = false
    /\ match requeueAfter n with Some d => d <= 0 | None => noRequeue n = true end.

Lemma retries_error res err :
  opts_out (res, Some err) \/ retries (PatchingReconciler.requeue_of (res, Some err)).
Proof.
  unfold PatchingReconciler.requeue_of. cbn.
  destruct (AsNotReadyError err) as [n|] eqn:Hn; [|right; left; by eexists].
  destruct (requeue n) eqn:Hr; [by right; right; left|].
  destruct (requeueAfter n) as [d|] eqn:Hd.
  - destruct (decide (0 < d)) as [|Hle]; [by right; right; right|].
    left. exists err, n. rewrite Hd. split_and!; [done..|lia].
  - destruct (noRequeue n) eqn:Hnr; [|right; left; by eexists].
    left. exists err, n. by rewrite Hd.
Qed.

Lemma retries_after d : 0 < d -> retries (PatchingReconciler.requeue_of ({| Requeue := false; RequeueAfter := d |}, None)).
Proof. intros Hd. right. right. exact Hd. Qed.

Lemma retries_invalid err :
  0 < requeueInterval r -> retries (PatchingReconciler.requeue_of (zero_CtrlResult, Some (invalid_configuration r err))).
Proof. intros Hd. right. right. exact Hd. Qed.

(** (C10) Nothing is forgotten half way.  A reconciliation after which
    controller-runtime is not asked to try again has left a CFAPI that is
    Ready, or in Error, or that has lost the operator's finalizer, unless an
    installable ended it with a NotReadyError that opts out of the retry by
    NoRequeue or by a delay that is not positive.  So a CFAPI never stays
    Warning without a retry, and Processing or Deleting only for such an
    error. *)
Theorem retried_unless_settled (e : Env) o o1 res w w' :
  0 < requeueInterval r ->
  run e (ReconcileResource r o) w = (Returned (o1, res), w') ->
  ~ retries (PatchingReconciler.requeue_of res) ->
  st_State (cfapi_status o1) = StateReady
  \/ st_State (cfapi_status o1) = StateError
  \/ (st_State (cfapi_status o1) = StateDeleting /\ Finalizer ∉ Finalizers (cfapi_meta o1))
  \/ (st_State (cfapi_status o1) ∈ [StateProcessing; StateDeleting] /\ opts_out res).
Proof.
  intros Hint Hrun Hno.
  assert (Herr : forall x, res = (zero_CtrlResult, Some x) -> opts_out res).
  { intros x ->. by destruct (retries_error zero_CtrlResult x). }
  destruct (DeletionTimestamp (cfapi_meta o)) as [t|] eqn:Hd.
  - revert Hrun. rewrite (run_finalize e r o t w Hd). unfold finalize.
    destruct (IsZero_InstallationConfig _).
    { intros [= <- <- _]. right. right. left. split; [done|]. apply finalizer_removed. }
    rewrite run_bind, run_try.
    destruct (run e (uninstall r _ _) w) as [[result|x|why] w1]; [| |done].
    + case_decide.
      * rewrite run_bind, run_Now. destruct (answer e CNow w1). intros [= <- <- _].
        by destruct Hno; apply retries_after.
      * intros [= <- <- _]. right. right. left. split; [done|]. apply finalizer_removed.
    + intros [= <- <- _]. right. right. right. split; [right; left|by eapply Herr].
  - revert Hrun. rewrite (run_ReconcileResource e r o w Hd).
    destruct (run e (compileInstallationConfig o) w) as [[config|x|why] w1]; [| |done].
    + destruct (answer e CNow w1) as [now w2].
      destruct (run e (install r config _) w2) as [[result|x|why] w3]; [| |done].
      * rewrite run_applyInstallResultToStatus. destruct (answer e CNow w3). intros [= <- <- _].
        rewrite applied_state. unfold applied_result in *. destruct (r_State result); auto.
        by destruct Hno; apply retries_after.
      * intros [= <- <- _]. right. right. right. split; [left|by eapply Herr].
    + destruct (answer e CNow w1). intros [= _ <- _]. by destruct Hno; apply retries_invalid.
Qed.
End Status.

(** ** Witnesses *)

#[local] Existing Instances Reference.it Reference.it_laws Reference.meta Reference.meta_laws
  Reference.finalizers Reference.finalizers_laws ControllerExamples.sample_parser.

Lemma status_well_formed_witness : wf_status (cfapi_status ready_cfapi).
Proof. exact (status_well_formed good _ _ ready_life). Defined.

Lemma kept_once_recorded_witness :
  st_InstallationConfig (cfapi_status leaving_cfapi) <> zero_InstallationConfig.
Proof.
  exact (kept_once_recorded good ltac:(discriminate) _ _ ready_cfapi (Lifecycle (Some leaving_cfapi) (Some installed_config) None)
    ready_life eq_refl ltac:(vm_compute; discriminate)
    (step_delete good _ ready_cfapi 9 (Some installed_config) None eq_refl)).
Defined.

Lemma retried_unless_settled_witness :
  ~ retries (PatchingReconciler.requeue_of (zero_CtrlResult, None)) /\ st_State (cfapi_status ready_cfapi) = StateReady.
Proof.
  assert (Hno : ~ retries (PatchingReconciler.requeue_of (zero_CtrlResult, None))).
  { intros [[? [=]]|[[=]|H]]. cbv in H. discriminate. }
  split; [exact Hno|].
  destruct (retried_unless_settled good kyma new_cfapi ready_cfapi _ _ _ ltac:(vm_compute; reflexivity)
    run_new Hno) as [H|[H|[[H _]|[_ (? & ? & [=] & _)]]]]; [exact H|vm_compute in H; discriminate..].
Defined.
