(* ===== verification/Convergence.v ===== *)
(** * Installations and deletions come to an end

    An installable that is not done reports progress and is asked again at
    the next reconciliation.  When each of these requests leaves less to do,
    measured by a number of the cluster, then a CFAPI becomes Ready, or
    disappears, after at most as many reconciliations as there was to do, and
    controller-runtime is asked for each of them. *)

From S2P Require Export Status.

#[local] Open Scope Z_scope.
#[local] Open Scope list_scope.

(** A round either ends the process, or leaves less to do and asks for
    another one. *)
Lemma eventually {W} (round : W -> W) (inv ended again : W -> Prop) (left : W -> nat) :
  (forall w, inv w -> ended (round w) \/ inv (round w) /\ (left (round w) < left w)%nat /\ again w) ->
  forall w, inv w ->
  exists k, (k <= left w)%nat /\ ended (Nat.iter (S k) round w)
    /\ forall j, (j < k)%nat -> again (Nat.iter j round w).
Proof.
  intros Hround. assert (H : forall n w, (left w <= n)%nat -> inv w ->
    exists k, (k <= left w)%nat /\ ended (Nat.iter (S k) round w)
      /\ forall j, (j < k)%nat -> again (Nat.iter j round w));
    [|intros w; by apply (H (left w))].
  induction n as [|n IH]; intros w Hn Hw; destruct (Hround w Hw) as [Hend|(Hinv & Hless & Hagain)]; try lia.
  1,2: exists 0%nat; repeat split; [lia|done|intros; lia].
  destruct (IH (round w)) as (k & Hk & Hend & Hall); [lia|done|].
  exists (S k). rewrite !Nat.iter_succ_r in *. split; [lia|]. split; [done|].
  intros [|j] Hj; [done|]. rewrite Nat.iter_succ_r. apply Hall. lia.
Qed.

(** An API server that does what it is asked: reads and patches of a stored
    CFAPI succeed. *)
Class AcceptingServer (e : Env) `{!ApiServer e} : Prop := {
  get_accepted w key o : stored w key = Some o -> answer e (CGet KCFAPI key) w = (Ok o, w);
  patch_accepted w obj from :
    stored w (cfapi_key from) = Some from -> cfapi_key obj = cfapi_key from ->
    exists o w', answer e (CPatch KCFAPI obj from) w = (Ok o, w');
  status_patch_accepted w obj from cur :
    stored w (cfapi_key obj) = Some cur ->
    exists o w', answer e (CStatusPatch KCFAPI obj from) w = (Ok o, w')
}.

Section Convergence.
Context {it : ItLib} {meta : MetaLib} {metalaws : MetaLaws}.
Context {fin : FinalizerLib} {finlaws : FinalizerLaws} {jsonp : JsonParser}.
Context {conv : ConverterLib} {convlaws : ConverterLaws KCFAPI}.
Context (r : Reconciler) (Hinterval : 0 < requeueInterval r).
Context (e : Env) {server : ApiServer e} {accepting : AcceptingServer e} {failures : FailedPatches e}.

(** What is left to do in a cluster. *)
Context (work : world e -> nat).

(** A call or a program that changes neither the CFAPI nor what is left to do. *)
Definition leaves_alone (key : ObjectKey) (w w' : world e) : Prop :=
  stored w' key = stored w key /\ work w' = work w.

Context (now_quiet : forall key w t w', answer e CNow w = (t, w') -> leaves_alone key w w').
Context (patch_quiet : forall w obj from a w', answer e (CPatch KCFAPI obj from) w = (a, w') -> work w' = work w).
Context (status_patch_quiet :
  forall w obj from a w', answer e (CStatusPatch KCFAPI obj from) w = (a, w') -> work w' = work w).

Abbreviation recorder o := (NewCFAPIEventRecorder (cfapi_key o)).

(** A program that is done or leaves less to do, and does not fail. *)
Definition progresses (key : ObjectKey) (p : M Result) : Prop := forall w, exists result w',
  run e p w = (Returned result, w') /\ stored w' key = stored w key
  /\ (r_State result = ResultStateSuccess /\ (work w' <= work w)%nat
      \/ r_State result = ResultStateInProgress /\ (work w' < work w)%nat).

Lemma uninstall_progresses key config rec :
  Forall (fun i => progresses key (Uninstall i config rec)) (uninstallOrder r) ->
  progresses key (uninstall r config rec).
Proof.
  unfold uninstall. induction 1 as [|i order Hi _ IH]; intros w; cbn [uninstall_loop].
  - eexists _, w. split; [done|]. split; [done|]. left. done.
  - destruct (Hi w) as (result & w1 & Hrun & Hst & Hcase). rewrite run_bind, Hrun.
    case_decide as Hs.
    + exists result, w1. split; [done|]. split; [done|]. destruct Hcase as [[? _]|]; [done|by right].
    + destruct Hcase as [[_ Hle]|[? _]]; [|congruence].
      destruct (IH w1) as (result' & w2 & Hrun' & Hst' & Hcase'). exists result', w2.
      split; [done|]. split; [by rewrite Hst'|]. destruct Hcase' as [[? ?]|[? ?]]; [left|right]; split; lia || done.
Qed.

Lemma installs_progress key config rec order w :
  Forall (fun i => progresses key (Install i config rec)) order ->
  exists results w', installs e config rec order w results w' /\ stored w' key = stored w key
    /\ (Forall succeeded results /\ (work w' <= work w)%nat
        \/ Forall (fun x => r_State x <> ResultStateFailed) results /\ (work w' < work w)%nat).
Proof.
  intros Hall. revert w. induction Hall as [|i order Hi _ IH]; intros w.
  - exists [], w. split; [constructor|]. split; [done|]. by left.
  - destruct (Hi w) as (result & w1 & Hrun & Hst & Hcase).
    destruct (IH w1) as (results & w2 & Hins & Hst' & Hcase').
    exists (result :: results), w2. split; [by econstructor|]. split; [by rewrite Hst'|].
    assert (Hweak : Forall succeeded results -> Forall (fun x => r_State x <> ResultStateFailed) results).
    { intros H. eapply Forall_impl; [exact H|]. unfold succeeded. by intros ? ->. }
    destruct Hcase as [[Hs ?]|[Hs ?]], Hcase' as [[? ?]|[? ?]].
    + left. split; [by constructor|lia].
    + right. split; [constructor; [by rewrite Hs|done]|lia].
    + right. split; [constructor; [by rewrite Hs|auto]|lia].
    + right. split; [constructor; [by rewrite Hs|done]|lia].
Qed.

Lemma install_progresses key config rec :
  installOrder r <> [] -> Forall (fun i => progresses key (Install i config rec)) (installOrder r) ->
  progresses key (install r config rec).
Proof.
  intros Hne Hall w. destruct (installs_progress key config rec _ w Hall) as (results & w' & Hins & Hst & Hcase).
  destruct (run_install_worst e r config rec w results w' Hne Hins) as (result & Hrun & Hmax).
  exists result, w'. split; [done|]. split; [done|].
  pose proof (first_max_succeeded _ _ Hmax) as Hsucc. unfold succeeded at 1 in Hsucc.
  destruct Hcase as [[Hs ?]|[Hs ?]]; [left; split; [by apply Hsucc|done]|].
  destruct (r_State result) eqn:Hr; [left; split; [done|lia]|by right|].
  destruct Hmax as (l1 & l2 & -> & _ & _). apply Forall_app in Hs as [_ Hs]. inversion Hs; congruence.
Qed.

(** ** Both patches of a reconciliation *)

(** The result of a reconciliation whose patches are accepted. *)
Lemma reconciled_round key w (o o1 : object KCFAPI) res w1 :
  stored w key = Some o -> run e (ReconcileResource r o) w = (Returned (o1, res), w1) ->
  stored w1 key = Some o ->
  exists res' w', run e (NewReconciler r key) w = (Returned res', w') /\ work w' = work w1
    /\ if terminated o1 then stored w' key = None
       else res' = PatchingReconciler.requeue_of res
            /\ exists q, stored w' key = Some q /\ same_main q o1 /\ cfapi_status q = cfapi_status o1.
Proof.
  intros Hst Hrun Hst1. pose proof (get_accepted w key o Hst) as Hget.
  assert (Ho : cfapi_key o = key) by (by apply get_stored in Hget as (_ & _ & ?)).
  destruct (deletion_kept r e o o1 res w w1 Hrun) as [Hkey _]. rewrite Ho in Hkey.
  unfold NewReconciler. rewrite (run_Reconcile e (ReconcileResource r) _ _ _ _ _ _ Hget Hrun).
  destruct (patch_accepted w1 o1 o) as (o2 & w2 & Hp); [by rewrite Ho|by rewrite Ho|]. rewrite Hp.
  destruct (patch_disappears e o o1 key w1 o2 w2 Ho Hst1 Hkey Hp) as [_ Hgone].
  pose proof (patch_quiet _ _ _ _ _ Hp) as Hw2.
  destruct (answer e (CStatusPatch KCFAPI o1 o) w2) as [[o3|err] w3] eqn:Hs;
    pose proof (status_patch_quiet _ _ _ _ _ Hs) as Hw3; eexists _, w3; (split; [done|]); (split; [by rewrite Hw3|]).
  - destruct (terminated o1) eqn:Ht.
    + destruct (status_patch_missing w2 o1 o) as (x & w4 & Hx & _); [by rewrite Hkey, Hgone|]. congruence.
    + split; [done|]. by apply (patches_persist e o o1 key w1 o2 w2 o3 w3).
  - destruct (terminated o1) eqn:Ht.
    + by rewrite (status_patch_failed w2 o1 o err w3 key Hs), Hgone.
    + exfalso. destruct (patch_stored w1 o1 o o2 w2) as (Hmain & _ & Hst2); [by rewrite Ho|by rewrite Ho|done|].
      rewrite Ho, (same_main_terminated _ _ Hmain), Ht, <- Hkey in Hst2.
      destruct (status_patch_accepted w2 o1 o o2 Hst2) as (? & ? & ?). congruence.
Qed.

Definition round (key : ObjectKey) (w : world e) : world e := (run e (NewReconciler r key) w).2.

(** The round asks for another one. *)
Definition asks_again (key : ObjectKey) (w : world e) : Prop :=
  exists res w', run e (NewReconciler r key) w = (Returned res, w') /\ retries res.
(** ** Deletion *)

(** A CFAPI under deletion that no one else holds, with its configuration. *)
Definition leaving (key : ObjectKey) (config : InstallationConfig) (w : world e) : Prop :=
  exists o, stored w key = Some o /\ is_Some (DeletionTimestamp (cfapi_meta o)) /\ foreign o = []
    /\ st_InstallationConfig (cfapi_status o) = config.

Lemma run_deletion key o t w :
  stored w key = Some o -> DeletionTimestamp (cfapi_meta o) = Some t ->
  Forall (fun i => progresses key
    (Uninstall i (st_InstallationConfig (cfapi_status o)) (recorder o))) (uninstallOrder r) ->
  exists o1 res w1, run e (ReconcileResource r o) w = (Returned (o1, res), w1) /\ stored w1 key = Some o
    /\ st_InstallationConfig (cfapi_status o1) = st_InstallationConfig (cfapi_status o)
    /\ (Finalizer ∉ Finalizers (cfapi_meta o1)
        \/ Finalizer ∈ Finalizers (cfapi_meta o1) /\ (work w1 < work w)%nat
           /\ retries (PatchingReconciler.requeue_of res)).
Proof.
  intros Hst Hd Hall. rewrite (run_finalize e r o t w Hd). unfold finalize.
  change (st_InstallationConfig (cfapi_status (set_State _ (prepared o))))
    with (st_InstallationConfig (cfapi_status o)).
  change (cfapi_key (set_State _ (prepared o))) with (cfapi_key o).
  destruct (IsZero_InstallationConfig _).
  { eexists _, _, w. split; [done|]. split; [done|]. split; [done|]. left. apply finalizer_removed. }
  destruct (uninstall_progresses key _ _ Hall w) as (result & w1 & Hrun & Hst1 & Hcase).
  rewrite run_bind, run_try, Hrun. case_decide as Hs.
  - destruct Hcase as [[? _]|[_ Hless]]; [done|]. rewrite run_bind, run_Now.
    destruct (answer e CNow w1) as [now w2] eqn:Hnow. destruct (now_quiet key w1 now w2 Hnow) as [Hst2 Hw2].
    eexists _, _, w2. split; [done|]. split; [by rewrite Hst2, Hst1|]. split; [done|]. right.
    split; [apply (finalizer_added (set_State StateProcessing (set_ObservedGeneration (Generation (cfapi_meta o)) o)))|].
    split; [by rewrite Hw2|]. by apply retries_after.
  - eexists _, _, w1. split; [done|]. split; [by rewrite Hst1|]. split; [done|]. left. apply finalizer_removed.
Qed.

(** Without foreign finalizers, an object is terminated by losing the
    operator's. *)
Lemma terminated_iff (o : CFAPI) :
  is_Some (DeletionTimestamp (cfapi_meta o)) -> foreign o = [] ->
  terminated o = true <-> Finalizer ∉ Finalizers (cfapi_meta o).
Proof.
  intros [t Ht] Hf. split; [apply in_terminated|]. intros Hout. unfold terminated. rewrite Ht.
  unfold foreign in Hf. destruct (Finalizers (cfapi_meta o)) as [|f fs]; [done|].
  rewrite filter_cons in Hf. case_decide as Hne; [done|]. destruct Hout.
  destruct (decide (f = Finalizer)) as [->|]; [by left|done].
Qed.

(** (C8) A deletion comes to an end.  A CFAPI under deletion whose
    uninstallables make progress with the recorded configuration, as measured
    by what is left to do in the cluster, is gone from the API server after at
    most one more reconciliation than there was to do, and every
    reconciliation before the last one asks for the next. *)
Theorem deletion_ends key config w :
  leaving key config w ->
  Forall (fun i => forall rec, progresses key (Uninstall i config rec)) (uninstallOrder r) ->
  exists k, (k <= work w)%nat /\ stored (Nat.iter (S k) (round key) w) key = None
    /\ forall j, (j < k)%nat -> asks_again key (Nat.iter j (round key) w).
Proof.
  intros Hw Hall.
  apply (eventually (round key) (leaving key config) (fun v => stored v key = None)); [|done].
  clear w Hw. intros v (o & Hst & [t Hd] & Hf & Hc).
    destruct (run_deletion key o t v Hst Hd) as (o1 & res & w1 & Hrun & Hst1 & Hcfg & Hcase).
    { rewrite Hc. eapply Forall_impl; [exact Hall|]. auto. }
    destruct (reconciled_round key v o o1 res w1 Hst Hrun Hst1) as (res' & w' & Hnew & Hwork & Hafter).
    assert (Hdel1 : is_Some (DeletionTimestamp (cfapi_meta o1))).
    { destruct (deletion_kept r e o o1 res v w1 Hrun) as [_ ->]. rewrite Hd. by eexists. }
    assert (Hf1 : foreign o1 = []).
    { destruct (finalizer_when_deleted e r o t o1 res v w1 Hd Hrun) as (-> & _). done. }
    pose proof (terminated_iff o1 Hdel1 Hf1) as Hterm. unfold round. rewrite Hnew. cbn [snd].
    destruct Hcase as [Hout|(Hin & Hless & Hretry)].
    - left. apply Hterm in Hout. by rewrite Hout in Hafter.
    - right. destruct (terminated o1); [by destruct (proj1 Hterm eq_refl)|].
      destruct Hafter as (-> & q & Hq & (Hmk & Hmf & Hmd & _) & Hmst).
      split; [|split; [lia|by exists (PatchingReconciler.requeue_of res), w']].
      exists q. split; [done|]. rewrite Hmst, Hcfg, Hmd. unfold foreign in *. by rewrite Hmf.
Qed.

(** ** Installation *)

(** A stored CFAPI that is not under deletion, with a given spec. *)
Definition staying (key : ObjectKey) (spec : CFAPISpec) (w : world e) : Prop :=
  exists o, stored w key = Some o /\ DeletionTimestamp (cfapi_meta o) = None /\ cfapi_spec o = spec.

Definition ready (key : ObjectKey) (w : world e) : Prop :=
  exists o, stored w key = Some o /\ st_State (cfapi_status o) = StateReady.

(** Its configuration can be compiled, whatever else the cluster does. *)
Definition compiles (key : ObjectKey) (spec : CFAPISpec) : Prop := forall w o,
  stored w key = Some o -> cfapi_spec o = spec ->
  exists config w', run e (compileInstallationConfig o) w = (Returned config, w') /\ leaves_alone key w w'.

Lemma run_installation key o w :
  stored w key = Some o -> DeletionTimestamp (cfapi_meta o) = None -> compiles key (cfapi_spec o) ->
  (forall config, progresses key (install r config (recorder o))) ->
  exists o1 res w1, run e (ReconcileResource r o) w = (Returned (o1, res), w1) /\ stored w1 key = Some o
    /\ cfapi_spec o1 = cfapi_spec o
    /\ (st_State (cfapi_status o1) = StateReady
        \/ (work w1 < work w)%nat /\ retries (PatchingReconciler.requeue_of res)).
Proof.
  intros Hst Hd Hcomp Hinst. rewrite (run_ReconcileResource e r o w Hd).
  destruct (Hcomp w o Hst eq_refl) as (config & w1 & -> & Hst1 & Hw1).
  destruct (answer e CNow w1) as [now w2] eqn:Hnow. destruct (now_quiet key w1 now w2 Hnow) as [Hst2 Hw2].
  destruct (Hinst config w2) as (result & w3 & -> & Hst3 & Hcase). rewrite run_applyInstallResultToStatus.
  destruct (answer e CNow w3) as [now' w4] eqn:Hnow'. destruct (now_quiet key w3 now' w4 Hnow') as [Hst4 Hw4].
  eexists _, _, w4. split; [done|]. split; [by rewrite Hst4, Hst3, Hst2, Hst1|].
  split; [unfold applied; by destruct (r_State result)|]. rewrite applied_state. unfold applied_result.
  destruct Hcase as [[-> _]|[-> Hless]]; [by left|right]. split; [lia|]. by apply retries_after.
Qed.

(** (C9) An installation comes to an end.  A CFAPI whose configuration can be
    compiled and whose installables make progress, as measured by what is
    left to do in the cluster, is Ready after at most one more reconciliation
    than there was to do, and every reconciliation before the last one asks
    for the next. *)
Theorem installation_ends key spec w :
  staying key spec w -> compiles key spec -> installOrder r <> [] ->
  Forall (fun i => forall config rec, progresses key (Install i config rec)) (installOrder r) ->
  exists k, (k <= work w)%nat /\ ready key (Nat.iter (S k) (round key) w)
    /\ forall j, (j < k)%nat -> asks_again key (Nat.iter j (round key) w).
Proof.
  intros Hw Hcomp Hne Hall.
  apply (eventually (round key) (staying key spec) (ready key)); [|done].
  clear w Hw. intros v (o & Hst & Hd & Hs).
    destruct (run_installation key o v Hst Hd) as (o1 & res & w1 & Hrun & Hst1 & Hspec & Hcase);
      [by rewrite Hs|intros config; apply install_progresses; [done|]|].
    { eapply Forall_impl; [exact Hall|]. auto. }
    destruct (reconciled_round key v o o1 res w1 Hst Hrun Hst1) as (res' & w' & Hnew & Hwork & Hafter).
    assert (Hd1 : DeletionTimestamp (cfapi_meta o1) = None)
      by (by rewrite (proj2 (deletion_kept r e o o1 res v w1 Hrun))).
    unfold terminated in Hafter. rewrite Hd1 in Hafter.
    destruct Hafter as (-> & q & Hq & (_ & _ & Hmd & Hms) & Hmst). unfold round. rewrite Hnew. cbn [snd].
    destruct Hcase as [Hready|[Hless Hretry]].
    - left. exists q. by rewrite Hmst.
    - right. split; [|split; [lia|by eexists _, w']].
      exists q. split; [done|]. split; [by rewrite Hmd|]. congruence.
Qed.
End Convergence.

(** ** Witnesses *)

#[local] Existing Instances Reference.it Reference.it_laws Reference.meta Reference.meta_laws
  Reference.finalizers Reference.finalizers_laws SingleObject.converter SingleObject.converter_laws
  ControllerExamples.sample_parser SingleObject.server_laws.

(** A cluster with a CFAPI and a number of orgs, of which every deletion of
    all orgs removes one. *)
Definition orgs_answer (f : forall c : call, reply c) (c : call) (w : option CFAPI * nat)
    : reply c * (option CFAPI * nat) :=
  match c return reply c * (option CFAPI * nat) with
  | CDeleteAllOf KCFOrg _ => (Ok tt, (w.1, Nat.pred w.2))
  | CList KCFOrg => (Ok (repeat {| org_meta := meta_of "cf" "org" |} w.2), w)
  | c => let '(r, o) := SingleObject.server_answer f c w.1 in (r, (o, w.2))
  end.

Definition orgs_cluster (f : forall c : call, reply c) : Env :=
  Environment (S:=ext) (option CFAPI * nat) (orgs_answer f).

Section Cluster.
Context (f : forall c : call, reply c).

Lemma orgs_patch w obj from :
  orgs_answer f (CPatch KCFAPI obj from) w
  = let '(r, o) := SingleObject.patch_answer f KCFAPI w.1 obj from in (r, (o, w.2)).
Proof. done. Qed.

Lemma orgs_status_patch w obj from :
  orgs_answer f (CStatusPatch KCFAPI obj from) w
  = let '(r, o) := SingleObject.status_answer f KCFAPI w.1 obj from in (r, (o, w.2)).
Proof. done. Qed.

#[export] Instance orgs_server : ApiServer (orgs_cluster f).
Proof.
  refine {| stored := fun w : world (orgs_cluster f) => SingleObject.lookup_object w.1 |}.
  - intros key [w n] o w' [= Hg <-].
    destruct (get_stored (ApiServer:=SingleObject.server_laws f) key w o w) as (_ & Hst & Hk); [by cbn; rewrite Hg|done].
  - intros [w n] obj from o w' Hst Hkey Ha. cbn [answer orgs_cluster] in Ha. rewrite orgs_patch in Ha.
    cbn [fst snd] in Ha.
    destruct (SingleObject.patch_answer f KCFAPI w obj from) as [r w1] eqn:Hp.
    injection Ha as -> <-.
    exact (patch_stored (ApiServer:=SingleObject.server_laws f) w obj from o w1 Hst Hkey Hp).
  - intros [w n] obj from Hst.
    destruct (status_patch_missing (ApiServer:=SingleObject.server_laws f) w obj from Hst) as (err & w1 & Ha & Hn).
    exists err, (w1, n). split; [|done]. cbn [answer orgs_cluster]. rewrite orgs_status_patch. cbn [fst snd].
    change (SingleObject.status_answer f KCFAPI w obj from = (Fail err, w1)) in Ha. by rewrite Ha.
  - intros [w n] obj from cur o w' Hst Ha. cbn [answer orgs_cluster] in Ha. rewrite orgs_status_patch in Ha.
    cbn [fst snd] in Ha.
    destruct (SingleObject.status_answer f KCFAPI w obj from) as [r w1] eqn:Hp.
    injection Ha as -> <-.
    exact (status_patch_stored (ApiServer:=SingleObject.server_laws f) w obj from cur o w1 Hst Hp).
Defined.

#[export] Instance orgs_accepting : AcceptingServer (orgs_cluster f).
Proof.
  split; intros [w n].
  - intros key o Hst. cbn in *. by rewrite Hst.
  - intros obj from Hst Hkey. cbn in *. rewrite Hkey, Hst. by eexists _, _.
  - intros obj from cur Hst. cbn in *. rewrite Hst. by eexists _, _.
Qed.

#[export] Instance orgs_failed_patches : FailedPatches (orgs_cluster f).
Proof.
  split; intros [w n] obj from err w' key; cbn;
    destruct (SingleObject.lookup_object _ _); try done; by intros [= _ <-].
Qed.

Lemma orgs_now_quiet (key : ObjectKey) (w : world (orgs_cluster f)) t w' :
  answer (orgs_cluster f) CNow w = (t, w') -> leaves_alone (orgs_cluster f) snd key w w'.
Proof. destruct w. by intros [= _ <-]. Qed.

Lemma orgs_patch_quiet (w : world (orgs_cluster f)) obj from a w' :
  answer (orgs_cluster f) (CPatch KCFAPI obj from) w = (a, w') -> w'.2 = w.2.
Proof. destruct w. cbn. destruct (SingleObject.lookup_object _ _); by intros [= _ <-]. Qed.

Lemma orgs_status_patch_quiet (w : world (orgs_cluster f)) obj from a w' :
  answer (orgs_cluster f) (CStatusPatch KCFAPI obj from) w = (a, w') -> w'.2 = w.2.
Proof. destruct w. cbn. destruct (SingleObject.lookup_object _ _); by intros [= _ <-]. Qed.

Lemma orgs_progress key config rec :
  progresses (orgs_cluster f) snd key (Uninstall Orgs.NewOrgs config rec).
Proof.
  intros [w [|[|n]]]; eexists _, _; (split; [reflexivity|]); (split; [reflexivity|]); cbn;
    [left|left|right]; split; lia || done.
Qed.
End Cluster.

Abbreviation kyma_with_orgs := (orgs_cluster (cluster (Ok sample_gateway))).

(** The orgs block the deletion, and what is installed is that there are none. *)
Definition orgs_reconciler : Reconciler :=
  {| requeueInterval := 10 * Second;
     installOrder := [Conditional.NewConditional (fun _ => false) Orgs.NewOrgs];
     uninstallOrder := [Orgs.NewOrgs] |}.

Lemma deletion_ends_witness : exists k, (k <= 3)%nat
  /\ stored (Nat.iter (S k) (round orgs_reconciler kyma_with_orgs sample_key) (Some leaving_cfapi, 3%nat)) sample_key
     = None.
Proof.
  destruct (deletion_ends orgs_reconciler ltac:(vm_compute; reflexivity) kyma_with_orgs snd
    (orgs_now_quiet _) (orgs_patch_quiet _) (orgs_status_patch_quiet _)
    sample_key installed_config (Some leaving_cfapi, 3%nat)) as (k & Hk & Hgone & _).
  - exists leaving_cfapi. split; [vm_compute; reflexivity|]. split; [by exists 9|]. split; vm_compute; reflexivity.
  - constructor; [|constructor]. intros rec. apply orgs_progress.
  - exists k. split; [exact Hk|exact Hgone].
Defined.

Lemma compiles_sample : compiles kyma_with_orgs snd sample_key (cfapi_spec new_cfapi).
Proof.
  intros [w n] o Hst Hs. exists installed_config, (w, n). split; [|done].
  destruct o as [[] spec status]. cbn in Hs. subst spec.
  apply SingleObject.lookup_object_Some in Hst as [_ [= -> ->]]. vm_compute. reflexivity.
Qed.

Lemma installation_ends_witness : exists k, (k <= 3)%nat
  /\ ready kyma_with_orgs sample_key
       (Nat.iter (S k) (round orgs_reconciler kyma_with_orgs sample_key) (Some new_cfapi, 3%nat)).
Proof.
  destruct (installation_ends orgs_reconciler ltac:(vm_compute; reflexivity) kyma_with_orgs snd
    (orgs_now_quiet _) (orgs_patch_quiet _) (orgs_status_patch_quiet _)
    sample_key (cfapi_spec new_cfapi) (Some new_cfapi, 3%nat)) as (k & Hk & Hready & _).
  - by exists new_cfapi.
  - apply compiles_sample.
  - done.
  - constructor; [|constructor]. intros config rec. apply orgs_progress.
  - exists k. split; [exact Hk|exact Hready].
Defined.
