(* ===== verification/Concurrent.v ===== *)
(** * Reconciliations while users act

    The two patches are JSON merge patches against the object as it was read
    ([client.MergeFrom] in src/tools/k8s/patch.go): they carry the fields that
    the reconciliation changed and nothing that would detect another change
    meanwhile.  This file says what they make of an object that users edited
    or deleted in the middle of a reconciliation, as far as Kubernetes
    documents it, and what then holds over the life of a CFAPI.  Merging.v
    ties its steps to runs of the patching reconciler. *)

From S2P Require Export Convergence.

#[local] Open Scope Z_scope.
#[local] Open Scope list_scope.

(** ** Merge patches *)

(** A field after a patch from [from] to [obj] of an object where it is [cur];
    lists are replaced as a whole. *)
Definition pick {A} `{EqDecision A} (from obj cur : A) : A := if decide (from = obj) then cur else obj.

Lemma pick_same {A} `{EqDecision A} (a cur : A) : pick a a cur = cur.
Proof. unfold pick. by rewrite decide_True. Qed.

Lemma pick_from {A} `{EqDecision A} (a b : A) : pick a b a = b.
Proof. unfold pick. by case_decide. Qed.

Definition merge_spec (from obj cur : CFAPISpec) : CFAPISpec :=
  let field {A} `{EqDecision A} (f : CFAPISpec -> A) := pick (f from) (f obj) (f cur) in
  {| spec_RootNamespace := field spec_RootNamespace;
     spec_ContainerRegistrySecret := field spec_ContainerRegistrySecret;
     spec_DisableContainerRegistrySecretPropagation := field spec_DisableContainerRegistrySecretPropagation;
     spec_ContainerRepositoryPrefix := field spec_ContainerRepositoryPrefix;
     spec_BuilderRepository := field spec_BuilderRepository;
     spec_UAA := field spec_UAA; spec_CFAdmins := field spec_CFAdmins;
     spec_UseSelfSignedCertificates := field spec_UseSelfSignedCertificates;
     spec_GatewayType := field spec_GatewayType |}.

(** Key, generation and deletion time belong to the server. *)
Definition merge_meta (from obj cur : ObjectMeta) : ObjectMeta :=
  {| Namespace := Namespace cur; Name := Name cur; Generation := Generation cur;
     Finalizers := pick (Finalizers from) (Finalizers obj) (Finalizers cur);
     DeletionTimestamp := DeletionTimestamp cur; ResourceVersion := ResourceVersion cur |}.

Definition merge_config (from obj cur : InstallationConfig) : InstallationConfig :=
  let field {A} `{EqDecision A} (f : InstallationConfig -> A) := pick (f from) (f obj) (f cur) in
  {| cfg_RootNamespace := field cfg_RootNamespace;
     cfg_ContainerRegistrySecret := field cfg_ContainerRegistrySecret;
     cfg_DisableContainerRegistrySecretPropagation := field cfg_DisableContainerRegistrySecretPropagation;
     cfg_ContainerRegistryURL := field cfg_ContainerRegistryURL;
     cfg_ContainerRepositoryPrefix := field cfg_ContainerRepositoryPrefix;
     cfg_BuilderRepository := field cfg_BuilderRepository;
     cfg_UAAURL := field cfg_UAAURL; cfg_CFAdmins := field cfg_CFAdmins; cfg_CFDomain := field cfg_CFDomain;
     cfg_KorifiIngressService := field cfg_KorifiIngressService;
     cfg_UseSelfSignedCertificates := field cfg_UseSelfSignedCertificates;
     cfg_GatewayType := field cfg_GatewayType |}.

Definition merge_status (from obj cur : CFAPIStatus) : CFAPIStatus :=
  let field {A} `{EqDecision A} (f : CFAPIStatus -> A) := pick (f from) (f obj) (f cur) in
  {| st_State := field st_State; st_ObservedGeneration := field st_ObservedGeneration;
     st_Conditions := field st_Conditions;
     st_InstallationConfig := merge_config (st_InstallationConfig from) (st_InstallationConfig obj)
                                (st_InstallationConfig cur);
     st_URL := field st_URL |}.

(** The main patch, which leaves the status alone, and both patches. *)
Definition merge_main (from obj cur : CFAPI) : CFAPI :=
  {| cfapi_meta := merge_meta (cfapi_meta from) (cfapi_meta obj) (cfapi_meta cur);
     cfapi_spec := merge_spec (cfapi_spec from) (cfapi_spec obj) (cfapi_spec cur);
     cfapi_status := cfapi_status cur |}.

Definition merged (from obj cur : CFAPI) : CFAPI :=
  {| cfapi_meta := cfapi_meta (merge_main from obj cur); cfapi_spec := cfapi_spec (merge_main from obj cur);
     cfapi_status := merge_status (cfapi_status from) (cfapi_status obj) (cfapi_status cur) |}.

(** Kubernetes lets no one add finalizers to an object under deletion: it
    refuses the whole patch. *)
Definition adds_finalizers (from obj cur : CFAPI) : Prop :=
  ~ Forall (fun f => f ∈ Finalizers (cfapi_meta cur)) (Finalizers (cfapi_meta (merge_main from obj cur))).

Definition forbidden (from obj cur : CFAPI) : Prop :=
  is_Some (DeletionTimestamp (cfapi_meta cur)) /\ adds_finalizers from obj cur.

#[export] Instance forbidden_dec from obj cur : Decision (forbidden from obj cur).
Proof. apply _. Defined.

Lemma adds_only_if_changed from obj cur :
  adds_finalizers from obj cur -> Finalizers (cfapi_meta from) <> Finalizers (cfapi_meta obj).
Proof.
  intros Hadds Heq. apply Hadds. cbn. unfold pick. rewrite decide_True by done. by apply Forall_forall.
Qed.

Lemma merge_spec_same s cur : merge_spec s s cur = cur.
Proof. unfold merge_spec. rewrite !pick_same. by destruct cur. Qed.

Lemma merge_spec_from s s' : merge_spec s s' s = s'.
Proof. unfold merge_spec. rewrite !pick_from. by destruct s'. Qed.

Lemma merge_status_from st st' : merge_status st st' st = st'.
Proof. unfold merge_status, merge_config. rewrite !pick_from. by destruct st' as [? ? ? [] ?]. Qed.

(** ** Users *)

(** What users do to an existing CFAPI, as in Lifecycle.v. *)
Inductive user_step : option CFAPI -> option CFAPI -> Prop :=
| user_edit o o' :
    cfapi_key o' = cfapi_key o -> cfapi_status o' = cfapi_status o ->
    DeletionTimestamp (cfapi_meta o') = DeletionTimestamp (cfapi_meta o) ->
    (Finalizer ∈ Finalizers (cfapi_meta o') <-> Finalizer ∈ Finalizers (cfapi_meta o)) ->
    user_step (Some o) (unless_terminated o')
| user_delete o t :
    DeletionTimestamp (cfapi_meta o) = None ->
    user_step (Some o) (unless_terminated (set_DeletionTimestamp t o)).

Definition users_act : option CFAPI -> option CFAPI -> Prop := rtc user_step.

Lemma unless_terminated_Some o p : unless_terminated o = Some p -> p = o /\ terminated o = false.
Proof. unfold unless_terminated. destruct (terminated o); [done|]. by intros [= ->]. Qed.

Lemma holds_finalizer_not_terminated o :
  Finalizer ∈ Finalizers (cfapi_meta o) -> terminated o = false.
Proof.
  unfold terminated. destruct (DeletionTimestamp _); [|done].
  destruct (Finalizers _); [by intros ?%not_elem_of_nil|done].
Qed.

Lemma users_act_None p : users_act None p -> p = None.
Proof. intros H. by inversion H as [|? ? ? Hs]; [|inversion Hs]. Qed.

(** Users change neither the status nor the operator's finalizer, and do not
    undo a deletion; while the finalizer is there, they cannot make the
    object disappear. *)
Lemma users_keep o p :
  users_act (Some o) p ->
  (forall cur, p = Some cur ->
     cfapi_key cur = cfapi_key o /\ cfapi_status cur = cfapi_status o
     /\ (Finalizer ∈ Finalizers (cfapi_meta cur) <-> Finalizer ∈ Finalizers (cfapi_meta o))
     /\ (is_Some (DeletionTimestamp (cfapi_meta o)) ->
         DeletionTimestamp (cfapi_meta cur) = DeletionTimestamp (cfapi_meta o)))
  /\ (Finalizer ∈ Finalizers (cfapi_meta o) -> is_Some p).
Proof.
  intros H. remember (Some o) as q eqn:Hq. revert o Hq.
  induction H as [q|q1 q2 q3 Hstep Hrest IH]; intros o ->; [split; [by intros cur [= ->]|by eexists]|].
  pose proof (users_act_None q3) as Hgone.
  inversion Hstep as [o0 o' Hk Hs Hd Hf Ho|o0 t Hd Ho]; subst.
  - unfold unless_terminated in *. destruct (terminated o') eqn:Ht.
    + rewrite (Hgone Hrest). split; [done|]. intros Hin. apply Hf, holds_finalizer_not_terminated in Hin. congruence.
    + destruct (IH o' eq_refl) as [Hcur Hsome]. split; [|by intros ?%Hf%Hsome].
      intros cur Hc. destruct (Hcur cur Hc) as (-> & -> & Hf' & Hd'). rewrite Hf', Hd in *. tauto.
  - unfold unless_terminated in *. destruct (terminated (set_DeletionTimestamp t o)) eqn:Ht.
    + rewrite (Hgone Hrest). split; [done|]. intros Hin.
      by rewrite (holds_finalizer_not_terminated (set_DeletionTimestamp t o) Hin) in Ht.
    + destruct (IH _ eq_refl) as [Hcur Hsome]. split; [|exact Hsome].
      intros cur Hc. destruct (Hcur cur Hc) as (Hk & Hs & Hf' & _). rewrite Hd.
      split; [done|]. split; [done|]. split; [exact Hf'|]. by intros [? ?].
Qed.

(** What users leave is stored, so it is not terminated. *)
Lemma users_not_terminated p q :
  users_act p q -> (forall o, p = Some o -> terminated o = false) -> forall o, q = Some o -> terminated o = false.
Proof.
  induction 1 as [|p1 p2 p3 Hstep _ IH]; [done|]. intros _. apply IH. intros o ->.
  inversion Hstep as [a o' ? ? ? ? Ha Ho|a t ? Ha Ho]; by apply unless_terminated_Some in Ho as [<- ?].
Qed.

(** Users act the same whatever the status is. *)
Lemma users_act_status st p q : users_act p q -> users_act (with_status (fun _ => st) <$> p) (with_status (fun _ => st) <$> q).
Proof.
  assert (Hunless : forall o, with_status (fun _ => st) <$> unless_terminated o = unless_terminated (with_status (fun _ => st) o)).
  { intros o. unfold unless_terminated. change (terminated (with_status (fun _ => st) o)) with (terminated o).
    by destruct (terminated o). }
  apply rtc_congruence. intros p1 p2 Hstep.
  destruct Hstep as [o o' Hk _ Hd Hf|o t Hd]; rewrite Hunless.
  - by apply (user_edit (with_status (fun _ => st) o) (with_status (fun _ => st) o')).
  - by apply (user_delete (with_status (fun _ => st) o)).
Qed.

(** ** What survives *)

Section Concurrent.
Context {it : ItLib} {meta : MetaLib} {metalaws : MetaLaws}.
Context {fin : FinalizerLib} {finlaws : FinalizerLaws} {jsonp : JsonParser}.
Context (r : Reconciler).

Lemma spec_kept (e : Env) o o1 res w w' :
  run e (ReconcileResource r o) w = (Returned (o1, res), w') -> cfapi_spec o1 = cfapi_spec o.
Proof.
  destruct (DeletionTimestamp (cfapi_meta o)) as [t|] eqn:Hd.
  - rewrite (run_finalize e r o t w Hd). unfold finalize.
    destruct (IsZero_InstallationConfig _); [by intros [= <- _ _]|].
    rewrite run_bind, run_try.
    destruct (run e (uninstall r _ _) w) as [[result|x|why] w1]; [|by intros [= <- _ _]|done].
    case_decide; [|by intros [= <- _ _]].
    rewrite run_bind, run_Now. destruct (answer e CNow w1). by intros [= <- _ _].
  - rewrite (run_ReconcileResource e r o w Hd).
    destruct (run e (compileInstallationConfig o) w) as [[config|x|why] w1]; [| |done].
    + destruct (answer e CNow w1) as [now w2].
      destruct (run e (install r config _) w2) as [[result|x|why] w3]; [|by intros [= <- _ _]|done].
      rewrite run_applyInstallResultToStatus. destruct (answer e CNow w3).
      intros [= <- _ _]. unfold applied. by destruct (r_State result).
    + destruct (answer e CNow w1). by intros [= <- _ _].
Qed.

(** An installation changes nothing of the metadata but the operator's finalizer. *)
Lemma finalizers_installed (e : Env) o o1 res w w' :
  DeletionTimestamp (cfapi_meta o) = None ->
  run e (ReconcileResource r o) w = (Returned (o1, res), w') ->
  Finalizers (cfapi_meta o1)
  = if decide (Finalizer ∈ Finalizers (cfapi_meta o)) then Finalizers (cfapi_meta o)
    else Finalizers (cfapi_meta o) ++ [Finalizer].
Proof.
  intros Hd Hrun. rewrite (meta_of_reconciliation e r o o1 res w w' Hd Hrun).
  unfold prepared, add_finalizer. cbn. by rewrite AddFinalizer_spec.
Qed.

(** What both patches leave of an object as users left it. *)
Lemma merged_keeps (e : Env) o o1 res w w' cur :
  run e (ReconcileResource r o) w = (Returned (o1, res), w') -> users_act (Some o) (Some cur) ->
  cfapi_key (merge_main o o1 cur) = cfapi_key cur
  /\ cfapi_spec (merge_main o o1 cur) = cfapi_spec cur
  /\ DeletionTimestamp (cfapi_meta (merge_main o o1 cur)) = DeletionTimestamp (cfapi_meta cur)
  /\ foreign (merge_main o o1 cur)
     = (if decide (Finalizers (cfapi_meta o) = Finalizers (cfapi_meta o1)) then foreign cur else foreign o)
  /\ merge_status (cfapi_status o) (cfapi_status o1) (cfapi_status cur) = cfapi_status o1.
Proof.
  intros Hrun Hact. destruct (users_keep o _ Hact) as [Hcur _].
  destruct (Hcur cur eq_refl) as (Hk & Hs & _). split; [done|]. split.
  { cbn. rewrite (spec_kept e o o1 res w w' Hrun). apply merge_spec_same. }
  split; [done|]. split; [|rewrite Hs; apply merge_status_from].
  unfold foreign at 1. cbn. unfold pick. case_decide as Hd; [done|].
  destruct (DeletionTimestamp (cfapi_meta o)) as [t|] eqn:Ho.
  - by destruct (finalizer_when_deleted e r o t o1 res w w' Ho Hrun) as (<- & _).
  - fold (foreign o1). unfold foreign at 1. rewrite (meta_of_reconciliation e r o o1 res w w' Ho Hrun).
    exact (foreign_add (set_State StateProcessing (set_ObservedGeneration _ o))).
Qed.

(** ** Lives with interleaved reconciliations *)

(** What is stored after the patches that arrive met what users left, up to
    what only the server writes. *)
Definition patched_over (d : delivery) (o o1 : CFAPI) (p : option CFAPI) : option CFAPI :=
  match d with
  | NoPatch => p
  | MainPatchOnly => cur ← p; unless_terminated (merge_main o o1 cur)
  | BothPatches => cur ← p; unless_terminated (merged o o1 cur)
  end.

Definition agrees (p q : option CFAPI) : Prop :=
  match p, q with
  | Some a, Some b => same_main a b /\ cfapi_status a = cfapi_status b
  | None, None => True
  | _, _ => False
  end.

Lemma agrees_refl p : agrees p p.
Proof. by destruct p. Qed.

(** The first patch only arrives where it is not refused. *)
Definition possible (d : delivery) (o o1 : CFAPI) (p : option CFAPI) : Prop :=
  match p with
  | None => d = NoPatch
  | Some cur => forbidden o o1 cur -> d = NoPatch
  end.

(** A reconciliation that users interrupt has read [o] and meets [p] with
    its patches, of which [d] arrives. *)
Inductive concurrent_step (allowed : delivery -> CFAPI -> CFAPI -> option CFAPI -> Prop)
    : lifecycle -> lifecycle -> Prop :=
| step_alone s s' : step r (fun d => d = BothPatches) s s' -> concurrent_step allowed s s'
| step_interleaved (e : Env) (w : world e) o o1 res w' p q d i u si fu :
    run e (ReconcileResource r o) w = (Returned (o1, res), w') -> started r e o w si -> finished r e o w fu ->
    users_act (Some o) p -> possible d o o1 p -> allowed d o o1 p -> agrees q (patched_over d o o1 p) ->
    concurrent_step allowed (Lifecycle (Some o) i u) (Lifecycle q (or_before si i) (or_before fu u)).

Lemma concurrent_step_weaken (P Q : delivery -> CFAPI -> CFAPI -> option CFAPI -> Prop) s s' :
  (forall d o o1 p, P d o o1 p -> Q d o o1 p) -> concurrent_step P s s' -> concurrent_step Q s s'.
Proof.
  intros HPQ [s1 s2 Hstep|e w o o1 res w' p q d i u si fu Hrun Hsi Hfu Hact Hposs Hall Hq]; [by apply step_alone|].
  apply (step_interleaved Q e w o o1 res w' p q d); auto.
Qed.

(** No patch is lost: both arrive, unless the first is refused or takes the
    object away. *)
Definition none_lost (d : delivery) (o o1 : CFAPI) (p : option CFAPI) : Prop :=
  match p with
  | None => True
  | Some cur =>
      d = BothPatches \/ (d = MainPatchOnly /\ terminated (merge_main o o1 cur) = true)
      \/ (d = NoPatch /\ forbidden o o1 cur)
  end.

Context (uninstalls_something : uninstallOrder r <> []).

Lemma merged_delivered (e : Env) o o1 res w w' cur :
  run e (ReconcileResource r o) w = (Returned (o1, res), w') -> users_act (Some o) (Some cur) ->
  Finalizer ∈ Finalizers (cfapi_meta o) ->
  (Finalizer ∈ Finalizers (cfapi_meta (merged o o1 cur)) <-> Finalizer ∈ Finalizers (cfapi_meta o1))
  /\ cfapi_status (merged o o1 cur) = cfapi_status o1
  /\ (is_Some (DeletionTimestamp (cfapi_meta o1)) -> is_Some (DeletionTimestamp (cfapi_meta (merged o o1 cur)))).
Proof.
  intros Hrun Hact Hin. destruct (users_keep o _ Hact) as [Hcur _].
  destruct (Hcur cur eq_refl) as (_ & Hs & Hf & Hd). split; [|split].
  - cbn. unfold pick. case_decide as Heq; [|done]. by rewrite Hf, Heq.
  - cbn. rewrite Hs. apply merge_status_from.
  - cbn. destruct (deletion_kept r e o o1 res w w' Hrun) as [_ ->]. intros Ho. by rewrite Hd.
Qed.

Lemma accounted_merged (e : Env) o o1 res w w' cur i u :
  Finalizer ∈ Finalizers (cfapi_meta o) -> accounted (Lifecycle (Some o) i u) ->
  run e (ReconcileResource r o) w = (Returned (o1, res), w') -> users_act (Some o) (Some cur) ->
  accounted (Lifecycle (unless_terminated (merged o o1 cur)) (or_before (start_of r e o w) i)
    (or_before (finish_of r e o w) u)).
Proof.
  intros Hin Hacc Hrun Hact.
  destruct (merged_delivered e o o1 res w w' cur Hrun Hact Hin) as (Hf & Hs & Hd).
  pose proof (accounted_reconciled r uninstalls_something e o o1 res w w' (unless_terminated o1) i u Hacc Hrun) as Hrec.
  unfold delivered, unless_terminated in Hrec. destruct (terminated o1) eqn:Ht.
  - replace (unless_terminated (merged o o1 cur)) with (None : option CFAPI); [by apply Hrec|].
    unfold unless_terminated, terminated in *. destruct (DeletionTimestamp (cfapi_meta o1)) as [t|] eqn:Hdel; [|done].
    destruct (Finalizers (cfapi_meta o1)) as [|f fs] eqn:Hfs; [|done].
    destruct (Hd ltac:(by eexists)) as [t' Ht']. rewrite Ht'. cbn. unfold pick. rewrite Hfs.
    rewrite decide_False; [done|]. intros Heq. rewrite Heq in Hin. by inversion Hin.
  - apply (accounted_kept o1); [|done|by rewrite Hf|exact Hd]. apply Hrec. by exists o1.
Qed.

(** A patch is only refused while the object is being uninstalled, and then
    it keeps its finalizer and what it records. *)
Lemma accounted_refused (e : Env) o o1 res w w' cur i u :
  Finalizer ∈ Finalizers (cfapi_meta o) -> accounted (Lifecycle (Some o) i u) ->
  run e (ReconcileResource r o) w = (Returned (o1, res), w') -> users_act (Some o) (Some cur) ->
  forbidden o o1 cur ->
  accounted (Lifecycle (Some cur) (or_before (start_of r e o w) i) (or_before (finish_of r e o w) u)).
Proof.
  intros Hin Hacc Hrun Hact [_ Hadds%adds_only_if_changed] config Hi.
  destruct (DeletionTimestamp (cfapi_meta o)) as [t|] eqn:Hd.
  - unfold start_of in Hi. rewrite Hd in Hi. destruct (Hacc config Hi) as (Hc & Hnz & _).
    destruct (users_keep o _ Hact) as [Hcur _]. destruct (Hcur cur eq_refl) as (_ & Hs & Hf & _). cbn.
    rewrite Hs. split; [done|]. split; [done|]. left. by apply Hf.
  - destruct Hadds. by rewrite (finalizers_installed e o o1 res w w' Hd Hrun), decide_True.
Qed.

Lemma accounted_agrees p q i u : agrees q p -> accounted (Lifecycle p i u) -> accounted (Lifecycle q i u).
Proof.
  destruct p as [b|], q as [a|]; [|done..]. intros [(_ & Hf & Hd & _) Hs] Hacc c Hc.
  specialize (Hacc c Hc). cbn in *. by rewrite Hf, Hd, Hs.
Qed.

Lemma accounted_interleaved (e : Env) o o1 res w w' p d i u :
  Finalizer ∈ Finalizers (cfapi_meta o) -> accounted (Lifecycle (Some o) i u) ->
  run e (ReconcileResource r o) w = (Returned (o1, res), w') -> users_act (Some o) p -> none_lost d o o1 p ->
  accounted (Lifecycle (patched_over d o o1 p) (or_before (start_of r e o w) i) (or_before (finish_of r e o w) u)).
Proof.
  intros Hin Hacc Hrun Hact Hlost. destruct (users_keep o p Hact) as [_ Hsome].
  destruct (Hsome Hin) as [cur ->].
  pose proof (accounted_merged e o o1 res w w' cur i u Hin Hacc Hrun Hact) as Hboth.
  destruct Hlost as [-> |[[-> Ht]|[-> Hforb]]]; cbn [patched_over mbind option_bind]; [exact Hboth| |].
  - unfold unless_terminated in *. change (terminated (merged o o1 cur)) with (terminated (merge_main o o1 cur)) in Hboth.
    by rewrite Ht in *.
  - by eapply accounted_refused.
Qed.

(** (C3) Nothing is left behind, even concurrently, as long as no patch is
    lost and the operator does not die in the middle of a reconciliation.
    Users may edit and delete the CFAPI in the middle of its reconciliations,
    too, provided that the one they interrupt has read an object that
    carries the operator's finalizer; the API server may refuse the patch
    that then adds finalizers to an object under deletion.  If the CFAPI
    disappears, then everything was uninstalled with the configuration that
    was installed last. *)
Theorem nothing_left_behind_concurrently s config :
  rtc (concurrent_step (fun d o o1 p => Finalizer ∈ Finalizers (cfapi_meta o) /\ none_lost d o o1 p))
    (Lifecycle None None None) s ->
  resource s = None -> installed_with s = Some config -> uninstalled_with s = Some config.
Proof.
  intros Hreach Hnone Hi. enough (Hacc : accounted s); [specialize (Hacc config Hi); by rewrite Hnone in Hacc|].
  clear Hnone Hi. revert s Hreach. apply rtc_ind_r; [by intros c|].
  intros s1 s2 _ Hstep Hacc. destruct Hstep as [s1 s2 Hstep|
    e w o o1 res w' p q d i u si fu Hrun Hsi Hfu Hact _ [Hin Hlost] Hq].
  - by eapply accounted_step.
  - apply started_is in Hsi as ->. apply finished_is in Hfu as ->.
    eapply accounted_agrees; [exact Hq|]. by eapply accounted_interleaved.
Qed.
End Concurrent.

