(* ===== verification/Merging.v ===== *)
(** * The patching reconciler on a server that merges

    What the API server holds after a run of the patching reconciler during
    which users acted: the steps of Concurrent.v.  The last part lets users
    act at a chosen call of a run and shows what a deletion during the first
    installation leads to. *)

From S2P Require Export Concurrent.

#[local] Open Scope Z_scope.
#[local] Open Scope list_scope.

(** ** The patching reconciler on a server that merges *)

(** What the API server does with a patch that it accepts, and that a patch
    it does not accept changes nothing.  Unlike the laws of [ApiServer] these
    speak of an object that others may have changed since it was read, which
    the patches meet as [cur], and that users may change again as soon as a
    patch is answered. *)
Class MergingServer (e : Env) := {
  held : world e -> ObjectKey -> option CFAPI;
  merge_patched w obj from a w' :
    cfapi_key obj = cfapi_key from -> answer e (CPatch KCFAPI obj from) w = (a, w') ->
    match a, held w (cfapi_key from) with
    | Ok o, Some cur =>
        ~ forbidden from obj cur /\ same_main o (merge_main from obj cur) /\ cfapi_status o = cfapi_status cur
        /\ users_act (unless_terminated o) (held w' (cfapi_key from))
    | Ok _, None => False
    | Fail _, p => users_act p (held w' (cfapi_key from))
    end;
  merge_status_patched w obj from a w' :
    cfapi_key obj = cfapi_key from -> answer e (CStatusPatch KCFAPI obj from) w = (a, w') ->
    match a, held w (cfapi_key from) with
    | Ok o, Some cur =>
        same_main o cur
        /\ cfapi_status o = merge_status (cfapi_status from) (cfapi_status obj) (cfapi_status cur)
        /\ users_act (Some o) (held w' (cfapi_key from))
    | Ok _, None => False
    | Fail _, p => users_act p (held w' (cfapi_key from))
    end
}.

(** Fields that only the server writes change like an edit. *)
Lemma agrees_edit p q :
  agrees q p -> (forall o, p = Some o -> terminated o = false) -> users_act p q.
Proof.
  destruct p as [a|], q as [b|]; [|done..]. intros [Hmain Hs] Hp. specialize (Hp a eq_refl).
  apply rtc_once. replace (Some b) with (unless_terminated b)
    by (unfold unless_terminated; by rewrite (same_main_terminated _ _ Hmain), Hp).
  destruct Hmain as (Hk & Hf & Hd & _). constructor; [done..|by rewrite Hf].
Qed.

Section Interleaving.
Context {it : ItLib} {meta : MetaLib} {metalaws : MetaLaws}.
Context {fin : FinalizerLib} {finlaws : FinalizerLaws} {jsonp : JsonParser}.
Context {conv : ConverterLib} {convlaws : ConverterLaws KCFAPI}.
Context (r : Reconciler) (e : Env) {server : MergingServer e}.

(** The patches that arrive, one after the other: what users do between them
    and after them might as well have happened after them. *)
Lemma patches_merge (o o1 : object KCFAPI) w1 :
  cfapi_key o1 = cfapi_key o ->
  let w3 := match answer e (CPatch KCFAPI o1 o) w1 with
            | (Ok _, w2) => (answer e (CStatusPatch KCFAPI o1 o) w2).2
            | (Fail _, w2) => w2
            end in
  possible (arrived e o o1 w1) o o1 (held w1 (cfapi_key o))
  /\ exists p, agrees p (patched_over (arrived e o o1 w1) o o1 (held w1 (cfapi_key o)))
       /\ (arrived e o o1 w1 = NoPatch -> p = held w1 (cfapi_key o))
       /\ users_act p (held w3 (cfapi_key o)).
Proof.
  intros Hkey. cbn zeta. unfold arrived, possible.
  destruct (answer e (CPatch KCFAPI o1 o) w1) as [[o2|err] w2] eqn:Hp;
    pose proof (merge_patched w1 o1 o _ w2 Hkey Hp) as Hm; cbv beta iota in Hm.
  2:{ split; [by destruct (held w1 _)|]. exists (held w1 (cfapi_key o)). split; [apply agrees_refl|]. split; [done|exact Hm]. }
  destruct (held w1 (cfapi_key o)) as [cur|]; [|done]. destruct Hm as (Hok & Hmain & Hst & Hact2).
  split; [by intros ?|].
  assert (Hterm : terminated o2 = terminated (merge_main o o1 cur)) by exact (same_main_terminated _ _ Hmain).
  destruct (answer e (CStatusPatch KCFAPI o1 o) w2) as [[o3|err] w3] eqn:Hs;
    pose proof (merge_status_patched w2 o1 o _ w3 Hkey Hs) as Hm; cbv beta iota in Hm;
    cbn [fst snd patched_over mbind option_bind].
  2:{ exists (unless_terminated o2). split; [|split; [done|by etransitivity]]. unfold unless_terminated. rewrite <- Hterm.
      by destruct (terminated o2). }
  destruct (held w2 (cfapi_key o)) as [c2|] eqn:Hh2; [|done]. destruct Hm as (Hmain3 & Hst3 & Hact3).
  unfold unless_terminated in Hact2. destruct (terminated o2) eqn:Ht2; [by apply users_act_None in Hact2|].
  set (st := merge_status (cfapi_status o) (cfapi_status o1) (cfapi_status cur)).
  exists (Some (with_status (fun _ => st) o2)). split.
  { unfold unless_terminated. change (terminated (merged o o1 cur)) with (terminated (merge_main o o1 cur)).
    rewrite <- Hterm. by split. }
  split; [done|]. pose proof (users_act_status st _ _ Hact2) as Hlift.
  destruct (users_keep o2 _ Hact2) as [Hkeep _]. destruct (Hkeep c2 eq_refl) as (_ & Hs2 & _).
  etransitivity; [exact Hlift|]. etransitivity; [|exact Hact3]. apply agrees_edit.
  - split; [exact Hmain3|]. by rewrite Hst3, Hs2, Hst.
  - intros a [= <-]. refine (users_not_terminated _ _ Hact2 _ c2 eq_refl). by intros b [= <-].
Qed.

Lemma users_are_steps allowed p q i u :
  users_act p q -> rtc (concurrent_step r allowed) (Lifecycle p i u) (Lifecycle q i u).
Proof.
  intros H. apply (rtc_congruence (fun x => Lifecycle x i u)) with (2 := H).
  intros p1 p2 [o o' Hk Hs Hd Hf|o t Hd]; apply step_alone; by constructor.
Qed.

Context (key : ObjectKey) (w w0 : world e) (o o1 : object KCFAPI) (res : CtrlResult * option error) (w1 : world e).
Context (Hget : answer e (CGet KCFAPI key) w = (Ok o, w0)) (Ho : cfapi_key o = key).
Context (Hrun : run e (ReconcileResource r o) w0 = (Returned (o1, res), w1)).

(** What the server holds after a run of the patching reconciler. *)
Lemma run_merges :
  possible (arrived e o o1 w1) o o1 (held w1 key)
  /\ exists p, agrees p (patched_over (arrived e o o1 w1) o o1 (held w1 key))
       /\ (arrived e o o1 w1 = NoPatch -> p = held w1 key)
       /\ users_act p (held (run e (NewReconciler r key) w).2 key).
Proof.
  destruct (deletion_kept r e o o1 res w0 w1 Hrun) as [Hkey _].
  destruct (patches_merge o o1 w1 Hkey) as (Hposs & p & Hp & Hno & Husers). rewrite Ho in *.
  split; [exact Hposs|]. exists p. split; [exact Hp|]. split; [exact Hno|]. unfold NewReconciler.
  rewrite (run_Reconcile_from e (ReconcileResource r) _ _ _ _ _ _ _ Hget Hrun).
  destruct (answer e (CPatch KCFAPI o1 o) w1) as [[o2|err] w2];
    [destruct (answer e (CStatusPatch KCFAPI o1 o) w2) as [[o3|err] w3]|]; exact Husers.
Qed.

(** (C15) Running the patching reconciler while users act takes the
    concurrent life where its steps can take it.  Whatever users make of the
    CFAPI between the moment it is read and the moment it is patched, between
    the two patches and after them, a server that merges the patches it
    accepts into what it finds holds afterwards what one interleaved
    reconciliation leaves, in which exactly these patches arrive, followed by
    what users do then. *)
Theorem interleaved_is_step i u :
  users_act (Some o) (held w1 key) ->
  let allowed d (_ _ : CFAPI) (p : option CFAPI) := d = arrived e o o1 w1 /\ p = held w1 key in
  exists p,
    concurrent_step r allowed (Lifecycle (Some o) i u)
      (Lifecycle p (or_before (start_of r e o w0) i) (or_before (finish_of r e o w0) u))
    /\ users_act p (held (run e (NewReconciler r key) w).2 key).
Proof.
  intros Hact. cbn zeta. destruct run_merges as (Hposs & p & Hp & _ & Husers). exists p. split; [|exact Husers].
  by apply (step_interleaved r _ e w0 o o1 res w1 (held w1 key) p (arrived e o o1 w1) i u _ _ Hrun
    (start_of_spec r e o w0) (finish_of_spec r e o w0)).
Qed.

End Interleaving.

(** ** Users who act at a certain call *)

Section Interrupted.
Context (e : Env) (act : world e -> world e).

(** Someone acts right after the [n]-th call; the world remembers how many
    calls are left until then. *)
Definition interrupted_answer (c : call) (w : nat * world e) : reply c * (nat * world e) :=
  let '(r, w') := answer e c w.2 in
  (r, match w.1 with
      | 0%nat => (0%nat, w')
      | 1%nat => (0%nat, act w')
      | S n => (n, w')
      end).

Definition interrupted : Env := Environment (S:=ext) (nat * world e) interrupted_answer.
End Interrupted.

(** Nothing but patches changes the stored CFAPIs, and one that is not stored
    is not found. *)
Class StoresByPatches (e : Env) `{!MergingServer e} : Prop := {
  held_kept c w key :
    match c with CPatch KCFAPI _ _ | CStatusPatch KCFAPI _ _ => False | _ => True end ->
    held (answer e c w).2 key = held w key;
  get_missing w key :
    held w key = None -> exists err, (answer e (CGet KCFAPI key) w).1 = Fail err /\ IsNotFound err = true
}.

Section Leak.
Context {it : ItLib} {meta : MetaLib} {metalaws : MetaLaws}.
Context {fin : FinalizerLib} {finlaws : FinalizerLaws} {jsonp : JsonParser}.
Context {conv : ConverterLib} {convlaws : ConverterLaws KCFAPI}.
Context (r : Reconciler) (e : Env) {server : MergingServer e} {stores : StoresByPatches e}.

Definition patches_no_cfapi (c : call) : Prop :=
  match c with CPatch KCFAPI _ _ | CStatusPatch KCFAPI _ _ => False | _ => True end.

Context (installs_no_cfapi : forall i config recorder, i ∈ installOrder r ->
  only_calls (S:=ext) patches_no_cfapi (Install i config recorder)).

(** The reconciliation of an object that is not under deletion patches no
    CFAPI, as long as its installables do not. *)
Lemma reconciliation_patches_no_cfapi (o : CFAPI) :
  DeletionTimestamp (cfapi_meta o) = None -> only_calls (S:=ext) patches_no_cfapi (ReconcileResource r o).
Proof.
  intros Hd. unfold ReconcileResource. rewrite decide_False by (cbn; rewrite Hd; by intros [? ?]).
  assert (Hnow : forall A (k : Z -> M A), (forall now, only_calls (S:=ext) patches_no_cfapi (k now)) ->
    only_calls (S:=ext) patches_no_cfapi (now ← Now; k now)) by (intros A k Hk; by split).
  apply only_calls_bind.
  { eapply only_calls_try, only_calls_impl; [|apply only_calls_compileInstallationConfig]. by intros []. }
  intros [config|err]; apply Hnow; intros now; [|done]. apply only_calls_bind.
  - apply only_calls_try. unfold install. apply only_calls_bind; [|intros; apply only_calls_index].
    generalize (@nil Result) as acc. revert installs_no_cfapi. induction (installOrder r) as [|i order IH];
      intros Hi acc; [exact I|]. cbn [install_loop]. apply only_calls_bind; [apply Hi; by left|].
    intros result. apply IH. intros i' config' rec' Hin. apply Hi. by right.
  - intros [result|err]; [|exact I]. unfold applyInstallResultToStatus. by destruct (r_State result); apply Hnow.
Qed.

(** Someone deletes the CFAPI [key]. *)
Context (act : world e -> world e) (key : ObjectKey) (deleted : Z).
Context (deletes : forall w o, held w key = Some o -> DeletionTimestamp (cfapi_meta o) = None ->
  held (act w) key = unless_terminated (set_DeletionTimestamp deleted o)).

(** Once someone has acted, no one does again, and while the CFAPI is not
    patched it stays as it is. *)
Lemma held_after_interruption {A} (p : M A) w :
  only_calls (S:=ext) patches_no_cfapi p ->
  let '(n', w') := (run (interrupted e act) p (0%nat, w)).2 in n' = 0%nat /\ held w' key = held w key.
Proof.
  revert w. induction p as [a|x|x|c k IH]; intros w; [done..|]. intros [Hc Hk].
  cbn [run interrupted answer]. unfold interrupted_answer. cbn [fst snd].
  pose proof (held_kept c w key Hc) as Hkept. destruct (answer e c w) as [a w1]. cbn in Hkept.
  specialize (IH a w1 (Hk a)). destruct (run _ _ _).2 as [n' w']. by rewrite <- Hkept.
Qed.

(** While it is not patched, the CFAPI is as it was until it is deleted. *)
Lemma held_until_interrupted {A} (p : M A) n w o :
  only_calls (S:=ext) patches_no_cfapi p -> held w key = Some o -> DeletionTimestamp (cfapi_meta o) = None ->
  let '(n', w') := (run (interrupted e act) p (S n, w)).2 in
  held w' key = match n' with 0%nat => unless_terminated (set_DeletionTimestamp deleted o) | _ => Some o end.
Proof.
  intros Hp Hw Hd. revert n w Hp Hw. induction p as [a|x|x|c k IH]; intros n w; [done..|]. intros [Hc Hk] Hw.
  cbn [run interrupted answer]. unfold interrupted_answer. cbn [fst snd].
  pose proof (held_kept c w key Hc) as Hkept. destruct (answer e c w) as [a w1]. cbn in Hkept. rewrite Hw in Hkept.
  destruct n as [|n]; [|by apply IH].
  pose proof (held_after_interruption (k a) (act w1) (Hk a)) as Hafter.
  destruct (run _ _ _).2 as [n' w']. destruct Hafter as [-> ->]. by apply deletes.
Qed.

(** (C17) A CFAPI that is deleted while it is first installed leaks.  The
    finalizer is only stored after the installation, whose calls patch no
    CFAPI.  So whoever deletes a new CFAPI at any call of its first
    reconciliation makes it disappear at once, since nothing holds it; the
    patches come too late.  Whatever was installed by then, or still is,
    stays: the CFAPI's life has ended without an uninstallation, and a later
    reconciliation finds no CFAPI and changes nothing. *)
Theorem deleted_while_installing_leaks n w (o o1 : object KCFAPI) res w1 config :
  held w key = Some o -> answer e (CGet KCFAPI key) w = (Ok o, w) -> cfapi_key o = key ->
  DeletionTimestamp (cfapi_meta o) = None -> Finalizers (cfapi_meta o) = [] -> cfapi_status o = new_status ->
  run (interrupted e act) (ReconcileResource r o) (S n, w) = (Returned (o1, res), (0%nat, w1)) ->
  starts_install r (interrupted e act) o (S n, w) config ->
  let w' := (run (interrupted e act) (NewReconciler r key) (S (S n), w)).2.2 in
  held w' key = None
  /\ rtc (concurrent_step r (fun _ _ _ _ => True)) (Lifecycle None None None) (Lifecycle (held w' key) (Some config) None)
  /\ (exists v, run e (NewReconciler r key) w' = (Returned (zero_CtrlResult, None), v))
  /\ mutations e (NewReconciler r key) w' = [].
Proof.
  intros Hw Hget Hkey Hd Hf Hnew Hrun Hstart%start_of_spec. cbn zeta.
  set (env := interrupted e act) in *.
  assert (Hgone : unless_terminated (set_DeletionTimestamp deleted o) = None).
  { unfold unless_terminated, terminated. cbn. by rewrite Hf. }
  pose proof (held_until_interrupted (ReconcileResource r o) n w o (reconciliation_patches_no_cfapi o Hd) Hw Hd) as Hheld.
  fold env in Hheld. rewrite Hrun in Hheld. cbn in Hheld. rewrite Hgone in Hheld.
  assert (Hget' : answer env (CGet KCFAPI key) (S (S n), w) = (Ok o, (S n, w))).
  { cbn. unfold interrupted_answer. cbn [snd]. by rewrite Hget. }
  assert (Hkey1 : cfapi_key o1 = cfapi_key o) by by apply (deletion_kept r env o o1 res _ _ Hrun).
  set (w' := (run env (NewReconciler r key) (S (S n), w)).2.2).
  assert (Hw' : held w' key = None).
  { subst w'. unfold NewReconciler. rewrite (run_Reconcile_from env (ReconcileResource r) _ _ _ _ _ _ _ Hget' Hrun).
    cbn [answer env interrupted]. unfold interrupted_answer. cbn [snd fst].
    destruct (answer e (CPatch KCFAPI o1 o) w1) as [a w2] eqn:Hp.
    pose proof (merge_patched w1 o1 o a w2 Hkey1 Hp) as Hm. rewrite Hkey, Hheld in Hm.
    destruct a as [o2|x]; [done|]. by apply users_act_None in Hm. }
  rewrite Hw'. split; [done|]. split; [|split].
  - assert (Hact : users_act (Some o) None).
    { apply rtc_once. rewrite <- Hgone. by constructor. }
    apply rtc_l with (Lifecycle (Some o) None None); [by apply step_alone, step_create|]. apply rtc_once.
    pose proof (step_interleaved r (fun _ _ _ _ => True) env (S n, w) o o1 res (0%nat, w1) None None NoPatch
      None None _ _ Hrun (start_of_spec r env o (S n, w)) (finish_of_spec r env o (S n, w)) Hact eq_refl I I) as Hstep.
    rewrite Hstart in Hstep. unfold finish_of in Hstep. rewrite Hnew in Hstep. exact Hstep.
  - destruct (get_missing w' key Hw') as (err & Ha & Hn). unfold NewReconciler, PatchingReconciler.Reconcile.
    rewrite run_bind, run_try, run_Get. destruct (answer e (CGet KCFAPI key) w') as [a v]. cbn in Ha. subst a.
    cbn. rewrite Hn. by eexists.
  - destruct (get_missing w' key Hw') as (err & Ha & Hn). unfold NewReconciler, PatchingReconciler.Reconcile.
    rewrite mutations_bind, mutations_try, run_try, run_Get. unfold mutations. cbn.
    destruct (answer e (CGet KCFAPI key) w') as [a v]. cbn in *. subst a. cbn. rewrite Hn. done.
Qed.
End Leak.

(** ** A server that merges *)

Module MergingObject.
Section MergingObject.
Context (f : forall c : call, reply c).

Definition merging (k : kind) (w : option CFAPI) (refused : CFAPI -> CFAPI -> CFAPI -> bool)
    (merge : CFAPI -> CFAPI -> CFAPI -> CFAPI) (next : CFAPI -> option CFAPI)
    (default : forall obj from : object k, result error (object k)) :
    forall obj from : object k, result error (object k) * option CFAPI :=
  match k return (forall obj from : object k, result error (object k)) ->
                 forall obj from : object k, result error (object k) * option CFAPI with
  | KCFAPI => fun _ obj from =>
      match SingleObject.lookup_object w (cfapi_key from) with
      | Some cur =>
          if refused from obj cur then (Fail (ErrAPI false "forbidden"), w)
          else (Ok (merge from obj cur), next (merge from obj cur))
      | None => (Fail SingleObject.not_found, w)
      end
  | _ => fun default obj from => (default obj from, w)
  end default.

Definition merge_status_main (from obj cur : CFAPI) : CFAPI :=
  {| cfapi_meta := cfapi_meta cur; cfapi_spec := cfapi_spec cur;
     cfapi_status := merge_status (cfapi_status from) (cfapi_status obj) (cfapi_status cur) |}.

(** The rest is as in PatchSpec.v. *)
Definition merging_answer (c : call) (w : option CFAPI) : reply c * option CFAPI :=
  match c return reply c * option CFAPI with
  | CPatch k obj from =>
      merging k w (fun from obj cur => bool_decide (forbidden from obj cur)) merge_main unless_terminated
        (fun o p => f (CPatch k o p)) obj from
  | CStatusPatch k obj from =>
      merging k w (fun _ _ _ => false) merge_status_main Some (fun o p => f (CStatusPatch k o p)) obj from
  | c => SingleObject.server_answer f c w
  end.

Definition server : Env := Environment (S:=ext) (option CFAPI) merging_answer.

Lemma lookup_unless_terminated o key :
  cfapi_key o = key -> SingleObject.lookup_object (unless_terminated o) key = unless_terminated o.
Proof. unfold unless_terminated. intros <-. destruct (terminated o); [done|]. apply SingleObject.lookup_object_self. Qed.

#[export] Instance merging_server : MergingServer server.
Proof.
  refine {| held := fun w : world server => SingleObject.lookup_object w |};
    intros w obj from a w' _; cbn [answer server merging_answer merging];
    destruct (SingleObject.lookup_object w (cfapi_key from)) as [cur|] eqn:Hh.
  - apply SingleObject.lookup_object_Some in Hh as [-> Hk]. case_bool_decide as Hf; intros [= <- <-].
    + by rewrite <- Hk, SingleObject.lookup_object_self.
    + split; [exact Hf|]. split; [done|]. split; [done|]. by rewrite lookup_unless_terminated.
  - intros [= <- <-]. by rewrite Hh.
  - apply SingleObject.lookup_object_Some in Hh as [-> Hk]. intros [= <- <-]. split; [done|]. split; [done|].
    rewrite <- Hk. pose proof (SingleObject.lookup_object_self (merge_status_main from obj cur)) as Hself.
    change (cfapi_key (merge_status_main from obj cur)) with (cfapi_key cur) in Hself. by rewrite Hself.
  - intros [= <- <-]. by rewrite Hh.
Defined.

#[export] Instance merging_stores : StoresByPatches server.
Proof.
  split.
  - intros c w at_key Hc. destruct c; try done; by destruct k.
  - intros w key Hw. cbn in *. rewrite Hw. by eexists.
Qed.
End MergingObject.
End MergingObject.

(** The server with users who act at some call. *)
#[export] Instance interrupted_server (e : Env) `{!MergingServer e} (act : world e -> world e)
    (acts : forall w key, users_act (held w key) (held (act w) key)) : MergingServer (interrupted e act).
Proof.
  assert (Hlater : forall n (w : world e) key p, users_act p (held w key) ->
    users_act p (held (match n with 0%nat => (0%nat, w) | 1%nat => (0%nat, act w) | S n => (n, w) end : nat * world e).2 key)).
  { intros [|[|n]] w key p H; cbn; [done| |done]. by etransitivity. }
  refine {| held := fun w : world (interrupted e act) => held w.2 |};
    intros [n w] obj from a w' Hkey; cbn [answer interrupted]; unfold interrupted_answer; cbn [fst snd].
  - destruct (answer e (CPatch KCFAPI obj from) w) as [a' w1] eqn:Ha. intros [= -> <-].
    pose proof (merge_patched w obj from a w1 Hkey Ha) as Hm.
    destruct a as [o|x], (held w (cfapi_key from)) as [cur|]; try done; [|by apply Hlater..].
    destruct Hm as (H1 & H2 & H3 & H4). split_and!; [done..|]. by apply Hlater.
  - destruct (answer e (CStatusPatch KCFAPI obj from) w) as [a' w1] eqn:Ha. intros [= -> <-].
    pose proof (merge_status_patched w obj from a w1 Hkey Ha) as Hm.
    destruct a as [o|x], (held w (cfapi_key from)) as [cur|]; try done; [|by apply Hlater..].
    destruct Hm as (H1 & H2 & H3). split_and!; [done..|]. by apply Hlater.
Defined.

(** ** Witnesses *)

#[local] Existing Instances Reference.it Reference.it_laws Reference.meta Reference.meta_laws
  Reference.finalizers Reference.finalizers_laws SingleObject.converter SingleObject.converter_laws
  ControllerExamples.sample_parser MergingObject.merging_server MergingObject.merging_stores.

(** Someone deletes the CFAPI. *)
Definition deleting (w : option CFAPI) : option CFAPI :=
  o ← w; match DeletionTimestamp (cfapi_meta o) with
         | None => unless_terminated (set_DeletionTimestamp 9 o)
         | Some _ => w
         end.

Abbreviation merging_kyma := (MergingObject.server (cluster (Ok sample_gateway))).
Abbreviation hasty := (interrupted merging_kyma deleting).

Lemma held_deleting (w : option CFAPI) key o :
  SingleObject.lookup_object w key = Some o -> DeletionTimestamp (cfapi_meta o) = None ->
  SingleObject.lookup_object (deleting w) key = unless_terminated (set_DeletionTimestamp 9 o).
Proof.
  intros [-> Hk]%SingleObject.lookup_object_Some Hd. cbn. rewrite Hd.
  by rewrite MergingObject.lookup_unless_terminated.
Qed.

Lemma deleting_acts (w : world merging_kyma) key : users_act (held w key) (held (e:=merging_kyma) (deleting w) key).
Proof.
  change (users_act (SingleObject.lookup_object w key) (SingleObject.lookup_object (deleting w) key)).
  destruct (SingleObject.lookup_object w key) as [o|] eqn:Hw.
  - destruct (DeletionTimestamp (cfapi_meta o)) as [t|] eqn:Hd.
    + pose proof Hw as [-> _]%SingleObject.lookup_object_Some. cbn [deleting mbind option_bind]. rewrite Hd.
      by rewrite Hw.
    + rewrite (held_deleting w key o Hw Hd). apply rtc_once. by constructor.
  - replace (SingleObject.lookup_object (deleting w) key) with (None : option CFAPI); [done|].
    destruct w as [o|]; [|done]. cbn in *. destruct (decide (cfapi_key o = key)) as [|Hk]; [done|].
    destruct (DeletionTimestamp (cfapi_meta o)); cbn; [by rewrite decide_False|].
    unfold unless_terminated. destruct (terminated _); [done|]. cbn. by rewrite decide_False.
Qed.

Lemma held_deleting_kyma (w : world merging_kyma) o :
  held w sample_key = Some o -> DeletionTimestamp (cfapi_meta o) = None ->
  held (e:=merging_kyma) (deleting w) sample_key = unless_terminated (set_DeletionTimestamp 9 o).
Proof. apply held_deleting. Qed.

#[local] Instance hasty_server : MergingServer hasty := interrupted_server merging_kyma deleting deleting_acts.

Example run_hasty : run hasty (ReconcileResource good ready_cfapi) (2%nat, Some ready_cfapi)
  = (Returned (ready_cfapi, (zero_CtrlResult, None)), (0%nat, Some leaving_cfapi)).
Proof. vm_compute. reflexivity. Qed.

Lemma deleted_meanwhile : users_act (Some ready_cfapi) (Some leaving_cfapi).
Proof. apply rtc_once. exact (user_delete ready_cfapi 9 eq_refl). Qed.

Lemma held_hasty : held (e:=hasty) (0%nat, Some leaving_cfapi) sample_key = Some leaving_cfapi.
Proof. vm_compute. reflexivity. Qed.


Lemma interleaved_is_step_witness :
  exists p, users_act p (held (run hasty (NewReconciler good sample_key) (3%nat, Some ready_cfapi)).2 sample_key)
    /\ concurrent_step good (fun _ _ _ _ => True) (Lifecycle (Some ready_cfapi) (Some installed_config) None)
         (Lifecycle p (Some installed_config) None).
Proof.
  destruct (interleaved_is_step good hasty sample_key (3%nat, Some ready_cfapi) (2%nat, Some ready_cfapi)
    ready_cfapi ready_cfapi _ (0%nat, Some leaving_cfapi) eq_refl eq_refl run_hasty (Some installed_config) None)
    as (p & Hstep & Hp).
  { rewrite held_hasty. exact deleted_meanwhile. }
  exists p. split; [exact Hp|].
  replace (or_before (start_of good hasty ready_cfapi (2%nat, Some ready_cfapi)) (Some installed_config))
    with (Some installed_config) in Hstep by (vm_compute; reflexivity).
  replace (or_before (finish_of good hasty ready_cfapi (2%nat, Some ready_cfapi)) None)
    with (None : option InstallationConfig) in Hstep by (vm_compute; reflexivity).
  by refine (concurrent_step_weaken good _ _ _ _ _ Hstep).
Defined.

Lemma hasty_step :
  concurrent_step good (fun d o o1 p => Finalizer ∈ Finalizers (cfapi_meta o) /\ none_lost d o o1 p)
    (Lifecycle (Some ready_cfapi) (Some installed_config) None)
    (Lifecycle (Some leaving_cfapi) (Some installed_config) None).
Proof.
  refine (step_interleaved good _ hasty (2%nat, Some ready_cfapi) ready_cfapi ready_cfapi _ _ (Some leaving_cfapi)
    (Some leaving_cfapi) BothPatches (Some installed_config) None (Some installed_config) None run_hasty _ _
    deleted_meanwhile _ _ _).
  - replace (Some installed_config) with (start_of good hasty ready_cfapi (2%nat, Some ready_cfapi))
      by (vm_compute; reflexivity). apply start_of_spec.
  - replace (None : option InstallationConfig) with (finish_of good hasty ready_cfapi (2%nat, Some ready_cfapi))
      by (vm_compute; reflexivity). apply finish_of_spec.
  - intros [_ Hadds]. by apply adds_only_if_changed in Hadds.
  - split; [|by left].
    apply (bool_decide_eq_true_1 (Finalizer ∈ Finalizers (cfapi_meta ready_cfapi))). vm_compute. reflexivity.
  - replace (patched_over BothPatches ready_cfapi ready_cfapi (Some leaving_cfapi)) with (Some leaving_cfapi)
      by (vm_compute; reflexivity). apply agrees_refl.
Qed.

Lemma nothing_left_behind_concurrently_witness :
  uninstalled_with (Lifecycle None (Some installed_config) (Some installed_config)) = Some installed_config.
Proof.
  refine (nothing_left_behind_concurrently good ltac:(discriminate)
    (Lifecycle None (Some installed_config) (Some installed_config)) installed_config _ eq_refl eq_refl).
  transitivity (Lifecycle (Some ready_cfapi) (Some installed_config) None);
    [|apply rtc_l with (1 := hasty_step)].
  - refine (rtc_subrel _ _ _ _ _ ready_life). by constructor.
  - apply rtc_once, step_alone.
    refine (reconcile_to kyma _ _ _ _ _ None (Some installed_config) None None (Some installed_config)
      run_leaving _ _ _); vm_compute; reflexivity.
Defined.

(** A new CFAPI, deleted at the second call of its first reconciliation. *)
Example run_deleted :
  exists w1, run hasty (ReconcileResource good new_cfapi) (1%nat, Some new_cfapi)
    = (Returned (ready_cfapi, (zero_CtrlResult, None)), (0%nat, w1)).
Proof. eexists. vm_compute. reflexivity. Qed.

Lemma deleted_while_installing_leaks_witness :
  held (e:=merging_kyma) (run hasty (NewReconciler good sample_key) (2%nat, Some new_cfapi)).2.2 sample_key = None.
Proof.
  destruct run_deleted as [w1 Hrun].
  refine (proj1 (deleted_while_installing_leaks good merging_kyma _ deleting sample_key 9 held_deleting_kyma 0
    (Some new_cfapi) new_cfapi ready_cfapi _ w1 installed_config _ eq_refl eq_refl eq_refl eq_refl eq_refl Hrun _)).
  - intros i config rec Hin. cbn in Hin. unfold all_good in Hin. repeat (apply elem_of_cons in Hin as [-> |Hin]; [exact I|]).
    by apply not_elem_of_nil in Hin.
  - vm_compute. reflexivity.
  - apply start_of_spec. vm_compute. reflexivity.
Defined.
