(* ===== verification/Main.v ===== *)
(** * The operator

    Models the wiring of src/main.go: the installables, the order in which
    they are installed and uninstalled, the interval of the reconciler and the
    defaults of the command line flags, and main with its exit code.  The
    manager that runs the reconciler (caches, leader election, probes) is
    controller-runtime's, and the flags are parsed by the standard library;
    both answer as steps of the process. *)

From S2P Require Export Process ControllerSpec.

#[local] Open Scope Z_scope.
#[local] Open Scope list_scope.

Definition ContourEnabled : Predicate := fun config =>
  bool_decide (cfg_GatewayType config = GatewayTypeContour).

(** [type FlagVar struct] and the values it has when no flag is given. *)
Record FlagVar := { metricsAddr : string; enableLeaderElection : bool; probeAddr : string }.

Definition defineFlagVar : FlagVar :=
  {| metricsAddr := ":8080"; enableLeaderElection := false; probeAddr := ":8081" |}.

Section Operator.
Context {it : ItLib} {yaml : YamlLib} {unstr : UnstructuredLib} {uni : Unicode} {helm : HelmLib}.

Definition helmClient : HelmClient := NewClient.
Definition systemNs : Installable :=
  Yaml.NewYaml "./module-data/namespaces/system.yaml" "System Namespaces".
Definition cfRootNs : Installable :=
  Yaml.NewYaml "./module-data/namespaces/cfroot.yaml" "Root Namespace".
Definition certIssuers : Installable :=
  Yaml.NewYaml "./module-data/issuers/issuers.yaml" "CertIssuers".
Definition gwAPI : Installable :=
  Yaml.NewYaml "./module-data/vendor/gateway-api/experimental-install.yaml" "Gateway API".
Definition contour : Installable :=
  Conditional.NewConditional ContourEnabled
    (HelmChart.NewHelmChart "./module-data/vendor/contour-chart" "cfapi-system" "contour"
       ContourValues helmClient).
Definition kpack : Installable :=
  Yaml.NewYaml "./module-data/vendor/kpack/release-*.yaml" "kpack".
Definition korifiPrerequisites : Installable :=
  HelmChart.NewHelmChart "./module-data/korifi-prerequisites-chart" "korifi" "korifi-prerequisites"
    Prerequisites.NewPrerequisites helmClient.
Definition korifi : Installable :=
  HelmChart.NewHelmChart "./module-data/vendor/korifi-chart" "korifi" "korifi"
    (Korifi.NewKorifi "korifi") helmClient.
Definition cfAPIConfig : Installable :=
  HelmChart.NewHelmChart "./module-data/cfapi-config-chart" "korifi" "cfapi-config"
    CFAPIConfig.NewCFAPIConfig helmClient.
Definition btpServiceBroker : Installable :=
  HelmChart.NewHelmChart "./module-data/btp-service-broker/helm" "cfapi-system" "btp-service-broker"
    (Override ∅) helmClient.

Definition main_installOrder : list Installable :=
  [systemNs; cfRootNs; certIssuers; gwAPI; contour; kpack;
   korifiPrerequisites; korifi; cfAPIConfig; btpServiceBroker].

Definition main_uninstallOrder : list Installable :=
  [Orgs.NewOrgs; cfRootNs; btpServiceBroker; cfAPIConfig; korifi; korifiPrerequisites;
   kpack; contour; gwAPI; certIssuers; systemNs].

(** The reconciler that main hands to the manager. *)
Definition operator : Reconciler :=
  {| requeueInterval := 10 * Second;
     installOrder := main_installOrder; uninstallOrder := main_uninstallOrder |}.

(** Everything that is installed is also uninstalled, exactly once, and
    in the reverse order, with two exceptions: the orgs are deleted before
    anything else, and the root namespace follows them at once instead of
    second to last. *)
Theorem uninstall_mirrors_install :
  uninstallOrder operator ≡ₚ Orgs.NewOrgs :: installOrder operator
  /\ exists rest, installOrder operator = systemNs :: cfRootNs :: rest
       /\ uninstallOrder operator = Orgs.NewOrgs :: cfRootNs :: rev (systemNs :: rest).
Proof.
  split.
  - change (uninstallOrder operator)
      with (Orgs.NewOrgs :: cfRootNs :: rev (systemNs :: drop 2 main_installOrder)).
    change (installOrder operator) with (systemNs :: cfRootNs :: drop 2 main_installOrder).
    rewrite <- Permutation_rev, (Permutation_swap cfRootNs systemNs). done.
  - by eexists.
Qed.
End Operator.

(** ** The process *)

(** [ctrl.Options], as far as main sets them. *)
Record ManagerOptions := {
  opt_MetricsBindAddress : string; opt_WebhookPort : Z; opt_HealthProbeBindAddress : string;
  opt_LeaderElection : bool; opt_LeaderElectionID : string
}.

Definition manager_options (flagVar : FlagVar) : ManagerOptions :=
  {| opt_MetricsBindAddress := metricsAddr flagVar; opt_WebhookPort := 9443;
     opt_HealthProbeBindAddress := probeAddr flagVar;
     opt_LeaderElection := enableLeaderElection flagVar;
     opt_LeaderElectionID := "76223278.kyma-project.io" |}.

(** The steps of main; starting the manager returns when the process is asked
    to stop.  The flag package ends the process on a flag it does not know or
    on a call for help, and [ctrl.GetConfigOrDie] when there is no
    configuration of the client. *)
Inductive main_step :=
| NewManager (restConfig : string) (options : ManagerOptions)
| SetupWithManager (reconciler : Reconciler)
| AddHealthzCheck (name : string)
| AddReadyzCheck (name : string)
| Start.

Inductive main_exit :=
| ParseFlags (defaults : FlagVar)
| GetConfigOrDie.

#[export] Instance operator_process : ProcessSteps := {|
  process_step := main_step; step_reply _ := result error unit;
  exiting_step := main_exit;
  exiting_reply s := match s with ParseFlags _ => FlagVar | GetConfigOrDie => string end
|}.

Definition main_buildVersion : string := "not_provided".

Section Main.
Context {it : ItLib} {yaml : YamlLib} {unstr : UnstructuredLib} {uni : Unicode} {helm : HelmLib}.

Abbreviation P := (go (process operator_process) error).

(** A step whose failure is logged and ends the process. *)
Definition step_or_die (s : main_step) (msg : string) (k : P Z) : P Z :=
  or_die (r ← do_step s; of_result r) msg (fun _ => k).

(** The exit code of [main]. *)
Definition main : P Z :=
  or_exit (ParseFlags defineFlagVar) (fun flagVar =>
  _ ← info "Starting CFAPI Operator" [("version", main_buildVersion)];
  or_exit GetConfigOrDie (fun restConfig =>
  step_or_die (NewManager restConfig (manager_options flagVar)) "unable to start manager" (
  step_or_die (SetupWithManager operator) "unable to create controller" (
  step_or_die (AddHealthzCheck "healthz") "unable to set up health check" (
  step_or_die (AddReadyzCheck "readyz") "unable to set up ready check" (
  _ ← info "starting manager" [];
  step_or_die Start "problem running manager" (
  mret 0))))))).

Lemma ends_step_or_die s msg k : ends_well k -> ends_well (step_or_die s msg k).
Proof. intros Hk. apply ends_or_die; [by split; [intros []|intros []]|done]. Qed.

Lemma operator_ends : ends_well main.
Proof.
  unfold main. apply ends_or_exit. intros flagVar. apply ends_info. intros _.
  apply ends_or_exit. intros restConfig. do 4 apply ends_step_or_die.
  apply ends_info. intros _. apply ends_step_or_die, ends_ret.
Qed.

(** The manager runs the reconciler of this development.  If the process
    starts the manager, it was created with the options that the flags say,
    and the controller with the installables in their two orders and both
    probes were added to it without an error before. *)
Theorem starts_the_operator (e : environment (process operator_process)) w :
  PStep Start ∈ calls e main w ->
  let asked := asked e main w in
  exists flagVar restConfig,
    asked (PExiting (ParseFlags defineFlagVar)) (inr flagVar)
    /\ asked (PExiting GetConfigOrDie) (inr restConfig)
    /\ asked (PStep (NewManager restConfig (manager_options flagVar))) (Ok tt)
    /\ asked (PStep (SetupWithManager operator)) (Ok tt)
    /\ asked (PStep (AddHealthzCheck "healthz")) (Ok tt) /\ asked (PStep (AddReadyzCheck "readyz")) (Ok tt).
Proof.
  unfold main, step_or_die, or_die, or_exit, die, info, do_step. unfold mbind, go_mbind. cbn.
  repeat (match goal with |- context [answer e ?c ?v] => destruct (answer e c v) as [[] ?] end; cbn).
  all: intros Hin; repeat (apply elem_of_cons in Hin as [Hin|Hin]; [try discriminate Hin|]); try (by inversion Hin).
  all: repeat match goal with u : unit |- _ => destruct u end.
  all: do 2 eexists; split_and!; solve [repeat first [left; reflexivity|right]].
Qed.
End Main.
