(* ===== verification/Footprint.v ===== *)
(** * What the operator can touch

    Bounds, valid in every environment, on the external calls the parts of the
    operator can issue: each installable only changes the release it names,
    with the chart it loaded, or the objects it read from its manifest, and so
    does the operator as a whole. *)

From S2P Require Export History Main.

#[local] Open Scope Z_scope.
#[local] Open Scope list_scope.

Abbreviation heard := (answered (S:=ext)).

(** ** Where an object comes from *)

Section Manifests.
Context {yaml : YamlLib} {unstr : UnstructuredLib} {uni : Unicode}.

(** The file was found under the pattern. *)
Definition manifest_file (h : history ext) (glob file : string) : Prop :=
  exists files, heard h (CGlob glob) (Ok files) /\ file ∈ files.

(** The object was decoded from a file that was found under the pattern and
    read. *)
Definition manifest_object (h : history ext) (glob : string) (obj : Unstructured) : Prop :=
  exists file content objs, manifest_file h glob file /\ heard h (CReadFile file) (Ok content)
    /\ Yaml.parse content = Some (Ok objs) /\ obj ∈ objs.

#[export] Instance manifest_file_grows glob file : Grows (fun h => manifest_file h glob file).
Proof. intros h x (files & Ha & Hf). exists files. split; [by apply (grows (Grows:=grows_answered _ _))|done]. Qed.

#[export] Instance manifest_object_grows glob obj : Grows (fun h => manifest_object h glob obj).
Proof.
  intros h x (file & content & objs & Hf & Ha & Hp). exists file, content, objs.
  split; [by apply (grows (Grows:=manifest_file_grows _ _))|]. split; [|done].
  by apply (grows (Grows:=grows_answered _ _)).
Qed.

Definition manifest_objects (h : history ext) (glob : string) : list Unstructured -> Prop :=
  Forall (manifest_object h glob).

#[export] Instance manifest_objects_grows glob objs : Grows (fun h => manifest_objects h glob objs).
Proof. intros h x H. eapply Forall_impl; [exact H|]. intros obj. by apply (grows (Grows:=manifest_object_grows glob obj)). Qed.

Definition manifest_files (h : history ext) (glob : string) : list string -> Prop :=
  Forall (manifest_file h glob).

#[export] Instance manifest_files_grows glob files : Grows (fun h => manifest_files h glob files).
Proof. intros h x H. eapply Forall_impl; [exact H|]. intros f. by apply (grows (Grows:=manifest_file_grows glob f)). Qed.

(** The calls that bring an object to its manifest. *)
Definition applies_object (h : history ext) (glob : string) (c : call) : Prop :=
  match c with
  | CCreate obj => manifest_object h glob obj
  | CUpdate obj => exists version o, manifest_object h glob o /\ obj = SetResourceVersion version o
  | _ => False
  end.
End Manifests.

Section Footprint.
Context {it : ItLib} {yaml : YamlLib} {unstr : UnstructuredLib} {uni : Unicode} {helm : HelmLib}.
Context (P : history ext -> call -> Prop) (P_reads : forall h c, operator_read c -> P h c).
Context (cfapi : ObjectKey) (P_events : forall h t reason action msg, P h (CEventf cfapi t reason action msg)).

Abbreviation only := (given (S:=ext) (E:=error) P (fun _ => True)).
Abbreviation only_given := (given (S:=ext) (E:=error) P).
Abbreviation recorder := (NewCFAPIEventRecorder cfapi).

Lemma only_bind {A B} (F : history ext -> Prop) `{!Grows F} (p : M A) (k : A -> M B) :
  only p -> (forall a, only_given F (k a)) -> only_given F (p ≫= k).
Proof. intros Hp. apply given_bind; [done|]. by eapply given_weaken; [|exact Hp]. Qed.

Lemma only_reads (F : history ext -> Prop) {A} (p : M A) : only_calls (S:=ext) operator_read p -> only_given F p.
Proof. by apply given_only_calls. Qed.

Lemma only_free (F : history ext -> Prop) {A} (p : M A) : only_calls (S:=ext) (fun _ => False) p -> only_given F p.
Proof. by apply given_only_calls. Qed.

Lemma only_done (F : history ext -> Prop) {A} (a : A) : only_given F (mret a).
Proof. by intros h _. Qed.

Lemma only_event (F : history ext -> Prop) t reason msg : only_given F (Event recorder t reason msg).
Proof. intros h _. split; [apply P_events|done]. Qed.

(** An event, and then something else. *)
Lemma only_event_then (F : history ext -> Prop) `{!Grows F} {A} t reason msg (k : unit -> M A) :
  (forall u, only_given F (k u)) -> only_given F (Event recorder t reason msg ≫= k).
Proof. apply only_bind; [done|]. apply only_event. Qed.

Lemma only_call (F : history ext -> Prop) c : (forall h, F h -> P h c) -> only_given F (Call (S:=ext) c Ret).
Proof. intros Hc h HF. split; [by apply Hc|done]. Qed.

Lemma only_answer (F : history ext -> Prop) {A} c (k : reply c -> result error A) :
  (forall h, F h -> P h c) -> only_given F (Call (S:=ext) c (fun r => of_result (k r))).
Proof. intros Hc h HF. split; [by apply Hc|]. intros r. by apply traced_of_result. Qed.

(** What a call answers is known afterwards. *)
Lemma learn_answer {A} f c (k : reply c -> result error A) h :
  P h c -> traced (S:=ext) P h (wrapping f (Call (S:=ext) c (fun r => of_result (k r))))
    (fun h' r => match r with Ok a => exists b, heard h' c b /\ k b = Ok a | Fail _ => True end) .
Proof.
  intros Hc. apply traced_wrapping. split; [done|]. intros r. apply traced_of_result.
  destruct (k r) as [a|x] eqn:Hk; cbn; [|done]. exists r. split; [apply (answered_last (S:=ext) h c r)|done].
Qed.

(** *** Helm *)

Lemma reads_init ns : only_calls (S:=ext) operator_read (newHelmActionConfig ns).
Proof.
  unfold newHelmActionConfig. apply only_calls_wrapping.
  split; [exact I|]. intros r. apply only_calls_of_result.
Qed.

Lemma reads_init_config ns : only_calls (S:=ext) operator_read (init_config ns).
Proof. apply only_calls_wrapping, reads_init. Qed.

Lemma reads_latest ns name : only_calls (S:=ext) operator_read (getLatestReleases ns name).
Proof.
  unfold getLatestReleases. apply only_calls_bind; [apply only_calls_wrapping, reads_init|]. intros _.
  apply only_calls_bind.
  - apply only_calls_wrapping. split; [exact I|]. intros r. apply only_calls_of_result.
  - intros versions. case_decide; [exact I|]. apply only_calls_bind; [apply only_calls_index|]. done.
Qed.

(** A release is only touched with the chart that was loaded from the path. *)
Definition applies_release (path ns name : string) : Prop :=
  (forall h, P h (CLoadChart path))
  /\ forall h c v, heard h (CLoadChart path) (Ok c) -> P h (CRunInstall ns name c v) /\ P h (CRunUpgrade ns name c v).

Lemma only_Apply path ns name values : applies_release path ns name -> only (HelmClient.Apply path ns name values).
Proof.
  intros [Hload Hrun]. unfold HelmClient.Apply.
  apply (given_bind_learn _ _ (fun ch h => heard h (CLoadChart path) (Ok ch))).
  { intros h _. eapply traced_mono; [|by apply (learn_answer _ (CLoadChart path) (fun r => r))].
    intros h' [ch|x]; [|done]. by intros (b & Hb & ->). }
  intros ch. set (F := fun h => True /\ heard h (CLoadChart path) (Ok ch)).
  assert (HF : Grows F) by apply _.
  apply only_bind; [done|by apply only_reads, only_calls_wrapping, reads_latest|]. intros [rel|].
  - apply only_bind; [done|apply only_free, only_calls_deref|]. intros status. case_match; [apply only_done|].
    apply only_bind; [done|apply only_free, only_calls_wrapping, only_calls_of_result|]. intros same.
    do 3 (apply only_bind; [done|apply only_free, only_calls_deref|]; intros ?).
    case_match; [apply only_done|]. unfold upgrade. apply only_bind; [done|apply only_reads, reads_init_config|].
    intros _. apply given_bind; [done|apply only_call; intros h [_ Hch]; by apply Hrun|].
    intros [r|]; [|apply only_done]. apply only_bind; [done|apply only_free, only_calls_deref|].
    intros ?. apply only_done.
  - unfold HelmClient.install. apply only_bind; [done|apply only_reads, reads_init_config|]. intros _.
    apply given_bind; [done|apply only_call; intros h [_ Hch]; by apply Hrun|].
    intros [r|]; [|apply only_done]. apply only_bind; [done|apply only_free, only_calls_deref|].
    intros ?. apply only_done.
Qed.

Lemma only_Uninstall ns name :
  (forall h, P h (CRunUninstall ns name)) -> only (HelmClient.Uninstall ns name).
Proof.
  intros Hu. unfold HelmClient.Uninstall.
  apply only_bind; [apply _|by apply only_reads, only_calls_wrapping, reads_latest|].
  intros [rel|]; [|apply only_done].
  apply only_bind; [apply _|apply only_free, only_calls_deref|]. intros status. case_decide; [apply only_done|].
  apply only_bind; [apply _|apply only_reads, reads_init_config|]. intros _.
  apply only_bind; [apply _|by apply only_call|]. intros [[r|]|]; apply only_done.
Qed.

Lemma only_HelmChart_Install path ns name provider config :
  only_calls (S:=ext) operator_read (GetValues provider config) -> applies_release path ns name ->
  only (Install (HelmChart.NewHelmChart path ns name provider helmClient) config recorder).
Proof.
  intros Hv Hr. change (only (HelmChart.HelmChart_Install path ns name provider helmClient config recorder)).
  unfold HelmChart.HelmChart_Install.
  apply only_bind; [apply _|by apply only_reads, only_calls_try|]. intros [values|]; [|apply only_done].
  apply only_bind; [apply _|by apply given_try, only_Apply|]. intros [res|]; [|by apply given_only_calls with (P' := fun _ => False)].
  apply only_event_then; [apply _|]. intros _.
  repeat case_decide; (apply only_event_then; [apply _|]); intros _;
    by apply given_only_calls with (P' := fun _ => False).
Qed.

Lemma only_HelmChart_Uninstall path ns name provider config :
  (forall h, P h (CRunUninstall ns name)) ->
  only (Uninstall (HelmChart.NewHelmChart path ns name provider helmClient) config recorder).
Proof.
  intros Hu. change (only (HelmChart.HelmChart_Uninstall ns name helmClient config recorder)).
  unfold HelmChart.HelmChart_Uninstall.
  apply only_bind; [apply _|by apply given_try, only_Uninstall|].
  intros [res|]; [|by apply only_free].
  apply only_event_then; [apply _|]. intros _.
  case_match; (apply only_event_then; [apply _|]); intros _; by apply only_free.
Qed.

(** *** Orgs *)

Lemma only_Orgs config :
  (forall h, P h (CDeleteAllOf KCFOrg (cfg_RootNamespace config))) ->
  only (Uninstall Orgs.NewOrgs config recorder).
Proof.
  intros Hd. change (only (Orgs.Orgs_Uninstall config recorder)). unfold Orgs.Orgs_Uninstall.
  assert (Hf : forall err, only (_ ← Orgs.failed_event recorder; Err (A:=Result) err)).
  { intros err. apply only_event_then; [apply _|]. intros _. by apply only_free. }
  apply only_bind; [apply _| |].
  - apply given_try. unfold Orgs.deleteAllOrgs.
    apply only_bind; [apply _| |intros; apply only_free, only_calls_of_result].
    by apply given_try, (only_answer _ (CDeleteAllOf KCFOrg _) (fun r => r)).
  - intros [[]|err]; [|apply Hf]. apply only_bind; [apply _| |].
    + apply only_reads, only_calls_try. unfold Orgs.remainingOrgsCount. apply only_calls_bind.
      * by apply only_calls_try, only_calls_List.
      * intros [items|err]; [exact I|]. by case_match.
    + intros [n|err]; [by case_match; apply only_free|apply Hf].
Qed.

(** *** Manifests *)

(** Looking for the files of a manifest, and reading them. *)
Definition reads_manifest (glob : string) : Prop :=
  (forall h, P h (CGlob glob)) /\ forall h file, manifest_file h glob file -> P h (CReadFile file).

Lemma learn_parse h glob file content :
  manifest_file h glob file -> heard h (CReadFile file) (Ok content) ->
  traced (S:=ext) P h (Yaml.parseToUnstructuredObjects content)
    (fun h' r => match r with Ok objs => manifest_objects h' glob objs | Fail _ => True end).
Proof.
  intros Hfile Hc. unfold Yaml.parseToUnstructuredObjects.
  destruct (Yaml.parse content) as [[objs|x]|] eqn:Hp; [|exact I..].
  apply Forall_forall. intros obj Hobj. by exists file, content, objs.
Qed.

Lemma learn_file h glob file :
  reads_manifest glob -> manifest_file h glob file ->
  traced (S:=ext) P h (Yaml.fileToUnstructuredObjects file)
    (fun h' r => match r with Ok objs => manifest_objects h' glob objs | Fail _ => True end).
Proof.
  intros [_ Hread] Hfile. unfold Yaml.fileToUnstructuredObjects. apply traced_bind.
  eapply traced_mono; [|eapply (traced_grows P (fun h => manifest_file h glob file)); [exact Hfile|]].
  2: { eapply (learn_answer _ (CReadFile file) (fun r => r)). by apply Hread. }
  intros h' [content|x]; [|done]. intros [Hfile' (b & Hb & ->)]. by apply (learn_parse h' glob file).
Qed.

Lemma learn_files h glob files objs :
  reads_manifest glob -> manifest_files h glob files -> manifest_objects h glob objs ->
  traced (S:=ext) P h (Yaml.files_loop objs files)
    (fun h' r => match r with Ok objs => manifest_objects h' glob objs | Fail _ => True end).
Proof.
  intros Hread. revert h objs. induction files as [|file files IH]; intros h objs Hfiles Hobjs; [exact Hobjs|].
  apply Forall_cons in Hfiles as [Hfile Hfiles]. cbn [Yaml.files_loop]. apply traced_bind.
  eapply traced_mono; [|eapply (traced_grows P
    (fun h => manifest_files h glob files /\ manifest_objects h glob objs)); [by split|by apply learn_file]].
  intros h' [o|x]; [|done]. intros [[Hfiles' Hobjs'] Ho]. apply IH; [done|]. by apply Forall_app.
Qed.

Lemma learn_glob h glob :
  reads_manifest glob ->
  traced (S:=ext) P h (Yaml.globToUnstructuredObjects glob)
    (fun h' r => match r with Ok objs => manifest_objects h' glob objs | Fail _ => True end).
Proof.
  intros Hm. unfold Yaml.globToUnstructuredObjects. apply traced_bind.
  split; [apply Hm|]. intros r. apply traced_of_result. destruct r as [files|x]; [|exact I].
  case_decide; [exact I|]. apply learn_files; [exact Hm| |constructor].
  apply Forall_forall. intros file Hfile. exists files. split; [apply (answered_last (S:=ext))|exact Hfile].
Qed.

Section Objects.
Context (glob : string) (Hmanifest : reads_manifest glob).

Lemma only_createOrUpdate (F : history ext -> Prop) `{!Grows F} obj :
  (forall h, F h -> manifest_object h glob obj) -> (forall h c, applies_object h glob c -> P h c) ->
  only_given F (Yaml.createOrUpdate obj).
Proof.
  intros HF Happlies. unfold Yaml.createOrUpdate.
  apply only_bind; [done|apply only_free, only_calls_wrapping, only_calls_of_result|]. intros p.
  apply only_bind; [done|by apply only_call; intros h _; apply P_reads|]. intros [existing|err].
  - eapply (given_bind_learn P F (fun o _ => exists v, o = SetResourceVersion v obj)).
    + intros h _. apply traced_wrapping. unfold Yaml.setResourceVersion. apply traced_bind, traced_wrapping.
      apply traced_of_result. destruct (MetaAccessor obj); [|done]. by eexists.
    + intros o. apply given_wrapping, (only_answer _ (CUpdate o) (fun r => r)). intros h [Hh [v ->]].
      apply Happlies. exists v, obj. split; [by apply HF|done].
  - case_match; [|by apply only_free]. apply (only_answer _ (CCreate obj) (fun r => r)).
    intros h Hh. apply Happlies. by apply HF.
Qed.

Lemma manifest_objects_cons h obj objs :
  manifest_objects h glob (obj :: objs) -> manifest_object h glob obj /\ manifest_objects h glob objs.
Proof. by intros [? ?]%Forall_cons. Qed.

Lemma only_Yaml_Install name config :
  (forall h c, applies_object h glob c -> P h c) ->
  only (Install (Yaml.NewYaml glob name) config recorder).
Proof.
  intros Happlies. change (only (Yaml.Yaml_Install glob name config recorder)). unfold Yaml.Yaml_Install.
  apply (given_bind_learn P _ (fun r h => match r with Ok objs => manifest_objects h glob objs | Fail _ => True end)).
  { intros h _. by apply traced_try, learn_glob. }
  intros [objs|err]; [|by apply only_free].
  apply (given_weaken P (fun h => manifest_objects h glob objs)); [by intros h [_ ?]|].
  apply given_bind; [apply _| |intros _; apply only_event_then; [apply _|]; intros _; apply only_done].
  induction objs as [|obj objs IH]; [by apply only_free|]. cbn [Yaml.install_loop].
  apply given_bind; [apply _| |].
  - apply given_try, only_createOrUpdate; [apply _| |done]. by intros h [? ?]%manifest_objects_cons.
  - intros [[]|err]; [|apply only_event_then; [apply _|]; intros _; by apply only_free].
    eapply given_weaken; [|exact IH]. by intros h [? ?]%manifest_objects_cons.
Qed.

Lemma only_Yaml_Uninstall name config :
  (forall h obj, manifest_object h glob obj -> P h (CDeleteUnstructured obj)) ->
  only (Uninstall (Yaml.NewYaml glob name) config recorder).
Proof.
  intros Hdeletes. change (only (Yaml.Yaml_Uninstall glob name config recorder)). unfold Yaml.Yaml_Uninstall.
  apply (given_bind_learn P _ (fun r h => match r with Ok objs => manifest_objects h glob objs | Fail _ => True end)).
  { intros h _. by apply traced_try, learn_glob. }
  intros [objs|err]; [|by apply only_free].
  apply (given_weaken P (fun h => manifest_objects h glob objs)); [by intros h [_ ?]|].
  apply given_bind; [apply _| |].
  - generalize true. induction objs as [|obj objs IH]; intros b; [by apply only_free|].
    cbn [Yaml.uninstall_loop]. apply given_bind; [apply _| |].
    + apply given_try. unfold Yaml.delete. apply given_bind; [apply _| |].
      * apply only_call. intros h [? _]%manifest_objects_cons. by apply Hdeletes.
      * intros [[]|err]; [apply only_done|]. by case_match; apply only_free.
    + intros [gone|err]; [|apply only_event_then; [apply _|]; intros _; by apply only_free].
      eapply given_weaken; [|apply IH]. by intros h [? ?]%manifest_objects_cons.
  - intros b. case_match; [|by apply only_free]. apply only_event_then; [apply _|]. intros _. apply only_done.
Qed.
End Objects.

(** *** The loops of the reconciler *)

Lemma only_install_loop config order acc :
  Forall (fun i => only (Install i config recorder)) order ->
  only (install_loop config recorder acc order).
Proof.
  intros H. revert acc. induction H as [|i order Hi _ IH]; intros acc; [by apply only_free|].
  cbn [install_loop]. by apply only_bind; [apply _|..].
Qed.

Lemma only_install r config :
  Forall (fun i => only (Install i config recorder)) (installOrder r) ->
  only (install r config recorder).
Proof.
  intros H. unfold install. apply only_bind; [apply _|by apply only_install_loop|].
  intros results. apply only_free, only_calls_index.
Qed.

Lemma only_uninstall r config :
  Forall (fun i => only (Uninstall i config recorder)) (uninstallOrder r) ->
  only (uninstall r config recorder).
Proof.
  unfold uninstall. induction 1 as [|i order Hi _ IH]; [by apply only_free|].
  cbn [uninstall_loop]. apply only_bind; [apply _|done|]. intros result. case_decide; [apply only_done|done].
Qed.

(** *** A reconciliation *)

Context {meta : MetaLib} {fin : FinalizerLib} {jsonp : JsonParser}.

Lemma only_ReconcileResource r (cfAPI : CFAPI) :
  cfapi_key cfAPI = cfapi ->
  (forall config, only (install r config recorder)) ->
  only (uninstall r (st_InstallationConfig (cfapi_status cfAPI)) recorder) ->
  only (ReconcileResource r cfAPI).
Proof.
  intros Hkey Hi Hu.
  assert (Hnow : forall A (k : Z -> M A), (forall now, only (k now)) -> only (now ← Now; k now)).
  { intros A k Hk. apply only_bind; [apply _|by apply only_reads|done]. }
  unfold ReconcileResource. case_decide.
  - unfold finalize. case_match; [apply only_done|].
    apply only_bind; [apply _| |].
    + apply given_try. by change (cfapi_key (set_State _ _)) with (cfapi_key cfAPI); rewrite Hkey.
    + intros [result|err]; [|apply only_done]. case_decide; [|apply only_done]. apply Hnow. intros. apply only_done.
  - apply only_bind; [apply _|apply only_reads, only_calls_try, only_calls_compileInstallationConfig|].
    intros [config|err]; [|apply Hnow; intros; apply only_done]. apply Hnow. intros now. apply only_bind; [apply _| |].
    + apply given_try. change (cfapi_key (set_InstallationConfig _ _)) with (cfapi_key cfAPI).
      rewrite Hkey. apply Hi.
    + intros [result|err]; [|apply only_done]. unfold applyInstallResultToStatus.
      destruct (r_State result); apply Hnow; intros; apply only_done.
Qed.
End Footprint.

(** ** The operator *)

Lemma only_reads_Korifi ns config :
  only_calls (S:=ext) operator_read (GetValues (Korifi.NewKorifi ns) config).
Proof.
  change (only_calls (S:=ext) (E:=error) operator_read (Korifi.Korifi_GetValues ns config)).
  unfold Korifi.Korifi_GetValues. apply only_calls_bind; [|done].
  apply only_calls_wrapping, only_calls_for_each. intros s.
  apply only_calls_bind; [by apply only_calls_Get|]. done.
Qed.

Lemma only_reads_Prerequisites config :
  only_calls (S:=ext) operator_read (GetValues Prerequisites.NewPrerequisites config).
Proof.
  change (only_calls (S:=ext) (E:=error) operator_read (Prerequisites.Prerequisites_GetValues config)).
  unfold Prerequisites.Prerequisites_GetValues, Prerequisites.ensureSelfSignedIssuer.
  apply only_calls_bind; [|done]. apply only_calls_wrapping.
  apply only_calls_bind; [by apply only_calls_Get|]. done.
Qed.

Lemma only_reads_CFAPIConfig `{ItLib} config :
  only_calls (S:=ext) operator_read (GetValues CFAPIConfig.NewCFAPIConfig config).
Proof.
  change (only_calls (S:=ext) (E:=error) operator_read (CFAPIConfig.CFAPIConfig_GetValues config)).
  unfold CFAPIConfig.CFAPIConfig_GetValues, CFAPIConfig.getKorifiIngressHost.
  apply only_calls_bind; [|done]. apply only_calls_wrapping.
  apply only_calls_bind; [apply only_calls_wrapping; by apply only_calls_Get|]. intros svc.
  case_decide; [exact I|]. apply only_calls_bind; [apply only_calls_index|]. intros i. by case_decide.
Qed.

Lemma only_reads_Override v config : only_calls (S:=ext) operator_read (GetValues (Override v) config).
Proof. exact I. Qed.

Section Operator.
Context {it : ItLib} {yaml : YamlLib} {unstr : UnstructuredLib} {uni : Unicode} {helm : HelmLib}.

(** The patterns of the operator's manifests. *)
Definition manifests : list string :=
  ["./module-data/namespaces/system.yaml"; "./module-data/namespaces/cfroot.yaml";
   "./module-data/issuers/issuers.yaml"; "./module-data/vendor/gateway-api/experimental-install.yaml";
   "./module-data/vendor/kpack/release-*.yaml"].

(** The paths of the operator's charts, and the release of each. *)
Definition charts : list (string * (string * string)) :=
  [("./module-data/vendor/contour-chart", ("cfapi-system", "contour"));
   ("./module-data/korifi-prerequisites-chart", ("korifi", "korifi-prerequisites"));
   ("./module-data/vendor/korifi-chart", ("korifi", "korifi"));
   ("./module-data/cfapi-config-chart", ("korifi", "cfapi-config"));
   ("./module-data/btp-service-broker/helm", ("cfapi-system", "btp-service-broker"))].

Definition releases : list (string * string) := charts.*2.

Ltac member := repeat first [apply list_elem_of_here | apply list_elem_of_further].

Lemma only_main_install (P : history ext -> call -> Prop) cfapi config :
  (forall h c, operator_read c -> P h c) ->
  (forall h t reason action msg, P h (CEventf cfapi t reason action msg)) ->
  (forall glob, glob ∈ manifests -> reads_manifest P glob /\ forall h c, applies_object h glob c -> P h c) ->
  (forall path ns name, (path, (ns, name)) ∈ charts ->
     (ns, name) <> ("cfapi-system", "contour") \/ cfg_GatewayType config = GatewayTypeContour ->
     applies_release P path ns name) ->
  (cfg_GatewayType config <> GatewayTypeContour -> forall h, P h (CRunUninstall "cfapi-system" "contour")) ->
  Forall (fun i => given (S:=ext) P (fun _ => True) (Install i config (NewCFAPIEventRecorder cfapi)))
    (installOrder operator).
Proof.
  intros Hr He Hm Hc Hu. cbn [installOrder operator main_installOrder].
  repeat (apply Forall_cons; split); try apply Forall_nil_2;
    try (eapply only_Yaml_Install; [assumption..|apply Hm; unfold manifests; member|apply Hm; unfold manifests; member]).
  - change (given (S:=ext) P (fun _ => True) (Conditional.Conditional_Install ContourEnabled
      (HelmChart.NewHelmChart "./module-data/vendor/contour-chart" "cfapi-system" "contour"
         ContourValues helmClient) config (NewCFAPIEventRecorder cfapi))).
    unfold Conditional.Conditional_Install, ContourEnabled. case_bool_decide as Ht.
    + apply only_HelmChart_Install; try assumption; [apply only_reads_Override|].
      apply Hc; [unfold charts; member|by right].
    + apply only_HelmChart_Uninstall; [assumption..|by apply Hu].
  - apply only_HelmChart_Install; try assumption; [apply only_reads_Prerequisites|].
    apply Hc; [unfold charts; member|by left].
  - apply only_HelmChart_Install; try assumption; [apply only_reads_Korifi|].
    apply Hc; [unfold charts; member|by left].
  - apply only_HelmChart_Install; try assumption; [apply only_reads_CFAPIConfig|].
    apply Hc; [unfold charts; member|by left].
  - apply only_HelmChart_Install; try assumption; [apply only_reads_Override|].
    apply Hc; [unfold charts; member|by left].
Qed.

Lemma only_main_uninstall (P : history ext -> call -> Prop) cfapi config :
  (forall h c, operator_read c -> P h c) ->
  (forall h t reason action msg, P h (CEventf cfapi t reason action msg)) ->
  (forall glob, glob ∈ manifests ->
     reads_manifest P glob /\ forall h obj, manifest_object h glob obj -> P h (CDeleteUnstructured obj)) ->
  (forall ns name, (ns, name) ∈ releases -> forall h, P h (CRunUninstall ns name)) ->
  (forall h, P h (CDeleteAllOf KCFOrg (cfg_RootNamespace config))) ->
  Forall (fun i => given (S:=ext) P (fun _ => True) (Uninstall i config (NewCFAPIEventRecorder cfapi)))
    (uninstallOrder operator).
Proof.
  intros Hr He Hd Hu Horgs. cbn [uninstallOrder operator main_uninstallOrder].
  repeat (apply Forall_cons; split); try apply Forall_nil_2;
    try (eapply only_Yaml_Uninstall; [assumption..|apply Hd; unfold manifests; member|apply Hd; unfold manifests; member]);
    try (apply only_HelmChart_Uninstall; [assumption..|apply Hu; cbn; member]).
  by apply only_Orgs.
Qed.

Context {meta : MetaLib} {fin : FinalizerLib} {jsonp : JsonParser}.

(** What reconciling the CFAPI [cfapi] may call after [h]: reads of the
    cluster, events about it, the files of the operator's manifests and
    charts, the objects read from these manifests, the operator's own
    releases with the charts loaded for them, and the deletion of the orgs of
    its root namespace. *)
Definition footprint (cfapi : ObjectKey) (rootNs : string) (h : history ext) (c : call) : Prop :=
  match c with
  | CEventf regarding _ _ _ _ => regarding = cfapi
  | CGlob glob => glob ∈ manifests
  | CReadFile file => exists glob, glob ∈ manifests /\ manifest_file h glob file
  | CCreate _ | CUpdate _ => exists glob, glob ∈ manifests /\ applies_object h glob c
  | CDeleteUnstructured obj => exists glob, glob ∈ manifests /\ manifest_object h glob obj
  | CLoadChart path => path ∈ charts.*1
  | CRunInstall ns name ch _ | CRunUpgrade ns name ch _ =>
      exists path, (path, (ns, name)) ∈ charts /\ heard h (CLoadChart path) (Ok ch)
  | CRunUninstall ns name => (ns, name) ∈ releases
  | CDeleteAllOf k ns => k = KCFOrg /\ ns = rootNs
  | _ => operator_read c
  end.

Section Bound.
Context (cfapi : ObjectKey) (rootNs : string).

Lemma footprint_reads h c : operator_read c -> footprint cfapi rootNs h c.
Proof. destruct c; cbn; tauto. Qed.

Lemma footprint_manifest glob : glob ∈ manifests -> reads_manifest (footprint cfapi rootNs) glob.
Proof. intros Hg. split; [done|]. intros h file Hf. by exists glob. Qed.

Lemma footprint_applies glob h c :
  glob ∈ manifests -> applies_object h glob c -> footprint cfapi rootNs h c.
Proof. intros Hg. destruct c; cbn; try done; intros H; by exists glob. Qed.

Lemma footprint_release path ns name :
  (path, (ns, name)) ∈ charts -> applies_release (footprint cfapi rootNs) path ns name.
Proof.
  intros Hin. split; [intros h; by apply (list_elem_of_fmap_2 fst _ (path, (ns, name)))|].
  intros h c v Hc. split; by exists path.
Qed.
End Bound.

(** (C1) Whatever the cluster answers, reconciling a CFAPI never touches
    anything but the objects of the operator's five manifests, its five helm
    releases and the CFOrgs of the recorded root namespace, and only records
    events about that CFAPI.  An object is only created, updated or deleted
    after it was decoded from a file that was found under the pattern of one
    of the manifests and read, and a release is only installed or upgraded
    with the chart that was loaded for it.  In particular a reconciliation
    never deletes or patches a typed object, other than through the patching
    reconciler around it. *)
Theorem operator_footprint (e : Env) (cfAPI : CFAPI) w :
  each_call (footprint (cfapi_key cfAPI) (cfg_RootNamespace (st_InstallationConfig (cfapi_status cfAPI))))
    (exchanges e (ReconcileResource operator cfAPI) w).
Proof.
  apply (given_sound (S:=ext)).
  apply only_ReconcileResource with (cfapi := cfapi_key cfAPI); [apply footprint_reads|done| |].
  - intros config. apply only_install, only_main_install; try done.
    + apply footprint_reads.
    + intros glob Hg. split; [by apply footprint_manifest|]. intros h c. by apply footprint_applies.
    + intros path ns name Hin _. by apply footprint_release.
    + intros _ h. cbn. member.
  - apply only_uninstall, only_main_uninstall; try done.
    + apply footprint_reads.
    + intros glob Hg. split; [by apply footprint_manifest|]. intros h obj Ho. by exists glob.
Qed.

(** Nothing is taken away, but the contour release when the gateway is not
    contour's. *)
Definition keeps (config : InstallationConfig) (c : call) : Prop :=
  match c with
  | CDelete _ _ | CDeleteUnstructured _ | CDeleteAllOf _ _ => False
  | CRunUninstall ns name =>
      (ns, name) = ("cfapi-system", "contour") /\ cfg_GatewayType config <> GatewayTypeContour
  | CRunInstall ns name _ _ | CRunUpgrade ns name _ _ =>
      (ns, name) = ("cfapi-system", "contour") -> cfg_GatewayType config = GatewayTypeContour
  | _ => True
  end.

(** (C24) Installing never deletes an object or a namespace's orgs, and never
    uninstalls a release but contour's.  The contour release follows the
    gateway type: it is installed or upgraded only when the type is contour,
    and uninstalled only when it is another one, so switching the gateway to
    istio removes contour. *)
Theorem install_keeps (e : Env) config cfapi w :
  Forall (keeps config) (calls e (install operator config (NewCFAPIEventRecorder cfapi)) w).
Proof.
  apply (only_calls_sound (S:=ext)), given_calls, only_install, only_main_install; try done.
  - intros h c. by destruct c.
  - intros glob _. split; [by split|]. intros h c. by destruct c.
  - intros path ns name _ [Hne|Ht]; (split; [done|]); intros h c v _; cbn; by split; intros ?.
Qed.

(** (C25) The orgs go first.  As long as an org is left in the cluster, an
    uninstallation asks for the deletion of the orgs of the root namespace
    and does nothing else to the cluster: it reports progress with the
    number of orgs that remain. *)
Theorem uninstall_waits_for_orgs (e : Env) config cfapi w w1 w2 org orgs r :
  answer e (CDeleteAllOf KCFOrg (cfg_RootNamespace config)) w = (r, w1) ->
  is_ok (IgnoreNotFound r) = true ->
  answer e (CList KCFOrg) w1 = (Ok (org :: orgs), w2) ->
  run e (uninstall operator config (NewCFAPIEventRecorder cfapi)) w
    = (Returned {| r_State := ResultStateInProgress;
                   r_Message := Itoa (Z.of_nat (S (length orgs))) +:+ " orgs remaining" |}, w2)
  /\ mutations e (uninstall operator config (NewCFAPIEventRecorder cfapi)) w
     = [CDeleteAllOf KCFOrg (cfg_RootNamespace config)].
Proof.
  intros Hdel Hok Hlist.
  assert (Horgs : run e (Uninstall Orgs.NewOrgs config (NewCFAPIEventRecorder cfapi)) w
      = (Returned {| r_State := ResultStateInProgress;
                     r_Message := Itoa (Z.of_nat (S (length orgs))) +:+ " orgs remaining" |}, w2)
    /\ mutations e (Uninstall Orgs.NewOrgs config (NewCFAPIEventRecorder cfapi)) w
       = [CDeleteAllOf KCFOrg (cfg_RootNamespace config)]).
  { change (Uninstall Orgs.NewOrgs) with Orgs.Orgs_Uninstall.
    unfold Orgs.Orgs_Uninstall, Orgs.deleteAllOrgs, Orgs.remainingOrgsCount.
    assert (Hgt : (Z.of_nat (S (length orgs)) >? 0) = true) by (apply Z.gtb_lt; lia).
    destruct r as [[]|err]; cbn in Hok; [|destruct (IsNotFound err) eqn:Hnf; [|done]];
      unfold mutations; autorewrite with go_db; cbn; rewrite Hdel; cbn; rewrite ?Hnf; cbn;
      rewrite Hlist; cbn; rewrite ?Hgt, ?Hlist; by repeat split. }
  destruct Horgs as [Hrun Hmut]. unfold uninstall. cbn [uninstallOrder operator main_uninstallOrder uninstall_loop].
  rewrite run_bind, mutations_bind, Hrun, Hmut. rewrite decide_True by done. done.
Qed.
End Operator.

(** A cluster in which one org has a finalizer of its own. *)
Definition orgs_answers (c : call) : reply c :=
  match c with
  | CDeleteAllOf _ _ => Ok tt
  | CList k =>
      match k return result error (list (object k)) with
      | KCFOrg => Ok [{| org_meta := meta_of "cf" "my-org" |}]
      | k => no_answers (CList k)
      end
  | c => no_answers c
  end.

Lemma uninstall_waits_for_orgs_witness :
  mutations (const_env orgs_answers)
    (uninstall (operator (it:=Reference.it) (yaml:=Reference.yaml_table [] []) (unstr:=Reference.unstructured)
                  (uni:=Reference.unicode) (helm:=Reference.helm))
       sample_config (NewCFAPIEventRecorder sample_key)) tt
  = [CDeleteAllOf KCFOrg "cf"].
Proof.
  exact (proj2 (uninstall_waits_for_orgs (const_env orgs_answers) sample_config sample_key tt tt tt
    {| org_meta := meta_of "cf" "my-org" |} [] (Ok tt) eq_refl eq_refl eq_refl)).
Defined.
