(* ===== verification/Broker.v ===== *)
(** * The BTP service broker

    Models src/components/btp-service-broker/btp/broker.go (and tools/compare.go):
    the catalogue, provisioning and binding through the custom resources of
    the SAP BTP operator, and the polling of their outcome. *)

From S2P Require Export Libs Json.

#[local] Open Scope Z_scope.
#[local] Open Scope list_scope.

(** [type CredentialsDecoder interface] *)
Class CredentialsDecoder := DecodeBindingSecretData : gmap string string -> result error Value.

(** ** code.cloudfoundry.org/brokerapi: its metadata types, whose JSON decoding
    is the library's, and its errors *)
Class BrokerLib := {
  ServiceMetadata : Type;
  zero_ServiceMetadata : ServiceMetadata;
  decode_ServiceMetadata : decoder ServiceMetadata;
  ServicePlanMetadata : Type;
  zero_ServicePlanMetadata : ServicePlanMetadata;
  decode_ServicePlanMetadata : decoder ServicePlanMetadata;
  ErrInstanceNotFound : error;
  ErrBindingDoesNotExist : error
}.

(** The constants of [domain.LastOperationState]. *)
Definition InProgress : string := "in progress".
Definition Succeeded : string := "succeeded".
Definition Failed : string := "failed".

Record LastOperation := { lo_State : string; lo_Description : string }.
Definition zero_LastOperation : LastOperation := {| lo_State := ""; lo_Description := "" |}.

Record ServicePlan `{BrokerLib} := {
  plan_ID : string; plan_Name : string; plan_Description : string;
  plan_Free : option bool; plan_Bindable : option bool;
  plan_Metadata : option ServicePlanMetadata
}.

Record DomainService `{BrokerLib} := {
  svc_ID : string; svc_Name : string; svc_Description : string; svc_Bindable : bool;
  svc_Tags : list string; svc_PlanUpdatable : bool; svc_Plans : list ServicePlan;
  svc_Requires : list string; svc_Metadata : option ServiceMetadata
}.

(** The answers of the asynchronous operations. *)
Record Spec := { IsAsync : bool; OperationData : string }.
Record Binding := { b_Credentials : option Value; b_IsAsync : bool; b_OperationData : string }.

(** tools/compare.go *)
Definition ZeroIfNil {T} (zero : T) (value : option T) : T :=
  match value with Some v => v | None => zero end.

Section Catalogue.
Context {it : ItLib} {jsonp : JsonParser} {lib : BrokerLib}.

Definition unmarshal {T} (d : decoder T) (zero : T) (data : string) : result error (option T) :=
  if decide (String.length data = 0%nat) then Ok None
  else match Unmarshal d zero data with
       | Fail err => Fail (ErrWrap "failed to unmarshal data: " err "")
       | Ok obj => Ok (Some obj)
       end.

Definition decode_strings : decoder (list string) := decode_slice "" decode_string.

Definition toPlan (plan : SMPlan) : result error ServicePlan :=
  match unmarshal decode_ServicePlanMetadata zero_ServicePlanMetadata (smp_Metadata plan) with
  | Fail err => Fail (ErrWrap "failed to unmarshal service plan metadata: " err "")
  | Ok metadata =>
      Ok {| plan_ID := smp_ID plan; plan_Name := smp_Name plan;
            plan_Description := smp_Description plan; plan_Free := Some (smp_Free plan);
            plan_Bindable := Some (smp_Bindable plan); plan_Metadata := metadata |}
  end.

Definition selectPlansForOffering (offeringID : string) (plans : list SMPlan)
    : result error (list ServicePlan) :=
  it_TryCollectMapError toPlan
    (it_Filter (fun plan => bool_decide (smp_ServiceOfferingID plan = offeringID)) plans).

Definition toService (plans : list SMPlan) (offering : SMOffering) : result error DomainService :=
  match unmarshal decode_strings [] (smo_Tags offering) with
  | Fail err => Fail (ErrWrap "failed to unmarshal service offering tags: " err "")
  | Ok tags =>
  match unmarshal decode_ServiceMetadata zero_ServiceMetadata (smo_Metadata offering) with
  | Fail err => Fail (ErrWrap "failed to unmarshal service offering metadata: " err "")
  | Ok metadata =>
  match selectPlansForOffering (smo_ID offering) plans with
  | Fail err => Fail (ErrWrap ("failed to select plans for offering " +:+ smo_ID offering +:+ ": ") err "")
  | Ok offeringPlans =>
  match unmarshal decode_strings [] (smo_Requires offering) with
  | Fail err => Fail (ErrWrap "failed to unmarshal required permissions: " err "")
  | Ok requiredPermissions =>
      Ok {| svc_ID := smo_ID offering; svc_Name := smo_Name offering;
            svc_Description := smo_Description offering; svc_Bindable := smo_Bindable offering;
            svc_Tags := ZeroIfNil [] tags; svc_PlanUpdatable := smo_PlanUpdatable offering;
            svc_Plans := offeringPlans; svc_Requires := ZeroIfNil [] requiredPermissions;
            svc_Metadata := metadata |}
  end end end end.

Definition ListOfferings : M (list SMOffering) :=
  wrapping (fun err => ErrWrap "failed to get service offerings: " err "")
    (Call (S:=ext) CListOfferings of_result).
Definition ListPlans : M (list SMPlan) :=
  wrapping (fun err => ErrWrap "failed to get service plans: " err "")
    (Call (S:=ext) CListPlans of_result).

Definition Services : M (list DomainService) :=
  offerings ← ListOfferings;
  plans ← ListPlans;
  of_result (it_TryCollectMapError (toService plans) offerings).
End Catalogue.

(** ** Conditions of the current generation *)

Section Responses.
Context {it : ItLib} {meta : MetaLib}.

Definition latestInstanceStatusConditions (btpInstance : ServiceInstance) : list Condition :=
  elems (Collect (it_Filter
    (fun c => bool_decide (c_ObservedGeneration c = Generation (si_meta btpInstance)))
    (si_Conditions btpInstance))).

Definition latestBindingStatusConditions (btpBinding : ServiceBinding) : list Condition :=
  elems (Collect (it_Filter
    (fun c => bool_decide (c_ObservedGeneration c = Generation (sb_meta btpBinding)))
    (sb_Conditions btpBinding))).

(** [meta.FindStatusCondition(...).Message]: a nil pointer panics. *)
Definition message_of (conditions : list Condition) (type : string) : M string :=
  c ← deref (FindStatusCondition conditions type); mret (c_Message c).

Definition provisionInstanceStateResponse (btpServiceInstance : ServiceInstance) : M LastOperation :=
  if IsStatusConditionTrue (latestInstanceStatusConditions btpServiceInstance) "Succeeded"
  then mret {| lo_State := "succeeded"; lo_Description := "" |}
  else if IsStatusConditionTrue (latestInstanceStatusConditions btpServiceInstance) "Failed"
  then description ← message_of (si_Conditions btpServiceInstance) "Failed";
       mret {| lo_State := Failed; lo_Description := description |}
  else if decide (si_OperationType btpServiceInstance = "create")
  then mret {| lo_State := "in progress"; lo_Description := "" |}
  else mret zero_LastOperation.

Definition deprovisionInstanceStateResponse (btpServiceInstance : ServiceInstance) : M LastOperation :=
  if IsStatusConditionTrue (latestInstanceStatusConditions btpServiceInstance) "Failed"
  then description ← message_of (si_Conditions btpServiceInstance) "Failed";
       mret {| lo_State := Failed; lo_Description := description |}
  else if decide (si_OperationType btpServiceInstance = "delete")
  then mret {| lo_State := InProgress; lo_Description := "" |}
  else mret zero_LastOperation.

Definition bindingStateResponse (btpBinding : ServiceBinding) : M LastOperation :=
  if IsStatusConditionTrue (latestBindingStatusConditions btpBinding) "Succeeded"
  then mret {| lo_State := "succeeded"; lo_Description := "" |}
  else if IsStatusConditionTrue (latestBindingStatusConditions btpBinding) "Failed"
  then description ← message_of (sb_Conditions btpBinding) "Failed";
       mret {| lo_State := Failed; lo_Description := description |}
  else if decide (sb_OperationType btpBinding = "create")
  then mret {| lo_State := "in progress"; lo_Description := "" |}
  else mret zero_LastOperation.

Definition unbindStateResponse (btpServiceBinding : ServiceBinding) : M LastOperation :=
  if IsStatusConditionTrue (latestBindingStatusConditions btpServiceBinding) "Failed"
  then description ← message_of (sb_Conditions btpServiceBinding) "Failed";
       mret {| lo_State := Failed; lo_Description := description |}
  else if decide (sb_OperationType btpServiceBinding = "delete")
  then mret {| lo_State := InProgress; lo_Description := "" |}
  else mret zero_LastOperation.
End Responses.

(** ** The broker *)

(** The details of a request, as far as they are used. *)
Record ProvisionDetails := { pd_ServiceID : string; pd_PlanID : string; pd_RawParameters : string }.
Record BindDetails := { bd_RawParameters : string }.

(** [type BTPBroker struct]: its clients are the external calls. *)
Record BTPBroker := { resourceNamespace : string; credentialsDecoder : CredentialsDecoder }.

Definition NewBroker (resourceNamespace : string) (decoder : CredentialsDecoder) : BTPBroker :=
  {| resourceNamespace := resourceNamespace; credentialsDecoder := decoder |}.

Section Broker.
Context {it : ItLib} {meta : MetaLib} {lib : BrokerLib}.
Context (b : BTPBroker).

(** The object of an instance or a binding in the broker's namespace. *)
Definition resource (name : string) : ObjectKey :=
  {| key_ns := resourceNamespace b; key_name := name |}.

(** The loops of [getPlanByID] and [getOfferingByID]. *)
Fixpoint find_plan (planID : string) (plans : list SMPlan) : option SMPlan :=
  match plans with
  | [] => None
  | plan :: plans' => if decide (smp_ID plan = planID) then Some plan else find_plan planID plans'
  end.

Definition getPlanByID (planID : string) : M SMPlan :=
  plans ← ListPlans;
  match find_plan planID plans with
  | Some plan => mret plan
  | None => Err (ErrText ("plan with ID " +:+ planID +:+ " not found"))
  end.

Fixpoint find_offering (offeringID : string) (offerings : list SMOffering) : option SMOffering :=
  match offerings with
  | [] => None
  | offering :: offerings' =>
      if decide (smo_ID offering = offeringID) then Some offering
      else find_offering offeringID offerings'
  end.

Definition getOfferingByID (offeringID : string) : M SMOffering :=
  offerings ← ListOfferings;
  match find_offering offeringID offerings with
  | Some offering => mret offering
  | None => Err (ErrText ("offering with ID " +:+ offeringID +:+ " not found"))
  end.

(** The closure that fills the instance. *)
Definition instance_spec (offering : SMOffering) (plan : SMPlan) (parameters : string)
    (o : object KServiceInstance) : object KServiceInstance :=
  {| si_meta := si_meta o;
     si_Spec := {| si_ServiceOfferingName := smo_Name offering; si_ServicePlanName := smp_Name plan;
                   si_ServicePlanID := smp_ID plan; si_Parameters := Some parameters |};
     si_Conditions := si_Conditions o; si_OperationType := si_OperationType o |}.

Definition Provision (instanceID : string) (details : ProvisionDetails) : M Spec :=
  plan ← getPlanByID (pd_PlanID details);
  offering ← getOfferingByID (pd_ServiceID details);
  _ ← wrapping (fun err => ErrWrap "failed to create btp service instance: " err "")
        (Call (S:=ext) (CCreateOrPatch KServiceInstance (resource instanceID)
           (instance_spec offering plan (pd_RawParameters details))) of_result);
  mret {| IsAsync := true; OperationData := "provision-" +:+ instanceID |}.

(** [client.IgnoreNotFound(err)] on a call that returns only an error. *)
Definition ignoring_not_found (p : M unit) : M unit :=
  r ← try p; of_result (IgnoreNotFound r).

Definition Deprovision (instanceID : string) : M Spec :=
  _ ← wrapping (fun err => ErrWrap "failed to delete btp service instance: " err "")
        (ignoring_not_found (Delete KServiceInstance (resource instanceID)));
  mret {| IsAsync := true; OperationData := "deprovision-" +:+ instanceID |}.

Definition provisionLastOperation (instanceID : string) : M LastOperation :=
  r ← try (Get KServiceInstance (resource instanceID));
  match r with
  | Fail err => if IsNotFound err then Err ErrInstanceNotFound else Err err
  | Ok btpServiceInstance => provisionInstanceStateResponse btpServiceInstance
  end.

Definition deprovisionLastOperation (instanceID : string) : M LastOperation :=
  r ← try (Get KServiceInstance (resource instanceID));
  match r with
  | Fail err => if IsNotFound err then mret {| lo_State := Succeeded; lo_Description := "" |}
                else Err err
  | Ok btpServiceInstance => deprovisionInstanceStateResponse btpServiceInstance
  end.

Definition unknown_operation (operationData : string) : error :=
  ErrText ("unknown operation " +:+ operationData).

Definition Broker_LastOperation (instanceID operationData : string) : M LastOperation :=
  if HasPrefix operationData "provision-" then provisionLastOperation instanceID
  else if HasPrefix operationData "deprovision-" then deprovisionLastOperation instanceID
  else Err (unknown_operation operationData).

Definition bindLastOperation (bindingID : string) : M LastOperation :=
  r ← try (Get KServiceBinding (resource bindingID));
  match r with
  | Fail err => if IsNotFound err then Err ErrBindingDoesNotExist else Err err
  | Ok btpBinding => bindingStateResponse btpBinding
  end.

Definition unbindLastOperation (bindingID : string) : M LastOperation :=
  r ← try (Get KServiceBinding (resource bindingID));
  match r with
  | Fail err => if IsNotFound err then mret {| lo_State := Succeeded; lo_Description := "" |}
                else Err err
  | Ok btpServiceBinding => unbindStateResponse btpServiceBinding
  end.

Definition LastBindingOperation (instanceID bindingID operationData : string) : M LastOperation :=
  if HasPrefix operationData "bind-" then bindLastOperation bindingID
  else if HasPrefix operationData "unbind-" then unbindLastOperation bindingID
  else Err (unknown_operation operationData).

Definition getCredentials (instanceID : string) : M Value :=
  bindingSecret ← wrapping (fun err => ErrWrap "failed to get binding Secret: " err "")
                    (Get KSecret (resource instanceID));
  of_result (credentialsDecoder b (secret_Data bindingSecret)).

(** The closure that fills the binding. *)
Definition binding_spec (instanceID bindingID parameters : string)
    (o : object KServiceBinding) : object KServiceBinding :=
  {| sb_meta := sb_meta o;
     sb_Spec := {| sb_ServiceInstanceName := instanceID; sb_SecretName := bindingID;
                   sb_Parameters := Some parameters |};
     sb_Conditions := sb_Conditions o; sb_OperationType := sb_OperationType o |}.

Definition Bind (instanceID bindingID : string) (details : BindDetails) : M Binding :=
  btpBinding ← wrapping (fun err => ErrWrap "failed to create btp service binding: " err "")
    (Call (S:=ext) (CCreateOrPatch KServiceBinding (resource bindingID)
       (binding_spec instanceID bindingID (bd_RawParameters details))) of_result);
  lastOperation ← wrapping (fun err => ErrWrap "failed to get last binding operation: " err "")
    (LastBindingOperation instanceID bindingID ("bind-" +:+ bindingID));
  if decide (lo_State lastOperation = Succeeded) then
    credentials ← wrapping (fun err => ErrWrap "failed to get binding credentials: " err "")
      (getCredentials (Name (sb_meta btpBinding)));
    mret {| b_Credentials := Some credentials; b_IsAsync := false;
            b_OperationData := "bind-" +:+ bindingID |}
  else mret {| b_Credentials := None; b_IsAsync := true; b_OperationData := "bind-" +:+ bindingID |}.

Definition Unbind (instanceID bindingID : string) : M Spec :=
  _ ← wrapping (fun err => ErrWrap "failed to delete btp service binding: " err "")
        (ignoring_not_found (Delete KServiceBinding (resource bindingID)));
  mret {| IsAsync := true; OperationData := "unbind-" +:+ bindingID |}.

Definition not_implemented : error := ErrText "not implemented".
Definition GetBinding (instanceID bindingID : string) : M unit := Err not_implemented.
Definition GetInstance (instanceID : string) : M unit := Err not_implemented.
Definition Broker_Update (instanceID : string) : M unit := Err not_implemented.
End Broker.
