(* ===== verification/BrokerSpec.v ===== *)
(** * Correctness of the BTP service broker

    The catalogue, what provisioning and binding change, and what polling
    reports (src/components/btp-service-broker/btp/broker.go). *)

From S2P Require Export Broker.

#[local] Open Scope Z_scope.
#[local] Open Scope list_scope.

(** ** The catalogue *)

Section Catalogue.
Context {it : ItLib} {itlaws : ItLaws} {jsonp : JsonParser} {lib : BrokerLib}.

Lemma try_map_Ok {E A B} (f : A -> result E B) l l' :
  try_map f l = Ok l' <-> Forall2 (fun x y => f x = Ok y) l l'.
Proof.
  revert l'. induction l as [|x l IH]; intros l'; cbn.
  - split; [intros [= <-]; constructor|intros H; by inversion H].
  - split.
    + destruct (f x) as [y|err] eqn:Hx; [|done]. destruct (try_map f l) as [ys|err]; [|done].
      intros [= <-]. constructor; [done|]. by apply IH.
    + intros H. inversion H as [|? y ? ys Hx Hys]; subst. rewrite Hx.
      by rewrite (proj2 (IH ys) Hys).
Qed.

(** A listed plan shows a service manager plan. *)
Definition shows_plan (p : SMPlan) (q : ServicePlan) : Prop :=
  plan_ID q = smp_ID p /\ plan_Name q = smp_Name p /\ plan_Description q = smp_Description p
  /\ plan_Free q = Some (smp_Free p) /\ plan_Bindable q = Some (smp_Bindable p)
  /\ (plan_Metadata q = None <-> smp_Metadata p = "").

(** A service shows an offering, with exactly the plans of that offering. *)
Definition shows_offering (plans : list SMPlan) (o : SMOffering) (s : DomainService) : Prop :=
  svc_ID s = smo_ID o /\ svc_Name s = smo_Name o /\ svc_Description s = smo_Description o
  /\ svc_Bindable s = smo_Bindable o /\ svc_PlanUpdatable s = smo_PlanUpdatable o
  /\ Forall2 shows_plan (filter (fun p => smp_ServiceOfferingID p = smo_ID o) plans) (svc_Plans s).

Lemma unmarshal_None {T} (d : decoder T) zero data :
  unmarshal d zero data = Ok None <-> data = "".
Proof.
  unfold unmarshal. case_decide as H.
  - by destruct data.
  - split; [by destruct (Unmarshal d zero data)|by intros ->].
Qed.

Lemma toPlan_shows p q : toPlan p = Ok q -> shows_plan p q.
Proof.
  unfold toPlan. destruct (unmarshal decode_ServicePlanMetadata _ (smp_Metadata p)) as [m|err] eqn:Hm; [|done].
  intros [= <-]. unfold shows_plan. cbn. split_and!; try done.
  rewrite <- (unmarshal_None decode_ServicePlanMetadata zero_ServicePlanMetadata), Hm.
  split; [by intros ->|by intros [= ->]].
Qed.

Lemma selectPlans_shows id plans qs :
  selectPlansForOffering id plans = Ok qs ->
  Forall2 shows_plan (filter (fun p => smp_ServiceOfferingID p = id) plans) qs.
Proof.
  unfold selectPlansForOffering. rewrite it_Filter_spec, it_TryCollect_spec.
  assert (List.filter (fun plan => bool_decide (smp_ServiceOfferingID plan = id)) plans
          = filter (fun p => smp_ServiceOfferingID p = id) plans) as ->.
  { induction plans as [|p plans IH]; [done|]. cbn [List.filter]. rewrite filter_cons, IH.
    by case_bool_decide; case_decide. }
  intros H%try_map_Ok. eapply Forall2_impl; [exact H|]. intros p q. apply toPlan_shows.
Qed.

Lemma toService_shows plans o s : toService plans o = Ok s -> shows_offering plans o s.
Proof.
  unfold toService. repeat (case_match; try done). intros [= <-].
  unfold shows_offering. cbn. split_and!; try done. by apply selectPlans_shows.
Qed.

(** (C33) The catalogue shows every offering of the service manager, in its
    order, as one service; the plans of the service are exactly the plans
    that name the offering, in their order and each once, so no plan shows
    up under another service; and metadata is left out exactly where the
    service manager has none. *)
Theorem Services_catalogue (e : Env) w services w' :
  run e Services w = (Returned services, w') ->
  exists offerings plans w1,
    answer e CListOfferings w = (Ok offerings, w1) /\ answer e CListPlans w1 = (Ok plans, w')
    /\ Forall2 (shows_offering plans) offerings services.
Proof.
  unfold Services, ListOfferings, ListPlans. go_simpl.
  destruct (answer e CListOfferings w) as [[offerings|err] w1]; [|done]. cbn. go_simpl.
  destruct (answer e CListPlans w1) as [[plans|err] w2] eqn:Hplans; [|done]. cbn. go_simpl.
  rewrite it_TryCollect_spec.
  destruct (try_map (toService plans) offerings) as [l|err] eqn:Hl; [|done].
  intros [= <- <-]. exists offerings, plans, w1. split_and!; try done.
  eapply Forall2_impl; [exact (proj1 (try_map_Ok _ _ _) Hl)|]. intros o s. apply toService_shows.
Qed.
End Catalogue.

(** ** Polling *)

Section Polling.
Context {it : ItLib} {itlaws : ItLaws} {meta : MetaLib} {metalaws : MetaLaws}.

(** The condition of a type that is true and about the current generation. *)
Definition current (conditions : list Condition) (generation : Z) (type : string) (c : Condition) : Prop :=
  c ∈ conditions /\ c_Type c = type /\ c_Status c = ConditionTrue
  /\ c_ObservedGeneration c = generation.

Abbreviation holds cs g type := (exists c, current cs g type c).

(** What polling a creation or a deletion reports, given the conditions of
    the object, its generation and the type of its current operation. *)
Inductive creation_state (cs : list Condition) (g : Z) (op : string) : LastOperation -> Prop :=
| creation_succeeded :
    holds cs g "Succeeded" -> creation_state cs g op {| lo_State := "succeeded"; lo_Description := "" |}
| creation_failed c :
    ~ holds cs g "Succeeded" -> current cs g "Failed" c ->
    creation_state cs g op {| lo_State := "failed"; lo_Description := c_Message c |}
| creation_in_progress :
    ~ holds cs g "Succeeded" -> ~ holds cs g "Failed" -> op = "create" ->
    creation_state cs g op {| lo_State := "in progress"; lo_Description := "" |}
| creation_unknown :
    ~ holds cs g "Succeeded" -> ~ holds cs g "Failed" -> op <> "create" ->
    creation_state cs g op {| lo_State := ""; lo_Description := "" |}.

Inductive deletion_state (cs : list Condition) (g : Z) (op : string) : LastOperation -> Prop :=
| deletion_failed c :
    current cs g "Failed" c ->
    deletion_state cs g op {| lo_State := "failed"; lo_Description := c_Message c |}
| deletion_in_progress :
    ~ holds cs g "Failed" -> op = "delete" ->
    deletion_state cs g op {| lo_State := "in progress"; lo_Description := "" |}
| deletion_unknown :
    ~ holds cs g "Failed" -> op <> "delete" ->
    deletion_state cs g op {| lo_State := ""; lo_Description := "" |}.

Definition unique_types (cs : list Condition) : Prop := NoDup (map c_Type cs).

Lemma unique_type cs c d : unique_types cs -> c ∈ cs -> d ∈ cs -> c_Type c = c_Type d -> c = d.
Proof.
  unfold unique_types. induction cs as [|x cs IH]; [set_solver|]. cbn. intros [Hx Hnd]%NoDup_cons Hc Hd Ht.
  apply elem_of_cons in Hc as [->|Hc], Hd as [->|Hd]; try done.
  - exfalso. apply Hx. rewrite Ht. by apply list_elem_of_fmap_2.
  - exfalso. apply Hx. rewrite <- Ht. by apply list_elem_of_fmap_2.
  - by apply IH.
Qed.

Lemma find_type_Some cs type c :
  FindStatusCondition cs type = Some c -> c ∈ cs /\ c_Type c = type.
Proof.
  rewrite FindStatusCondition_spec. intros [Hin Ht%bool_decide_eq_true]%find_some.
  by rewrite <- list_elem_of_In in Hin.
Qed.

Lemma find_type_None cs type c :
  FindStatusCondition cs type = None -> c ∈ cs -> c_Type c <> type.
Proof.
  rewrite FindStatusCondition_spec. intros Hn Hc Ht.
  apply list_elem_of_In in Hc. apply (find_none _ _ Hn) in Hc. by apply bool_decide_eq_false in Hc.
Qed.

Lemma find_type_unique cs c :
  unique_types cs -> c ∈ cs -> FindStatusCondition cs (c_Type c) = Some c.
Proof.
  intros Hu Hc. destruct (FindStatusCondition cs (c_Type c)) as [d|] eqn:Hf.
  - apply find_type_Some in Hf as [Hd Ht]. f_equal. by apply (unique_type cs).
  - by destruct (find_type_None _ _ c Hf Hc).
Qed.

Definition latest (cs : list Condition) (g : Z) : list Condition :=
  elems (Collect (it_Filter (fun c => bool_decide (c_ObservedGeneration c = g)) cs)).

Lemma elem_of_latest cs g c : c ∈ latest cs g <-> c ∈ cs /\ c_ObservedGeneration c = g.
Proof.
  unfold latest. rewrite elems_Collect, it_Filter_spec, !list_elem_of_In, filter_In.
  by rewrite bool_decide_eq_true.
Qed.

(** With at most one condition per type, the code's test says whether there
    is a current one. *)
Lemma latest_true cs g type :
  unique_types cs -> IsStatusConditionTrue (latest cs g) type = true <-> holds cs g type.
Proof.
  intros Hu. rewrite IsStatusConditionTrue_spec.
  destruct (FindStatusCondition (latest cs g) type) as [c|] eqn:Hf.
  - apply find_type_Some in Hf as [Hc Ht]. rewrite elem_of_latest in Hc.
    rewrite bool_decide_eq_true. split.
    + intros Hs. exists c. by destruct Hc.
    + intros (d & Hd & Htd & Hs & _). rewrite (unique_type cs c d); [done|done|tauto|done|congruence].
  - split; [done|]. intros (d & Hd & Htd & _ & Hg).
    exfalso. apply (find_type_None _ _ d Hf); [|done]. by rewrite elem_of_latest.
Qed.

Lemma run_message_of (e : Env) cs g type c w :
  unique_types cs -> current cs g type c ->
  run e (message_of cs type) w = (Returned (c_Message c), w).
Proof.
  intros Hu (Hc & <- & _ & _). unfold message_of. rewrite run_bind.
  by rewrite (find_type_unique cs c Hu Hc).
Qed.

(** *** The four responses against the specification *)

(** The reports are unambiguous. *)
Lemma creation_state_unique cs g op lo lo' :
  unique_types cs -> creation_state cs g op lo -> creation_state cs g op lo' -> lo = lo'.
Proof.
  intros Hu H1 H2.
  assert (Hfail : forall c d, current cs g "Failed" c -> current cs g "Failed" d -> c = d).
  { intros c d (Hc & Htc & _) (Hd & Htd & _). apply (unique_type cs); [done..|congruence]. }
  destruct H1 as [Hs|c Hs Hc|Hs Hc Ho|Hs Hc Ho]; inversion H2 as [Hs'|d Hs' Hd|Hs' Hd Ho'|Hs' Hd Ho'];
    subst; try done; try tauto; try (by exfalso; eauto).
  by rewrite (Hfail c d).
Qed.

Lemma deletion_state_unique cs g op lo lo' :
  unique_types cs -> deletion_state cs g op lo -> deletion_state cs g op lo' -> lo = lo'.
Proof.
  intros Hu H1 H2.
  assert (Hfail : forall c d, current cs g "Failed" c -> current cs g "Failed" d -> c = d).
  { intros c d (Hc & Htc & _) (Hd & Htd & _). apply (unique_type cs); [done..|congruence]. }
  destruct H1 as [c Hc|Hc Ho|Hc Ho]; inversion H2 as [d Hd|Hd Ho'|Hd Ho'];
    subst; try done; try (by exfalso; eauto).
  by rewrite (Hfail c d).
Qed.

(** The common body of the responses to a creation and to a deletion. *)
Definition creation_response (cs : list Condition) (g : Z) (op : string) : M LastOperation :=
  if IsStatusConditionTrue (latest cs g) "Succeeded"
  then mret {| lo_State := "succeeded"; lo_Description := "" |}
  else if IsStatusConditionTrue (latest cs g) "Failed"
  then description ← message_of cs "Failed";
       mret {| lo_State := Failed; lo_Description := description |}
  else if decide (op = "create")
  then mret {| lo_State := "in progress"; lo_Description := "" |}
  else mret zero_LastOperation.

Definition deletion_response (cs : list Condition) (g : Z) (op : string) : M LastOperation :=
  if IsStatusConditionTrue (latest cs g) "Failed"
  then description ← message_of cs "Failed";
       mret {| lo_State := Failed; lo_Description := description |}
  else if decide (op = "delete")
  then mret {| lo_State := InProgress; lo_Description := "" |}
  else mret zero_LastOperation.

Lemma IsStatusConditionTrue_false cs g type :
  unique_types cs -> IsStatusConditionTrue (latest cs g) type = false -> ~ holds cs g type.
Proof. intros Hu Hf Hh. apply latest_true in Hh; [congruence|done]. Qed.

Lemma run_creation_response (e : Env) cs g op w :
  unique_types cs ->
  exists lo, run e (creation_response cs g op) w = (Returned lo, w) /\ creation_state cs g op lo.
Proof.
  intros Hu. unfold creation_response.
  destruct (IsStatusConditionTrue (latest cs g) "Succeeded") eqn:Hs.
  - eexists. split; [done|]. apply creation_succeeded. by apply latest_true.
  - apply IsStatusConditionTrue_false in Hs; [|done].
    destruct (IsStatusConditionTrue (latest cs g) "Failed") eqn:Hf.
    + apply latest_true in Hf as [c Hc]; [|done]. rewrite run_bind, (run_message_of e cs g _ c) by done.
      eexists. split; [done|]. by apply creation_failed.
    + apply IsStatusConditionTrue_false in Hf; [|done].
      case_decide; (eexists; split; [done|]); [by apply creation_in_progress|by apply creation_unknown].
Qed.

Lemma run_deletion_response (e : Env) cs g op w :
  unique_types cs ->
  exists lo, run e (deletion_response cs g op) w = (Returned lo, w) /\ deletion_state cs g op lo.
Proof.
  intros Hu. unfold deletion_response.
  destruct (IsStatusConditionTrue (latest cs g) "Failed") eqn:Hf.
  - apply latest_true in Hf as [c Hc]; [|done]. rewrite run_bind, (run_message_of e cs g _ c) by done.
    eexists. split; [done|]. by apply deletion_failed.
  - apply IsStatusConditionTrue_false in Hf; [|done].
    case_decide; (eexists; split; [done|]); [by apply deletion_in_progress|by apply deletion_unknown].
Qed.

Context {lib : BrokerLib} (b : BTPBroker) (e : Env).

(** (C36) Polling a provisioning, given that Kubernetes keeps the condition
    types of an object distinct.  Only conditions about the current
    generation of the instance count.  It reports success exactly when one
    of them says Succeeded, failure with the message of the current Failed
    condition when there is no success, progress when there is neither and
    the current operation is a creation, and otherwise the empty state; an
    instance that does not exist is the error the broker API defines for it.
    It never panics. *)
Theorem provision_polling instanceID w r w' :
  answer e (CGet KServiceInstance (resource b instanceID)) w = (r, w') ->
  match r with
  | Fail err =>
      run e (provisionLastOperation b instanceID) w
      = (Errored (if IsNotFound err then ErrInstanceNotFound else err), w')
  | Ok i =>
      unique_types (si_Conditions i) ->
      forall lo, run e (provisionLastOperation b instanceID) w = (Returned lo, w')
                 <-> creation_state (si_Conditions i) (Generation (si_meta i)) (si_OperationType i) lo
  end.
Proof.
  intros Ha. unfold provisionLastOperation.
  destruct r as [i|err]; [intros Hu lo|]; rewrite run_bind, run_try, run_Get, Ha.
  - change (provisionInstanceStateResponse i)
      with (creation_response (si_Conditions i) (Generation (si_meta i)) (si_OperationType i)).
    destruct (run_creation_response e (si_Conditions i) (Generation (si_meta i)) (si_OperationType i) w' Hu)
      as (lo' & -> & Hlo'). split.
    + by intros [= <-].
    + intros Hlo. by rewrite (creation_state_unique _ _ _ _ _ Hu Hlo Hlo').
  - by destruct (IsNotFound err).
Qed.

(** Polling a binding follows the same rules. *)
Theorem bind_polling bindingID w r w' :
  answer e (CGet KServiceBinding (resource b bindingID)) w = (r, w') ->
  match r with
  | Fail err =>
      run e (bindLastOperation b bindingID) w
      = (Errored (if IsNotFound err then ErrBindingDoesNotExist else err), w')
  | Ok o =>
      unique_types (sb_Conditions o) ->
      forall lo, run e (bindLastOperation b bindingID) w = (Returned lo, w')
                 <-> creation_state (sb_Conditions o) (Generation (sb_meta o)) (sb_OperationType o) lo
  end.
Proof.
  intros Ha. unfold bindLastOperation.
  destruct r as [o|err]; [intros Hu lo|]; rewrite run_bind, run_try, run_Get, Ha.
  - change (bindingStateResponse o)
      with (creation_response (sb_Conditions o) (Generation (sb_meta o)) (sb_OperationType o)).
    destruct (run_creation_response e (sb_Conditions o) (Generation (sb_meta o)) (sb_OperationType o) w' Hu)
      as (lo' & -> & Hlo'). split.
    + by intros [= <-].
    + intros Hlo. by rewrite (creation_state_unique _ _ _ _ _ Hu Hlo Hlo').
  - by destruct (IsNotFound err).
Qed.

(** Polling a deprovisioning reports success exactly when the instance
    is gone; while it exists, it reports the failure of the current
    generation with its message, or progress when the current operation is a
    deletion, or the empty state. *)
Theorem deprovision_polling instanceID w r w' :
  answer e (CGet KServiceInstance (resource b instanceID)) w = (r, w') ->
  match r with
  | Fail err =>
      run e (deprovisionLastOperation b instanceID) w
      = (if IsNotFound err then Returned {| lo_State := "succeeded"; lo_Description := "" |}
         else Errored err, w')
  | Ok i =>
      unique_types (si_Conditions i) ->
      forall lo, run e (deprovisionLastOperation b instanceID) w = (Returned lo, w')
                 <-> deletion_state (si_Conditions i) (Generation (si_meta i)) (si_OperationType i) lo
  end.
Proof.
  intros Ha. unfold deprovisionLastOperation.
  destruct r as [i|err]; [intros Hu lo|]; rewrite run_bind, run_try, run_Get, Ha.
  - change (deprovisionInstanceStateResponse i)
      with (deletion_response (si_Conditions i) (Generation (si_meta i)) (si_OperationType i)).
    destruct (run_deletion_response e (si_Conditions i) (Generation (si_meta i)) (si_OperationType i) w' Hu)
      as (lo' & -> & Hlo'). split.
    + by intros [= <-].
    + intros Hlo. by rewrite (deletion_state_unique _ _ _ _ _ Hu Hlo Hlo').
  - by destruct (IsNotFound err).
Qed.

(** Polling an unbinding follows the same rules. *)
Theorem unbind_polling bindingID w r w' :
  answer e (CGet KServiceBinding (resource b bindingID)) w = (r, w') ->
  match r with
  | Fail err =>
      run e (unbindLastOperation b bindingID) w
      = (if IsNotFound err then Returned {| lo_State := "succeeded"; lo_Description := "" |}
         else Errored err, w')
  | Ok o =>
      unique_types (sb_Conditions o) ->
      forall lo, run e (unbindLastOperation b bindingID) w = (Returned lo, w')
                 <-> deletion_state (sb_Conditions o) (Generation (sb_meta o)) (sb_OperationType o) lo
  end.
Proof.
  intros Ha. unfold unbindLastOperation.
  destruct r as [o|err]; [intros Hu lo|]; rewrite run_bind, run_try, run_Get, Ha.
  - change (unbindStateResponse o)
      with (deletion_response (sb_Conditions o) (Generation (sb_meta o)) (sb_OperationType o)).
    destruct (run_deletion_response e (sb_Conditions o) (Generation (sb_meta o)) (sb_OperationType o) w' Hu)
      as (lo' & -> & Hlo'). split.
    + by intros [= <-].
    + intros Hlo. by rewrite (deletion_state_unique _ _ _ _ _ Hu Hlo Hlo').
  - by destruct (IsNotFound err).
Qed.

(** *** The operation data *)

(** (C37) Polling finds the operation that was started: the operation data
    that provisioning, deprovisioning, binding and unbinding hand out select
    the matching poll, although the prefix of one is the end of the other's;
    data with none of the prefixes is an error and is not looked up. *)
Theorem operation_data_roundtrip instanceID bindingID details bind_details w :
  (forall s w', run e (Provision b instanceID details) w = (Returned s, w') ->
     IsAsync s = true
     /\ Broker_LastOperation b instanceID (OperationData s) = provisionLastOperation b instanceID)
  /\ (forall s w', run e (Deprovision b instanceID) w = (Returned s, w') ->
     IsAsync s = true
     /\ Broker_LastOperation b instanceID (OperationData s) = deprovisionLastOperation b instanceID)
  /\ (forall s w', run e (Bind b instanceID bindingID bind_details) w = (Returned s, w') ->
     LastBindingOperation b instanceID bindingID (b_OperationData s) = bindLastOperation b bindingID)
  /\ (forall s w', run e (Unbind b instanceID bindingID) w = (Returned s, w') ->
     IsAsync s = true
     /\ LastBindingOperation b instanceID bindingID (OperationData s) = unbindLastOperation b bindingID)
  /\ (forall data, HasPrefix data "provision-" = false -> HasPrefix data "deprovision-" = false ->
     Broker_LastOperation b instanceID data = Err (unknown_operation data)).
Proof.
  split_and!.
  - intros s w'. unfold Provision. rewrite run_bind.
    destruct (run e (getPlanByID _) w) as [[p|x|x] w1]; [|done|done]. rewrite run_bind.
    destruct (run e (getOfferingByID _) w1) as [[o|x|x] w2]; [|done|done]. rewrite run_bind.
    destruct (run e (wrapping _ _) w2) as [[?|x|x] w3]; [|done|done].
    intros [= <- _]. split; [done|]. unfold Broker_LastOperation. cbn [OperationData].
    by rewrite (HasPrefix_app "provision-").
  - intros s w'. unfold Deprovision. rewrite run_bind.
    destruct (run e (wrapping _ _) w) as [[?|x|x] w3]; [|done|done].
    intros [= <- _]. split; [done|]. unfold Broker_LastOperation. cbn [OperationData].
    assert (HasPrefix ("deprovision-" +:+ instanceID) "provision-" = false) as -> by done.
    by rewrite (HasPrefix_app "deprovision-").
  - intros s w'. unfold Bind. rewrite run_bind.
    destruct (run e (wrapping _ (Call (S:=ext) (CCreateOrPatch _ _ _) _)) w) as [[o|x|x] w1]; [|done|done].
    rewrite run_bind.
    destruct (run e (wrapping _ (LastBindingOperation _ _ _ _)) w1) as [[lo|x|x] w2]; [|done|done].
    assert (Hdata : LastBindingOperation b instanceID bindingID ("bind-" +:+ bindingID)
      = bindLastOperation b bindingID)
      by (unfold LastBindingOperation; by rewrite (HasPrefix_app "bind-")).
    case_decide; [|by intros [= <- _]]. rewrite run_bind.
    destruct (run e (wrapping _ _) w2) as [[c|x|x] w3]; [|done|done]. by intros [= <- _].
  - intros s w'. unfold Unbind. rewrite run_bind.
    destruct (run e (wrapping _ _) w) as [[?|x|x] w3]; [|done|done].
    intros [= <- _]. split; [done|]. unfold LastBindingOperation. cbn [OperationData].
    assert (HasPrefix ("unbind-" +:+ bindingID) "bind-" = false) as -> by done.
    by rewrite (HasPrefix_app "unbind-").
  - intros data H1 H2. unfold Broker_LastOperation. by rewrite H1, H2.
Qed.

(** *** What the operations change *)

(** The first record with an ID. *)
Definition first_with {A} (id : A -> string) (key : string) (l : list A) (x : A) : Prop :=
  exists before after, l = before ++ x :: after /\ id x = key /\ Forall (fun y => id y <> key) before.

Lemma find_plan_spec id plans :
  match find_plan id plans with
  | Some p => first_with smp_ID id plans p
  | None => Forall (fun p => smp_ID p <> id) plans
  end.
Proof.
  induction plans as [|p plans IH]; cbn; [done|]. case_decide as H.
  - exists [], plans. by repeat split.
  - destruct (find_plan id plans) as [q|].
    + destruct IH as (l1 & l2 & -> & Hq & Hl). exists (p :: l1), l2. repeat split; try done. by constructor.
    + by constructor.
Qed.

Lemma find_offering_spec id offerings :
  match find_offering id offerings with
  | Some o => first_with smo_ID id offerings o
  | None => Forall (fun o => smo_ID o <> id) offerings
  end.
Proof.
  induction offerings as [|p offerings IH]; cbn; [done|]. case_decide as H.
  - exists [], offerings. by repeat split.
  - destruct (find_offering id offerings) as [q|].
    + destruct IH as (l1 & l2 & -> & Hq & Hl). exists (p :: l1), l2. repeat split; try done. by constructor.
    + by constructor.
Qed.

Lemma run_getPlanByID id w plans w1 :
  answer e CListPlans w = (Ok plans, w1) ->
  run e (getPlanByID id) w =
  (match find_plan id plans with
   | Some p => Returned p
   | None => Errored (ErrText ("plan with ID " +:+ id +:+ " not found"))
   end, w1)
  /\ mutations e (getPlanByID id) w = [].
Proof.
  intros Hp. unfold getPlanByID, ListPlans. rewrite run_bind, run_wrapping, mutations_bind, mutations_wrapping, run_wrapping.
  unfold mutations at 1. cbn. rewrite Hp. cbn. by destruct (find_plan id plans).
Qed.

Lemma run_getOfferingByID id w offerings w1 :
  answer e CListOfferings w = (Ok offerings, w1) ->
  run e (getOfferingByID id) w =
  (match find_offering id offerings with
   | Some o => Returned o
   | None => Errored (ErrText ("offering with ID " +:+ id +:+ " not found"))
   end, w1)
  /\ mutations e (getOfferingByID id) w = [].
Proof.
  intros Hp. unfold getOfferingByID, ListOfferings. rewrite run_bind, run_wrapping, mutations_bind, mutations_wrapping, run_wrapping.
  unfold mutations at 1. cbn. rewrite Hp. cbn. by destruct (find_offering id offerings).
Qed.

(** (C34) Provisioning, when the service manager can be asked.  If both the
    plan and the offering of the request exist, there is exactly one change
    to the cluster: the service instance of the given ID in the broker's
    namespace is created or patched, and its spec becomes the names of the
    first plan and the first offering with these IDs, whatever it was
    before, so that repeating the request changes nothing; nothing else of
    the instance is touched.  If one of them does not exist, nothing is
    changed and the request fails.  The plan is not required to belong to
    the offering. *)
Theorem Provision_creates instanceID details w plans w1 offerings w2 :
  answer e CListPlans w = (Ok plans, w1) -> answer e CListOfferings w1 = (Ok offerings, w2) ->
  match find_plan (pd_PlanID details) plans, find_offering (pd_ServiceID details) offerings with
  | Some plan, Some offering =>
      first_with smp_ID (pd_PlanID details) plans plan
      /\ first_with smo_ID (pd_ServiceID details) offerings offering
      /\ exists fill,
           mutations e (Provision b instanceID details) w
           = [CCreateOrPatch KServiceInstance (resource b instanceID) fill]
           /\ forall i, si_Spec (fill i) =
                  {| si_ServiceOfferingName := smo_Name offering; si_ServicePlanName := smp_Name plan;
                     si_ServicePlanID := smp_ID plan; si_Parameters := Some (pd_RawParameters details) |}
                /\ fill (fill i) = fill i
                /\ (si_meta (fill i), si_Conditions (fill i), si_OperationType (fill i))
                   = (si_meta i, si_Conditions i, si_OperationType i)
  | _, _ =>
      mutations e (Provision b instanceID details) w = []
      /\ exists err w', run e (Provision b instanceID details) w = (Errored err, w')
  end.
Proof.
  intros Hp Ho. unfold Provision. rewrite run_bind, mutations_bind.
  destruct (run_getPlanByID (pd_PlanID details) w plans w1 Hp) as [-> ->].
  pose proof (find_plan_spec (pd_PlanID details) plans) as Hplan.
  destruct (find_plan (pd_PlanID details) plans) as [plan|]; [|by split; eauto].
  rewrite run_bind, mutations_bind.
  destruct (run_getOfferingByID (pd_ServiceID details) w1 offerings w2 Ho) as [-> ->].
  pose proof (find_offering_spec (pd_ServiceID details) offerings) as Hoff.
  destruct (find_offering (pd_ServiceID details) offerings) as [offering|]; [|by split; eauto].
  split; [done|]. split; [done|].
  exists (instance_spec offering plan (pd_RawParameters details)). split; [|by intros i].
  cbn [app]. rewrite mutations_bind, mutations_wrapping, run_wrapping.
  unfold mutations. cbn. by destruct (answer e (CCreateOrPatch _ _ _) w2) as [[o|x] w3].
Qed.

(** The binding read back is reported successful. *)
Definition bound (o : ServiceBinding) : Prop :=
  IsStatusConditionTrue (latestBindingStatusConditions o) "Succeeded" = true.

Lemma run_bindLastOperation_inv bindingID w lo w' :
  run e (bindLastOperation b bindingID) w = (Returned lo, w') ->
  exists o, answer e (CGet KServiceBinding (resource b bindingID)) w = (Ok o, w')
    /\ (lo_State lo = Succeeded <-> bound o).
Proof.
  unfold bindLastOperation. rewrite run_bind, run_try, run_Get.
  destruct (answer e (CGet KServiceBinding _) w) as [[o|err] w1]; [|by destruct (IsNotFound err)].
  intros H. exists o. unfold bindingStateResponse in H. unfold bound.
  destruct (IsStatusConditionTrue _ "Succeeded"); [by injection H as <- <-|].
  assert (w1 = w' /\ lo_State lo <> Succeeded) as [-> Hne]; [|by split].
  destruct (IsStatusConditionTrue _ "Failed").
  - unfold message_of in H. rewrite !run_bind in H.
    destruct (FindStatusCondition _ _); [|done]. by injection H as <- <-.
  - case_decide; by injection H as <- <-.
Qed.

Lemma reads_bindLastOperation bindingID : only_calls (S:=ext) is_read (bindLastOperation b bindingID).
Proof.
  unfold bindLastOperation. apply only_calls_bind; [by apply only_calls_try, only_calls_Get|].
  intros [o|err]; [|by case_match]. unfold bindingStateResponse, message_of.
  repeat case_match; try exact I. apply only_calls_bind; [|done].
  apply only_calls_bind; [apply only_calls_deref|]. done.
Qed.

Lemma reads_getCredentials name : only_calls (S:=ext) is_read (getCredentials b name).
Proof.
  unfold getCredentials. apply only_calls_bind; [by apply only_calls_wrapping, only_calls_Get|].
  intros s. apply only_calls_of_result.
Qed.

Lemma run_CreateOrPatch k key fill f w :
  let p := wrapping f (Call (S:=ext) (CCreateOrPatch k key fill) of_result) in
  run e p w = (match answer e (CCreateOrPatch k key fill) w with
               | (Ok o, w1) => (Returned o, w1)
               | (Fail err, w1) => (Errored (f err), w1)
               end)
  /\ mutations e p w = [CCreateOrPatch k key fill].
Proof.
  cbn zeta. rewrite run_wrapping, mutations_wrapping. unfold mutations. cbn.
  by destruct (answer e (CCreateOrPatch k key fill) w) as [[o|err] w1].
Qed.

(** (C35) Binding makes one change to the cluster: it creates or patches the
    service binding of the given ID for the given instance, whose secret
    gets the name of the binding.  It returns credentials, and is then not
    asynchronous, exactly when the binding read back is reported successful;
    the credentials are what the decoder makes of the data of the secret
    that has the name of the binding the server answered. *)
Theorem Bind_credentials instanceID bindingID details w binding w' :
  run e (Bind b instanceID bindingID details) w = (Returned binding, w') ->
  exists fill o w1 read_back w2,
    mutations e (Bind b instanceID bindingID details) w
    = [CCreateOrPatch KServiceBinding (resource b bindingID) fill]
    /\ (forall x, sb_Spec (fill x) = {| sb_ServiceInstanceName := instanceID; sb_SecretName := bindingID;
                                        sb_Parameters := Some (bd_RawParameters details) |})
    /\ answer e (CCreateOrPatch KServiceBinding (resource b bindingID) fill) w = (Ok o, w1)
    /\ answer e (CGet KServiceBinding (resource b bindingID)) w1 = (Ok read_back, w2)
    /\ (bound read_back <-> is_Some (b_Credentials binding))
    /\ (b_IsAsync binding = false <-> is_Some (b_Credentials binding))
    /\ (forall v, b_Credentials binding = Some v ->
         exists secret, answer e (CGet KSecret (resource b (Name (sb_meta o)))) w2 = (Ok secret, w')
           /\ credentialsDecoder b (secret_Data secret) = Ok v).
Proof.
  intros Hrun. exists (binding_spec instanceID bindingID (bd_RawParameters details)).
  unfold Bind in *. rewrite run_bind in Hrun. rewrite mutations_bind.
  match goal with |- context [wrapping ?f (Call ?c of_result)] =>
    destruct (run_CreateOrPatch KServiceBinding (resource b bindingID)
      (binding_spec instanceID bindingID (bd_RawParameters details)) f w) as [Hcreate Hmut] end.
  cbn [object reply] in Hcreate, Hmut, Hrun |- *.
  rewrite Hcreate in Hrun. rewrite Hcreate, Hmut.
  destruct (answer e (CCreateOrPatch KServiceBinding _ _) w) as [[o|err] w1] eqn:Ha; [|done].
  assert (Hdata : LastBindingOperation b instanceID bindingID ("bind-" +:+ bindingID)
      = bindLastOperation b bindingID)
    by (unfold LastBindingOperation; by rewrite (HasPrefix_app "bind-")).
  rewrite Hdata, run_bind, run_wrapping in Hrun. rewrite Hdata, mutations_bind, mutations_wrapping, run_wrapping.
  rewrite (mutations_reads e _ w1 (reads_bindLastOperation bindingID)).
  destruct (run e (bindLastOperation b bindingID) w1) as [[lo|err|why] w2] eqn:Hlo; [|done|done].
  destruct (run_bindLastOperation_inv _ _ _ _ Hlo) as (read_back & Hread & Hbound).
  exists o, w1, read_back, w2. cbn beta iota in Hrun |- *.
  rewrite (mutations_reads e _ w2); [|case_decide; [|exact I];
    apply only_calls_bind; [apply only_calls_wrapping, reads_getCredentials|done]].
  split; [done|]. split; [done|]. split; [done|]. split; [done|]. rewrite <- Hbound.
  destruct (decide (lo_State lo = Succeeded)) as [Hs|Hs].
  - unfold getCredentials in Hrun. rewrite run_bind, run_wrapping, run_bind, run_wrapping, run_Get in Hrun.
    destruct (answer e (CGet KSecret _) w2) as [[secret|err] w3] eqn:Hsec; [|done].
    rewrite run_of_result in Hrun.
    destruct (credentialsDecoder b (secret_Data secret)) as [v|err] eqn:Hv; [|done].
    injection Hrun as <- <-. cbn. split; [by split; [eexists|]|]. split; [by split; [eexists|]|].
    intros v' [= <-]. by exists secret.
  - injection Hrun as <- <-. cbn. split; [by split; [|intros [? ?]]|].
    split; [by split; [|intros [? ?]]|done].
Qed.
End Polling.
