(* ===== verification/Credentials.v ===== *)
(** * Decoding the credentials of a binding

    Models src/components/btp-service-broker/btp/bindings/credentials.go: the
    decoder that restores the credentials object from the secret the BTP
    operator wrote. *)

From S2P Require Export Broker.

#[local] Open Scope Z_scope.
#[local] Open Scope list_scope.

Record credentialProperties := { property_Name : string; property_Format : string }.
Record bindingCredentialMetadata := { CredentialProperties : list credentialProperties }.

(** [fmt.Sprintf("%v", bytes)]: the bytes in decimal, in brackets. *)
Definition show_bytes (s : string) : string :=
  "[" +:+ Join (map (fun c => Itoa (byte_of c)) (String.list_ascii_of_string s)) " " +:+ "]".

Section Decoder.
Context {jsonp : JsonParser} {uni : Unicode}.

(** The json tags of the two structs. *)
Definition decode_property : decoder credentialProperties :=
  decode_struct
    [("name", fun old j =>
        match decode_string (property_Name old) j with
        | Ok n => Ok {| property_Name := n; property_Format := property_Format old |}
        | Fail e => Fail e
        end);
     ("format", fun old j =>
        match decode_string (property_Format old) j with
        | Ok f => Ok {| property_Name := property_Name old; property_Format := f |}
        | Fail e => Fail e
        end)].

Definition zero_property : credentialProperties := {| property_Name := ""; property_Format := "" |}.

Definition decode_metadata : decoder bindingCredentialMetadata :=
  decode_struct
    [("credentialProperties", fun old j =>
        match decode_slice zero_property decode_property (CredentialProperties old) j with
        | Ok l => Ok {| CredentialProperties := l |}
        | Fail e => Fail e
        end)].

(** The loop of [decodeSecretKeys]. *)
Fixpoint decode_properties (secretData : gmap string string) (decodedObject : Values)
    (properties : list credentialProperties) : result error Values :=
  match properties with
  | [] => Ok decodedObject
  | property :: properties' =>
      match secretData !! property_Name property with
      | None => Fail (ErrText ("missing credentials property with name " +:+ Quote (property_Name property)))
      | Some encodedSecretValue =>
          if decide (property_Format property = "json") then
            match Unmarshal decode_any VNull encodedSecretValue with
            | Fail err => Fail (ErrWrap ("failed to unmarshal credentials property "
                                   +:+ Quote (property_Name property) +:+ ": ") err "")
            | Ok decodedValue =>
                decode_properties secretData
                  (<[property_Name property := decodedValue]> decodedObject) properties'
            end
          else if decide (property_Format property = "text") then
            decode_properties secretData
              (<[property_Name property := VString encodedSecretValue]> decodedObject) properties'
          else Fail (ErrText ("unsupported credentials property format "
                       +:+ Quote (property_Format property) +:+ " for property "
                       +:+ Quote (property_Name property)))
      end
  end.

Definition decodeSecretKeys (secretData : gmap string string) (properties : list credentialProperties)
    : result error Value :=
  match decode_properties secretData ∅ properties with
  | Ok decodedObject => Ok (VMap decodedObject)
  | Fail err => Fail err
  end.

Definition metadata_key : string := ".metadata".

Definition CredentialsDecoder_Decode (secretData : gmap string string) : result error Value :=
  match secretData !! metadata_key with
  | None => Fail (ErrText "secret data does not contain .metadata key")
  | Some metadataBytes =>
      match Unmarshal decode_metadata {| CredentialProperties := [] |} metadataBytes with
      | Fail err => Fail (ErrWrap ("failed to unmarshal " +:+ show_bytes metadataBytes
                             +:+ " into metadata: ") err "")
      | Ok metadata => decodeSecretKeys secretData (CredentialProperties metadata)
      end
  end.

(** [NewCredentialsDecoder]: the implementation of the broker's interface. *)
#[export] Instance NewCredentialsDecoder : CredentialsDecoder := CredentialsDecoder_Decode.
End Decoder.
