(* ===== verification/CredentialsSpec.v ===== *)
(** * Correctness of the credentials decoder

    What the decoder makes of a secret, and that it restores the credentials
    the BTP operator encoded (src/components/btp-service-broker/btp/bindings). *)

From S2P Require Export Credentials JsonText.

#[local] Open Scope Z_scope.
#[local] Open Scope list_scope.

Section Decoder.
Context {jsonp : JsonParser} {uni : Unicode}.

(** The value of one property, on its own. *)
Definition property_value (secretData : gmap string string) (p : credentialProperties)
    : result error Value :=
  match secretData !! property_Name p with
  | None => Fail (ErrText ("missing credentials property with name " +:+ Quote (property_Name p)))
  | Some encoded =>
      if decide (property_Format p = "json") then
        match json_parse encoded with
        | Fail err => Fail (ErrWrap ("failed to unmarshal credentials property "
                              +:+ Quote (property_Name p) +:+ ": ") err "")
        | Ok j => Ok (to_any j)
        end
      else if decide (property_Format p = "text") then Ok (VString encoded)
      else Fail (ErrText ("unsupported credentials property format "
                   +:+ Quote (property_Format p) +:+ " for property " +:+ Quote (property_Name p)))
  end.

Definition insert_all (m : Values) (kvs : list (string * Value)) : Values :=
  foldl (fun m kv => <[kv.1 := kv.2]> m) m kvs.

Lemma decode_properties_spec secretData m ps :
  decode_properties secretData m ps =
  match try_map (property_value secretData) ps with
  | Ok vs => Ok (insert_all m (zip (map property_Name ps) vs))
  | Fail err => Fail err
  end.
Proof.
  revert m. induction ps as [|p ps IH]; intros m; cbn [decode_properties try_map]; [done|].
  unfold property_value at 1. destruct (secretData !! property_Name p) as [encoded|]; [|done].
  case_decide.
  - unfold Unmarshal, decode_any. destruct (json_parse encoded) as [j|err]; [|done].
    rewrite IH. by destruct (try_map _ ps).
  - case_decide; [|done]. rewrite IH. by destruct (try_map _ ps).
Qed.

Lemma insert_all_lookup kvs m k :
  NoDup (map fst kvs) ->
  insert_all m kvs !! k =
  match (list_to_map kvs : Values) !! k with Some v => Some v | None => m !! k end.
Proof.
  revert m. induction kvs as [|[k' v'] kvs IH]; intros m; cbn; [by rewrite lookup_empty|].
  intros [Hnotin Hnd]%NoDup_cons. change (foldl _ ?a kvs) with (insert_all a kvs).
  rewrite IH by done. destruct (decide (k = k')) as [->|Hne].
  - rewrite (not_elem_of_list_to_map_1 kvs k') by done. by simplify_map_eq.
  - by simplify_map_eq.
Qed.

Lemma insert_all_empty kvs : NoDup (map fst kvs) -> insert_all ∅ kvs = list_to_map kvs.
Proof.
  intros Hnd. apply map_eq. intros k. rewrite insert_all_lookup by done.
  by destruct (_ !! k).
Qed.

Lemma zip_fst {A B} (l : list A) (l' : list B) : length l = length l' -> map fst (zip l l') = l.
Proof. intros H. apply fst_zip. lia. Qed.

Lemma try_map_length {E A B} (f : A -> result E B) l l' : try_map f l = Ok l' -> length l' = length l.
Proof.
  revert l'. induction l as [|x l IH]; intros l'; cbn; [by intros [= <-]|].
  destruct (f x); [|done]. destruct (try_map f l) as [ys|]; [|done]. intros [= <-]. cbn. by rewrite (IH ys).
Qed.

Lemma try_map_fail {E A B} (f : A -> result E B) l err :
  try_map f l = Fail err <->
  exists before x after, l = before ++ x :: after /\ f x = Fail err
    /\ Forall (fun y => is_ok (f y) = true) before.
Proof.
  induction l as [|x l IH]; cbn.
  - split; [done|]. by intros ([|? ?] & ? & ? & ? & _).
  - destruct (f x) as [y|e] eqn:Hx.
    + destruct (try_map f l) as [ys|e].
      * split; [done|]. intros (before & z & after & Heq & Hz & Hb).
        destruct before as [|w before]; cbn in Heq; injection Heq as -> ->; [congruence|].
        discriminate (proj2 IH (ex_intro _ before (ex_intro _ z (ex_intro _ after
          (conj eq_refl (conj Hz (Forall_inv_tail Hb))))))).
      * split.
        -- intros [= ->]. destruct (proj1 IH eq_refl) as (before & z & after & -> & Hz & Hb).
           exists (x :: before), z, after. repeat split; try done. constructor; [by rewrite Hx|done].
        -- intros (before & z & after & Heq & Hz & Hb).
           destruct before as [|w before]; cbn in Heq; injection Heq as -> ->; [congruence|].
           apply IH. exists before, z, after. inversion Hb. done.
    + split.
      * intros [= ->]. by exists [], x, l.
      * intros (before & z & after & Heq & Hz & Hb).
        destruct before as [|w before]; cbn in Heq; injection Heq as -> ->; [congruence|].
        inversion Hb as [|? ? Hw]. by rewrite Hx in Hw.
Qed.

(** The object of the values of the properties. *)
Lemma insert_all_values secretData ps vs :
  NoDup (map property_Name ps) -> try_map (property_value secretData) ps = Ok vs ->
  let m := insert_all ∅ (zip (map property_Name ps) vs) in
  (forall p, p ∈ ps -> exists x, property_value secretData p = Ok x /\ m !! property_Name p = Some x)
  /\ (forall k, is_Some (m !! k) -> k ∈ map property_Name ps).
Proof.
  intros Hnd Hvs m. pose proof (try_map_length _ _ _ Hvs) as Hlen.
  assert (Hfst : map fst (zip (map property_Name ps) vs) = map property_Name ps)
    by (apply zip_fst; by rewrite length_map).
  subst m. rewrite insert_all_empty by by rewrite Hfst.
  split.
  - clear Hfst Hlen. revert vs Hvs. induction ps as [|q ps IH]; intros vs Hvs p Hp; [set_solver|].
    cbn in Hvs. destruct (property_value secretData q) as [y|err] eqn:Hq; [|done].
    destruct (try_map (property_value secretData) ps) as [ys|err]; [|done]. injection Hvs as <-.
    cbn in Hnd. apply NoDup_cons in Hnd as [Hnotin Hnd]. cbn. apply elem_of_cons in Hp as [->|Hp].
    + exists y. split; [done|]. by simplify_map_eq.
    + destruct (IH Hnd ys eq_refl p Hp) as (x & Hx & Hm). exists x. split; [done|].
      rewrite lookup_insert_ne; [exact Hm|]. intros Heq. apply Hnotin. rewrite Heq.
      by apply list_elem_of_fmap_2.
  - intros k Hk. rewrite <- Hfst. destruct (decide (k ∈ map fst (zip (map property_Name ps) vs))) as [?|Hk']; [done|].
    apply not_elem_of_list_to_map_1 in Hk'. rewrite Hk' in Hk. by destruct Hk.
Qed.

Lemma decode_values secretData ps :
  NoDup (map property_Name ps) -> forall m,
  (forall p, p ∈ ps -> exists x, property_value secretData p = Ok x /\ m !! property_Name p = Some x) ->
  (forall k, is_Some (m !! k) -> k ∈ map property_Name ps) ->
  decodeSecretKeys secretData ps = Ok (VMap m).
Proof.
  intros Hnd m Hval Hdom. unfold decodeSecretKeys. rewrite decode_properties_spec.
  destruct (try_map (property_value secretData) ps) as [vs|err] eqn:Hvs.
  - do 2 f_equal. destruct (insert_all_values _ _ _ Hnd Hvs) as [Hval' Hdom'].
    apply map_eq. intros k. destruct (decide (k ∈ map property_Name ps)) as [Hk|Hk].
    + apply list_elem_of_fmap in Hk as (p & -> & Hp).
      destruct (Hval p Hp) as (x & Hx & ->), (Hval' p Hp) as (y & Hy & ->). congruence.
    + transitivity (@None Value); [|symmetry]; apply eq_None_not_Some; auto.
  - apply try_map_fail in Hvs as (before & p & after & -> & Hp & _).
    destruct (Hval p) as (x & Hx & _); [set_solver|congruence].
Qed.

(** What decoding the properties of a secret gives.  It succeeds
    exactly when each property has a value, and then, the names being
    distinct, gives an object that has under each name the value of that
    property and no other field; it fails exactly when some property has
    none, with the error of the first of them: a missing key, a value that
    is not JSON, or an unknown format. *)
Theorem decodeSecretKeys_spec secretData ps :
  NoDup (map property_Name ps) ->
  (forall v, decodeSecretKeys secretData ps = Ok v <->
     exists m, v = VMap m
       /\ (forall p, p ∈ ps -> exists x, property_value secretData p = Ok x /\ m !! property_Name p = Some x)
       /\ (forall k, is_Some (m !! k) -> k ∈ map property_Name ps))
  /\ (forall err, decodeSecretKeys secretData ps = Fail err <->
     exists before p after, ps = before ++ p :: after /\ property_value secretData p = Fail err
       /\ Forall (fun q => is_ok (property_value secretData q) = true) before).
Proof.
  intros Hnd. split.
  - intros v. split; [|by intros (m & -> & Hval & Hdom); apply decode_values].
    unfold decodeSecretKeys. rewrite decode_properties_spec.
    destruct (try_map (property_value secretData) ps) as [vs|err] eqn:Hvs; [|done]. intros [= <-].
    eexists. split; [done|]. by apply insert_all_values.
  - intros err. unfold decodeSecretKeys. rewrite decode_properties_spec, <- try_map_fail.
    destruct (try_map (property_value secretData) ps) as [vs|e]; [done|]. split; congruence.
Qed.

(** *** The operator's encoding

    The encoding the decoder's comment refers to: a string is stored as it
    is, under the format text; any other value is stored as JSON text, under
    the format json; and the metadata lists the names and the formats.  Any
    further fields of the metadata are ignored by the decoder. *)

Definition encoded_property (p : credentialProperties) : json :=
  JObject [("name", JString (property_Name p)); ("format", JString (property_Format p))].

(** The field [credentialProperties] of the metadata, and fields with other
    names around it. *)
Definition encoded_metadata (ps : list credentialProperties) (j : json) : Prop :=
  exists before after,
    j = JObject (before ++ ("credentialProperties", JArray (map encoded_property ps)) :: after)
    /\ Forall (fun kv => fold_name kv.1 <> fold_name "credentialProperties") (before ++ after).

Definition encoded_value (secretData : gmap string string) (p : credentialProperties) (v : Value) : Prop :=
  match v with
  | VString s => property_Format p = "text" /\ secretData !! property_Name p = Some s
  | _ => property_Format p = "json"
         /\ exists text j, secretData !! property_Name p = Some text
              /\ json_parse text = Ok j /\ to_any j = v
  end.

Record encodes (secretData : gmap string string) (ps : list credentialProperties)
    (credentials : Values) : Prop := {
  encodes_dom : forall k, is_Some (credentials !! k) -> k ∈ map property_Name ps;
  encodes_distinct : NoDup (map property_Name ps);
  encodes_metadata : exists text j, secretData !! metadata_key = Some text
    /\ json_parse text = Ok j /\ encoded_metadata ps j;
  encodes_values : forall p, p ∈ ps ->
    exists v, credentials !! property_Name p = Some v /\ encoded_value secretData p v
}.

Lemma decode_property_encoded p : decode_property zero_property (encoded_property p) = Ok p.
Proof. by destruct p. Qed.

Lemma decode_elements_encoded ps :
  decode_elements zero_property decode_property [] (map encoded_property ps) = Ok ps.
Proof.
  induction ps as [|p ps IH]; [done|]. cbn [map decode_elements head tail default].
  change (default zero_property None) with zero_property.
  rewrite decode_property_encoded, IH. done.
Qed.

Lemma decode_fields_ignored {A} (name : string) (d : decoder A) old kvs :
  Forall (fun kv : string * json => fold_name kv.1 <> fold_name name) kvs ->
  decode_fields [(name, d)] old kvs = Ok old.
Proof.
  induction 1 as [|[key j] kvs Hne _ IH]; [done|]. cbn in *. unfold find_field. cbn.
  rewrite decide_False by (intros ->; done). by rewrite decide_False by done.
Qed.

Lemma decode_fields_app {A} (fields : list (string * decoder A)) old kvs kvs' :
  decode_fields fields old (kvs ++ kvs') =
  match decode_fields fields old kvs with
  | Ok new => decode_fields fields new kvs'
  | Fail e => Fail e
  end.
Proof.
  revert old. induction kvs as [|[key j] kvs IH]; intros old; cbn; [done|].
  destruct (find_field fields key) as [d|]; [|done]. by destruct (d old j).
Qed.

Lemma decode_metadata_encoded ps j :
  encoded_metadata ps j ->
  decode_metadata {| CredentialProperties := [] |} j = Ok {| CredentialProperties := ps |}.
Proof.
  intros (before & after & -> & [Hb Ha]%Forall_app). unfold decode_metadata, decode_struct.
  rewrite decode_fields_app. rewrite (decode_fields_ignored (A:=bindingCredentialMetadata)) by done. cbn [decode_fields].
  unfold find_field. cbn [field_exact]. rewrite decide_True by done.
  cbn [CredentialProperties decode_slice]. unfold decode_slice. rewrite decode_elements_encoded.
  by rewrite (decode_fields_ignored (A:=bindingCredentialMetadata)).
Qed.

(** (C32) The decoder restores what the operator encoded: from every secret
    that encodes a credentials object, it gives back that object, whatever
    other fields the metadata has and whatever other keys the secret. *)
Theorem credentials_roundtrip secretData ps credentials :
  encodes secretData ps credentials ->
  DecodeBindingSecretData (CredentialsDecoder:=NewCredentialsDecoder) secretData = Ok (VMap credentials).
Proof.
  intros [Hdom Hnd (text & j & Htext & Hj & Hmeta) Hvalues].
  change (CredentialsDecoder_Decode secretData = Ok (VMap credentials)).
  unfold CredentialsDecoder_Decode, Unmarshal. rewrite Htext, Hj, (decode_metadata_encoded ps j Hmeta).
  cbn [CredentialProperties].
  assert (Hval : forall p, p ∈ ps ->
    exists x, property_value secretData p = Ok x /\ credentials !! property_Name p = Some x).
  { intros p Hp. destruct (Hvalues p Hp) as (v & Hv & Henc). exists v. split; [|done].
    unfold property_value.
    destruct v; try (destruct Henc as (Hf & t & j' & Ht & Hj' & <-); by rewrite Ht, decide_True, Hj').
    destruct Henc as (Hf & Ht). by rewrite Ht, Hf. }
  by apply (decode_values secretData ps Hnd).
Qed.
End Decoder.
