(* ===== verification/BrokerExamples.v ===== *)
(** * The service broker on concrete inputs

    The broker with the decoder of Credentials.v, the parser of JsonText.v and
    a small cluster and service manager; the theorems of BrokerSpec and
    CredentialsSpec applied to them. *)

From S2P Require Export BrokerSpec CredentialsSpec.

#[local] Open Scope Z_scope.
#[local] Open Scope list_scope.

#[local] Existing Instances Reference.it Reference.it_laws Reference.meta Reference.meta_laws Reference.unicode.

(** JSON texts are written with single quotes. *)
Fixpoint quoted (s : string) : string :=
  match s with
  | EmptyString => EmptyString
  | String c s' => String (if ascii_dec c "'" then chr 34 else c) (quoted s')
  end.

#[local] Instance parser : JsonParser :=
  go_json (fun _ => ErrExt "invalid character") (fun _ => ErrExt "cannot unmarshal").

(** Metadata as a list of fields. *)
#[local] Instance sample_lib : BrokerLib := {|
  ServiceMetadata := Value; zero_ServiceMetadata := VNull; decode_ServiceMetadata := decode_any;
  ServicePlanMetadata := Value; zero_ServicePlanMetadata := VNull;
  decode_ServicePlanMetadata := decode_any;
  ErrInstanceNotFound := ErrExt "instance does not exist";
  ErrBindingDoesNotExist := ErrExt "binding does not exist"
|}.

(** ** Credentials *)

Definition sample_metadata : string := quoted
  "{'credentialProperties': [{'name': 'uri', 'format': 'text'},
     {'name': 'ports', 'format': 'json'}], 'metaDataProperties': []}".

Definition sample_secret_data : gmap string string :=
  <[".metadata" := sample_metadata]> (<["uri" := "https://db"]>
    (<["ports" := quoted "[5432, {'tls' : true}]"]> {["instance_guid" := "42"]})).

Definition sample_properties : list credentialProperties :=
  [{| property_Name := "uri"; property_Format := "text" |};
   {| property_Name := "ports"; property_Format := "json" |}].

Definition sample_credentials : Values :=
  <["uri" := VString "https://db"]>
    (<["ports" := VList [VNumber "5432"; VMap (<["tls" := VBool true]> ∅)]]> ∅).

Lemma credentials_roundtrip_witness :
  CredentialsDecoder_Decode sample_secret_data = Ok (VMap sample_credentials).
Proof.
  apply (credentials_roundtrip sample_secret_data sample_properties sample_credentials). split.
  - intros k. unfold sample_credentials. rewrite !lookup_insert_is_Some', lookup_empty.
    cbn. intros [<-|[<-|Hk]]; [by left|by right; left|by inversion Hk].
  - vm_compute. repeat constructor; set_solver.
  - exists sample_metadata, (JObject [("credentialProperties", JArray (map encoded_property sample_properties));
                                      ("metaDataProperties", JArray [])]).
    split; [reflexivity|]. split; [vm_compute; reflexivity|].
    exists [], [("metaDataProperties", JArray [])]. split; [reflexivity|].
    constructor; [|constructor]. vm_compute. discriminate.
  - intros p [->|[->|Hp]%elem_of_cons]%elem_of_cons; [| |by inversion Hp].
    + exists (VString "https://db"). by repeat split.
    + eexists. split; [reflexivity|]. split; [reflexivity|].
      exists (quoted "[5432, {'tls' : true}]"), (JArray [JNumber "5432"; JObject [("tls", JBool true)]]).
      split; [reflexivity|]. split; [vm_compute; reflexivity|]. vm_compute. reflexivity.
Defined.

Lemma decodeSecretKeys_spec_witness :
  decodeSecretKeys sample_secret_data [{| property_Name := "uri"; property_Format := "text" |};
                                       {| property_Name := "password"; property_Format := "text" |}]
  = Fail (ErrText ("missing credentials property with name " +:+ Quote "password")).
Proof.
  apply decodeSecretKeys_spec.
  - vm_compute. repeat constructor; set_solver.
  - exists [{| property_Name := "uri"; property_Format := "text" |}],
      {| property_Name := "password"; property_Format := "text" |}, [].
    split; [reflexivity|]. split; [vm_compute; reflexivity|]. by repeat constructor.
Defined.

(** ** The service manager and the cluster *)

Definition sample_offering : SMOffering :=
  {| smo_ID := "off-1"; smo_Name := "postgresql"; smo_Description := "a database"; smo_Bindable := true;
     smo_PlanUpdatable := false; smo_Tags := quoted "['sql']"; smo_Metadata := ""; smo_Requires := "" |}.

Definition sample_plan (id name offering : string) : SMPlan :=
  {| smp_ID := id; smp_Name := name; smp_Description := ""; smp_Free := true; smp_Bindable := true;
     smp_Metadata := quoted "{'sla': 1}"; smp_ServiceOfferingID := offering |}.

Definition sample_plans : list SMPlan :=
  [sample_plan "plan-1" "small" "off-1"; sample_plan "plan-2" "mini" "off-2"; sample_plan "plan-3" "large" "off-1"].

Definition sample_condition (type : string) (status : ConditionStatus) (generation : Z) : Condition :=
  {| c_Type := type; c_Status := status; c_ObservedGeneration := generation; c_LastTransitionTime := 0;
     c_Reason := "x"; c_Message := "quota exceeded" |}.

Definition generation_of (key : ObjectKey) (g : Z) : ObjectMeta :=
  {| Namespace := key_ns key; Name := key_name key; Generation := g; Finalizers := [];
     DeletionTimestamp := None; ResourceVersion := "1" |}.

(** An instance that failed, and whose success is of an older generation. *)
Definition failed_instance (key : ObjectKey) : ServiceInstance :=
  {| si_meta := generation_of key 2;
     si_Spec := {| si_ServiceOfferingName := "postgresql"; si_ServicePlanName := "small";
                   si_ServicePlanID := "plan-1"; si_Parameters := Some "" |};
     si_Conditions := [sample_condition "Succeeded" ConditionTrue 1; sample_condition "Failed" ConditionTrue 2];
     si_OperationType := "create" |}.

Definition ready_binding (key : ObjectKey) : ServiceBinding :=
  {| sb_meta := generation_of key 1;
     sb_Spec := {| sb_ServiceInstanceName := "i"; sb_SecretName := "b"; sb_Parameters := Some "" |};
     sb_Conditions := [sample_condition "Succeeded" ConditionTrue 1]; sb_OperationType := "create" |}.

Definition broker_answers (c : call) : reply c :=
  match c with
  | CListOfferings => Ok [sample_offering]
  | CListPlans => Ok sample_plans
  | CGet k key =>
      match k return result error (object k) with
      | KServiceInstance => Ok (failed_instance key)
      | KServiceBinding => Ok (ready_binding key)
      | KSecret => Ok {| secret_meta := meta_of (key_ns key) (key_name key); secret_Data := sample_secret_data |}
      | k => no_answers (CGet k key)
      end
  | CCreateOrPatch k key fill =>
      match k return (object k -> object k) -> result error (object k) with
      | KServiceBinding => fun fill => Ok (fill (ready_binding key))
      | KServiceInstance => fun fill => Ok (fill (failed_instance key))
      | k => fun fill => no_answers (CCreateOrPatch k key fill)
      end fill
  | c => no_answers c
  end.

Abbreviation sm := (const_env broker_answers).

Definition sample_broker : BTPBroker := NewBroker "cfapi-system" NewCredentialsDecoder.

Lemma Services_catalogue_witness :
  exists services, (run sm Services tt).1 = Returned services
    /\ Forall2 (shows_offering sample_plans) [sample_offering] services.
Proof.
  assert (Hok : match (run sm Services tt).1 with Returned _ => true | _ => false end = true)
    by (vm_compute; reflexivity).
  destruct (run sm Services tt) as [[services|x|x] w] eqn:H; [clear Hok|discriminate Hok..].
  exists services. split; [reflexivity|].
  destruct (Services_catalogue sm tt services w H) as (offerings & plans & w1 & Ho & Hp & Hall).
  injection Ho as <- _. injection Hp as <- _. exact Hall.
Defined.

Lemma provision_polling_witness :
  run sm (provisionLastOperation sample_broker "i") tt
  = (Returned {| lo_State := "failed"; lo_Description := "quota exceeded" |}, tt).
Proof.
  apply (provision_polling sample_broker sm "i" tt (Ok (failed_instance (resource sample_broker "i"))) tt
    eq_refl ltac:(vm_compute; repeat constructor; set_solver)).
  refine (creation_failed _ _ _ (sample_condition "Failed" ConditionTrue 2) _ _).
  - intros (c & Hc & Ht & _ & Hg). cbn in Hc, Hg.
    apply elem_of_cons in Hc as [->|[->|Hc]%elem_of_cons]; cbn in *; [done|done|by inversion Hc].
  - split; [by right; left|done].
Defined.

Lemma bind_polling_witness :
  run sm (bindLastOperation sample_broker "b") tt
  = (Returned {| lo_State := "succeeded"; lo_Description := "" |}, tt).
Proof.
  apply (bind_polling sample_broker sm "b" tt (Ok (ready_binding (resource sample_broker "b"))) tt
    eq_refl ltac:(vm_compute; repeat constructor; set_solver)).
  apply creation_succeeded. exists (sample_condition "Succeeded" ConditionTrue 1). split; [by left|done].
Defined.

Lemma deprovision_polling_witness :
  run (const_env no_answers) (deprovisionLastOperation sample_broker "i") tt
  = (Errored unavailable, tt).
Proof. exact (deprovision_polling sample_broker (const_env no_answers) "i" tt (Fail unavailable) tt eq_refl). Defined.

Lemma unbind_polling_witness :
  run (const_env no_answers) (unbindLastOperation sample_broker "b") tt
  = (Errored unavailable, tt).
Proof. exact (unbind_polling sample_broker (const_env no_answers) "b" tt (Fail unavailable) tt eq_refl). Defined.

Lemma operation_data_roundtrip_witness :
  Broker_LastOperation sample_broker "i" "deprovision-i" = deprovisionLastOperation sample_broker "i"
  /\ Broker_LastOperation sample_broker "i" "update-i" = Err (unknown_operation "update-i").
Proof.
  destruct (operation_data_roundtrip sample_broker
    (const_env (fun c => match c with CDelete _ _ => Ok tt | c => no_answers c end)) "i" "b"
    {| pd_ServiceID := ""; pd_PlanID := ""; pd_RawParameters := "" |} {| bd_RawParameters := "" |} tt)
    as (_ & Hd & _ & _ & Hu).
  split; [|by apply Hu].
  exact (proj2 (Hd {| IsAsync := true; OperationData := "deprovision-i" |} tt eq_refl)).
Defined.

(** A plan of another offering is accepted. *)
Lemma Provision_creates_witness :
  exists fill,
    mutations sm (Provision sample_broker "i"
      {| pd_ServiceID := "off-1"; pd_PlanID := "plan-2"; pd_RawParameters := "{}" |}) tt
    = [CCreateOrPatch KServiceInstance {| key_ns := "cfapi-system"; key_name := "i" |} fill].
Proof.
  destruct (Provision_creates sample_broker sm "i"
    {| pd_ServiceID := "off-1"; pd_PlanID := "plan-2"; pd_RawParameters := "{}" |} tt
    sample_plans tt [sample_offering] tt eq_refl eq_refl) as (_ & _ & fill & Hm & _).
  exists fill. exact Hm.
Defined.

Lemma Bind_credentials_witness :
  exists binding, (run sm (Bind sample_broker "i" "b" {| bd_RawParameters := "" |}) tt).1 = Returned binding
    /\ b_IsAsync binding = false.
Proof.
  destruct (run sm (Bind sample_broker "i" "b" {| bd_RawParameters := "" |}) tt) as [[binding|x|x] w] eqn:H;
    [|exfalso; revert H; vm_compute; discriminate..].
  exists binding. split; [reflexivity|].
  destruct (Bind_credentials sample_broker sm "i" "b" {| bd_RawParameters := "" |} tt binding w H)
    as (fill & o & w1 & rb & w2 & _ & _ & _ & Hrb & Hbound & Hasync & _).
  apply Hasync, Hbound. injection Hrb as <- _. vm_compute. reflexivity.
Defined.
