(* ===== verification/BrokerLife.v ===== *)
(** * The life of a service instance or a service binding

    A provisioned resource as a state machine: the broker creates or patches
    it, the SAP BTP operator processes the versions it has seen and reports
    on them in conditions, and the resource may disappear and be created
    again.  The machine remembers which versions the resource had and which
    of them were processed with success, and the theorems relate these to
    what the broker (src/components/btp-service-broker/btp/broker.go) tells
    the platform. *)

From S2P Require Export BrokerExamples.
From stdpp Require Export relations.

#[local] Open Scope Z_scope.
#[local] Open Scope list_scope.

(** ** The resources as versions with conditions *)

Class Versioned (k : kind) := {
  spec_type : Type;
  spec_eq_dec :: EqDecision spec_type;
  res_spec : object k -> spec_type;
  res_generation : object k -> Z;
  res_conditions : object k -> list Condition
}.

#[export] Instance ServiceInstanceSpec_eq_dec : EqDecision ServiceInstanceSpec.
Proof. solve_decision. Defined.
#[export] Instance ServiceBindingSpec_eq_dec : EqDecision ServiceBindingSpec.
Proof. solve_decision. Defined.

#[export] Instance versioned_instance : Versioned KServiceInstance := {|
  spec_type := ServiceInstanceSpec; res_spec (o : object KServiceInstance) := si_Spec o;
  res_generation (o : object KServiceInstance) := Generation (si_meta o);
  res_conditions (o : object KServiceInstance) := si_Conditions o |}.

#[export] Instance versioned_binding : Versioned KServiceBinding := {|
  spec_type := ServiceBindingSpec; res_spec (o : object KServiceBinding) := sb_Spec o;
  res_generation (o : object KServiceBinding) := Generation (sb_meta o);
  res_conditions (o : object KServiceBinding) := sb_Conditions o |}.

(** ** States and steps *)

Section Life.
Context {k : kind} `{!Versioned k}.

Record resource_life := ResourceLife {
  rl_object : option (object k);
  rl_versions : list (Z * spec_type);
  rl_processed : list (Z * spec_type)
}.

Definition version_of (o : object k) : Z * spec_type := (res_generation o, res_spec o).

(** A condition that says that a generation was processed with success. *)
Definition says_succeeded (c : Condition) (g : Z) : Prop :=
  c_Type c = "Succeeded" /\ c_Status c = ConditionTrue /\ c_ObservedGeneration c = g.

(** Creating or patching a resource: a new object has generation one and no
    conditions, and a changed spec gets the next generation. *)
Inductive filled (fill : object k -> object k) : option (object k) -> object k -> Prop :=
| filled_new fresh o :
    res_spec o = res_spec (fill fresh) -> res_generation o = 1 -> res_conditions o = [] ->
    filled fill None o
| filled_existing cur o :
    res_spec o = res_spec (fill cur) -> res_conditions o = res_conditions cur ->
    res_generation o = (if decide (res_spec (fill cur) = res_spec cur) then res_generation cur
                       else res_generation cur + 1) ->
    filled fill (Some cur) o.

(** The BTP operator reports on a version it has seen, which need not be the
    current one any more; it only says that a version succeeded when it did. *)
Inductive reported : resource_life -> resource_life -> Prop :=
| reported_on o o' vs done v succeeded :
    v ∈ vs -> version_of o' = version_of o ->
    (forall c, c ∈ res_conditions o' -> c ∈ res_conditions o
       \/ c_ObservedGeneration c = v.1 /\ (says_succeeded c v.1 -> succeeded = true)) ->
    reported (ResourceLife (Some o) vs done)
      (ResourceLife (Some o') vs (if succeeded : bool then v :: done else done)).

(** The life with a version more, or a new life. *)
Definition refilled (s : resource_life) (o : object k) : resource_life :=
  match rl_object s with
  | Some _ => ResourceLife (Some o) (version_of o :: rl_versions s) (rl_processed s)
  | None => ResourceLife (Some o) [version_of o] []
  end.

Inductive life_step : resource_life -> resource_life -> Prop :=
| step_fill fill s o : filled fill (rl_object s) o -> life_step s (refilled s o)
| step_report s s' : reported s s' -> life_step s s'
| step_gone o vs done : life_step (ResourceLife (Some o) vs done) (ResourceLife None [] []).

Definition unborn : resource_life := ResourceLife None [] [].
Definition lived : resource_life -> Prop := rtc life_step unborn.

(** ** The invariant *)

(** The current version is the newest one, a generation stands for one spec,
    and a condition of success is about a version that was processed. *)
Definition truthful (s : resource_life) : Prop :=
  match rl_object s with
  | None => True
  | Some o =>
      version_of o ∈ rl_versions s
      /\ (forall v, v ∈ rl_versions s -> v.1 <= res_generation o /\ (v.1 = res_generation o -> v = version_of o))
      /\ (forall v, v ∈ rl_processed s -> v ∈ rl_versions s)
      /\ forall c g, c ∈ res_conditions o -> says_succeeded c g -> exists spec, (g, spec) ∈ rl_processed s
  end.

Lemma truthful_filled fill s o : truthful s -> filled fill (rl_object s) o -> truthful (refilled s o).
Proof.
  destruct s as [p vs done]. intros Ht Hf. cbn in Hf. unfold truthful, refilled.
  destruct Hf as [fresh o Hs Hg Hc|cur o Hs Hc Hg]; cbn; (split; [by left|]).
  - split; [|split].
    + intros v [->|Hv]%elem_of_cons; [done|by inversion Hv].
    + intros v Hv. by inversion Hv.
    + intros c g Hin. rewrite Hc in Hin. by inversion Hin.
  - cbn in Ht. destruct Ht as (Hcur & Hvs & Hdone & Hsay). split; [|split].
    + intros v [->|Hv]%elem_of_cons; [done|]. destruct (Hvs v Hv) as [Hle Heq].
      rewrite Hg. case_decide as Hd; [|split; lia]. split; [done|]. intros Hv1.
      rewrite (Heq Hv1). unfold version_of. by rewrite Hs, Hg, Hd.
    + intros v Hv. right. by apply Hdone.
    + intros c g Hin. rewrite Hc in Hin. by apply Hsay.
Qed.

Lemma truthful_reported s s' : truthful s -> reported s s' -> truthful s'.
Proof.
  intros Ht Hr. destruct Hr as [o o' vs done v succeeded Hv Hver Hcs].
  unfold truthful in *. cbn in *. destruct Ht as (Hcur & Hvs & Hdone & Hsay).
  assert (Hgen : res_generation o' = res_generation o) by (by injection Hver).
  rewrite Hver, Hgen. split; [done|]. split; [done|]. split.
  - intros v'. destruct succeeded; [|apply Hdone]. by intros [->|?%Hdone]%elem_of_cons.
  - intros c g Hin Hs. destruct (Hcs c Hin) as [Hold|[Hg Hyes]].
    + destruct (Hsay c g Hold Hs) as [spec ?]. exists spec. by destruct succeeded; [right|].
    + assert (g = v.1) as -> by (destruct Hs as (_ & _ & <-); done).
      rewrite (Hyes Hs). exists v.2. apply elem_of_cons. left. by destruct v.
Qed.

Lemma lived_truthful s : lived s -> truthful s.
Proof.
  revert s. apply rtc_ind_r; [done|]. intros s1 s2 _ Hstep Ht.
  destruct Hstep as [fill s o Hf|s s' Hr|o vs done].
  - by eapply truthful_filled.
  - by eapply truthful_reported.
  - done.
Qed.

(** A current condition of success is about the current version. *)
Lemma success_is_current s o c :
  truthful s -> rl_object s = Some o -> c ∈ res_conditions o -> says_succeeded c (res_generation o) ->
  version_of o ∈ rl_processed s.
Proof.
  unfold truthful. intros Ht Ho Hin Hs. rewrite Ho in Ht. destruct Ht as (_ & Hvs & Hdone & Hsay).
  destruct (Hsay c _ Hin Hs) as [spec Hspec]. destruct (Hvs _ (Hdone _ Hspec)) as [_ <-]; done.
Qed.

Lemma refilled_object s o : rl_object (refilled s o) = Some o.
Proof. unfold refilled. by destruct (rl_object s). Qed.

(** What was processed before a resource was filled is still current only if
    filling it changed nothing. *)
Lemma processed_before fill s o :
  truthful s -> filled fill (rl_object s) o -> version_of o ∈ rl_processed (refilled s o) ->
  exists cur, rl_object s = Some cur /\ version_of o = version_of cur /\ version_of o ∈ rl_processed s.
Proof.
  destruct s as [[cur|] vs done]; cbn; intros Ht Hf Hdone; [|by inversion Hdone].
  exists cur. split; [done|]. split; [|done]. destruct Ht as (Hcur & Hvs & Hin & _).
  inversion Hf as [|cur' o' Hspec _ Hg]; subst cur' o'.
  destruct (Hvs _ (Hin _ Hdone)) as [Hle Heq]. cbn in Hle. rewrite Hg in Hle.
  apply Heq. cbn. rewrite Hg. case_decide; [done|lia].
Qed.

(** Reports change the conditions of a resource, and nothing else. *)
Lemma reports_keep s s' o o' :
  rtc reported s s' -> rl_object s = Some o -> rl_object s' = Some o' -> version_of o' = version_of o.
Proof.
  intros Hr. revert o. induction Hr as [s|s1 s2 s3 Hstep _ IH]; intros o H1 H2; [congruence|].
  destruct Hstep as [p p' vs done v succeeded _ Hver _]. cbn in H1. injection H1 as ->.
  by rewrite (IH p' eq_refl H2).
Qed.

Lemma lived_reports s s' : lived s -> rtc reported s s' -> lived s'.
Proof.
  intros Hl Hr. revert Hl. induction Hr as [|s1 s2 s3 Hs _ IH]; [done|]. intros Hl. apply IH.
  eapply rtc_r; [exact Hl|by constructor].
Qed.
End Life.
#[global] Arguments resource_life k {_}.

(** ** The API server *)

(** What the server and CreateOrPatch promise about the resources of a kind.
    Reading them gives what is stored, and other reads leave it alone. *)
Class ResourceServer (e : Env) (k : kind) `{!Versioned k} := {
  held : world e -> ObjectKey -> option (object k);
  get_held w key o w' : answer e (CGet k key) w = (Ok o, w') -> held w key = Some o;
  create_or_patch_held w key fill o w' :
    answer e (CCreateOrPatch k key fill) w = (Ok o, w') ->
    held w' key = Some o /\ filled fill (held w key) o;
  reads_held c w r w' key : is_read c -> answer e c w = (r, w') -> held w' key = held w key
}.
#[global] Arguments held {e} k {_ _} w key.

Section Server.
Context (e : Env) {k : kind} `{!Versioned k} {server : ResourceServer e k}.

Lemma read_program_held {A} (p : M A) w key :
  only_calls (S:=ext) is_read p -> held k (run e p w).2 key = held k w key.
Proof.
  revert w. induction p as [| | |c f IH]; cbn; intros w Hp; try done. destruct Hp as [Hc Hp].
  destruct (answer e c w) as [r w'] eqn:Ha. rewrite IH by done. by eapply reads_held.
Qed.

(** Filling a resource that has lived is a step of its life. *)
Lemma fill_is_step w key fill o w' s :
  answer e (CCreateOrPatch k key fill) w = (Ok o, w') -> rl_object s = held k w key ->
  life_step s (refilled s o) /\ held k w' key = Some o /\ filled fill (held k w key) o.
Proof.
  intros Ha Hs. destruct (create_or_patch_held _ _ _ _ _ Ha) as [Hst Hf].
  split; [|done]. apply (step_fill fill). by rewrite Hs.
Qed.

End Server.

(** ** The broker *)

Section Broker.
Context {it : ItLib} {itlaws : ItLaws} {meta : MetaLib} {metalaws : MetaLaws} {lib : BrokerLib}.
Context (b : BTPBroker) (e : Env).

(** The code's test of the conditions of the current generation. *)
Lemma latest_succeeded cs g :
  IsStatusConditionTrue (latest cs g) "Succeeded" = true -> exists c, c ∈ cs /\ says_succeeded c g.
Proof.
  rewrite IsStatusConditionTrue_spec. destruct (FindStatusCondition _ _) as [c|] eqn:Hf; [|done].
  apply find_type_Some in Hf as [Hc Ht]. apply elem_of_latest in Hc as [Hc Hg].
  rewrite bool_decide_eq_true. intros Hs. by exists c.
Qed.

Lemma creation_response_succeeded cs g op w lo w' :
  run e (creation_response cs g op) w = (Returned lo, w') -> lo_State lo = Succeeded ->
  w' = w /\ exists c, c ∈ cs /\ says_succeeded c g.
Proof.
  unfold creation_response. destruct (IsStatusConditionTrue (latest cs g) "Succeeded") eqn:Hs.
  { intros [= _ <-] _. split; [done|]. by apply latest_succeeded. }
  intros H Hlo. exfalso. destruct (IsStatusConditionTrue _ "Failed").
  - unfold message_of in H. rewrite !run_bind in H.
    destruct (FindStatusCondition _ _); [|done]. by injection H as <- <-.
  - case_decide; by injection H as <- <-.
Qed.

Lemma polled_success instanceID w lo w' :
  run e (provisionLastOperation b instanceID) w = (Returned lo, w') -> lo_State lo = Succeeded ->
  exists i c, answer e (CGet KServiceInstance (resource b instanceID)) w = (Ok i, w')
    /\ c ∈ si_Conditions i /\ says_succeeded c (Generation (si_meta i)).
Proof.
  unfold provisionLastOperation. rewrite run_bind, run_try, run_Get.
  destruct (answer e (CGet KServiceInstance _) w) as [[i|err] w1]; [|by destruct (IsNotFound err)].
  intros H Hlo. change (provisionInstanceStateResponse i)
    with (creation_response (si_Conditions i) (Generation (si_meta i)) (si_OperationType i)) in H.
  destruct (creation_response_succeeded _ _ _ _ _ _ H Hlo) as (-> & c & Hc & Hs). by exists i, c.
Qed.

Lemma run_Provision_inv instanceID details w spec w' :
  run e (Provision b instanceID details) w = (Returned spec, w') ->
  OperationData spec = "provision-" +:+ instanceID
  /\ exists plan offering w1 w2 plans offerings o,
    answer e CListPlans w = (Ok plans, w1) /\ first_with smp_ID (pd_PlanID details) plans plan
    /\ answer e CListOfferings w1 = (Ok offerings, w2)
    /\ first_with smo_ID (pd_ServiceID details) offerings offering
    /\ answer e (CCreateOrPatch KServiceInstance (resource b instanceID)
                   (instance_spec offering plan (pd_RawParameters details))) w2 = (Ok o, w').
Proof.
  unfold Provision. rewrite run_bind.
  destruct (answer e CListPlans w) as [[plans|err] w1] eqn:Hp.
  2: { unfold getPlanByID, ListPlans. rewrite run_bind, run_wrapping. cbn. by rewrite Hp. }
  rewrite (proj1 (run_getPlanByID e (pd_PlanID details) w plans w1 Hp)).
  pose proof (find_plan_spec (pd_PlanID details) plans) as Hplan.
  destruct (find_plan _ plans) as [plan|]; [|done]. rewrite run_bind.
  destruct (answer e CListOfferings w1) as [[offerings|err] w2] eqn:Ho.
  2: { unfold getOfferingByID, ListOfferings. rewrite run_bind, run_wrapping. cbn. by rewrite Ho. }
  rewrite (proj1 (run_getOfferingByID e (pd_ServiceID details) w1 offerings w2 Ho)).
  pose proof (find_offering_spec (pd_ServiceID details) offerings) as Hoff.
  destruct (find_offering _ offerings) as [offering|]; [|done].
  rewrite run_bind, run_wrapping. cbn.
  destruct (answer e (CCreateOrPatch _ _ _) w2) as [[o|err] w3] eqn:Hc; [|done].
  intros [= <- <-]. split; [done|]. by exists plan, offering, w1, w2, plans, offerings, o.
Qed.

(** (C30) Success is of what was requested.  Provisioning is a step in the life
    of the service instance; if afterwards, while the BTP operator reports on
    it, possibly about versions that are older than this request, polling
    with the operation data of the request says that it succeeded, then the
    instance has the plan and the offering of the request and its
    parameters, and the operator has processed this very version. *)
Theorem success_is_of_request `{!ResourceServer e KServiceInstance} instanceID details w s spec w1 :
  let key := resource b instanceID in
  lived s -> rl_object s = held KServiceInstance w key ->
  run e (Provision b instanceID details) w = (Returned spec, w1) ->
  exists o, held KServiceInstance w1 key = Some o /\ life_step s (refilled s o)
    /\ forall s' w2 lo w3,
      rtc reported (refilled s o) s' -> rl_object s' = held KServiceInstance w2 key ->
      run e (Broker_LastOperation b instanceID (OperationData spec)) w2 = (Returned lo, w3) ->
      lo_State lo = Succeeded ->
      exists i plan offering, held KServiceInstance w2 key = Some i
        /\ smp_ID plan = pd_PlanID details /\ smo_ID offering = pd_ServiceID details
        /\ si_Spec i = {| si_ServiceOfferingName := smo_Name offering; si_ServicePlanName := smp_Name plan;
                          si_ServicePlanID := smp_ID plan; si_Parameters := Some (pd_RawParameters details) |}
        /\ version_of (k:=KServiceInstance) i ∈ rl_processed s'.
Proof.
  cbn zeta. set (key := resource b instanceID). intros Hl Hsw Hrun.
  destruct (run_Provision_inv instanceID details w spec w1 Hrun)
    as (Hdata & plan & offering & v1 & v2 & plans & offerings & o & Hp & Hplan & Ho & Hoff & Hc).
  assert (Hv2 : held KServiceInstance v2 key = held KServiceInstance w key).
  { rewrite (reads_held _ _ _ _ key (I : is_read CListOfferings) Ho).
    by rewrite (reads_held _ _ _ _ key (I : is_read CListPlans) Hp). }
  rewrite <- Hv2 in Hsw. destruct (fill_is_step e v2 key _ o w1 s Hc Hsw) as (Hstep & Hheld & Hfilled).
  exists o. split; [done|]. split; [done|]. intros s' w2 lo w3 Hreports Hsame Hpoll Hlo.
  rewrite Hdata in Hpoll. unfold Broker_LastOperation in Hpoll. rewrite HasPrefix_app in Hpoll.
  destruct (polled_success _ _ _ _ Hpoll Hlo) as (i & c & Hget & Hin & Hs).
  pose proof (get_held _ _ _ _ Hget) as Hi. fold key in Hi. rewrite Hi in Hsame.
  exists i, plan, offering. split; [done|].
  split; [by destruct Hplan as (? & ? & _ & ? & _)|]. split; [by destruct Hoff as (? & ? & _ & ? & _)|]. split.
  - pose proof (reports_keep _ _ o i Hreports (refilled_object s o) Hsame) as Hver.
    change (si_Spec i) with (version_of (k:=KServiceInstance) i).2. rewrite Hver. cbn.
    by destruct Hfilled as [fresh o' Hspec _ _|cur o' Hspec _ _]; cbn in Hspec; rewrite Hspec.
  - eapply success_is_current; [|exact Hsame|exact Hin|exact Hs].
    eapply lived_truthful, lived_reports; [|exact Hreports]. eapply rtc_r; [exact Hl|done].
Qed.

(** Polling a binding that is created. *)
Lemma polled_bound bindingID w lo w' :
  run e (bindLastOperation b bindingID) w = (Returned lo, w') -> lo_State lo = Succeeded ->
  exists o c, answer e (CGet KServiceBinding (resource b bindingID)) w = (Ok o, w')
    /\ c ∈ sb_Conditions o /\ says_succeeded c (Generation (sb_meta o)).
Proof.
  intros Hrun Hlo. destruct (run_bindLastOperation_inv b e bindingID w lo w' Hrun) as (o & Hget & Hb).
  apply Hb in Hlo. destruct (latest_succeeded _ _ Hlo) as (c & Hc & Hs). by exists o, c.
Qed.

Lemma run_Bind_inv instanceID bindingID details w binding w' :
  run e (Bind b instanceID bindingID details) w = (Returned binding, w') -> is_Some (b_Credentials binding) ->
  exists o w1 lo w2,
    answer e (CCreateOrPatch KServiceBinding (resource b bindingID)
                (binding_spec instanceID bindingID (bd_RawParameters details))) w = (Ok o, w1)
    /\ run e (bindLastOperation b bindingID) w1 = (Returned lo, w2) /\ lo_State lo = Succeeded.
Proof.
  unfold Bind. rewrite run_bind, run_wrapping. cbn.
  destruct (answer e (CCreateOrPatch KServiceBinding _ _) w) as [[o|err] w1]; [|done]. cbn.
  rewrite run_bind, run_wrapping. unfold LastBindingOperation. rewrite (HasPrefix_app "bind-").
  destruct (run e (bindLastOperation b bindingID) w1) as [[lo|err|why] w2] eqn:Hlo; [|done..].
  case_decide as Hs; [|by intros [= <- _] [? ?]]. intros _ _. by exists o, w1, lo, w2.
Qed.

(** (C31) Credentials are of what was requested.  When binding hands out
    credentials, the binding existed before the request, for the same
    instance, secret and parameters, and the BTP operator had processed this
    very version: a binding that the request creates or changes never comes
    with the credentials of another. *)
Theorem credentials_are_of_request `{!ResourceServer e KServiceBinding} instanceID bindingID details w s binding w' :
  let key := resource b bindingID in
  lived s -> rl_object s = held KServiceBinding w key ->
  run e (Bind b instanceID bindingID details) w = (Returned binding, w') ->
  is_Some (b_Credentials binding) ->
  exists o, held KServiceBinding w key = Some o
    /\ sb_Spec o = {| sb_ServiceInstanceName := instanceID; sb_SecretName := bindingID;
                      sb_Parameters := Some (bd_RawParameters details) |}
    /\ version_of (k:=KServiceBinding) o ∈ rl_processed s.
Proof.
  cbn zeta. set (key := resource b bindingID). intros Hl Hsw Hrun Hcred.
  destruct (run_Bind_inv _ _ _ _ _ _ Hrun Hcred) as (o & w1 & lo & w2 & Hc & Hpoll & Hlo).
  destruct (fill_is_step e w key _ o w1 s Hc Hsw) as (Hstep & Hheld & Hfilled).
  destruct (polled_bound _ _ _ _ Hpoll Hlo) as (o' & c & Hget & Hin & Hs).
  pose proof (get_held _ _ _ _ Hget) as Ho. fold key in Ho. rewrite Hheld in Ho. injection Ho as <-.
  assert (Hdone : version_of (k:=KServiceBinding) o ∈ rl_processed (refilled s o)).
  { eapply success_is_current; [|apply refilled_object|exact Hin|exact Hs].
    apply lived_truthful. by eapply rtc_r. }
  rewrite <- Hsw in Hfilled.
  destruct (processed_before _ s o (lived_truthful s Hl) Hfilled Hdone) as (cur & Hcur & Hver & Hbefore).
  exists cur. split; [by rewrite <- Hsw|]. rewrite <- Hver. split; [|done].
  change (sb_Spec cur) with (version_of (k:=KServiceBinding) cur).2. rewrite <- Hver.
  by inversion Hfilled as [? ? Hspec|? ? Hspec].
Qed.
End Broker.

(** ** Witnesses *)

#[local] Existing Instances Reference.it Reference.it_laws Reference.meta Reference.meta_laws
  BrokerExamples.sample_lib.

(** A cluster that holds service instances and service bindings. *)
Record resources := {
  instances : ObjectKey -> option ServiceInstance;
  bindings : ObjectKey -> option ServiceBinding
}.

Definition at_key {A} (key : ObjectKey) (a : A) (f : ObjectKey -> option A) : ObjectKey -> option A :=
  fun key' => if decide (key' = key) then Some a else f key'.

Definition new_instance (key : ObjectKey) : ServiceInstance :=
  {| si_meta := generation_of key 1;
     si_Spec := {| si_ServiceOfferingName := ""; si_ServicePlanName := ""; si_ServicePlanID := "";
                   si_Parameters := None |};
     si_Conditions := []; si_OperationType := "" |}.

Definition new_binding (key : ObjectKey) : ServiceBinding :=
  {| sb_meta := generation_of key 1;
     sb_Spec := {| sb_ServiceInstanceName := ""; sb_SecretName := ""; sb_Parameters := None |};
     sb_Conditions := []; sb_OperationType := "" |}.

(** Filling keeps everything but the spec and the generation. *)
Definition patched_instance (key : ObjectKey) (fill : ServiceInstance -> ServiceInstance) (cur : option ServiceInstance)
    : ServiceInstance :=
  let base := default (new_instance key) cur in
  let changed := if decide (si_Spec (fill base) = si_Spec base) then 0 else 1 in
  {| si_meta := generation_of key (if cur then Generation (si_meta base) + changed else 1);
     si_Spec := si_Spec (fill base); si_Conditions := si_Conditions base; si_OperationType := si_OperationType base |}.

Definition patched_binding (key : ObjectKey) (fill : ServiceBinding -> ServiceBinding) (cur : option ServiceBinding)
    : ServiceBinding :=
  let base := default (new_binding key) cur in
  let changed := if decide (sb_Spec (fill base) = sb_Spec base) then 0 else 1 in
  {| sb_meta := generation_of key (if cur then Generation (sb_meta base) + changed else 1);
     sb_Spec := sb_Spec (fill base); sb_Conditions := sb_Conditions base; sb_OperationType := sb_OperationType base |}.

Definition found {A} (o : option A) : result error A :=
  match o with Some a => Ok a | None => Fail (ErrAPI true "not found") end.

Definition resources_answer (c : call) (w : resources) : reply c * resources :=
  match c return reply c * resources with
  | CGet KServiceInstance key => (found (instances w key), w)
  | CGet KServiceBinding key => (found (bindings w key), w)
  | CCreateOrPatch KServiceInstance key fill =>
      let o := patched_instance key fill (instances w key) in
      (Ok o, {| instances := at_key key o (instances w); bindings := bindings w |})
  | CCreateOrPatch KServiceBinding key fill =>
      let o := patched_binding key fill (bindings w key) in
      (Ok o, {| instances := instances w; bindings := at_key key o (bindings w) |})
  | c => (broker_answers c, w)
  end.

Definition resources_cluster : Env := Environment (S:=ext) resources resources_answer.

Lemma resources_reads c w : is_read c -> (resources_answer c w).2 = w.
Proof. intros Hc. by destruct c as [[] ?| |[]| | | |[] ?|[] ?|[]|[]|[] ? ?| | | | | | | | | | | | |]. Qed.

#[local] Instance instances_server : ResourceServer resources_cluster KServiceInstance.
Proof.
  refine {| held := fun (w : world resources_cluster) key => instances w key : option (object KServiceInstance) |}.
  - intros w key o w'. cbn. destruct (instances w key); [|done]. by intros [= -> _].
  - intros w key fill o w' [= <- <-]. cbn. split; [unfold at_key; by rewrite decide_True|].
    unfold patched_instance. destruct (instances w key) as [cur|] eqn:Hcur; cbn.
    + apply (filled_existing (k:=KServiceInstance) fill cur); [done|done|]. cbn. repeat case_decide; done || lia.
    + by apply (filled_new (k:=KServiceInstance) fill (new_instance key)).
  - intros c w r w' key Hc Ha. apply (f_equal snd) in Ha. cbn in Ha. rewrite resources_reads in Ha by done. by subst.
Defined.

#[local] Instance bindings_server : ResourceServer resources_cluster KServiceBinding.
Proof.
  refine {| held := fun (w : world resources_cluster) key => bindings w key : option (object KServiceBinding) |}.
  - intros w key o w'. cbn. destruct (bindings w key); [|done]. by intros [= -> _].
  - intros w key fill o w' [= <- <-]. cbn. split; [unfold at_key; by rewrite decide_True|].
    unfold patched_binding. destruct (bindings w key) as [cur|] eqn:Hcur; cbn.
    + apply (filled_existing (k:=KServiceBinding) fill cur); [done|done|]. cbn. repeat case_decide; done || lia.
    + by apply (filled_new (k:=KServiceBinding) fill (new_binding key)).
  - intros c w r w' key Hc Ha. apply (f_equal snd) in Ha. cbn in Ha. rewrite resources_reads in Ha by done. by subst.
Defined.

Definition nothing_yet : resources := {| instances := fun _ => None; bindings := fun _ => None |}.
Definition instance_key : ObjectKey := resource sample_broker "i".
Definition requested : ProvisionDetails :=
  {| pd_ServiceID := "off-1"; pd_PlanID := "plan-1"; pd_RawParameters := "{}" |}.

(** The instance that the request creates, and when it was processed. *)
Definition created_instance : ServiceInstance :=
  patched_instance instance_key (instance_spec sample_offering (sample_plan "plan-1" "small" "off-1") "{}") None.

Definition processed_instance : ServiceInstance :=
  {| si_meta := si_meta created_instance; si_Spec := si_Spec created_instance;
     si_Conditions := [sample_condition "Succeeded" ConditionTrue 1]; si_OperationType := "create" |}.

Definition processed_world : resources :=
  {| instances := at_key instance_key processed_instance (fun _ => None); bindings := fun _ => None |}.

(** The report of the operator on the only version of a new resource. *)
Lemma reported_success {k} `{!Versioned k} (o o' : object k) c :
  version_of o' = version_of o -> res_conditions o' = [c] -> c_ObservedGeneration c = res_generation o ->
  reported (ResourceLife (Some o) [version_of o] [])
    (ResourceLife (Some o') [version_of o] [version_of o]).
Proof.
  intros Hver Hcs Hc. apply (reported_on o o' [version_of o] [] (version_of o) true); [by left|done|].
  intros d Hd. rewrite Hcs in Hd. apply list_elem_of_singleton in Hd as ->. by right.
Qed.

Lemma success_is_of_request_witness :
  si_Spec processed_instance
  = {| si_ServiceOfferingName := "postgresql"; si_ServicePlanName := "small"; si_ServicePlanID := "plan-1";
       si_Parameters := Some "{}" |}
  /\ exists s' : resource_life KServiceInstance, rl_object s' = Some processed_instance
       /\ version_of (k:=KServiceInstance) processed_instance ∈ rl_processed s'.
Proof.
  split; [reflexivity|].
  assert (Hheld : rl_object (unborn (k:=KServiceInstance))
    = held (e:=resources_cluster) KServiceInstance nothing_yet instance_key) by reflexivity.
  destruct (success_is_of_request sample_broker resources_cluster "i" requested nothing_yet unborn
    {| IsAsync := true; OperationData := "provision-i" |}
    (run resources_cluster (Provision sample_broker "i" requested) nothing_yet).2
    (rtc_refl _ _) Hheld ltac:(vm_compute; reflexivity)) as (o & Ho & _ & Hpolls).
  injection Ho as <-.
  destruct (Hpolls (ResourceLife (Some (processed_instance : object KServiceInstance))
      [version_of (k:=KServiceInstance) created_instance] [version_of (k:=KServiceInstance) created_instance])
    processed_world {| lo_State := "succeeded"; lo_Description := "" |} processed_world)
    as (i & plan & offering & Hi & _ & _ & _ & Hdone).
  - apply rtc_once, (reported_success _ _ (sample_condition "Succeeded" ConditionTrue 1)); reflexivity.
  - reflexivity.
  - vm_compute. reflexivity.
  - reflexivity.
  - injection Hi as <-. eexists. split; [|exact Hdone]. reflexivity.
Defined.

(** A binding that was created and processed before. *)
Definition binding_key : ObjectKey := resource sample_broker "b".
Definition created_binding : ServiceBinding := patched_binding binding_key (binding_spec "i" "b" "") None.

Lemma credentials_are_of_request_witness :
  exists o, sb_Spec o = {| sb_ServiceInstanceName := "i"; sb_SecretName := "b"; sb_Parameters := Some "" |}.
Proof.
  set (processed := ready_binding binding_key).
  set (s := ResourceLife (Some (processed : object KServiceBinding))
      [version_of (k:=KServiceBinding) created_binding] [version_of (k:=KServiceBinding) created_binding]).
  set (w := {| instances := fun _ => None; bindings := at_key binding_key processed (fun _ => None) |}).
  assert (Hs : lived s).
  { apply rtc_l with (refilled unborn (created_binding : object KServiceBinding)).
    - apply (step_fill (k:=KServiceBinding) (binding_spec "i" "b" "")).
      apply (filled_new (k:=KServiceBinding) _ (new_binding binding_key)); reflexivity.
    - apply rtc_once, step_report, (reported_success _ _ (sample_condition "Succeeded" ConditionTrue 1)); reflexivity. }
  assert (Hheld : rl_object s = held (e:=resources_cluster) KServiceBinding w binding_key) by reflexivity.
  destruct (run resources_cluster (Bind sample_broker "i" "b" {| bd_RawParameters := "" |}) w)
    as [[binding|x|x] w'] eqn:Hrun; [|exfalso; revert Hrun; vm_compute; discriminate..].
  destruct (credentials_are_of_request sample_broker resources_cluster "i" "b" {| bd_RawParameters := "" |}
    w s binding w' Hs Hheld Hrun) as (o & _ & Ho & _).
  - revert Hrun. vm_compute. intros [= <- _]. by eexists.
  - exists o. exact Ho.
Defined.
