(* ===== verification/BrokerMain.v ===== *)
(** * The service broker's process

    Models src/components/btp-service-broker/main.go: the configuration file,
    the service manager credentials, the steps of main up to the server it
    starts and the exit code, and the logging middleware.  The HTTP server,
    the routes of brokerapi and the loading of the kubeconfig are libraries'
    and answer as calls of the process. *)

From S2P Require Export Process BrokerSpec Credentials.

#[local] Open Scope Z_scope.
#[local] Open Scope list_scope.

(** [type config struct] *)
Record config := { Port : Z; ResourceNamespace : string }.

(** gopkg.in/yaml.v3 on that struct *)
Class ConfigYaml := yaml_UnmarshalConfig : string -> result error config.

Definition config_path : string := "/etc/config/broker.yaml".

Definition loadConfig `{ConfigYaml} : M config :=
  cfgBytes ← wrapping (fun err => ErrWrap "failed to read config file: " err "")
               (Call (S:=ext) (CReadFile config_path) of_result);
  wrapping (fun err => ErrWrap "failed to unmarshal config: " err "")
    (of_result (yaml_UnmarshalConfig cfgBytes)).

(** [sm.ClientConfig] *)
Record ClientConfig := { ClientID : string; ClientSecret : string; URL : string; TokenURL : string }.

Definition sap_btp_manager : ObjectKey := {| key_ns := "kyma-system"; key_name := "sap-btp-manager" |}.

(** A key that is missing reads as the empty string. *)
Definition loadServiceManagerClientConfig : M ClientConfig :=
  btpOperatorSecret ← wrapping (fun err => ErrWrap "failed to get sap-btp-manager secret: " err "")
                        (Get KSecret sap_btp_manager);
  let data key := default "" (secret_Data btpOperatorSecret !! key) in
  mret {| ClientID := data "clientid"; ClientSecret := data "clientsecret";
          URL := data "sm_url"; TokenURL := data "tokenurl" +:+ "/oauth/token" |}.

(** ** The process *)

(** [brokerapi.BrokerCredentials] and [http.Server], as far as main sets them:
    the handler is brokerapi's, for a broker and its credentials. *)
Record BrokerCredentials := { Username : string; Password : string }.
Record Server := { Addr : string; server_broker : BTPBroker; server_credentials : BrokerCredentials }.

(** The steps of the process; the routes of the server are brokerapi's and
    serving only ends with an error, or when the server is shut down.
    [ctrl.GetConfigOrDie] gives the opaque configuration of the client, or ends
    the process. *)
Inductive broker_step :=
| Getenv (name : string)
| NewClient (restConfig : string)
| NewServiceManagerClient (cfg : ClientConfig)
| ListenAndServe (server : Server)
| ResponseHeader (name : string).

Inductive broker_exit := GetConfigOrDie.

#[export] Instance broker_process : ProcessSteps := {|
  process_step := broker_step;
  step_reply s := match s with
                  | Getenv _ | ResponseHeader _ => string
                  | NewClient _ | NewServiceManagerClient _ | ListenAndServe _ => result error unit
                  end;
  exiting_step := broker_exit;
  exiting_reply _ := string
|}.

Abbreviation P := (go (process broker_process) error).

Definition buildVersion : string := "not_provided".

(** The exit code of [main]. *)
Definition broker_main `{ConfigYaml} (NewCredentialsDecoder : CredentialsDecoder) : P Z :=
  _ ← info "Starting BTP Service Broker" [("version", buildVersion)];
  or_die (lift loadConfig) "Failed to load configuration" (fun serverConfig =>
  or_exit GetConfigOrDie (fun restConfig =>
  or_die (r ← do_step (NewClient restConfig); of_result r) "Failed to create kubernetes client" (fun _ =>
  or_die (lift loadServiceManagerClientConfig) "Failed to load service manager client configuration"
    (fun smClientConfig =>
  or_die (r ← do_step (NewServiceManagerClient smClientConfig); of_result r)
    "Failed to create service manager client" (fun _ =>
  username ← do_step (Getenv "BROKER_USERNAME");
  password ← do_step (Getenv "BROKER_PASSWORD");
  let server := {| Addr := ":" +:+ Itoa (Port serverConfig);
                   server_broker := NewBroker (ResourceNamespace serverConfig) NewCredentialsDecoder;
                   server_credentials := {| Username := username; Password := password |} |} in
  or_die (r ← do_step (ListenAndServe server); of_result r) "Failed to start server" (fun _ =>
  mret 0)))))).

(** ** The middleware *)

(** [http.Request], as far as it is logged. *)
Record HttpRequest := { Method : string; RequestURL : string }.
Definition Handler : Type := HttpRequest -> P unit.

Definition loggingMiddleware (next : Handler) : Handler := fun r =>
  _ ← info "Received request" [("method", Method r); ("url", RequestURL r)];
  _ ← next r;
  status ← do_step (ResponseHeader "Status");
  info "Response sent" [("status", status)].

(** ** Correctness *)

Section Process.
Context {yaml : ConfigYaml} (decoder : CredentialsDecoder).

(** The process never panics, its exit code is 1 exactly when it gave up, and
    then the reason is the last thing it logged. *)
Lemma main_ends : ends_well (broker_main decoder).
Proof.
  unfold broker_main. apply ends_info. intros _. apply ends_or_die.
  { unfold loadConfig, wrapping. cbn. split; [by intros []|]. intros [s|]; [|done]. cbn.
    by destruct (yaml_UnmarshalConfig s). }
  intros cfg. apply ends_or_exit. intros restConfig. apply ends_or_die; [by split; [intros []|intros []]|].
  intros _. apply ends_or_die.
  { unfold loadServiceManagerClientConfig, wrapping. cbn. split; [by intros []|]. by intros []. }
  intros client. apply ends_or_die; [by split; [intros []|intros []]|]. intros _.
  apply ends_step. intros username. apply ends_step. intros password.
  apply ends_or_die; [by split; [intros []|intros []]|]. intros _. apply ends_ret.
Qed.

Context (e : environment (process broker_process)).

Ltac process_cases :=
  unfold broker_main, or_die, or_exit, loadConfig, loadServiceManagerClientConfig, wrapping, die, info, do_step, Get;
  unfold mbind, go_mbind; cbn;
  repeat (match goal with
          | |- context [answer e (PStep (Getenv ?x)) ?v] => destruct (answer e (PStep (Getenv x)) v) as [? ?]
          | |- context [answer e ?c ?v] => destruct (answer e c v) as [[] ?]
          | |- context [yaml_UnmarshalConfig ?s] => destruct (yaml_UnmarshalConfig s) eqn:?
          end; cbn).

(** (C39) The server that the process starts, if it starts one, is what the
    configuration file, the secret of the service manager and the
    environment variables say: it listens on the port of the file, its broker
    keeps its resources in the namespace of the file, the clients of the
    cluster and of the service manager were created, the latter with the
    credentials of the secret, and its callers need the user name and the
    password of the environment variables.  Credentials that the secret does
    not have are empty instead of an error. *)
Theorem serves_as_configured w server :
  PStep (ListenAndServe server) ∈ calls e (broker_main decoder) w ->
  let asked := asked e (broker_main decoder) w in
  exists text cfg restConfig secret client username password,
    asked (PCall (CReadFile config_path)) (Ok text) /\ yaml_UnmarshalConfig text = Ok cfg
    /\ asked (PExiting GetConfigOrDie) (inr restConfig) /\ asked (PStep (NewClient restConfig)) (Ok tt)
    /\ asked (PCall (CGet KSecret sap_btp_manager)) (Ok secret)
    /\ asked (PStep (NewServiceManagerClient client)) (Ok tt)
    /\ ClientID client = default "" (secret_Data secret !! "clientid")
    /\ ClientSecret client = default "" (secret_Data secret !! "clientsecret")
    /\ URL client = default "" (secret_Data secret !! "sm_url")
    /\ TokenURL client = default "" (secret_Data secret !! "tokenurl") +:+ "/oauth/token"
    /\ asked (PStep (Getenv "BROKER_USERNAME")) username
    /\ asked (PStep (Getenv "BROKER_PASSWORD")) password
    /\ server = {| Addr := ":" +:+ Itoa (Port cfg); server_broker := NewBroker (ResourceNamespace cfg) decoder;
                    server_credentials := {| Username := username; Password := password |} |}.
Proof.
  process_cases.
  all: intros Hin; repeat (apply elem_of_cons in Hin as [Hin|Hin]; [first [discriminate Hin|injection Hin as ->]|]);
    try (by inversion Hin).
  all: repeat match goal with u : unit |- _ => destruct u end.
  all: do 7 eexists; split_and!;
    first [reflexivity|eassumption|solve [repeat first [left; reflexivity|right]]].
Qed.

(** The middleware changes nothing about a request but the two lines it logs
    before and after it; the second one is missing when the request panics,
    and its status is that of a header, whatever was answered. *)
Lemma middleware_transparent next r w (quiet : forall msg attrs v, (answer e (PInfo msg attrs) v).2 = v)
    (header : forall name v, (answer e (PStep (ResponseHeader name)) v).2 = v) :
  run e (loggingMiddleware next r) w = run e (next r) w.
Proof.
  assert (Hinfo : forall msg attrs v, run e (info msg attrs) v = (Returned tt, v)).
  { intros msg attrs v. specialize (quiet msg attrs v). cbn. destruct (answer e (PInfo msg attrs) v) as [[] ?].
    cbn in quiet. by subst. }
  unfold loggingMiddleware. rewrite run_bind, Hinfo, run_bind.
  destruct (run e (next r) w) as [[[]|err|why] w1]; [|done..].
  rewrite run_bind. cbn [do_step invoke run]. specialize (header "Status" w1).
  destruct (answer e (PStep (steps:=broker_process) (ResponseHeader "Status")) w1) as [s w2]. cbn in header. subst. apply Hinfo.
Qed.
End Process.

(** ** Witness *)

#[local] Instance sample_yaml_config : ConfigYaml := fun s =>
  if decide (s = "port: 8080") then Ok {| Port := 8080; ResourceNamespace := "cfapi-system" |}
  else Fail (ErrExt "yaml: cannot unmarshal").

Definition process_answers (c : process_call) : process_reply c :=
  match c return process_reply c with
  | PCall c =>
      match c with
      | CReadFile _ => Ok "port: 8080"
      | CGet k key =>
          match k return result error (object k) with
          | KSecret => Ok {| secret_meta := meta_of (key_ns key) (key_name key);
                             secret_Data := {["clientid" := "me"]} |}
          | k => no_answers (CGet k key)
          end
      | c => no_answers c
      end
  | PInfo _ _ | PError _ _ => tt
  | PStep s =>
      match s with
      | Getenv name => name
      | ResponseHeader _ => ""
      | NewClient _ | NewServiceManagerClient _ => Ok tt
      | ListenAndServe _ => Fail (ErrExt "http: Server closed")
      end
  | PExiting _ => inr "kubeconfig"
  end.

Definition sample_process : environment (process broker_process) :=
  Environment (S:=process broker_process) unit (fun c w => (process_answers c, w)).

Lemma serves_as_configured_witness : exists text cfg,
  yaml_UnmarshalConfig text = Ok cfg /\ ":" +:+ Itoa (Port cfg) = ":8080".
Proof.
  destruct (serves_as_configured (fun _ => Fail ErrEOF) sample_process tt
    {| Addr := ":8080"; server_broker := NewBroker "cfapi-system" (fun _ => Fail ErrEOF);
       server_credentials := {| Username := "BROKER_USERNAME"; Password := "BROKER_PASSWORD" |} |})
    as (text & cfg & ? & ? & ? & ? & ? & _ & Hcfg & H).
  - vm_compute. do 8 right. left.
  - exists text, cfg. split; [exact Hcfg|].
    destruct H as (_ & _ & _ & _ & _ & _ & _ & _ & _ & _ & H). symmetry. exact (f_equal Addr H).
Defined.
