(* ===== verification/Scheme.v ===== *)
(** * Types known to the clients

    The Kubernetes client encodes and decodes a typed object only when its Go
    type was registered with the client's scheme.  This file models the
    registrations ([init] of src/main.go and of
    src/components/btp-service-broker/main.go, src/api/v1alpha1/groupversion_info.go)
    and shows that every typed call of the operator and of the broker uses a
    registered type. *)

From S2P Require Import Footprint ControllerExamples BrokerExamples.

#[local] Open Scope Z_scope.
#[local] Open Scope list_scope.

(** The Go packages that define the types the programs use, as imported. *)
Inductive package :=
| clientgoscheme | v1alpha1 | kymaistiov1alpha2 | apiextv1 | certv1alpha1
| istiov1beta1 | korifiv1alpha1 | btpv1.

#[export] Instance package_eq_dec : EqDecision package.
Proof. solve_decision. Defined.

(** An object type, or the type of its lists. *)
Inductive go_type := TObject (k : kind) | TList (k : kind).

#[export] Instance go_type_eq_dec : EqDecision go_type.
Proof. solve_decision. Defined.

(** The package of each type; core, rbac and the like are client-go's. *)
Definition package_of (k : kind) : package :=
  match k with
  | KCFAPI => v1alpha1
  | KSecret | KService | KClusterRoleBinding => clientgoscheme
  | KIstio => kymaistiov1alpha2
  | KIstioGateway => istiov1beta1
  | KCRD => apiextv1
  | KIssuer => certv1alpha1
  | KCFOrg => korifiv1alpha1
  | KServiceInstance | KServiceBinding => btpv1
  end.

(** The types that [AddToScheme] of a package outside the repository adds. *)
Class ThirdPartyTypes := third_party_types : package -> list go_type.

(** They include the types the package defines, and their lists. *)
Class ThirdPartyTypesSpec `{ThirdPartyTypes} : Prop := third_party_spec : forall k,
  package_of k <> v1alpha1 ->
  TObject k ∈ third_party_types (package_of k) /\ TList k ∈ third_party_types (package_of k).

Section Scheme.
Context `{ThirdPartyTypes}.

(** [SchemeBuilder.Register(&CFAPI{}, &CFAPIList{})] *)
Definition SchemeBuilder : list go_type := [TObject KCFAPI; TList KCFAPI].

Definition AddToScheme (p : package) (scheme : list go_type) : list go_type :=
  match p with
  | v1alpha1 => scheme ++ SchemeBuilder
  | p => scheme ++ third_party_types p
  end.

(** [init] of the operator fills a new scheme. *)
Definition main_init : list go_type :=
  let scheme := [] in
  let scheme := AddToScheme clientgoscheme scheme in
  let scheme := AddToScheme v1alpha1 scheme in
  let scheme := AddToScheme kymaistiov1alpha2 scheme in
  let scheme := AddToScheme apiextv1 scheme in
  let scheme := AddToScheme certv1alpha1 scheme in
  let scheme := AddToScheme istiov1beta1 scheme in
  AddToScheme korifiv1alpha1 scheme.

(** [init] of the broker adds to client-go's own scheme. *)
Definition broker_init : list go_type :=
  AddToScheme btpv1 (AddToScheme clientgoscheme []).

(** The type that the controller watches, [For(&v1alpha1.CFAPI{})]. *)
Definition Reconciler_SetupWithManager : go_type := TObject KCFAPI.

(** [PatchingReconciler.SetupWithManager] builds what its delegate asks for. *)
Definition PatchingReconciler_SetupWithManager (delegate : go_type) : go_type := delegate.

(** The type of the object a call hands to the client.  Unstructured objects
    and bare metadata carry their kind themselves. *)
Definition type_of (c : call) : option go_type :=
  match c with
  | CGet k _ | CDelete k _ | CDeleteAllOf k _ | CPatch k _ _ | CStatusPatch k _ _
  | CCreateOrPatch k _ _ => Some (TObject k)
  | CList k => Some (TList k)
  | _ => None
  end.

Definition registered (scheme : list go_type) (c : call) : Prop :=
  forall t, type_of c = Some t -> t ∈ scheme.

Lemma elem_of_AddToScheme t p scheme :
  t ∈ AddToScheme p scheme <-> t ∈ scheme \/ t ∈ (if decide (p = v1alpha1) then SchemeBuilder else third_party_types p).
Proof. destruct p; cbn; by rewrite elem_of_app. Qed.

Context `{!ThirdPartyTypesSpec}.

Lemma main_init_knows k : operator_kind k -> TObject k ∈ main_init /\ TList k ∈ main_init.
Proof.
  intros Hk. unfold main_init. rewrite !elem_of_AddToScheme. cbn.
  destruct (decide (package_of k = v1alpha1)) as [Hv|Hv].
  - destruct k; try done. unfold SchemeBuilder. set_solver.
  - pose proof (third_party_spec k Hv) as Hs. destruct k; cbn in Hs, Hk; tauto.
Qed.

Lemma broker_init_knows k :
  package_of k = clientgoscheme \/ package_of k = btpv1 -> TObject k ∈ broker_init /\ TList k ∈ broker_init.
Proof.
  intros Hk. unfold broker_init. rewrite !elem_of_AddToScheme. cbn.
  assert (Hv : package_of k <> v1alpha1) by (destruct Hk as [-> | ->]; done).
  pose proof (third_party_spec k Hv) as Hs. destruct Hk as [Hk|Hk]; rewrite Hk in Hs; tauto.
Qed.

Lemma registered_read c : operator_read c -> registered main_init c.
Proof.
  intros Hc t Ht. destruct c; try done; injection Ht as <-; by apply main_init_knows.
Qed.
End Scheme.

(** ** The operator *)

Lemma only_Reconcile `{ConverterLib} {k} (P : call -> Prop) (delegate : ObjectReconciler k) req :
  P (CGet k req) -> (forall o from, P (CPatch k o from) /\ P (CStatusPatch k o from)) ->
  (forall o, only_calls (S:=ext) P (delegate o)) ->
  only_calls (S:=ext) P (PatchingReconciler.Reconcile delegate req).
Proof.
  intros Hget Hpatch Hd. unfold PatchingReconciler.Reconcile.
  apply only_calls_bind; [by apply only_calls_try, only_calls_Get|].
  intros [o|err]; [|by case_match]. apply only_calls_bind; [|intros [[? ?]|?]; exact I].
  apply only_calls_try. unfold Patching.Patch. apply only_calls_bind.
  - unfold PatchingReconciler.modify. apply only_calls_bind; [apply Hd|]. by intros [? ?].
  - intros [o' closure]. apply only_calls_bind; [apply only_calls_of_result|]. intros has.
    apply only_calls_bind.
    { apply only_calls_wrapping. split; [apply Hpatch|]. intros r. apply only_calls_of_result. }
    intros patched. destruct has; [|exact I]. apply only_calls_bind.
    { apply only_calls_wrapping. split; [apply Hpatch|]. intros r. apply only_calls_of_result. }
    intros m. apply only_calls_bind; [apply only_calls_of_result|]. done.
Qed.

Section Operator.
Context {it : ItLib} {yaml : YamlLib} {unstr : UnstructuredLib} {uni : Unicode} {helm : HelmLib}.
Context {meta : MetaLib} {fin : FinalizerLib} {jsonp : JsonParser} {conv : ConverterLib}.

(** (C26) Every object type that the operator reads, lists, patches or deletes
    through the client, in any cluster, was registered with the scheme the
    client is built with, and so was the type the controller watches: the
    client never refuses a call because it does not know a type. *)
Theorem operator_types_registered `{!ThirdPartyTypes, !ThirdPartyTypesSpec} (e : Env) req w :
  Forall (registered main_init) (calls e (NewReconciler operator req) w)
  /\ PatchingReconciler_SetupWithManager Reconciler_SetupWithManager ∈ main_init.
Proof.
  assert (Hk : forall k, operator_kind k -> forall c t, type_of c = Some t -> t = TObject k -> registered main_init c).
  { intros k Hk c t Ht -> t' Ht'. rewrite Ht in Ht'. injection Ht' as <-. by apply main_init_knows. }
  split; [|by apply (main_init_knows KCFAPI)].
  apply (only_calls_sound (S:=ext)). unfold NewReconciler. apply only_Reconcile.
  - by apply registered_read.
  - intros o from. split; by apply (Hk KCFAPI I _ (TObject KCFAPI)).
  - intros cfAPI. apply given_calls, only_ReconcileResource with (cfapi := cfapi_key cfAPI);
      [intros _; apply registered_read|done| |].
    + intros config. apply only_install, only_main_install; try done.
      * intros _. apply registered_read.
      * intros glob _. split; [by split|]. intros h c. by destruct c.
    + apply only_uninstall, only_main_uninstall; try done.
      * intros _. apply registered_read.
      * intros _. by apply (Hk KCFOrg I _ (TObject KCFOrg)).
Qed.
End Operator.

(** ** The broker *)

Section Broker.
Context {it : ItLib} {meta : MetaLib} {jsonp : JsonParser} {lib : BrokerLib}.
Context (b : BTPBroker) (P : call -> Prop).
Context (P_secret : forall key, P (CGet KSecret key)).
Context (P_instance : forall key, P (CGet KServiceInstance key) /\ P (CDelete KServiceInstance key)
                        /\ forall o p ps, P (CCreateOrPatch KServiceInstance key (instance_spec o p ps))).
Context (P_binding : forall key, P (CGet KServiceBinding key) /\ P (CDelete KServiceBinding key)
                        /\ forall i b ps, P (CCreateOrPatch KServiceBinding key (binding_spec i b ps))).
Context (P_catalogue : P CListOfferings /\ P CListPlans).

Abbreviation only := (only_calls (S:=ext) (E:=error) P).

Lemma only_answered {A} (c : call) (k : reply c -> result error A) :
  P c -> only (Call (S:=ext) c (fun r => of_result (k r))).
Proof. intros Hc. split; [done|]. intros r. apply only_calls_of_result. Qed.

Lemma only_wrapped {A} f (c : call) (k : reply c -> result error A) :
  P c -> only (wrapping f (Call (S:=ext) c (fun r => of_result (k r)))).
Proof. intros Hc. by apply only_calls_wrapping, only_answered. Qed.

Lemma only_message conditions type : only (message_of conditions type).
Proof. unfold message_of. apply only_calls_bind; [apply only_calls_deref|]. done. Qed.

Lemma only_described conditions type (f : string -> LastOperation) :
  only (description ← message_of conditions type; mret (f description)).
Proof. apply only_calls_bind; [apply only_message|]. done. Qed.

Lemma only_ListPlans : only ListPlans.
Proof. apply (only_wrapped _ CListPlans (fun r => r)). tauto. Qed.

Lemma only_ListOfferings : only ListOfferings.
Proof. apply (only_wrapped _ CListOfferings (fun r => r)). tauto. Qed.

Lemma only_Provision id details : only (Provision b id details).
Proof.
  unfold Provision, getPlanByID, getOfferingByID.
  apply only_calls_bind. { apply only_calls_bind; [apply only_ListPlans|]. intros plans. by case_match. }
  intros plan. apply only_calls_bind.
  { apply only_calls_bind; [apply only_ListOfferings|]. intros offerings. by case_match. }
  intros offering. apply only_calls_bind; [|done].
  apply (only_wrapped _ (CCreateOrPatch KServiceInstance _ _) (fun r => r)), P_instance.
Qed.

Lemma only_removal f k key (s : Spec) :
  P (CDelete k key) ->
  only (_ ← wrapping f (ignoring_not_found (Delete k key)); mret s).
Proof.
  intros Hd. apply only_calls_bind; [|done]. apply only_calls_wrapping.
  apply only_calls_bind; [|intros r; apply only_calls_of_result].
  by apply only_calls_try, (only_answered (CDelete k key) (fun r => r)).
Qed.

Lemma only_polling {k} key (on_error : error -> M LastOperation) (state : object k -> M LastOperation) :
  P (CGet k key) -> (forall err, only (on_error err)) -> (forall o, only (state o)) ->
  only (r ← try (Get k key); match r with Fail err => on_error err | Ok o => state o end).
Proof.
  intros Hg He Hs. apply only_calls_bind; [by apply only_calls_try, only_calls_Get|].
  by intros [o|err].
Qed.

Lemma only_bindLastOperation id : only (bindLastOperation b id).
Proof.
  unfold bindLastOperation.
    apply (only_polling (k:=KServiceBinding)); [apply P_binding|intros err; by case_match|].
  intros o. unfold bindingStateResponse. repeat case_match; try exact I. apply only_described.
Qed.

Lemma only_LastOperation id data : only (Broker_LastOperation b id data).
Proof.
  unfold Broker_LastOperation. repeat case_match; [| |exact I].
  - unfold provisionLastOperation.
    apply (only_polling (k:=KServiceInstance)); [apply P_instance|intros err; by case_match|].
    intros o. unfold provisionInstanceStateResponse. repeat case_match; try exact I. apply only_described.
  - unfold deprovisionLastOperation.
    apply (only_polling (k:=KServiceInstance)); [apply P_instance|intros err; by case_match|].
    intros o. unfold deprovisionInstanceStateResponse. repeat case_match; try exact I. apply only_described.
Qed.

Lemma only_LastBindingOperation id bid data : only (LastBindingOperation b id bid data).
Proof.
  unfold LastBindingOperation. repeat case_match; [apply only_bindLastOperation| |exact I].
  unfold unbindLastOperation.
    apply (only_polling (k:=KServiceBinding)); [apply P_binding|intros err; by case_match|].
  intros o. unfold unbindStateResponse. repeat case_match; try exact I. apply only_described.
Qed.

Lemma only_Bind id bid details : only (Bind b id bid details).
Proof.
  unfold Bind. apply only_calls_bind.
  { apply (only_wrapped _ (CCreateOrPatch KServiceBinding _ _) (fun r => r)), P_binding. }
  intros o. apply only_calls_bind; [apply only_calls_wrapping, only_LastBindingOperation|].
  intros lo. case_decide; [|exact I]. apply only_calls_bind; [|done]. apply only_calls_wrapping.
  unfold getCredentials. apply only_calls_bind; [by apply only_calls_wrapping, only_calls_Get|].
  intros s. apply only_calls_of_result.
Qed.

Lemma only_Services : only Services.
Proof.
  unfold Services. apply only_calls_bind; [apply only_ListOfferings|]. intros os.
  apply only_calls_bind; [apply only_ListPlans|]. intros ps. apply only_calls_of_result.
Qed.
End Broker.

(** The requests that the broker serves, the instance and binding they are
    about, and the program that serves each. *)
Inductive request :=
| ReqServices
| ReqProvision (id : string) (details : ProvisionDetails)
| ReqDeprovision (id : string)
| ReqLastOperation (id data : string)
| ReqBind (id bid : string) (details : BindDetails)
| ReqUnbind (id bid : string)
| ReqLastBindingOperation (id bid data : string).

Section Requests.
Context {it : ItLib} {meta : MetaLib} {jsonp : JsonParser} {lib : BrokerLib}.

Definition serve (b : BTPBroker) (r : request) : M unit :=
  match r with
  | ReqServices => _ ← Services; mret tt
  | ReqProvision id details => _ ← Provision b id details; mret tt
  | ReqDeprovision id => _ ← Deprovision b id; mret tt
  | ReqLastOperation id data => _ ← Broker_LastOperation b id data; mret tt
  | ReqBind id bid details => _ ← Bind b id bid details; mret tt
  | ReqUnbind id bid => _ ← Unbind b id bid; mret tt
  | ReqLastBindingOperation id bid data => _ ← LastBindingOperation b id bid data; mret tt
  end.

Lemma only_serve (b : BTPBroker) (P : call -> Prop) r :
  (forall key, P (CGet KSecret key)) ->
  (forall key, P (CGet KServiceInstance key) /\ P (CDelete KServiceInstance key)
                 /\ forall o p ps, P (CCreateOrPatch KServiceInstance key (instance_spec o p ps))) ->
  (forall key, P (CGet KServiceBinding key) /\ P (CDelete KServiceBinding key)
                 /\ forall i b ps, P (CCreateOrPatch KServiceBinding key (binding_spec i b ps))) ->
  P CListOfferings /\ P CListPlans -> only_calls (S:=ext) P (serve b r).
Proof.
  intros Hs Hi Hb Hc. destruct r; cbn [serve]; (apply only_calls_bind; [|done]).
  - by apply only_Services.
  - by apply only_Provision.
  - apply only_removal, Hi.
  - by apply only_LastOperation.
  - by apply only_Bind.
  - apply only_removal, Hb.
  - by apply only_LastBindingOperation.
Qed.

(** Every object type that serving a broker request uses was registered
    with the scheme of the broker's client. *)
Theorem broker_types_registered `{!ThirdPartyTypes, !ThirdPartyTypesSpec} (e : Env) b r w :
  Forall (registered broker_init) (calls e (serve b r) w).
Proof.
  assert (Hk : forall k, package_of k = clientgoscheme \/ package_of k = btpv1 ->
    forall c, type_of c = Some (TObject k) -> registered broker_init c).
  { intros k Hk c Ht t' Ht'. rewrite Ht in Ht'. injection Ht' as <-. by apply broker_init_knows. }
  apply (only_calls_sound (S:=ext)), only_serve.
  - intros key. apply (Hk KSecret); tauto.
  - intros key. repeat split; intros; apply (Hk KServiceInstance); tauto.
  - intros key. repeat split; intros; apply (Hk KServiceBinding); tauto.
  - by split; intros t.
Qed.
End Requests.

(** ** Witnesses *)

(** Every package adds the types of all its kinds. *)
Definition all_kinds : list kind :=
  [KCFAPI; KSecret; KService; KIstio; KIstioGateway; KClusterRoleBinding; KCRD; KIssuer; KCFOrg;
   KServiceInstance; KServiceBinding].

#[local] Instance sample_types : ThirdPartyTypes := fun p =>
  k ← filter (fun k => package_of k = p) all_kinds; [TObject k; TList k].

#[local] Instance sample_types_spec : ThirdPartyTypesSpec.
Proof. intros k _. destruct k; vm_compute; split; repeat constructor. Qed.

#[local] Existing Instances Reference.it Reference.unstructured Reference.unicode Reference.helm
  Reference.meta Reference.finalizers SingleObject.converter ControllerExamples.sample_parser
  BrokerExamples.sample_lib.
#[local] Instance no_manifests : YamlLib := Reference.yaml_table [] [].

Lemma operator_types_registered_witness :
  Forall (registered main_init) (calls (const_env orgs_answers) (NewReconciler operator sample_key) tt).
Proof. exact (proj1 (operator_types_registered (const_env orgs_answers) sample_key tt)). Defined.

Lemma broker_types_registered_witness :
  Forall (registered broker_init)
    (calls (const_env broker_answers) (serve sample_broker (ReqBind "i" "b" {| bd_RawParameters := "" |})) tt).
Proof.
  exact (broker_types_registered (const_env broker_answers) sample_broker
           (ReqBind "i" "b" {| bd_RawParameters := "" |}) tt).
Defined.
