(* ===== verification/Bounds.v ===== *)
(** * How much one step can do

    Bounds, valid in every environment, on what a single reconciliation of
    the operator and a single request to the broker ask of the outside world.
    Every call has a cost, and a program costs at most [n] when no answers it
    can get make its calls cost more. *)

From S2P Require Import Footprint ControllerExamples BrokerExamples Scheme.

#[local] Open Scope nat_scope.
#[local] Open Scope list_scope.

(** ** Costs *)

Section Costs.
Context {S : signature} {E : Type} (cost : call_of S -> nat).

Fixpoint costs {A} (n : nat) (p : go S E A) : Prop :=
  match p with
  | Call c k => cost c <= n /\ forall r, costs (n - cost c) (k r)
  | _ => True
  end.

Definition total (cs : list (call_of S)) : nat := sum_list (cost <$> cs).

Lemma costs_weaken {A} n m (p : go S E A) : n <= m -> costs n p -> costs m p.
Proof.
  revert n m. induction p as [| | |c k IH]; cbn; auto. intros n m Hnm [Hc Hk].
  split; [lia|]. intros r. eapply IH; [|apply Hk]. lia.
Qed.

Lemma costs_bind {A B} n m (p : go S E A) (k : A -> go S E B) :
  costs n p -> (forall a, costs m (k a)) -> costs (n + m) (p ≫= k).
Proof.
  unfold mbind, go_mbind. revert n. induction p as [a| | |c f IH]; cbn; auto.
  - intros n _ Hk. eapply costs_weaken; [|apply Hk]. lia.
  - intros n [Hc Hf] Hk. split; [lia|]. intros r.
    replace (n + m - cost c) with (n - cost c + m) by lia. by apply IH.
Qed.

(** The second program is free, or the first one is. *)
Lemma costs_then_free {A B} n (p : go S E A) (k : A -> go S E B) :
  costs n p -> (forall a, costs 0 (k a)) -> costs n (p ≫= k).
Proof. intros Hp Hk. replace n with (n + 0) by lia. by apply costs_bind. Qed.

Lemma costs_free_then {A B} n (p : go S E A) (k : A -> go S E B) :
  costs 0 p -> (forall a, costs n (k a)) -> costs n (p ≫= k).
Proof. by apply (costs_bind 0 n). Qed.

Lemma costs_try {A} n (p : go S E A) : costs n p -> costs n (try p).
Proof. revert n. induction p as [| | |c k IH]; cbn; auto. intros n [Hc Hk]. auto. Qed.

Lemma costs_of_result {A} n (r : result E A) : costs n (of_result r).
Proof. by destruct r. Qed.

Lemma costs_wrapping {A} n f (p : go S E A) : costs n p -> costs n (wrapping f p).
Proof. intros Hp. apply costs_then_free; [by apply costs_try|]. intros. apply costs_of_result. Qed.

Lemma costs_call {A} c (k : resp_of S c -> go S E A) : (forall r, costs 0 (k r)) -> costs (cost c) (Call c k).
Proof. intros Hk. split; [lia|]. intros r. by rewrite Nat.sub_diag. Qed.

Lemma costs_free {A} n (p : go S E A) : only_calls (fun c => cost c = 0) p -> costs n p.
Proof.
  revert n. induction p as [| | |c k IH]; cbn; auto. intros n [-> Hk]. split; [lia|]. auto.
Qed.

Lemma costs_sound env {A} n (p : go S E A) w : costs n p -> total (calls env p w) <= n.
Proof.
  unfold total. revert n w. induction p as [| | |c k IH]; cbn; try lia. intros n w [Hc Hk].
  destruct (answer env c w) as [r w']. cbn. specialize (IH r (n - cost c) w' (Hk r)). lia.
Qed.
End Costs.

#[export] Hint Resolve costs_try costs_of_result costs_wrapping : costs.

(** The number of calls of a kind. *)
Lemma total_count {S : signature} (P : call_of S -> Prop) `{forall c, Decision (P c)} cs :
  total (fun c => if decide (P c) then 1 else 0) cs = length (filter P cs).
Proof.
  unfold total. induction cs as [|c cs IH]; [done|]. rewrite filter_cons. cbn. by case_decide; cbn; rewrite IH.
Qed.

Lemma total_length {S : signature} (cs : list (call_of S)) : total (fun _ => 1) cs = length cs.
Proof. induction cs as [|c cs IH]; [done|]. cbn. by f_equal. Qed.

(** ** The broker *)

Section Broker.
Context {it : ItLib} {meta : MetaLib} {jsonp : JsonParser} {lib : BrokerLib}.
Context (cost : call -> nat) (reading writing : nat).
Context (Hread : forall c, is_read c -> cost c <= reading).
Context (Hwrite : forall c, changes_cluster c -> cost c <= writing).

Abbreviation costs := (costs (S:=ext) (E:=error) cost).

Lemma costs_one {A} n (c : call) (k : reply c -> result error A) :
  cost c <= n -> costs n (Call (S:=ext) c (fun r => of_result (k r))).
Proof. intros Hc. split; [done|]. intros r. apply costs_of_result. Qed.

Lemma costs_message n conditions type (f : string -> LastOperation) :
  costs n (description ← message_of conditions type; mret (f description)).
Proof. apply costs_free, only_described. Qed.

Lemma costs_polling {k} key (on_error : error -> M LastOperation) (state : object k -> M LastOperation) :
  (forall err, costs 0 (on_error err)) -> (forall o, costs 0 (state o)) ->
  costs reading (r ← try (Get k key); match r with Fail err => on_error err | Ok o => state o end).
Proof.
  intros He Hs. apply costs_then_free; [|by intros [o|err]].
  by apply costs_try, (costs_one _ (CGet k key) (fun r => r)), Hread.
Qed.

Ltac polling k :=
  apply (costs_polling (k:=k)); [intros err; by case_match|];
  intros o; repeat case_match; try exact I; apply costs_message.

Lemma costs_LastOperation b id data : costs reading (Broker_LastOperation b id data).
Proof.
  unfold Broker_LastOperation, provisionLastOperation, deprovisionLastOperation,
    provisionInstanceStateResponse, deprovisionInstanceStateResponse.
  repeat case_match; [polling KServiceInstance..|exact I].
Qed.

Lemma costs_LastBindingOperation b id bid data : costs reading (LastBindingOperation b id bid data).
Proof.
  unfold LastBindingOperation, bindLastOperation, unbindLastOperation, bindingStateResponse, unbindStateResponse.
  repeat case_match; [polling KServiceBinding..|exact I].
Qed.

Lemma costs_removal f k key (s : Spec) :
  costs writing (_ ← wrapping f (ignoring_not_found (Delete k key)); mret s).
Proof.
  apply costs_then_free; [|done]. apply costs_wrapping, costs_then_free; [|intros; apply costs_of_result].
  by apply costs_try, (costs_one _ (CDelete k key) (fun r => r)), Hwrite.
Qed.

Lemma costs_ListPlans : costs reading ListPlans.
Proof. by apply costs_wrapping, (costs_one _ CListPlans (fun r => r)), Hread. Qed.

Lemma costs_ListOfferings : costs reading ListOfferings.
Proof. by apply costs_wrapping, (costs_one _ CListOfferings (fun r => r)), Hread. Qed.

Lemma costs_Services : costs (reading + reading) Services.
Proof.
  apply costs_bind; [apply costs_ListOfferings|]. intros offerings.
  apply costs_then_free; [apply costs_ListPlans|]. intros plans. apply costs_of_result.
Qed.

Lemma costs_Provision b id details : costs (reading + (reading + writing)) (Provision b id details).
Proof.
  apply costs_bind.
  { apply costs_then_free; [apply costs_ListPlans|]. intros plans. by case_match. }
  intros plan. apply costs_bind.
  { apply costs_then_free; [apply costs_ListOfferings|]. intros offerings. by case_match. }
  intros offering. apply costs_then_free; [|done].
  by apply costs_wrapping, (costs_one _ (CCreateOrPatch KServiceInstance _ _) (fun r => r)), Hwrite.
Qed.

Lemma costs_Bind b id bid details : costs (writing + (reading + reading)) (Bind b id bid details).
Proof.
  apply costs_bind.
  { by apply costs_wrapping, (costs_one _ (CCreateOrPatch KServiceBinding _ _) (fun r => r)), Hwrite. }
  intros o. apply costs_bind; [apply costs_wrapping, costs_LastBindingOperation|].
  intros lo. case_decide; [|exact I]. apply costs_then_free; [|done]. apply costs_wrapping, costs_then_free.
  - by apply costs_wrapping, (costs_one _ (CGet KSecret _) (fun r => r)), Hread.
  - intros s. apply costs_of_result.
Qed.

Lemma costs_serve b r : costs (writing + 2 * reading) (serve b r).
Proof.
  destruct r; cbn [serve]; (apply costs_then_free; [|done]).
  - eapply costs_weaken; [|apply costs_Services]; lia.
  - eapply costs_weaken; [|apply costs_Provision]; lia.
  - eapply costs_weaken; [|apply costs_removal]; lia.
  - eapply costs_weaken; [|apply costs_LastOperation]; lia.
  - eapply costs_weaken; [|apply costs_Bind]; lia.
  - eapply costs_weaken; [|apply costs_removal]; lia.
  - eapply costs_weaken; [|apply costs_LastBindingOperation]; lia.
Qed.
End Broker.

(** How many operations of the Kubernetes client and of the service manager
    client a call stands for.  [controllerutil.CreateOrPatch] reads the object
    and then creates or patches it; it only patches the status as well if the
    mutation changes it. *)
Definition requests (c : call) : nat :=
  match c with
  | CCreateOrPatch _ _ _ => 2
  | _ => 1
  end.

(** A mutation that leaves everything but the spec alone. *)
Definition mutates_spec_only (c : call) : Prop :=
  match c with
  | CCreateOrPatch k _ mutate =>
      match k return (object k -> object k) -> Prop with
      | KServiceInstance => fun f => forall o, si_meta (f o) = si_meta o
          /\ si_Conditions (f o) = si_Conditions o /\ si_OperationType (f o) = si_OperationType o
      | KServiceBinding => fun f => forall o, sb_meta (f o) = sb_meta o
          /\ sb_Conditions (f o) = sb_Conditions o /\ sb_OperationType (f o) = sb_OperationType o
      | _ => fun _ => False
      end mutate
  | _ => True
  end.

(** (C38) Serving one request of the platform takes at most four operations
    of the Kubernetes client and the service manager client, where creating or
    patching an object takes two: one to read it and one to write it, since
    the mutations of the broker leave the status alone.  (Listing offerings or
    plans is one operation, however many pages that client fetches.)  At most
    one of the calls changes anything: a request never leaves two changes of
    which only the first arrived. *)
Theorem serving_is_bounded {it : ItLib} {meta : MetaLib} {jsonp : JsonParser} {lib : BrokerLib}
    (e : Env) b r w :
  total (S:=ext) requests (calls e (serve b r) w) <= 4
  /\ Forall mutates_spec_only (calls e (serve b r) w)
  /\ length (mutations e (serve b r) w) <= 1.
Proof.
  split; [|split].
  - apply (costs_sound (S:=ext) _ e 4). apply (costs_serve _ 1 2); intros c Hc; destruct c; done || (cbn; lia).
  - apply (only_calls_sound (S:=ext)), only_serve; [done|..|done]; intros key; by repeat split.
  - unfold mutations. rewrite <- (total_count (S:=ext) changes_cluster). apply (costs_sound (S:=ext) _ e 1).
    apply (costs_serve _ 0 1); intros c Hc; [|by case_decide; lia].
    rewrite decide_False; [done|]. by apply reads_change_nothing.
Qed.

(** ** The operator *)

(** The calls with which manifests are read, applied and deleted. *)
Definition manifest_call (c : call) : Prop :=
  match c with
  | CGlob _ | CReadFile _ | CCreate _ | CUpdate _ | CDeleteUnstructured _ => True
  | _ => False
  end.

(** The release that a call installs, upgrades or uninstalls. *)
Definition helm_operation (c : call) : option (string * string) :=
  match c with
  | CRunInstall ns name _ _ | CRunUpgrade ns name _ _ | CRunUninstall ns name => Some (ns, name)
  | _ => None
  end.

Section Operator.
Context {it : ItLib} {yaml : YamlLib} {unstr : UnstructuredLib} {uni : Unicode} {helm : HelmLib}.
Context (cost : call -> nat) (helm_cost : string * string -> nat) (orgs_cost patch_cost : nat).
Context (Hrelease : forall c r, helm_operation c = Some r -> cost c <= helm_cost r).
Context (Horgs : forall ns, cost (CDeleteAllOf KCFOrg ns) <= orgs_cost).
Context (Hpatch : forall (o from : object KCFAPI),
  cost (CPatch KCFAPI o from) <= patch_cost /\ cost (CStatusPatch KCFAPI o from) <= patch_cost).
Context (Hread : forall c, operator_read c -> cost c = 0).
Context (Hmanifest : forall c, manifest_call c -> cost c = 0) (Hchart : forall path, cost (CLoadChart path) = 0).
Context (cfapi : ObjectKey) (Hevent : forall t reason action msg, cost (CEventf cfapi t reason action msg) = 0).

Abbreviation costs := (costs (S:=ext) (E:=error) cost).
Abbreviation recorder := (NewCFAPIEventRecorder cfapi).

Lemma costs_reads {A} n (p : M A) : only_calls (S:=ext) operator_read p -> costs n p.
Proof. intros Hp. apply costs_free. exact (only_calls_impl (S:=ext) _ _ p Hread Hp). Qed.

Lemma costs_event n t reason msg : costs n (Event recorder t reason msg).
Proof. apply costs_free. split; [apply Hevent|done]. Qed.

Lemma costs_Apply path ns name values : costs (helm_cost (ns, name)) (HelmClient.Apply path ns name values).
Proof.
  assert (Hinit : costs 0 (init_config ns)) by (by apply costs_reads, reads_init_config).
  unfold HelmClient.Apply. apply costs_free_then.
  { apply costs_free, only_calls_wrapping. split; [apply Hchart|]. intros r. apply only_calls_of_result. }
  intros ch. apply costs_free_then; [by apply costs_wrapping, costs_reads, reads_latest|]. intros [rel|].
  - apply costs_free_then; [apply costs_free, only_calls_deref|]. intros status. case_match; [exact I|].
    apply costs_free_then; [apply costs_wrapping, costs_of_result|]. intros same.
    do 3 (apply costs_free_then; [apply costs_free, only_calls_deref|]; intros ?).
    case_match; [exact I|]. unfold upgrade. apply costs_free_then; [done|]. intros _.
    apply costs_then_free; [split; [by apply Hrelease|done]|]. intros [r|]; [|exact I].
    apply costs_free, only_calls_bind; [apply only_calls_deref|]. done.
  - unfold HelmClient.install. apply costs_free_then; [done|]. intros _.
    apply costs_then_free; [split; [by apply Hrelease|done]|]. intros [r|]; [|exact I].
    apply costs_free, only_calls_bind; [apply only_calls_deref|]. done.
Qed.

Lemma costs_Uninstall ns name : costs (helm_cost (ns, name)) (HelmClient.Uninstall ns name).
Proof.
  unfold HelmClient.Uninstall.
  apply costs_free_then; [by apply costs_wrapping, costs_reads, reads_latest|]. intros [rel|]; [|exact I].
  apply costs_free_then; [apply costs_free, only_calls_deref|]. intros status. case_decide; [exact I|].
  apply costs_free_then; [by apply costs_reads, reads_init_config|]. intros _.
  apply costs_then_free; [split; [by apply Hrelease|done]|]. by intros [[r|]|].
Qed.

Lemma costs_HelmChart_Install path ns name provider config :
  only_calls (S:=ext) operator_read (GetValues provider config) ->
  costs (helm_cost (ns, name)) (Install (HelmChart.NewHelmChart path ns name provider helmClient) config recorder).
Proof.
  intros Hv. change (costs (helm_cost (ns, name))
    (HelmChart.HelmChart_Install path ns name provider helmClient config recorder)).
  unfold HelmChart.HelmChart_Install.
  apply costs_free_then; [by apply costs_try, costs_reads|]. intros [values|]; [|exact I].
  apply costs_then_free; [apply costs_try, costs_Apply|]. intros [res|]; [|exact I].
  apply costs_free_then; [apply costs_event|]. intros _.
  repeat case_decide; (apply costs_free_then; [apply costs_event|]); done.
Qed.

Lemma costs_HelmChart_Uninstall path ns name provider config :
  costs (helm_cost (ns, name)) (Uninstall (HelmChart.NewHelmChart path ns name provider helmClient) config recorder).
Proof.
  change (costs (helm_cost (ns, name)) (HelmChart.HelmChart_Uninstall ns name helmClient config recorder)).
  unfold HelmChart.HelmChart_Uninstall.
  apply costs_then_free; [apply costs_try, costs_Uninstall|]. intros [res|]; [|exact I].
  apply costs_free_then; [apply costs_event|]. intros _.
  case_match; (apply costs_free_then; [apply costs_event|]); done.
Qed.
(** *** The loops of the reconciler *)

Lemma costs_install r config ns :
  Forall2 (fun i n => costs n (Install i config recorder)) (installOrder r) ns ->
  costs (sum_list ns) (install r config recorder).
Proof.
  intros H. unfold install. apply costs_then_free; [|intros; apply costs_free, only_calls_index].
  generalize (@nil Result) as acc. induction H as [|i n order ns Hi _ IH]; intros acc; [exact I|].
  cbn [install_loop]. apply costs_bind; [done|]. auto.
Qed.

Lemma costs_uninstall r config ns :
  Forall2 (fun i n => costs n (Uninstall i config recorder)) (uninstallOrder r) ns ->
  costs (sum_list ns) (uninstall r config recorder).
Proof.
  unfold uninstall. induction 1 as [|i n order ns Hi _ IH]; [exact I|].
  cbn [uninstall_loop]. apply costs_bind; [done|]. intros result. by case_decide.
Qed.

Lemma costs_Yaml_Install glob name config : costs 0 (Install (Yaml.NewYaml glob name) config recorder).
Proof.
  apply costs_free, given_calls. apply only_Yaml_Install; auto.
  - split; intros; by apply Hmanifest.
  - intros h c Hc. apply Hmanifest. by destruct c.
Qed.

Lemma costs_Yaml_Uninstall glob name config : costs 0 (Uninstall (Yaml.NewYaml glob name) config recorder).
Proof.
  apply costs_free, given_calls. apply only_Yaml_Uninstall; auto.
  - split; intros; by apply Hmanifest.
  - intros h obj _. by apply Hmanifest.
Qed.

Lemma costs_Orgs config : costs orgs_cost (Uninstall Orgs.NewOrgs config recorder).
Proof.
  change (costs orgs_cost (Orgs.Orgs_Uninstall config recorder)). unfold Orgs.Orgs_Uninstall.
  assert (Hf : forall err, costs 0 (_ ← Orgs.failed_event recorder; Err (A:=Result) err)).
  { intros err. apply costs_free_then; [apply costs_event|]. done. }
  apply costs_then_free.
  - apply costs_try. unfold Orgs.deleteAllOrgs. apply costs_then_free; [|intros; apply costs_of_result].
    apply costs_try. split; [done|]. intros r. apply costs_of_result.
  - intros [[]|err]; [|apply Hf]. apply costs_free_then.
    + apply costs_try, costs_reads. unfold Orgs.remainingOrgsCount. apply only_calls_bind.
      * by apply only_calls_try, only_calls_List.
      * intros [items|err]; [exact I|]. by case_match.
    + intros [n|err]; [by case_match|apply Hf].
Qed.

(** All releases together. *)
Definition helm_costs : nat := sum_list (helm_cost <$> releases).

Lemma costs_main_install config : costs helm_costs (install operator config recorder).
Proof.
  eapply costs_weaken; [|apply (costs_install operator config
    [0; 0; 0; 0; helm_cost ("cfapi-system", "contour"); 0; helm_cost ("korifi", "korifi-prerequisites");
     helm_cost ("korifi", "korifi"); helm_cost ("korifi", "cfapi-config");
     helm_cost ("cfapi-system", "btp-service-broker")])].
  { unfold helm_costs. cbn. lia. }
  repeat apply Forall2_cons_2; try apply Forall2_nil_2; try apply costs_Yaml_Install.
  - change (costs (helm_cost ("cfapi-system", "contour")) (Conditional.Conditional_Install ContourEnabled
      (HelmChart.NewHelmChart "./module-data/vendor/contour-chart" "cfapi-system" "contour"
         ContourValues helmClient) config recorder)).
    unfold Conditional.Conditional_Install. case_match;
      [apply costs_HelmChart_Install, only_reads_Override|apply costs_HelmChart_Uninstall].
  - apply costs_HelmChart_Install, only_reads_Prerequisites.
  - apply costs_HelmChart_Install, only_reads_Korifi.
  - apply costs_HelmChart_Install, only_reads_CFAPIConfig.
  - apply costs_HelmChart_Install, only_reads_Override.
Qed.

Lemma costs_main_uninstall config : costs (orgs_cost + helm_costs) (uninstall operator config recorder).
Proof.
  eapply costs_weaken; [|apply (costs_uninstall operator config
    [orgs_cost; 0; helm_cost ("cfapi-system", "btp-service-broker"); helm_cost ("korifi", "cfapi-config");
     helm_cost ("korifi", "korifi"); helm_cost ("korifi", "korifi-prerequisites"); 0;
     helm_cost ("cfapi-system", "contour"); 0; 0; 0])].
  { unfold helm_costs. cbn. lia. }
  repeat apply Forall2_cons_2; try apply Forall2_nil_2; try apply costs_Yaml_Uninstall;
    try apply costs_HelmChart_Uninstall. apply costs_Orgs.
Qed.

(** *** A reconciliation *)

Context {meta : MetaLib} {fin : FinalizerLib} {jsonp : JsonParser} {conv : ConverterLib}.

Lemma costs_ReconcileResource (cfAPI : CFAPI) :
  cfapi_key cfAPI = cfapi -> costs (orgs_cost + helm_costs) (ReconcileResource operator cfAPI).
Proof.
  intros Hkey.
  assert (Hnow : forall A n (k : Z -> M A), (forall now, costs n (k now)) -> costs n (now ← Now; k now)).
  { intros A n k Hk. apply costs_free_then; [|done]. apply costs_reads. by split. }
  unfold ReconcileResource. case_decide.
  - unfold finalize. case_match; [exact I|]. apply costs_then_free.
    + apply costs_try. change (cfapi_key (set_State _ _)) with (cfapi_key cfAPI). rewrite Hkey.
      apply costs_main_uninstall.
    + intros [result|err]; [|exact I]. case_decide; [|exact I]. by apply Hnow.
  - apply costs_free_then; [apply costs_try, costs_reads, only_calls_compileInstallationConfig|].
    intros [config|err]; [|by apply Hnow]. apply Hnow. intros now. apply costs_then_free.
    + apply costs_try. change (cfapi_key (set_InstallationConfig _ _)) with (cfapi_key cfAPI). rewrite Hkey.
      eapply costs_weaken; [|apply costs_main_install]. lia.
    + intros [result|err]; [|exact I]. unfold applyInstallResultToStatus. by destruct (r_State result); apply Hnow.
Qed.
End Operator.

(** *** With its patches *)

Lemma costs_Reconcile `{ConverterLib} {k} (cost : call -> nat) n patch (delegate : ObjectReconciler k) req :
  cost (CGet k req) = 0 ->
  (forall o from, cost (CPatch k o from) <= patch /\ cost (CStatusPatch k o from) <= patch) ->
  (forall o, costs (S:=ext) cost n (delegate o)) ->
  costs (S:=ext) cost (n + (patch + patch)) (PatchingReconciler.Reconcile delegate req).
Proof.
  intros Hget Hpatch Hd. unfold PatchingReconciler.Reconcile. apply costs_free_then.
  { apply costs_free. by apply only_calls_try, only_calls_Get. }
  intros [o|err]; [|by case_match]. apply costs_then_free; [|intros [[? ?]|?]; exact I].
  apply costs_try. unfold Patching.Patch. apply costs_bind.
  - unfold PatchingReconciler.modify. apply costs_then_free; [apply Hd|]. by intros [? ?].
  - intros [o' closure]. apply costs_free_then; [apply costs_of_result|]. intros has. apply costs_bind.
    { apply costs_wrapping. split; [apply Hpatch|]. intros r. apply costs_of_result. }
    intros patched. destruct has; [|exact I]. apply costs_then_free.
    { apply costs_wrapping. split; [apply Hpatch|]. intros r. apply costs_of_result. }
    intros m. by apply costs_free_then; [apply costs_of_result|].
Qed.

Definition is_patch (c : call) : Prop :=
  match c with CPatch _ _ _ | CStatusPatch _ _ _ => True | _ => False end.
#[export] Instance is_patch_dec c : Decision (is_patch c).
Proof. destruct c; cbn; apply _. Defined.

Definition deletes_all (c : call) : Prop := match c with CDeleteAllOf _ _ => True | _ => False end.
#[export] Instance deletes_all_dec c : Decision (deletes_all c).
Proof. destruct c; cbn; apply _. Defined.

Section Reconciliation.
Context {it : ItLib} {yaml : YamlLib} {unstr : UnstructuredLib} {uni : Unicode} {helm : HelmLib}.
Context {meta : MetaLib} {fin : FinalizerLib} {jsonp : JsonParser} {conv : ConverterLib}.

(** Calls of a kind that the operator's other calls do not have. *)
Lemma counted (e : Env) (P : call -> Prop) `{forall c, Decision (P c)} helm_cost orgs_cost patch_cost req w :
  (forall c r, helm_operation c = Some r -> P c -> 1 <= helm_cost r) ->
  (forall ns, P (CDeleteAllOf KCFOrg ns) -> 1 <= orgs_cost) ->
  (forall c, is_patch c -> P c -> 1 <= patch_cost) ->
  (forall c, operator_read c \/ manifest_call c \/ (exists path, c = CLoadChart path) -> ~ P c) ->
  (forall cfapi t reason action msg, ~ P (CEventf cfapi t reason action msg)) ->
  length (filter P (calls e (NewReconciler operator req) w))
  <= orgs_cost + helm_costs helm_cost + (patch_cost + patch_cost).
Proof.
  intros Hh Ho Hp Hn He. rewrite <- (total_count (S:=ext)). apply (costs_sound (S:=ext)), costs_Reconcile.
  - rewrite decide_False; [done|]. apply Hn. by left.
  - intros o from. split; case_decide as HP; try lia; by refine (Hp _ _ HP).
  - intros cfAPI. apply costs_ReconcileResource with (cfapi := cfapi_key cfAPI); try done.
    + intros c r Hc. case_decide; [by eapply Hh|lia].
    + intros ns. case_decide; [by eapply Ho|lia].
    + intros c Hc. rewrite decide_False; [done|]. apply Hn. by left.
    + intros c Hc. rewrite decide_False; [done|]. apply Hn. by right; left.
    + intros path. rewrite decide_False; [done|]. apply Hn. right. right. by exists path.
    + intros. by rewrite decide_False.
Qed.

(** (C19) One reconciliation, in any cluster, installs, upgrades or uninstalls
    each release at most once and no more than five releases, asks for the
    deletion of orgs at most once, and patches the CFAPI and its status at
    most once each. *)
Theorem reconciliation_is_bounded (e : Env) req w :
  let cs := calls e (NewReconciler operator req) w in
  (forall r, length (filter (fun c => helm_operation c = Some r) cs) <= 1)
  /\ length (filter (fun c => is_Some (helm_operation c)) cs) <= 5
  /\ length (filter deletes_all cs) <= 1
  /\ length (filter is_patch cs) <= 2.
Proof.
  cbn zeta. split; [intros r|split; [|split]].
  - etransitivity; [apply (counted e _ (fun r' => if decide (r' = r) then 1 else 0) 0 0)|].
    + intros c r' -> [= ->]. by rewrite decide_True.
    + done.
    + by intros [].
    + intros c [H|[H|[? ->]]]; [by destruct c..|done].
    + done.
    + unfold helm_costs, releases, charts. cbn [fmap list_fmap snd sum_list sum_list_with].
      repeat case_decide; simplify_eq; cbn; lia.
  - etransitivity; [apply (counted e _ (fun _ => 1) 0 0)|by vm_compute].
    + done.
    + intros ns []. done.
    + intros [] ? []; done.
    + intros c [H|[H|[? ->]]] [r Hr]; [by destruct c..|done].
    + intros ? ? ? ? ? [? ?]. done.
  - etransitivity; [apply (counted e _ (fun _ => 0) 1 0)|by vm_compute]; try done.
    + intros [] r; done.
    + intros []; done.
    + intros c [H|[H|[? ->]]] HP; [destruct c; solve [destruct HP|destruct H]..|destruct HP].
    + by intros ? ? ? ? ? [].
  - etransitivity; [apply (counted e _ (fun _ => 0) 0 1)|by vm_compute]; try done.
    + intros [] r; done.
    + intros c [H|[H|[? ->]]] HP; [destruct c; solve [destruct HP|destruct H]..|destruct HP].
    + by intros ? ? ? ? ? [].
Qed.
End Reconciliation.
