(* ===== verification/Fakes.v ===== *)
(** * Recording fakes

    Models the fakes that the tests drive the code with:
    src/controllers/installable/fake/installable.go, event_recorder.go and
    helm_values_provider.go, and
    src/components/btp-service-broker/btp/fake/credentials_decoder.go.  A fake
    records the arguments of every call and answers as it was told to: by a
    stub, by an answer for the n-th call, or by a general answer.

    Everything a fake does to its own state happens under a lock, so each
    operation is one step on that state; the stub runs after the lock is
    released and is the program that a call yields. *)

From S2P Require Export Installable.

#[local] Open Scope Z_scope.
#[local] Open Scope list_scope.

(** ** One method of a fake *)

(** The four fields that every method has.  A map that was never made is nil. *)
Record Method (A R : Type) := {
  Stub : option (A -> M R);
  argsForCall : list A;
  returns : R;
  returnsOnCall : option (gmap Z R)
}.
Arguments Stub {A R} _.
Arguments argsForCall {A R} _.
Arguments returns {A R} _.
Arguments returnsOnCall {A R} _.

Section Method.
Context {A R : Type}.
Implicit Types (m : Method A R).

Definition zero_Method (zero : R) : Method A R :=
  {| Stub := None; argsForCall := []; returns := zero; returnsOnCall := None |}.

(** Reading a map, nil or not. *)
Definition specific_return m : option R :=
  onCall ← returnsOnCall m; onCall !! Z.of_nat (length (argsForCall m)).

Definition record_args (a : A) m : Method A R :=
  {| Stub := Stub m; argsForCall := argsForCall m ++ [a]; returns := returns m;
     returnsOnCall := returnsOnCall m |}.

(** What a call answers, from the state in which it starts. *)
Definition answer_of m (a : A) : M R :=
  match Stub m with
  | Some stub => stub a
  | None => match specific_return m with Some ret => mret ret | None => mret (returns m) end
  end.

Definition set_Stub (stub : option (A -> M R)) m : Method A R :=
  {| Stub := stub; argsForCall := argsForCall m; returns := returns m; returnsOnCall := returnsOnCall m |}.

Definition set_returns (r : R) m : Method A R :=
  {| Stub := None; argsForCall := argsForCall m; returns := r; returnsOnCall := returnsOnCall m |}.

Definition set_returnsOnCall (i : Z) (r : R) m : Method A R :=
  {| Stub := None; argsForCall := argsForCall m; returns := returns m;
     returnsOnCall := Some (<[i := r]> (default ∅ (returnsOnCall m))) |}.

Definition args_at m (i : Z) : M A :=
  if i <? 0 then Panic "index out of range" else index (argsForCall m) (Z.to_nat i).
End Method.

(** ** The invocations of all methods *)

(** The arguments of a call as [[]interface{}]. *)
Inductive any :=
| AnyConfig (config : InstallationConfig)
| AnyRecorder (recorder : EventRecorder)
| AnyString (s : string)
| AnyData (data : gmap string string).

Abbreviation invocations_of X := (option (gmap string (list (list X)))).
Abbreviation invocations_map := (invocations_of any).

(** [recordInvocation]: a missing map and a missing entry are made first. *)
Definition record_invocation {X} (key : string) (args : list X) (invocations : invocations_of X)
    : invocations_of X :=
  let invocations := match invocations with None => ∅ | Some m => m end in
  let invocations := match invocations !! key with
                     | None => <[key := []]> invocations
                     | Some _ => invocations
                     end in
  Some (<[key := default [] (invocations !! key) ++ [args]]> invocations).

(** [Invocations]: a copy, empty when nothing was recorded. *)
Definition copy_invocations {X} (invocations : invocations_of X) : gmap string (list (list X)) :=
  default ∅ invocations.

Lemma record_invocation_lookup {X} key (args : list X) invocations k :
  copy_invocations (record_invocation key args invocations) !! k
  = if decide (k = key)
    then Some (default [] (copy_invocations invocations !! key) ++ [args])
    else copy_invocations invocations !! k.
Proof.
  unfold record_invocation, copy_invocations. set (m := match invocations with None => ∅ | Some m => m end).
  replace (default ∅ invocations) with m by (by destruct invocations). cbn.
  case_decide as Hk.
  - subst k. rewrite lookup_insert_eq. destruct (m !! key) eqn:Hm; cbn.
    + by rewrite Hm.
    + by rewrite lookup_insert_eq.
  - rewrite lookup_insert_ne by done. destruct (m !! key); [done|]. by rewrite lookup_insert_ne.
Qed.

#[global] Arguments copy_invocations : simpl never.
#[global] Arguments record_invocation : simpl never.

(** ** fake/installable.go

    The contexts that are passed along are left out, as everywhere. *)

Module Fake.

Record Installable := {
  install : Method (InstallationConfig * EventRecorder) (Result * option error);
  name : Method unit string;
  uninstall : Method (InstallationConfig * EventRecorder) (Result * option error);
  invocations : invocations_map
}.

Definition zero_Result : Result := {| r_State := ResultStateSuccess; r_Message := "" |}.

(** [new(Installable)] *)
Definition new_Installable : Installable :=
  {| install := zero_Method (zero_Result, None); name := zero_Method "";
     uninstall := zero_Method (zero_Result, None); invocations := None |}.

Definition set_install m (fake : Installable) : Installable :=
  {| install := m; name := name fake; uninstall := uninstall fake; invocations := invocations fake |}.
Definition set_name m (fake : Installable) : Installable :=
  {| install := install fake; name := m; uninstall := uninstall fake; invocations := invocations fake |}.
Definition set_uninstall m (fake : Installable) : Installable :=
  {| install := install fake; name := name fake; uninstall := m; invocations := invocations fake |}.

Definition recordInvocation (key : string) (args : list any) (fake : Installable) : Installable :=
  {| install := install fake; name := name fake; uninstall := uninstall fake;
     invocations := record_invocation key args (invocations fake) |}.

Definition Install (fake : Installable) (arg2 : InstallationConfig) (arg3 : EventRecorder)
    : Installable * M (Result * option error) :=
  (recordInvocation "Install" [AnyConfig arg2; AnyRecorder arg3]
     (set_install (record_args (arg2, arg3) (install fake)) fake),
   answer_of (install fake) (arg2, arg3)).

Definition InstallCallCount (fake : Installable) : nat := length (argsForCall (install fake)).
Definition InstallCalls stub (fake : Installable) : Installable :=
  set_install (set_Stub stub (install fake)) fake.
Definition InstallArgsForCall (fake : Installable) (i : Z) : M (InstallationConfig * EventRecorder) :=
  args_at (install fake) i.
Definition InstallReturns (result1 : Result) (result2 : option error) (fake : Installable) : Installable :=
  set_install (set_returns (result1, result2) (install fake)) fake.
Definition InstallReturnsOnCall (i : Z) (result1 : Result) (result2 : option error) (fake : Installable)
    : Installable :=
  set_install (set_returnsOnCall i (result1, result2) (install fake)) fake.

Definition Name (fake : Installable) : Installable * M string :=
  (recordInvocation "Name" [] (set_name (record_args tt (name fake)) fake), answer_of (name fake) tt).

Definition NameCallCount (fake : Installable) : nat := length (argsForCall (name fake)).
Definition NameCalls stub (fake : Installable) : Installable :=
  set_name (set_Stub stub (name fake)) fake.
Definition NameReturns (result1 : string) (fake : Installable) : Installable :=
  set_name (set_returns result1 (name fake)) fake.
Definition NameReturnsOnCall (i : Z) (result1 : string) (fake : Installable) : Installable :=
  set_name (set_returnsOnCall i result1 (name fake)) fake.

Definition Uninstall (fake : Installable) (arg2 : InstallationConfig) (arg3 : EventRecorder)
    : Installable * M (Result * option error) :=
  (recordInvocation "Uninstall" [AnyConfig arg2; AnyRecorder arg3]
     (set_uninstall (record_args (arg2, arg3) (uninstall fake)) fake),
   answer_of (uninstall fake) (arg2, arg3)).

Definition UninstallCallCount (fake : Installable) : nat := length (argsForCall (uninstall fake)).
Definition UninstallCalls stub (fake : Installable) : Installable :=
  set_uninstall (set_Stub stub (uninstall fake)) fake.
Definition UninstallArgsForCall (fake : Installable) (i : Z) : M (InstallationConfig * EventRecorder) :=
  args_at (uninstall fake) i.
Definition UninstallReturns (result1 : Result) (result2 : option error) (fake : Installable) : Installable :=
  set_uninstall (set_returns (result1, result2) (uninstall fake)) fake.
Definition UninstallReturnsOnCall (i : Z) (result1 : Result) (result2 : option error) (fake : Installable)
    : Installable :=
  set_uninstall (set_returnsOnCall i (result1, result2) (uninstall fake)) fake.

Definition Invocations (fake : Installable) : gmap string (list (list any)) :=
  copy_invocations (invocations fake).
End Fake.

(** ** What a history of operations leaves behind

    The specification of a method looks only at the operations that were
    performed on it, oldest first. *)

Inductive method_op (A R : Type) :=
| OpCall (a : A)
| OpCalls (stub : option (A -> M R))
| OpReturns (r : R)
| OpReturnsOnCall (i : Z) (r : R).
Arguments OpCall {A R} a.
Arguments OpCalls {A R} stub.
Arguments OpReturns {A R} r.
Arguments OpReturnsOnCall {A R} i r.

Section History.
Context {A R : Type} (zero : R).
Implicit Types (h : list (method_op A R)) (m : Method A R).

Definition method_step m (o : method_op A R) : Method A R :=
  match o with
  | OpCall a => record_args a m
  | OpCalls stub => set_Stub stub m
  | OpReturns r => set_returns r m
  | OpReturnsOnCall i r => set_returnsOnCall i r m
  end.

(** The arguments of the calls, in order. *)
Definition calls_made h : list A := omap (fun o => match o with OpCall a => Some a | _ => None end) h.

(** Setting any answer removes the stub. *)
Definition latest_stub h : option (A -> M R) :=
  default None (last (omap (fun o => match o with
    | OpCalls stub => Some stub
    | OpReturns _ | OpReturnsOnCall _ _ => Some None
    | OpCall _ => None end) h)).

Definition latest_returns h : R :=
  default zero (last (omap (fun o => match o with OpReturns r => Some r | _ => None end) h)).

Definition latest_on_call (i : Z) h : option R :=
  last (omap (fun o => match o with
    | OpReturnsOnCall j r => if decide (j = i) then Some r else None
    | _ => None end) h).

(** The answer to a call that follows the history. *)
Definition told_to_answer h (a : A) : M R :=
  match latest_stub h with
  | Some stub => stub a
  | None => mret (default (latest_returns h) (latest_on_call (Z.of_nat (length (calls_made h))) h))
  end.

Lemma last_snoc_omap {B} (f : method_op A R -> option B) h o :
  last (omap f (h ++ [o])) = match f o with Some b => Some b | None => last (omap f h) end.
Proof.
  rewrite omap_app. cbn. destruct (f o); cbn; [apply last_snoc|]. by rewrite app_nil_r.
Qed.

(** A method's state after a history. *)
Lemma method_history h :
  let m := foldl method_step (zero_Method zero) h in
  Stub m = latest_stub h /\ argsForCall m = calls_made h /\ returns m = latest_returns h
  /\ forall i, (onCall ← returnsOnCall m; onCall !! i) = latest_on_call i h.
Proof.
  induction h as [|o h IH] using rev_ind; [done|]. cbn zeta in *.
  rewrite foldl_app. cbn [foldl]. destruct IH as (Hs & Ha & Hr & Hc).
  unfold latest_stub, latest_returns, latest_on_call, calls_made in *.
  setoid_rewrite last_snoc_omap. rewrite omap_app.
  destruct o as [a|stub|r|i r]; cbn; rewrite ?app_nil_r; (split_and!; [done|by rewrite ?Ha|done|]); try done.
  intros j. cbn. case_decide as Hj.
  - subst j. by rewrite lookup_insert_eq.
  - rewrite lookup_insert_ne by done. rewrite <- Hc. by destruct (returnsOnCall _).
Qed.

Lemma answer_after h a : answer_of (foldl method_step (zero_Method zero) h) a = told_to_answer h a.
Proof.
  destruct (method_history h) as (Hs & Ha & Hr & Hc). unfold answer_of, told_to_answer, specific_return.
  rewrite Hs, Ha, Hr, Hc. destruct (latest_stub h); [done|]. by destruct (latest_on_call _ h).
Qed.

Lemma calls_after h : argsForCall (foldl method_step (zero_Method zero) h) = calls_made h.
Proof. by destruct (method_history h) as (_ & ? & _). Qed.

Lemma args_after h (i : nat) :
  args_at (foldl method_step (zero_Method zero) h) (Z.of_nat i) = index (calls_made h) i.
Proof.
  unfold args_at. by rewrite calls_after, (proj2 (Z.ltb_ge _ _)), Nat2Z.id by lia.
Qed.
End History.

(** ** A fake installable replays what it was told *)

Inductive fake_op :=
| OnInstall (o : method_op (InstallationConfig * EventRecorder) (Result * option error))
| OnName (o : method_op unit string)
| OnUninstall (o : method_op (InstallationConfig * EventRecorder) (Result * option error)).

(** One operation through the methods of the fake; a call leaves the state
    that it leaves before its stub runs. *)
Definition fake_step (fake : Fake.Installable) (o : fake_op) : Fake.Installable :=
  match o with
  | OnInstall (OpCall (arg2, arg3)) => (Fake.Install fake arg2 arg3).1
  | OnInstall (OpCalls stub) => Fake.InstallCalls stub fake
  | OnInstall (OpReturns (r1, r2)) => Fake.InstallReturns r1 r2 fake
  | OnInstall (OpReturnsOnCall i (r1, r2)) => Fake.InstallReturnsOnCall i r1 r2 fake
  | OnName (OpCall _) => (Fake.Name fake).1
  | OnName (OpCalls stub) => Fake.NameCalls stub fake
  | OnName (OpReturns r) => Fake.NameReturns r fake
  | OnName (OpReturnsOnCall i r) => Fake.NameReturnsOnCall i r fake
  | OnUninstall (OpCall (arg2, arg3)) => (Fake.Uninstall fake arg2 arg3).1
  | OnUninstall (OpCalls stub) => Fake.UninstallCalls stub fake
  | OnUninstall (OpReturns (r1, r2)) => Fake.UninstallReturns r1 r2 fake
  | OnUninstall (OpReturnsOnCall i (r1, r2)) => Fake.UninstallReturnsOnCall i r1 r2 fake
  end.

Definition installs (h : list fake_op) := omap (fun o => match o with OnInstall o => Some o | _ => None end) h.
Definition names (h : list fake_op) := omap (fun o => match o with OnName o => Some o | _ => None end) h.
Definition uninstalls (h : list fake_op) := omap (fun o => match o with OnUninstall o => Some o | _ => None end) h.

(** What [Invocations] shows for a method with the arguments [args]. *)
Definition recorded {A X} (to_any : A -> list X) (args : list A) : option (list (list X)) :=
  match args with [] => None | _ => Some (map to_any args) end.

Lemma recorded_snoc {A X} (to_any : A -> list X) args a :
  Some (default [] (recorded to_any args) ++ [to_any a]) = recorded to_any (args ++ [a]).
Proof.
  destruct args as [|b args]; [done|]. cbn. by rewrite map_app.
Qed.

Definition install_any (a : InstallationConfig * EventRecorder) : list any :=
  [AnyConfig a.1; AnyRecorder a.2].

(** The fields of the fake after a history are those of its methods after
    their parts of the history. *)
Lemma fake_history h :
  let fake := foldl fake_step Fake.new_Installable h in
  Fake.install fake = foldl method_step (zero_Method (Fake.zero_Result, None)) (installs h)
  /\ Fake.name fake = foldl method_step (zero_Method "") (names h)
  /\ Fake.uninstall fake = foldl method_step (zero_Method (Fake.zero_Result, None)) (uninstalls h)
  /\ forall key, Fake.Invocations fake !! key =
       if decide (key = "Install") then recorded install_any (calls_made (installs h))
       else if decide (key = "Name") then recorded (fun _ => []) (calls_made (names h))
       else if decide (key = "Uninstall") then recorded install_any (calls_made (uninstalls h))
       else None.
Proof.
  induction h as [|o h IH] using rev_ind.
  { split_and!; try done. intros key. repeat case_decide; done. }
  cbn zeta in *. rewrite foldl_app. cbn [foldl]. destruct IH as (Hi & Hn & Hu & Hv).
  unfold installs, names, uninstalls in *. rewrite !omap_app. cbn [omap list_omap].
  unfold calls_made in *.
  destruct o as [[[c r]|stub|[r1 r2]|i [r1 r2]]|[[]|stub|r|i r]|[[c r]|stub|[r1 r2]|i [r1 r2]]];
    cbn [fake_step]; rewrite ?app_nil_r, ?foldl_app, ?omap_app; cbn [omap list_omap foldl];
    rewrite ?app_nil_r; (split_and!; [by cbn; rewrite <- ?Hi| by cbn; rewrite <- ?Hn|by cbn; rewrite <- ?Hu|]);
    try exact Hv.
  all: intros key; pose proof (Hv key) as Hk; unfold Fake.Invocations in *; cbn;
    rewrite record_invocation_lookup.
  all: destruct (decide (key = "Install")) as [->|]; [|destruct (decide (key = "Name")) as [->|];
    [|destruct (decide (key = "Uninstall")) as [->|]]]; cbn in *; rewrite <- ?recorded_snoc, <- ?Hk; done.
Qed.

(** A fake installable does what it was told, whatever was done with it
    before.  After any history of operations on its three methods, each
    method counts and shows exactly its own calls; it answers the next call
    by the stub if one was set after the last answer, else by the latest
    answer for the number of that call, else by the latest general answer,
    else by the zero value; and the invocations show every call once, under
    the name of its method. *)
Theorem fake_installable_replays (h : list fake_op) :
  let fake := foldl fake_step Fake.new_Installable h in
  (Fake.InstallCallCount fake = length (calls_made (installs h))
   /\ Fake.NameCallCount fake = length (calls_made (names h))
   /\ Fake.UninstallCallCount fake = length (calls_made (uninstalls h)))
  /\ (forall i : nat,
        Fake.InstallArgsForCall fake (Z.of_nat i) = index (calls_made (installs h)) i
        /\ Fake.UninstallArgsForCall fake (Z.of_nat i) = index (calls_made (uninstalls h)) i)
  /\ (forall config recorder,
        (Fake.Install fake config recorder).2
          = told_to_answer (Fake.zero_Result, None) (installs h) (config, recorder)
        /\ (Fake.Name fake).2 = told_to_answer "" (names h) tt
        /\ (Fake.Uninstall fake config recorder).2
          = told_to_answer (Fake.zero_Result, None) (uninstalls h) (config, recorder))
  /\ Fake.Invocations fake !! "Install" = recorded install_any (calls_made (installs h))
  /\ Fake.Invocations fake !! "Name" = recorded (fun _ => []) (calls_made (names h))
  /\ Fake.Invocations fake !! "Uninstall" = recorded install_any (calls_made (uninstalls h)).
Proof.
  destruct (fake_history h) as (Hi & Hn & Hu & Hv). cbn zeta in *.
  unfold Fake.InstallCallCount, Fake.NameCallCount, Fake.UninstallCallCount,
    Fake.InstallArgsForCall, Fake.UninstallArgsForCall.
  split_and!; try (by rewrite Hv); intros.
  1-3: by rewrite ?Hi, ?Hn, ?Hu, calls_after.
  - by rewrite Hi, Hu, !args_after.
  - cbn. by rewrite Hi, Hn, Hu, !answer_after.
Qed.

(** ** The fakes with one method

    fake/credentials_decoder.go, helm_values_provider.go and
    event_recorder.go have the same fields for their only method. *)

Record SingleFake (A R : Type) := { single : Method A R; single_invocations : invocations_map }.
Arguments single {A R} _.
Arguments single_invocations {A R} _.

Section SingleFake.
Context {A R : Type} (method_name : string) (to_any : A -> list any).
Implicit Types fake : SingleFake A R.

Definition new_SingleFake (zero : R) : SingleFake A R :=
  {| single := zero_Method zero; single_invocations := None |}.

Definition single_call fake (a : A) : SingleFake A R * M R :=
  ({| single := record_args a (single fake);
      single_invocations := record_invocation method_name (to_any a) (single_invocations fake) |},
   answer_of (single fake) a).

Definition set_single (m : Method A R) fake : SingleFake A R :=
  {| single := m; single_invocations := single_invocations fake |}.

Definition single_step fake (o : method_op A R) : SingleFake A R :=
  match o with
  | OpCall a => (single_call fake a).1
  | OpCalls stub => set_single (set_Stub stub (single fake)) fake
  | OpReturns r => set_single (set_returns r (single fake)) fake
  | OpReturnsOnCall i r => set_single (set_returnsOnCall i r (single fake)) fake
  end.

Lemma single_history zero h :
  let fake := foldl single_step (new_SingleFake zero) h in
  single fake = foldl method_step (zero_Method zero) h
  /\ copy_invocations (single_invocations fake) !! method_name = recorded to_any (calls_made h).
Proof.
  induction h as [|o h IH] using rev_ind; [done|]. cbn zeta in *.
  rewrite !foldl_app. cbn [foldl]. destruct IH as [Hs Hv]. unfold calls_made in *. rewrite omap_app.
  destruct o as [a|stub|r|i r]; cbn; rewrite ?app_nil_r; (split; [by rewrite <- Hs|]); try exact Hv.
  rewrite record_invocation_lookup, decide_True, Hv by done. apply recorded_snoc.
Qed.
End SingleFake.

Module FakeDecoder.

(** [type CredentialsDecoder struct] *)
Definition CredentialsDecoder : Type := SingleFake (gmap string string) (Value * option error).
Implicit Type fake : CredentialsDecoder.

Definition new_CredentialsDecoder : CredentialsDecoder := new_SingleFake (VNull, None).

Definition DecodeBindingSecretData fake (arg1 : gmap string string)
    : CredentialsDecoder * M (Value * option error) :=
  single_call "DecodeBindingSecretData" (fun arg1 => [AnyData arg1]) fake arg1.
Definition DecodeBindingSecretDataCallCount fake : nat := length (argsForCall (single fake)).
Definition DecodeBindingSecretDataCalls stub fake : CredentialsDecoder :=
  set_single (set_Stub stub (single fake)) fake.
Definition DecodeBindingSecretDataArgsForCall fake (i : Z) : M (gmap string string) :=
  args_at (single fake) i.
Definition DecodeBindingSecretDataReturns (result1 : Value) (result2 : option error) fake
    : CredentialsDecoder := set_single (set_returns (result1, result2) (single fake)) fake.
Definition DecodeBindingSecretDataReturnsOnCall (i : Z) (result1 : Value) (result2 : option error) fake
    : CredentialsDecoder := set_single (set_returnsOnCall i (result1, result2) (single fake)) fake.
Definition Invocations fake : gmap string (list (list any)) :=
  copy_invocations (single_invocations fake).
End FakeDecoder.

Module FakeValues.

(** [type HelmValuesProvider struct] *)
Definition HelmValuesProvider : Type := SingleFake InstallationConfig (Values * option error).
Implicit Type fake : HelmValuesProvider.

Definition new_HelmValuesProvider : HelmValuesProvider := new_SingleFake (∅, None).

Definition GetValues fake (arg2 : InstallationConfig) : HelmValuesProvider * M (Values * option error) :=
  single_call "GetValues" (fun arg2 => [AnyConfig arg2]) fake arg2.
Definition GetValuesCallCount fake : nat := length (argsForCall (single fake)).
Definition GetValuesCalls stub fake : HelmValuesProvider :=
  set_single (set_Stub stub (single fake)) fake.
Definition GetValuesArgsForCall fake (i : Z) : M InstallationConfig := args_at (single fake) i.
Definition GetValuesReturns (result1 : Values) (result2 : option error) fake : HelmValuesProvider :=
  set_single (set_returns (result1, result2) (single fake)) fake.
Definition GetValuesReturnsOnCall (i : Z) (result1 : Values) (result2 : option error) fake
    : HelmValuesProvider := set_single (set_returnsOnCall i (result1, result2) (single fake)) fake.
Definition Invocations fake : gmap string (list (list any)) :=
  copy_invocations (single_invocations fake).
End FakeValues.

Module FakeEvents.

(** [type EventRecorder struct]: its method returns nothing, so a call runs
    the stub or does nothing. *)
Definition EventRecorder : Type := SingleFake (string * string * string) unit.
Implicit Type fake : EventRecorder.

Definition new_EventRecorder : EventRecorder := new_SingleFake tt.

Definition Event fake (arg1 arg2 arg3 : string) : EventRecorder * M unit :=
  single_call "Event" (fun '(arg1, arg2, arg3) => [AnyString arg1; AnyString arg2; AnyString arg3])
    fake (arg1, arg2, arg3).
Definition EventCallCount fake : nat := length (argsForCall (single fake)).
Definition EventCalls stub fake : EventRecorder := set_single (set_Stub stub (single fake)) fake.
Definition EventArgsForCall fake (i : Z) : M (string * string * string) := args_at (single fake) i.
Definition Invocations fake : gmap string (list (list any)) :=
  copy_invocations (single_invocations fake).
End FakeEvents.

Definition decoder_step fake (o : method_op (gmap string string) (Value * option error)) :=
  match o with
  | OpCall arg1 => (FakeDecoder.DecodeBindingSecretData fake arg1).1
  | OpCalls stub => FakeDecoder.DecodeBindingSecretDataCalls stub fake
  | OpReturns (r1, r2) => FakeDecoder.DecodeBindingSecretDataReturns r1 r2 fake
  | OpReturnsOnCall i (r1, r2) => FakeDecoder.DecodeBindingSecretDataReturnsOnCall i r1 r2 fake
  end.

Definition values_step fake (o : method_op InstallationConfig (Values * option error)) :=
  match o with
  | OpCall arg2 => (FakeValues.GetValues fake arg2).1
  | OpCalls stub => FakeValues.GetValuesCalls stub fake
  | OpReturns (r1, r2) => FakeValues.GetValuesReturns r1 r2 fake
  | OpReturnsOnCall i (r1, r2) => FakeValues.GetValuesReturnsOnCall i r1 r2 fake
  end.

Lemma foldl_steps {A R} (f : SingleFake A R -> method_op A R -> SingleFake A R) name to_any fake h :
  (forall fake o, f fake o = single_step name to_any fake o) ->
  foldl f fake h = foldl (single_step name to_any) fake h.
Proof. intros Hf. revert fake. induction h as [|o h IH]; intros fake; [done|]. cbn. by rewrite Hf. Qed.

(** The fakes with one method do what they were told, too. *)
Theorem single_fakes_replay (hd : list (method_op (gmap string string) (Value * option error)))
    (hv : list (method_op InstallationConfig (Values * option error))) :
  let decoder := foldl decoder_step FakeDecoder.new_CredentialsDecoder hd in
  let values := foldl values_step FakeValues.new_HelmValuesProvider hv in
  (FakeDecoder.DecodeBindingSecretDataCallCount decoder = length (calls_made hd)
   /\ FakeValues.GetValuesCallCount values = length (calls_made hv))
  /\ (forall i : nat,
        FakeDecoder.DecodeBindingSecretDataArgsForCall decoder (Z.of_nat i) = index (calls_made hd) i
        /\ FakeValues.GetValuesArgsForCall values (Z.of_nat i) = index (calls_made hv) i)
  /\ (forall data config,
        (FakeDecoder.DecodeBindingSecretData decoder data).2 = told_to_answer (VNull, None) hd data
        /\ (FakeValues.GetValues values config).2 = told_to_answer (∅, None) hv config)
  /\ FakeDecoder.Invocations decoder !! "DecodeBindingSecretData"
     = recorded (fun data => [AnyData data]) (calls_made hd)
  /\ FakeValues.Invocations values !! "GetValues"
     = recorded (fun config => [AnyConfig config]) (calls_made hv).
Proof.
  cbn zeta.
  rewrite (foldl_steps decoder_step "DecodeBindingSecretData" (fun data => [AnyData data]))
    by (by intros ? [| |[]|? []]).
  rewrite (foldl_steps values_step "GetValues" (fun config => [AnyConfig config]))
    by (by intros ? [| |[]|? []]).
  destruct (single_history "DecodeBindingSecretData" (fun data => [AnyData data]) (VNull, None) hd) as [Hd Hdv].
  destruct (single_history "GetValues" (fun config => [AnyConfig config]) (∅, None) hv) as [Hg Hgv].
  cbn zeta in *. split_and!; try done; intros; cbn.
  - change (length (argsForCall (single (foldl (single_step "DecodeBindingSecretData" (fun data => [AnyData data]))
      (new_SingleFake (VNull, None)) hd))) = length (calls_made hd)).
    by rewrite Hd, calls_after.
  - change (length (argsForCall (single (foldl (single_step "GetValues" (fun config => [AnyConfig config]))
      (new_SingleFake (∅, None)) hv))) = length (calls_made hv)).
    by rewrite Hg, calls_after.
  - unfold FakeDecoder.DecodeBindingSecretDataArgsForCall, FakeValues.GetValuesArgsForCall.
    unfold FakeDecoder.new_CredentialsDecoder, FakeValues.new_HelmValuesProvider.
    by rewrite Hd, Hg, !args_after.
  - unfold FakeDecoder.new_CredentialsDecoder, FakeValues.new_HelmValuesProvider.
    by rewrite Hd, Hg, !answer_after.
Qed.
