(* ===== verification/FakeMethods.v ===== *)
(** * Fakes of interfaces with many methods

    What the larger generated fakes have in common: every method of the
    interface has the four fields and the six operations of Fakes.v, and all
    record into one map of invocations.  An interface is given by its methods
    and by the types of their arguments and results; FakeClients.v and
    FakeServiceManager.v instantiate it. *)

From S2P Require Export Fakes.
From Stdlib Require Import Eqdep_dec.

#[local] Open Scope Z_scope.
#[local] Open Scope list_scope.

Class FakeInterface := {
  method : Type;
  method_eq_dec :: EqDecision method;
  method_name : method -> string;
  method_name_inj :: Inj (=) (=) method_name;
  args : method -> Type;
  results : method -> Type;
  zero_results : forall m, results m;
  (** the dynamic values of arguments *)
  argument : Type;
  to_arguments : forall m, args m -> list argument
}.

Section Fake.
Context {i : FakeInterface}.

(** The struct: the fields of each method, and the invocations. *)
Record fake := {
  methods : forall m, Method (args m) (results m);
  fake_invocations : invocations_of argument
}.

Definition new_fake : fake :=
  {| methods m := zero_Method (zero_results m); fake_invocations := None |}.

Implicit Types (m : method) (f : fake).

(** Changing the fields of one method. *)
Definition set_method m (x : Method (args m) (results m)) f : fake :=
  {| methods m' := match decide (m = m') with
                   | left e => match e in _ = n return Method (args n) (results n) with eq_refl => x end
                   | right _ => methods f m'
                   end;
     fake_invocations := fake_invocations f |}.

Definition record_method m (a : args m) f : fake :=
  {| methods := methods f;
     fake_invocations := record_invocation (method_name m) (to_arguments m a) (fake_invocations f) |}.

(** The operations. *)
Definition fake_call m (a : args m) f : fake * M (results m) :=
  (record_method m a (set_method m (record_args a (methods f m)) f), answer_of (methods f m) a).
Definition fake_CallCount m f : nat := length (argsForCall (methods f m)).
Definition fake_Calls m (stub : option (args m -> M (results m))) f : fake :=
  set_method m (set_Stub stub (methods f m)) f.
Definition fake_ArgsForCall m f (n : Z) : M (args m) := args_at (methods f m) n.
Definition fake_Returns m (r : results m) f : fake := set_method m (set_returns r (methods f m)) f.
Definition fake_ReturnsOnCall m (n : Z) (r : results m) f : fake :=
  set_method m (set_returnsOnCall n r (methods f m)) f.
Definition fake_Invocations f : gmap string (list (list argument)) := copy_invocations (fake_invocations f).

(** ** Histories *)

(** An operation on some method. *)
Record operation := Operation { on_method : method; op : method_op (args on_method) (results on_method) }.

Definition fake_step f (o : operation) : fake :=
  match o with
  | Operation m (OpCall a) => (fake_call m a f).1
  | Operation m (OpCalls stub) => fake_Calls m stub f
  | Operation m (OpReturns r) => fake_Returns m r f
  | Operation m (OpReturnsOnCall n r) => fake_ReturnsOnCall m n r f
  end.

(** The operations on one method. *)
Definition operation_on m (o : operation) : option (method_op (args m) (results m)) :=
  match decide (on_method o = m) with
  | left e => Some (match e in _ = n return method_op (args n) (results n) with eq_refl => op o end)
  | right _ => None
  end.
Definition operations_on m (h : list operation) := omap (operation_on m) h.

Lemma decide_refl {B} m (x : m = m -> B) y : match decide (m = m) with left e => x e | right _ => y end = x eq_refl.
Proof.
  destruct (decide (m = m)) as [e|]; [|done]. f_equal. apply UIP_dec, method_eq_dec.
Qed.

Lemma methods_set m x f : methods (set_method m x f) m = x.
Proof. cbn. by rewrite (decide_refl m (fun e => match e in _ = n return Method (args n) (results n) with eq_refl => x end)). Qed.

Lemma methods_set_ne m m' x f : m <> m' -> methods (set_method m x f) m' = methods f m'.
Proof. intros Hne. cbn. by destruct (decide (m = m')). Qed.

Lemma operation_on_self m o : operation_on m (Operation m o) = Some o.
Proof.
  unfold operation_on. cbn.
  by rewrite (decide_refl m (fun e => Some (match e in _ = n return method_op (args n) (results n) with eq_refl => o end))).
Qed.

Lemma operation_on_ne m m' o : m' <> m -> operation_on m (Operation m' o) = None.
Proof. intros Hne. unfold operation_on. cbn. by destruct (decide (m' = m)). Qed.

(** A step changes the fields of its method as Fakes.v says, and no others. *)
Lemma methods_step f m o m' :
  methods (fake_step f (Operation m o)) m'
  = default (methods f m') (method_step (methods f m') <$> operation_on m' (Operation m o)).
Proof.
  destruct (decide (m = m')) as [<-|Hne].
  - rewrite operation_on_self. destruct o; cbn [fake_step fake_call fst record_method methods fmap option_fmap option_map default from_option];
      [exact (methods_set m _ f)|apply methods_set..].
  - rewrite operation_on_ne by done. destruct o; cbn [fake_step fake_call fst record_method methods];
      by apply (methods_set_ne m m').
Qed.

Lemma methods_after h m :
  methods (foldl fake_step new_fake h) m
  = foldl method_step (zero_Method (zero_results m)) (operations_on m h).
Proof.
  induction h as [|[m' o] h IH] using rev_ind; [done|].
  rewrite foldl_app. cbn [foldl]. rewrite methods_step, IH. unfold operations_on. rewrite omap_app, foldl_app.
  cbn [omap list_omap]. by destruct (operation_on m (Operation m' o)).
Qed.

Lemma invocations_after h m :
  fake_Invocations (foldl fake_step new_fake h) !! method_name m
  = recorded (to_arguments m) (calls_made (operations_on m h)).
Proof.
  induction h as [|[m' o] h IH] using rev_ind; [done|].
  rewrite foldl_app. cbn [foldl]. unfold operations_on, calls_made in *. rewrite !omap_app. cbn [omap list_omap].
  unfold fake_Invocations in *. set (f := foldl _ _ _) in *. destruct (decide (m' = m)) as [->|Hne].
  - rewrite operation_on_self. destruct o; cbn; rewrite ?app_nil_r; try exact IH.
    rewrite record_invocation_lookup, decide_True, IH by done. apply recorded_snoc.
  - rewrite operation_on_ne by done. cbn. rewrite app_nil_r. destruct o; try exact IH.
    cbn. rewrite record_invocation_lookup, decide_False; [exact IH|].
    intros Heq. by apply method_name_inj in Heq.
Qed.

(** ** The operations by their own names *)

(** The functions of a generated file, method by method; a method without
    arguments has no [ArgsForCall]. *)
Record operations := {
  on_call : forall m, args m -> fake -> fake * M (results m);
  on_CallCount : forall m, fake -> nat;
  on_Calls : forall m, option (args m -> M (results m)) -> fake -> fake;
  on_ArgsForCall : forall m, option (fake -> Z -> M (args m));
  on_Returns : forall m, results m -> fake -> fake;
  on_ReturnsOnCall : forall m, Z -> results m -> fake -> fake;
  on_Invocations : fake -> gmap string (list (list argument))
}.

Definition perform (ops : operations) f (o : operation) : fake :=
  match o with
  | Operation m (OpCall a) => (on_call ops m a f).1
  | Operation m (OpCalls stub) => on_Calls ops m stub f
  | Operation m (OpReturns r) => on_Returns ops m r f
  | Operation m (OpReturnsOnCall n r) => on_ReturnsOnCall ops m n r f
  end.

(** They are the operations of the generated scheme. *)
Record generated (ops : operations) : Prop := {
  generated_call m a f : on_call ops m a f = fake_call m a f;
  generated_CallCount m f : on_CallCount ops m f = fake_CallCount m f;
  generated_Calls m stub f : on_Calls ops m stub f = fake_Calls m stub f;
  generated_ArgsForCall m show f n : on_ArgsForCall ops m = Some show -> show f n = fake_ArgsForCall m f n;
  generated_Returns m r f : on_Returns ops m r f = fake_Returns m r f;
  generated_ReturnsOnCall m n r f : on_ReturnsOnCall ops m n r f = fake_ReturnsOnCall m n r f;
  generated_Invocations f : on_Invocations ops f = fake_Invocations f
}.

(** What a fake counts, shows and answers after a history: every method has
    exactly its own calls, answers the next one by the stub if one was set
    after the last answer, else by the latest answer for the number of that
    call, else by the latest general answer, else by the zero value; and the
    invocations show the calls of each method under its name. *)
Definition replays (ops : operations) (h : list operation) : Prop :=
  let f := foldl (perform ops) new_fake h in
  forall m, let calls := calls_made (operations_on m h) in
  on_CallCount ops m f = length calls
  /\ (forall show (n : nat), on_ArgsForCall ops m = Some show -> show f (Z.of_nat n) = index calls n)
  /\ (forall a, (on_call ops m a f).2 = told_to_answer (zero_results m) (operations_on m h) a)
  /\ on_Invocations ops f !! method_name m = recorded (to_arguments m) calls.

Lemma perform_generated ops f h : generated ops -> foldl (perform ops) f h = foldl fake_step f h.
Proof.
  intros Hg. revert f. induction h as [|[m o] h IH]; intros f; [done|]. cbn [foldl]. rewrite IH. f_equal.
  destruct o; cbn; [by rewrite generated_call|by apply generated_Calls|by apply generated_Returns|
    by apply generated_ReturnsOnCall].
Qed.

Lemma generated_replays ops h : generated ops -> replays ops h.
Proof.
  intros Hg m. cbn zeta. rewrite perform_generated by done.
  rewrite generated_CallCount, generated_Invocations, invocations_after by done.
  unfold fake_CallCount. rewrite methods_after. split_and!; [by rewrite calls_after| | |done].
  - intros show n Hs. rewrite (generated_ArgsForCall ops Hg m show) by done.
    unfold fake_ArgsForCall. rewrite methods_after. apply args_after.
  - intros a. rewrite generated_call by done. unfold fake_call. cbn [snd]. rewrite methods_after. apply answer_after.
Qed.
End Fake.
#[global] Arguments fake _ : clear implicits.
#[global] Arguments operation _ : clear implicits.
#[global] Arguments operations _ : clear implicits.
