(* ===== verification/FakeK8s.v ===== *)
(** * The fakes of the Kubernetes client

    Models src/tools/k8s/fake/client.go and status_writer.go with the scheme
    of FakeMethods.v, one Module per file: a definition for every generated
    function, and what a fake replays after any history of calls to them.
    The types of the client library are opaque; a pointer or an interface
    may be nil. *)

From S2P Require Export FakeMethods.

#[local] Open Scope Z_scope.
#[local] Open Scope list_scope.

(** The types of the client library. *)
Class ClientTypes := {
  context_Context : Type; runtime_ApplyConfiguration : Type; client_ApplyOption : Type; client_Object : Type;
  client_CreateOption : Type; client_DeleteOption : Type; client_DeleteAllOfOption : Type;
  client_GetOption : Type; runtime_Object : Type; schema_GroupVersionKind : Type; client_ObjectList : Type;
  client_ListOption : Type; client_Patch : Type; client_PatchOption : Type; meta_RESTMapper : Type;
  runtime_Scheme : Type; client_SubResourceWriter : Type; client_SubResourceClient : Type;
  client_UpdateOption : Type; client_SubResourceApplyOption : Type; client_SubResourceCreateOption : Type;
  client_SubResourcePatchOption : Type; client_SubResourceUpdateOption : Type;
  zero_schema_GroupVersionKind : schema_GroupVersionKind
}.

(** ** client.go *)

Module FakeClient.
Section FakeClient.
Context {types : ClientTypes}.

Inductive client_method := | MApply | MCreate | MDelete | MDeleteAllOf | MGet | MGroupVersionKindFor
| MIsObjectNamespaced | MList | MPatch | MRESTMapper | MScheme | MStatus | MSubResource | MUpdate.

#[export] Instance client_method_eq_dec : EqDecision client_method.
Proof. solve_decision. Defined.

Definition client_name (m : client_method) : string :=
  match m with
  | MApply => "Apply" | MCreate => "Create" | MDelete => "Delete" | MDeleteAllOf => "DeleteAllOf"
  | MGet => "Get" | MGroupVersionKindFor => "GroupVersionKindFor" | MIsObjectNamespaced => "IsObjectNamespaced"
  | MList => "List" | MPatch => "Patch" | MRESTMapper => "RESTMapper" | MScheme => "Scheme"
  | MStatus => "Status" | MSubResource => "SubResource" | MUpdate => "Update"
  end.

Definition client_args (m : client_method) : Type :=
  match m with
  | MApply => option context_Context * option runtime_ApplyConfiguration * list client_ApplyOption
  | MCreate => option context_Context * option client_Object * list client_CreateOption
  | MDelete => option context_Context * option client_Object * list client_DeleteOption
  | MDeleteAllOf => option context_Context * option client_Object * list client_DeleteAllOfOption
  | MGet => option context_Context * ObjectKey * option client_Object * list client_GetOption
  | MGroupVersionKindFor => option runtime_Object
  | MIsObjectNamespaced => option runtime_Object
  | MList => option context_Context * option client_ObjectList * list client_ListOption
  | MPatch => option context_Context * option client_Object * option client_Patch * list client_PatchOption
  | MRESTMapper => unit
  | MScheme => unit
  | MStatus => unit
  | MSubResource => string
  | MUpdate => option context_Context * option client_Object * list client_UpdateOption
  end.

Definition client_results (m : client_method) : Type :=
  match m with
  | MApply => option error
  | MCreate => option error
  | MDelete => option error
  | MDeleteAllOf => option error
  | MGet => option error
  | MGroupVersionKindFor => schema_GroupVersionKind * option error
  | MIsObjectNamespaced => bool * option error
  | MList => option error
  | MPatch => option error
  | MRESTMapper => option meta_RESTMapper
  | MScheme => option runtime_Scheme
  | MStatus => option client_SubResourceWriter
  | MSubResource => option client_SubResourceClient
  | MUpdate => option error
  end.

Definition client_zero (m : client_method) : client_results m :=
  match m with
  | MApply => None
  | MCreate => None
  | MDelete => None
  | MDeleteAllOf => None
  | MGet => None
  | MGroupVersionKindFor => (zero_schema_GroupVersionKind, None)
  | MIsObjectNamespaced => (false, None)
  | MList => None
  | MPatch => None
  | MRESTMapper => None
  | MScheme => None
  | MStatus => None
  | MSubResource => None
  | MUpdate => None
  end.

(** The arguments as [[]interface{}]. *)
Inductive client_argument :=
| Any_context_Context (arg : option context_Context)
| Any_runtime_ApplyConfiguration (arg : option runtime_ApplyConfiguration)
| Any_client_ApplyOptions (arg : list client_ApplyOption)
| Any_client_Object (arg : option client_Object)
| Any_client_CreateOptions (arg : list client_CreateOption)
| Any_client_DeleteOptions (arg : list client_DeleteOption)
| Any_client_DeleteAllOfOptions (arg : list client_DeleteAllOfOption)
| Any_client_ObjectKey (arg : ObjectKey)
| Any_client_GetOptions (arg : list client_GetOption)
| Any_runtime_Object (arg : option runtime_Object)
| Any_client_ObjectList (arg : option client_ObjectList)
| Any_client_ListOptions (arg : list client_ListOption)
| Any_client_Patch (arg : option client_Patch)
| Any_client_PatchOptions (arg : list client_PatchOption)
| Any_string (arg : string)
| Any_client_UpdateOptions (arg : list client_UpdateOption).

Definition client_arguments (m : client_method) : client_args m -> list client_argument :=
  match m with
  | MApply => fun '(arg1, arg2, arg3) => [Any_context_Context arg1; Any_runtime_ApplyConfiguration arg2;
      Any_client_ApplyOptions arg3]
  | MCreate => fun '(arg1, arg2, arg3) => [Any_context_Context arg1; Any_client_Object arg2;
      Any_client_CreateOptions arg3]
  | MDelete => fun '(arg1, arg2, arg3) => [Any_context_Context arg1; Any_client_Object arg2;
      Any_client_DeleteOptions arg3]
  | MDeleteAllOf => fun '(arg1, arg2, arg3) => [Any_context_Context arg1; Any_client_Object arg2;
      Any_client_DeleteAllOfOptions arg3]
  | MGet => fun '(arg1, arg2, arg3, arg4) => [Any_context_Context arg1; Any_client_ObjectKey arg2;
      Any_client_Object arg3; Any_client_GetOptions arg4]
  | MGroupVersionKindFor => fun arg1 => [Any_runtime_Object arg1]
  | MIsObjectNamespaced => fun arg1 => [Any_runtime_Object arg1]
  | MList => fun '(arg1, arg2, arg3) => [Any_context_Context arg1; Any_client_ObjectList arg2;
      Any_client_ListOptions arg3]
  | MPatch => fun '(arg1, arg2, arg3, arg4) => [Any_context_Context arg1; Any_client_Object arg2;
      Any_client_Patch arg3; Any_client_PatchOptions arg4]
  | MRESTMapper => fun '() => []
  | MScheme => fun '() => []
  | MStatus => fun '() => []
  | MSubResource => fun arg1 => [Any_string arg1]
  | MUpdate => fun '(arg1, arg2, arg3) => [Any_context_Context arg1; Any_client_Object arg2;
      Any_client_UpdateOptions arg3]
  end.

#[export] Instance client_name_inj : Inj (=) (=) client_name.
Proof. intros m m'. by destruct m, m'. Qed.

#[export] Instance client_interface : FakeInterface := {|
  method := client_method; method_name := client_name; args := client_args; results := client_results;
  zero_results := client_zero; argument := client_argument; to_arguments := client_arguments |}.

(** [type Client struct] and [new(Client)] *)
Definition Client : Type := fake client_interface.
Definition new_Client : Client := new_fake.
Implicit Type fake : Client.

Definition Apply fake (arg1 : option context_Context) (arg2 : option runtime_ApplyConfiguration)
    (arg3 : list client_ApplyOption) : Client * M (option error) :=
  fake_call (i:=client_interface) MApply (arg1, arg2, arg3) fake.
Definition ApplyCallCount fake : nat := fake_CallCount (i:=client_interface) MApply fake.
Definition ApplyCalls (stub : option (client_args MApply -> M (client_results MApply))) fake : Client :=
  fake_Calls (i:=client_interface) MApply stub fake.
Definition ApplyArgsForCall fake (i : Z) : M (client_args MApply) :=
  fake_ArgsForCall (i:=client_interface) MApply fake i.
Definition ApplyReturns (result1 : option error) fake : Client :=
  fake_Returns (i:=client_interface) MApply result1 fake.
Definition ApplyReturnsOnCall (i : Z) (result1 : option error) fake : Client :=
  fake_ReturnsOnCall (i:=client_interface) MApply i result1 fake.

Definition Create fake (arg1 : option context_Context) (arg2 : option client_Object)
    (arg3 : list client_CreateOption) : Client * M (option error) :=
  fake_call (i:=client_interface) MCreate (arg1, arg2, arg3) fake.
Definition CreateCallCount fake : nat := fake_CallCount (i:=client_interface) MCreate fake.
Definition CreateCalls (stub : option (client_args MCreate -> M (client_results MCreate))) fake : Client :=
  fake_Calls (i:=client_interface) MCreate stub fake.
Definition CreateArgsForCall fake (i : Z) : M (client_args MCreate) :=
  fake_ArgsForCall (i:=client_interface) MCreate fake i.
Definition CreateReturns (result1 : option error) fake : Client :=
  fake_Returns (i:=client_interface) MCreate result1 fake.
Definition CreateReturnsOnCall (i : Z) (result1 : option error) fake : Client :=
  fake_ReturnsOnCall (i:=client_interface) MCreate i result1 fake.

Definition Delete fake (arg1 : option context_Context) (arg2 : option client_Object)
    (arg3 : list client_DeleteOption) : Client * M (option error) :=
  fake_call (i:=client_interface) MDelete (arg1, arg2, arg3) fake.
Definition DeleteCallCount fake : nat := fake_CallCount (i:=client_interface) MDelete fake.
Definition DeleteCalls (stub : option (client_args MDelete -> M (client_results MDelete))) fake : Client :=
  fake_Calls (i:=client_interface) MDelete stub fake.
Definition DeleteArgsForCall fake (i : Z) : M (client_args MDelete) :=
  fake_ArgsForCall (i:=client_interface) MDelete fake i.
Definition DeleteReturns (result1 : option error) fake : Client :=
  fake_Returns (i:=client_interface) MDelete result1 fake.
Definition DeleteReturnsOnCall (i : Z) (result1 : option error) fake : Client :=
  fake_ReturnsOnCall (i:=client_interface) MDelete i result1 fake.

Definition DeleteAllOf fake (arg1 : option context_Context) (arg2 : option client_Object)
    (arg3 : list client_DeleteAllOfOption) : Client * M (option error) :=
  fake_call (i:=client_interface) MDeleteAllOf (arg1, arg2, arg3) fake.
Definition DeleteAllOfCallCount fake : nat := fake_CallCount (i:=client_interface) MDeleteAllOf fake.
Definition DeleteAllOfCalls (stub : option (client_args MDeleteAllOf -> M (client_results MDeleteAllOf))) fake : Client :=
  fake_Calls (i:=client_interface) MDeleteAllOf stub fake.
Definition DeleteAllOfArgsForCall fake (i : Z) : M (client_args MDeleteAllOf) :=
  fake_ArgsForCall (i:=client_interface) MDeleteAllOf fake i.
Definition DeleteAllOfReturns (result1 : option error) fake : Client :=
  fake_Returns (i:=client_interface) MDeleteAllOf result1 fake.
Definition DeleteAllOfReturnsOnCall (i : Z) (result1 : option error) fake : Client :=
  fake_ReturnsOnCall (i:=client_interface) MDeleteAllOf i result1 fake.

Definition Get fake (arg1 : option context_Context) (arg2 : ObjectKey) (arg3 : option client_Object)
    (arg4 : list client_GetOption) : Client * M (option error) :=
  fake_call (i:=client_interface) MGet (arg1, arg2, arg3, arg4) fake.
Definition GetCallCount fake : nat := fake_CallCount (i:=client_interface) MGet fake.
Definition GetCalls (stub : option (client_args MGet -> M (client_results MGet))) fake : Client :=
  fake_Calls (i:=client_interface) MGet stub fake.
Definition GetArgsForCall fake (i : Z) : M (client_args MGet) :=
  fake_ArgsForCall (i:=client_interface) MGet fake i.
Definition GetReturns (result1 : option error) fake : Client :=
  fake_Returns (i:=client_interface) MGet result1 fake.
Definition GetReturnsOnCall (i : Z) (result1 : option error) fake : Client :=
  fake_ReturnsOnCall (i:=client_interface) MGet i result1 fake.

Definition GroupVersionKindFor fake (arg1 : option runtime_Object)
    : Client * M (schema_GroupVersionKind * option error) :=
  fake_call (i:=client_interface) MGroupVersionKindFor arg1 fake.
Definition GroupVersionKindForCallCount fake : nat := fake_CallCount (i:=client_interface) MGroupVersionKindFor fake.
Definition GroupVersionKindForCalls (stub : option (client_args MGroupVersionKindFor -> M (client_results MGroupVersionKindFor))) fake : Client :=
  fake_Calls (i:=client_interface) MGroupVersionKindFor stub fake.
Definition GroupVersionKindForArgsForCall fake (i : Z) : M (client_args MGroupVersionKindFor) :=
  fake_ArgsForCall (i:=client_interface) MGroupVersionKindFor fake i.
Definition GroupVersionKindForReturns (result1 : schema_GroupVersionKind) (result2 : option error) fake : Client :=
  fake_Returns (i:=client_interface) MGroupVersionKindFor (result1, result2) fake.
Definition GroupVersionKindForReturnsOnCall (i : Z) (result1 : schema_GroupVersionKind) (result2 : option error) fake : Client :=
  fake_ReturnsOnCall (i:=client_interface) MGroupVersionKindFor i (result1, result2) fake.

Definition IsObjectNamespaced fake (arg1 : option runtime_Object) : Client * M (bool * option error) :=
  fake_call (i:=client_interface) MIsObjectNamespaced arg1 fake.
Definition IsObjectNamespacedCallCount fake : nat := fake_CallCount (i:=client_interface) MIsObjectNamespaced fake.
Definition IsObjectNamespacedCalls (stub : option (client_args MIsObjectNamespaced -> M (client_results MIsObjectNamespaced))) fake : Client :=
  fake_Calls (i:=client_interface) MIsObjectNamespaced stub fake.
Definition IsObjectNamespacedArgsForCall fake (i : Z) : M (client_args MIsObjectNamespaced) :=
  fake_ArgsForCall (i:=client_interface) MIsObjectNamespaced fake i.
Definition IsObjectNamespacedReturns (result1 : bool) (result2 : option error) fake : Client :=
  fake_Returns (i:=client_interface) MIsObjectNamespaced (result1, result2) fake.
Definition IsObjectNamespacedReturnsOnCall (i : Z) (result1 : bool) (result2 : option error) fake : Client :=
  fake_ReturnsOnCall (i:=client_interface) MIsObjectNamespaced i (result1, result2) fake.

Definition List fake (arg1 : option context_Context) (arg2 : option client_ObjectList)
    (arg3 : list client_ListOption) : Client * M (option error) :=
  fake_call (i:=client_interface) MList (arg1, arg2, arg3) fake.
Definition ListCallCount fake : nat := fake_CallCount (i:=client_interface) MList fake.
Definition ListCalls (stub : option (client_args MList -> M (client_results MList))) fake : Client :=
  fake_Calls (i:=client_interface) MList stub fake.
Definition ListArgsForCall fake (i : Z) : M (client_args MList) :=
  fake_ArgsForCall (i:=client_interface) MList fake i.
Definition ListReturns (result1 : option error) fake : Client :=
  fake_Returns (i:=client_interface) MList result1 fake.
Definition ListReturnsOnCall (i : Z) (result1 : option error) fake : Client :=
  fake_ReturnsOnCall (i:=client_interface) MList i result1 fake.

Definition Patch fake (arg1 : option context_Context) (arg2 : option client_Object) (arg3 : option client_Patch)
    (arg4 : list client_PatchOption) : Client * M (option error) :=
  fake_call (i:=client_interface) MPatch (arg1, arg2, arg3, arg4) fake.
Definition PatchCallCount fake : nat := fake_CallCount (i:=client_interface) MPatch fake.
Definition PatchCalls (stub : option (client_args MPatch -> M (client_results MPatch))) fake : Client :=
  fake_Calls (i:=client_interface) MPatch stub fake.
Definition PatchArgsForCall fake (i : Z) : M (client_args MPatch) :=
  fake_ArgsForCall (i:=client_interface) MPatch fake i.
Definition PatchReturns (result1 : option error) fake : Client :=
  fake_Returns (i:=client_interface) MPatch result1 fake.
Definition PatchReturnsOnCall (i : Z) (result1 : option error) fake : Client :=
  fake_ReturnsOnCall (i:=client_interface) MPatch i result1 fake.

Definition RESTMapper fake : Client * M (option meta_RESTMapper) :=
  fake_call (i:=client_interface) MRESTMapper tt fake.
Definition RESTMapperCallCount fake : nat := fake_CallCount (i:=client_interface) MRESTMapper fake.
Definition RESTMapperCalls (stub : option (client_args MRESTMapper -> M (client_results MRESTMapper))) fake : Client :=
  fake_Calls (i:=client_interface) MRESTMapper stub fake.
Definition RESTMapperReturns (result1 : option meta_RESTMapper) fake : Client :=
  fake_Returns (i:=client_interface) MRESTMapper result1 fake.
Definition RESTMapperReturnsOnCall (i : Z) (result1 : option meta_RESTMapper) fake : Client :=
  fake_ReturnsOnCall (i:=client_interface) MRESTMapper i result1 fake.

Definition Scheme fake : Client * M (option runtime_Scheme) :=
  fake_call (i:=client_interface) MScheme tt fake.
Definition SchemeCallCount fake : nat := fake_CallCount (i:=client_interface) MScheme fake.
Definition SchemeCalls (stub : option (client_args MScheme -> M (client_results MScheme))) fake : Client :=
  fake_Calls (i:=client_interface) MScheme stub fake.
Definition SchemeReturns (result1 : option runtime_Scheme) fake : Client :=
  fake_Returns (i:=client_interface) MScheme result1 fake.
Definition SchemeReturnsOnCall (i : Z) (result1 : option runtime_Scheme) fake : Client :=
  fake_ReturnsOnCall (i:=client_interface) MScheme i result1 fake.

Definition Status fake : Client * M (option client_SubResourceWriter) :=
  fake_call (i:=client_interface) MStatus tt fake.
Definition StatusCallCount fake : nat := fake_CallCount (i:=client_interface) MStatus fake.
Definition StatusCalls (stub : option (client_args MStatus -> M (client_results MStatus))) fake : Client :=
  fake_Calls (i:=client_interface) MStatus stub fake.
Definition StatusReturns (result1 : option client_SubResourceWriter) fake : Client :=
  fake_Returns (i:=client_interface) MStatus result1 fake.
Definition StatusReturnsOnCall (i : Z) (result1 : option client_SubResourceWriter) fake : Client :=
  fake_ReturnsOnCall (i:=client_interface) MStatus i result1 fake.

Definition SubResource fake (arg1 : string) : Client * M (option client_SubResourceClient) :=
  fake_call (i:=client_interface) MSubResource arg1 fake.
Definition SubResourceCallCount fake : nat := fake_CallCount (i:=client_interface) MSubResource fake.
Definition SubResourceCalls (stub : option (client_args MSubResource -> M (client_results MSubResource))) fake : Client :=
  fake_Calls (i:=client_interface) MSubResource stub fake.
Definition SubResourceArgsForCall fake (i : Z) : M (client_args MSubResource) :=
  fake_ArgsForCall (i:=client_interface) MSubResource fake i.
Definition SubResourceReturns (result1 : option client_SubResourceClient) fake : Client :=
  fake_Returns (i:=client_interface) MSubResource result1 fake.
Definition SubResourceReturnsOnCall (i : Z) (result1 : option client_SubResourceClient) fake : Client :=
  fake_ReturnsOnCall (i:=client_interface) MSubResource i result1 fake.

Definition Update fake (arg1 : option context_Context) (arg2 : option client_Object)
    (arg3 : list client_UpdateOption) : Client * M (option error) :=
  fake_call (i:=client_interface) MUpdate (arg1, arg2, arg3) fake.
Definition UpdateCallCount fake : nat := fake_CallCount (i:=client_interface) MUpdate fake.
Definition UpdateCalls (stub : option (client_args MUpdate -> M (client_results MUpdate))) fake : Client :=
  fake_Calls (i:=client_interface) MUpdate stub fake.
Definition UpdateArgsForCall fake (i : Z) : M (client_args MUpdate) :=
  fake_ArgsForCall (i:=client_interface) MUpdate fake i.
Definition UpdateReturns (result1 : option error) fake : Client :=
  fake_Returns (i:=client_interface) MUpdate result1 fake.
Definition UpdateReturnsOnCall (i : Z) (result1 : option error) fake : Client :=
  fake_ReturnsOnCall (i:=client_interface) MUpdate i result1 fake.

Definition Invocations fake : gmap string (list (list client_argument)) :=
  fake_Invocations (i:=client_interface) fake.

(** The functions by method. *)
Definition client_operations : operations client_interface := {|
  on_call m :=
    match m return client_args m -> Client -> Client * M (client_results m) with
    | MApply => fun '(arg1, arg2, arg3) fake => Apply fake arg1 arg2 arg3
    | MCreate => fun '(arg1, arg2, arg3) fake => Create fake arg1 arg2 arg3
    | MDelete => fun '(arg1, arg2, arg3) fake => Delete fake arg1 arg2 arg3
    | MDeleteAllOf => fun '(arg1, arg2, arg3) fake => DeleteAllOf fake arg1 arg2 arg3
    | MGet => fun '(arg1, arg2, arg3, arg4) fake => Get fake arg1 arg2 arg3 arg4
    | MGroupVersionKindFor => fun arg1 fake => GroupVersionKindFor fake arg1
    | MIsObjectNamespaced => fun arg1 fake => IsObjectNamespaced fake arg1
    | MList => fun '(arg1, arg2, arg3) fake => List fake arg1 arg2 arg3
    | MPatch => fun '(arg1, arg2, arg3, arg4) fake => Patch fake arg1 arg2 arg3 arg4
    | MRESTMapper => fun '() fake => RESTMapper fake
    | MScheme => fun '() fake => Scheme fake
    | MStatus => fun '() fake => Status fake
    | MSubResource => fun arg1 fake => SubResource fake arg1
    | MUpdate => fun '(arg1, arg2, arg3) fake => Update fake arg1 arg2 arg3
    end;
  on_CallCount m :=
    match m return Client -> nat with
    | MApply => ApplyCallCount
    | MCreate => CreateCallCount
    | MDelete => DeleteCallCount
    | MDeleteAllOf => DeleteAllOfCallCount
    | MGet => GetCallCount
    | MGroupVersionKindFor => GroupVersionKindForCallCount
    | MIsObjectNamespaced => IsObjectNamespacedCallCount
    | MList => ListCallCount
    | MPatch => PatchCallCount
    | MRESTMapper => RESTMapperCallCount
    | MScheme => SchemeCallCount
    | MStatus => StatusCallCount
    | MSubResource => SubResourceCallCount
    | MUpdate => UpdateCallCount
    end;
  on_Calls m :=
    match m return option (client_args m -> M (client_results m)) -> Client -> Client with
    | MApply => ApplyCalls
    | MCreate => CreateCalls
    | MDelete => DeleteCalls
    | MDeleteAllOf => DeleteAllOfCalls
    | MGet => GetCalls
    | MGroupVersionKindFor => GroupVersionKindForCalls
    | MIsObjectNamespaced => IsObjectNamespacedCalls
    | MList => ListCalls
    | MPatch => PatchCalls
    | MRESTMapper => RESTMapperCalls
    | MScheme => SchemeCalls
    | MStatus => StatusCalls
    | MSubResource => SubResourceCalls
    | MUpdate => UpdateCalls
    end;
  on_ArgsForCall m :=
    match m return option (Client -> Z -> M (client_args m)) with
    | MApply => Some ApplyArgsForCall
    | MCreate => Some CreateArgsForCall
    | MDelete => Some DeleteArgsForCall
    | MDeleteAllOf => Some DeleteAllOfArgsForCall
    | MGet => Some GetArgsForCall
    | MGroupVersionKindFor => Some GroupVersionKindForArgsForCall
    | MIsObjectNamespaced => Some IsObjectNamespacedArgsForCall
    | MList => Some ListArgsForCall
    | MPatch => Some PatchArgsForCall
    | MRESTMapper => None
    | MScheme => None
    | MStatus => None
    | MSubResource => Some SubResourceArgsForCall
    | MUpdate => Some UpdateArgsForCall
    end;
  on_Returns m :=
    match m return client_results m -> Client -> Client with
    | MApply => fun result1 => ApplyReturns result1
    | MCreate => fun result1 => CreateReturns result1
    | MDelete => fun result1 => DeleteReturns result1
    | MDeleteAllOf => fun result1 => DeleteAllOfReturns result1
    | MGet => fun result1 => GetReturns result1
    | MGroupVersionKindFor => fun '(result1, result2) => GroupVersionKindForReturns result1 result2
    | MIsObjectNamespaced => fun '(result1, result2) => IsObjectNamespacedReturns result1 result2
    | MList => fun result1 => ListReturns result1
    | MPatch => fun result1 => PatchReturns result1
    | MRESTMapper => fun result1 => RESTMapperReturns result1
    | MScheme => fun result1 => SchemeReturns result1
    | MStatus => fun result1 => StatusReturns result1
    | MSubResource => fun result1 => SubResourceReturns result1
    | MUpdate => fun result1 => UpdateReturns result1
    end;
  on_ReturnsOnCall m :=
    match m return Z -> client_results m -> Client -> Client with
    | MApply => fun i result1 => ApplyReturnsOnCall i result1
    | MCreate => fun i result1 => CreateReturnsOnCall i result1
    | MDelete => fun i result1 => DeleteReturnsOnCall i result1
    | MDeleteAllOf => fun i result1 => DeleteAllOfReturnsOnCall i result1
    | MGet => fun i result1 => GetReturnsOnCall i result1
    | MGroupVersionKindFor => fun i '(result1, result2) => GroupVersionKindForReturnsOnCall i result1 result2
    | MIsObjectNamespaced => fun i '(result1, result2) => IsObjectNamespacedReturnsOnCall i result1 result2
    | MList => fun i result1 => ListReturnsOnCall i result1
    | MPatch => fun i result1 => PatchReturnsOnCall i result1
    | MRESTMapper => fun i result1 => RESTMapperReturnsOnCall i result1
    | MScheme => fun i result1 => SchemeReturnsOnCall i result1
    | MStatus => fun i result1 => StatusReturnsOnCall i result1
    | MSubResource => fun i result1 => SubResourceReturnsOnCall i result1
    | MUpdate => fun i result1 => UpdateReturnsOnCall i result1
    end;
  on_Invocations := Invocations
|}.

Lemma client_generated : generated client_operations.
Proof.
  split.
  - intros [] a f; by repeat destruct a as [a ?].
  - by intros [].
  - by intros [].
  - intros [] show f n; by intros [= <-].
  - intros [] r f; by repeat destruct r as [r ?].
  - intros [] n r f; by repeat destruct r as [r ?].
  - done.
Qed.

(** (C40) A fake Kubernetes client does what it was told, on each of its
    fourteen methods, whatever was done with it before: after any history of
    operations every method counts and shows exactly its own calls and
    answers the next one by the stub, the answer for that call, the general
    answer or the zero value, in this order, and the invocations show every
    call under the name of its method. *)
Theorem fake_client_replays (h : list (operation client_interface)) : replays client_operations h.
Proof. apply generated_replays, client_generated. Qed.
End FakeClient.
End FakeClient.

(** ** status_writer.go *)

Module FakeStatusWriter.
Section FakeStatusWriter.
Context {types : ClientTypes}.

Inductive writer_method := | MApply | MCreate | MPatch | MUpdate.

#[export] Instance writer_method_eq_dec : EqDecision writer_method.
Proof. solve_decision. Defined.

Definition writer_name (m : writer_method) : string :=
  match m with
  | MApply => "Apply" | MCreate => "Create" | MPatch => "Patch" | MUpdate => "Update"
  end.

Definition writer_args (m : writer_method) : Type :=
  match m with
  | MApply => option context_Context * option runtime_ApplyConfiguration * list client_SubResourceApplyOption
  | MCreate => option context_Context * option client_Object * option client_Object * list client_SubResourceCreateOption
  | MPatch => option context_Context * option client_Object * option client_Patch * list client_SubResourcePatchOption
  | MUpdate => option context_Context * option client_Object * list client_SubResourceUpdateOption
  end.

Definition writer_results (m : writer_method) : Type :=
  match m with
  | MApply => option error
  | MCreate => option error
  | MPatch => option error
  | MUpdate => option error
  end.

Definition writer_zero (m : writer_method) : writer_results m :=
  match m with
  | MApply => None
  | MCreate => None
  | MPatch => None
  | MUpdate => None
  end.

(** The arguments as [[]interface{}]. *)
Inductive writer_argument :=
| Any_context_Context (arg : option context_Context)
| Any_runtime_ApplyConfiguration (arg : option runtime_ApplyConfiguration)
| Any_client_SubResourceApplyOptions (arg : list client_SubResourceApplyOption)
| Any_client_Object (arg : option client_Object)
| Any_client_SubResourceCreateOptions (arg : list client_SubResourceCreateOption)
| Any_client_Patch (arg : option client_Patch)
| Any_client_SubResourcePatchOptions (arg : list client_SubResourcePatchOption)
| Any_client_SubResourceUpdateOptions (arg : list client_SubResourceUpdateOption).

Definition writer_arguments (m : writer_method) : writer_args m -> list writer_argument :=
  match m with
  | MApply => fun '(arg1, arg2, arg3) => [Any_context_Context arg1; Any_runtime_ApplyConfiguration arg2;
      Any_client_SubResourceApplyOptions arg3]
  | MCreate => fun '(arg1, arg2, arg3, arg4) => [Any_context_Context arg1; Any_client_Object arg2;
      Any_client_Object arg3; Any_client_SubResourceCreateOptions arg4]
  | MPatch => fun '(arg1, arg2, arg3, arg4) => [Any_context_Context arg1; Any_client_Object arg2;
      Any_client_Patch arg3; Any_client_SubResourcePatchOptions arg4]
  | MUpdate => fun '(arg1, arg2, arg3) => [Any_context_Context arg1; Any_client_Object arg2;
      Any_client_SubResourceUpdateOptions arg3]
  end.

#[export] Instance writer_name_inj : Inj (=) (=) writer_name.
Proof. intros m m'. by destruct m, m'. Qed.

#[export] Instance writer_interface : FakeInterface := {|
  method := writer_method; method_name := writer_name; args := writer_args; results := writer_results;
  zero_results := writer_zero; argument := writer_argument; to_arguments := writer_arguments |}.

(** [type StatusWriter struct] and [new(StatusWriter)] *)
Definition StatusWriter : Type := fake writer_interface.
Definition new_StatusWriter : StatusWriter := new_fake.
Implicit Type fake : StatusWriter.

Definition Apply fake (arg1 : option context_Context) (arg2 : option runtime_ApplyConfiguration)
    (arg3 : list client_SubResourceApplyOption) : StatusWriter * M (option error) :=
  fake_call (i:=writer_interface) MApply (arg1, arg2, arg3) fake.
Definition ApplyCallCount fake : nat := fake_CallCount (i:=writer_interface) MApply fake.
Definition ApplyCalls (stub : option (writer_args MApply -> M (writer_results MApply))) fake : StatusWriter :=
  fake_Calls (i:=writer_interface) MApply stub fake.
Definition ApplyArgsForCall fake (i : Z) : M (writer_args MApply) :=
  fake_ArgsForCall (i:=writer_interface) MApply fake i.
Definition ApplyReturns (result1 : option error) fake : StatusWriter :=
  fake_Returns (i:=writer_interface) MApply result1 fake.
Definition ApplyReturnsOnCall (i : Z) (result1 : option error) fake : StatusWriter :=
  fake_ReturnsOnCall (i:=writer_interface) MApply i result1 fake.

Definition Create fake (arg1 : option context_Context) (arg2 : option client_Object)
    (arg3 : option client_Object) (arg4 : list client_SubResourceCreateOption)
    : StatusWriter * M (option error) :=
  fake_call (i:=writer_interface) MCreate (arg1, arg2, arg3, arg4) fake.
Definition CreateCallCount fake : nat := fake_CallCount (i:=writer_interface) MCreate fake.
Definition CreateCalls (stub : option (writer_args MCreate -> M (writer_results MCreate))) fake : StatusWriter :=
  fake_Calls (i:=writer_interface) MCreate stub fake.
Definition CreateArgsForCall fake (i : Z) : M (writer_args MCreate) :=
  fake_ArgsForCall (i:=writer_interface) MCreate fake i.
Definition CreateReturns (result1 : option error) fake : StatusWriter :=
  fake_Returns (i:=writer_interface) MCreate result1 fake.
Definition CreateReturnsOnCall (i : Z) (result1 : option error) fake : StatusWriter :=
  fake_ReturnsOnCall (i:=writer_interface) MCreate i result1 fake.

Definition Patch fake (arg1 : option context_Context) (arg2 : option client_Object) (arg3 : option client_Patch)
    (arg4 : list client_SubResourcePatchOption) : StatusWriter * M (option error) :=
  fake_call (i:=writer_interface) MPatch (arg1, arg2, arg3, arg4) fake.
Definition PatchCallCount fake : nat := fake_CallCount (i:=writer_interface) MPatch fake.
Definition PatchCalls (stub : option (writer_args MPatch -> M (writer_results MPatch))) fake : StatusWriter :=
  fake_Calls (i:=writer_interface) MPatch stub fake.
Definition PatchArgsForCall fake (i : Z) : M (writer_args MPatch) :=
  fake_ArgsForCall (i:=writer_interface) MPatch fake i.
Definition PatchReturns (result1 : option error) fake : StatusWriter :=
  fake_Returns (i:=writer_interface) MPatch result1 fake.
Definition PatchReturnsOnCall (i : Z) (result1 : option error) fake : StatusWriter :=
  fake_ReturnsOnCall (i:=writer_interface) MPatch i result1 fake.

Definition Update fake (arg1 : option context_Context) (arg2 : option client_Object)
    (arg3 : list client_SubResourceUpdateOption) : StatusWriter * M (option error) :=
  fake_call (i:=writer_interface) MUpdate (arg1, arg2, arg3) fake.
Definition UpdateCallCount fake : nat := fake_CallCount (i:=writer_interface) MUpdate fake.
Definition UpdateCalls (stub : option (writer_args MUpdate -> M (writer_results MUpdate))) fake : StatusWriter :=
  fake_Calls (i:=writer_interface) MUpdate stub fake.
Definition UpdateArgsForCall fake (i : Z) : M (writer_args MUpdate) :=
  fake_ArgsForCall (i:=writer_interface) MUpdate fake i.
Definition UpdateReturns (result1 : option error) fake : StatusWriter :=
  fake_Returns (i:=writer_interface) MUpdate result1 fake.
Definition UpdateReturnsOnCall (i : Z) (result1 : option error) fake : StatusWriter :=
  fake_ReturnsOnCall (i:=writer_interface) MUpdate i result1 fake.

Definition Invocations fake : gmap string (list (list writer_argument)) :=
  fake_Invocations (i:=writer_interface) fake.

(** The functions by method. *)
Definition writer_operations : operations writer_interface := {|
  on_call m :=
    match m return writer_args m -> StatusWriter -> StatusWriter * M (writer_results m) with
    | MApply => fun '(arg1, arg2, arg3) fake => Apply fake arg1 arg2 arg3
    | MCreate => fun '(arg1, arg2, arg3, arg4) fake => Create fake arg1 arg2 arg3 arg4
    | MPatch => fun '(arg1, arg2, arg3, arg4) fake => Patch fake arg1 arg2 arg3 arg4
    | MUpdate => fun '(arg1, arg2, arg3) fake => Update fake arg1 arg2 arg3
    end;
  on_CallCount m :=
    match m return StatusWriter -> nat with
    | MApply => ApplyCallCount
    | MCreate => CreateCallCount
    | MPatch => PatchCallCount
    | MUpdate => UpdateCallCount
    end;
  on_Calls m :=
    match m return option (writer_args m -> M (writer_results m)) -> StatusWriter -> StatusWriter with
    | MApply => ApplyCalls
    | MCreate => CreateCalls
    | MPatch => PatchCalls
    | MUpdate => UpdateCalls
    end;
  on_ArgsForCall m :=
    match m return option (StatusWriter -> Z -> M (writer_args m)) with
    | MApply => Some ApplyArgsForCall
    | MCreate => Some CreateArgsForCall
    | MPatch => Some PatchArgsForCall
    | MUpdate => Some UpdateArgsForCall
    end;
  on_Returns m :=
    match m return writer_results m -> StatusWriter -> StatusWriter with
    | MApply => fun result1 => ApplyReturns result1
    | MCreate => fun result1 => CreateReturns result1
    | MPatch => fun result1 => PatchReturns result1
    | MUpdate => fun result1 => UpdateReturns result1
    end;
  on_ReturnsOnCall m :=
    match m return Z -> writer_results m -> StatusWriter -> StatusWriter with
    | MApply => fun i result1 => ApplyReturnsOnCall i result1
    | MCreate => fun i result1 => CreateReturnsOnCall i result1
    | MPatch => fun i result1 => PatchReturnsOnCall i result1
    | MUpdate => fun i result1 => UpdateReturnsOnCall i result1
    end;
  on_Invocations := Invocations
|}.

Lemma writer_generated : generated writer_operations.
Proof.
  split.
  - intros [] a f; by repeat destruct a as [a ?].
  - by intros [].
  - by intros [].
  - intros [] show f n; by intros [= <-].
  - intros [] r f; by repeat destruct r as [r ?].
  - intros [] n r f; by repeat destruct r as [r ?].
  - done.
Qed.

(** So does a fake status writer, on each of its four methods. *)
Theorem fake_writer_replays (h : list (operation writer_interface)) : replays writer_operations h.
Proof. apply generated_replays, writer_generated. Qed.
End FakeStatusWriter.
End FakeStatusWriter.
