(* ===== verification/FakeServiceManager.v ===== *)
(** * The fake of the service manager client

    Models src/components/btp-service-broker/btp/fake/smclient.go with the
    scheme of FakeMethods.v: a definition for every generated function, and
    what the fake replays after any history of calls to them.  The types of
    the service manager library are opaque; a pointer or an interface may be
    nil. *)

From S2P Require Export FakeMethods.

#[local] Open Scope Z_scope.
#[local] Open Scope list_scope.

(** The types of the service manager library. *)
Class SMTypes := {
  types_ServiceBinding : Type; sm_Parameters : Type; io_Reader : Type; http_Response : Type;
  types_ServiceInstance : Type; types_ServiceBindings : Type; types_ServiceInstances : Type;
  types_ServiceOfferings : Type; types_ServicePlans : Type; sm_ProvisionResponse : Type; types_Operation : Type
}.

(** ** smclient.go *)

Module FakeSMClient.
Section FakeSMClient.
Context {types : SMTypes}.

Inductive sm_method := | MBind | MCall | MDeprovision | MGetBindingByID | MGetInstanceByID | MListBindings
| MListInstances | MListOfferings | MListPlans | MProvision | MRenameBinding | MShareInstance | MStatus
| MUnShareInstance | MUnbind | MUpdateInstance.

#[export] Instance sm_method_eq_dec : EqDecision sm_method.
Proof. solve_decision. Defined.

Definition sm_name (m : sm_method) : string :=
  match m with
  | MBind => "Bind" | MCall => "Call" | MDeprovision => "Deprovision" | MGetBindingByID => "GetBindingByID"
  | MGetInstanceByID => "GetInstanceByID" | MListBindings => "ListBindings" | MListInstances => "ListInstances"
  | MListOfferings => "ListOfferings" | MListPlans => "ListPlans" | MProvision => "Provision"
  | MRenameBinding => "RenameBinding" | MShareInstance => "ShareInstance" | MStatus => "Status"
  | MUnShareInstance => "UnShareInstance" | MUnbind => "Unbind" | MUpdateInstance => "UpdateInstance"
  end.

Definition sm_args (m : sm_method) : Type :=
  match m with
  | MBind => option types_ServiceBinding * option sm_Parameters * string
  | MCall => string * string * option io_Reader * option sm_Parameters
  | MDeprovision => string * option sm_Parameters * string
  | MGetBindingByID => string * option sm_Parameters
  | MGetInstanceByID => string * option sm_Parameters
  | MListBindings => option sm_Parameters
  | MListInstances => option sm_Parameters
  | MListOfferings => option sm_Parameters
  | MListPlans => option sm_Parameters
  | MProvision => option types_ServiceInstance * string * string * option sm_Parameters * string * string
  | MRenameBinding => string * string * string
  | MShareInstance => string * string
  | MStatus => string * option sm_Parameters
  | MUnShareInstance => string * string
  | MUnbind => string * option sm_Parameters * string
  | MUpdateInstance => string * option types_ServiceInstance * string * string * option sm_Parameters * string * string
  end.

Definition sm_results (m : sm_method) : Type :=
  match m with
  | MBind => option types_ServiceBinding * string * option error
  | MCall => option http_Response * option error
  | MDeprovision => string * option error
  | MGetBindingByID => option types_ServiceBinding * option error
  | MGetInstanceByID => option types_ServiceInstance * option error
  | MListBindings => option types_ServiceBindings * option error
  | MListInstances => option types_ServiceInstances * option error
  | MListOfferings => option types_ServiceOfferings * option error
  | MListPlans => option types_ServicePlans * option error
  | MProvision => option sm_ProvisionResponse * option error
  | MRenameBinding => option types_ServiceBinding * option error
  | MShareInstance => option error
  | MStatus => option types_Operation * option error
  | MUnShareInstance => option error
  | MUnbind => string * option error
  | MUpdateInstance => option types_ServiceInstance * string * option error
  end.

Definition sm_zero (m : sm_method) : sm_results m :=
  match m with
  | MBind => (None, "", None)
  | MCall => (None, None)
  | MDeprovision => ("", None)
  | MGetBindingByID => (None, None)
  | MGetInstanceByID => (None, None)
  | MListBindings => (None, None)
  | MListInstances => (None, None)
  | MListOfferings => (None, None)
  | MListPlans => (None, None)
  | MProvision => (None, None)
  | MRenameBinding => (None, None)
  | MShareInstance => None
  | MStatus => (None, None)
  | MUnShareInstance => None
  | MUnbind => ("", None)
  | MUpdateInstance => (None, "", None)
  end.

(** The arguments as [[]interface{}]. *)
Inductive sm_argument :=
| Any_types_ServiceBinding (arg : option types_ServiceBinding)
| Any_sm_Parameters (arg : option sm_Parameters)
| Any_string (arg : string)
| Any_io_Reader (arg : option io_Reader)
| Any_types_ServiceInstance (arg : option types_ServiceInstance).

Definition sm_arguments (m : sm_method) : sm_args m -> list sm_argument :=
  match m with
  | MBind => fun '(arg1, arg2, arg3) => [Any_types_ServiceBinding arg1; Any_sm_Parameters arg2; Any_string arg3]
  | MCall => fun '(arg1, arg2, arg3, arg4) => [Any_string arg1; Any_string arg2; Any_io_Reader arg3;
      Any_sm_Parameters arg4]
  | MDeprovision => fun '(arg1, arg2, arg3) => [Any_string arg1; Any_sm_Parameters arg2; Any_string arg3]
  | MGetBindingByID => fun '(arg1, arg2) => [Any_string arg1; Any_sm_Parameters arg2]
  | MGetInstanceByID => fun '(arg1, arg2) => [Any_string arg1; Any_sm_Parameters arg2]
  | MListBindings => fun arg1 => [Any_sm_Parameters arg1]
  | MListInstances => fun arg1 => [Any_sm_Parameters arg1]
  | MListOfferings => fun arg1 => [Any_sm_Parameters arg1]
  | MListPlans => fun arg1 => [Any_sm_Parameters arg1]
  | MProvision => fun '(arg1, arg2, arg3, arg4, arg5, arg6) => [Any_types_ServiceInstance arg1; Any_string arg2;
      Any_string arg3; Any_sm_Parameters arg4; Any_string arg5; Any_string arg6]
  | MRenameBinding => fun '(arg1, arg2, arg3) => [Any_string arg1; Any_string arg2; Any_string arg3]
  | MShareInstance => fun '(arg1, arg2) => [Any_string arg1; Any_string arg2]
  | MStatus => fun '(arg1, arg2) => [Any_string arg1; Any_sm_Parameters arg2]
  | MUnShareInstance => fun '(arg1, arg2) => [Any_string arg1; Any_string arg2]
  | MUnbind => fun '(arg1, arg2, arg3) => [Any_string arg1; Any_sm_Parameters arg2; Any_string arg3]
  | MUpdateInstance => fun '(arg1, arg2, arg3, arg4, arg5, arg6, arg7) => [Any_string arg1;
      Any_types_ServiceInstance arg2; Any_string arg3; Any_string arg4; Any_sm_Parameters arg5; Any_string arg6;
      Any_string arg7]
  end.

#[export] Instance sm_name_inj : Inj (=) (=) sm_name.
Proof. intros m m'. by destruct m, m'. Qed.

#[export] Instance sm_interface : FakeInterface := {|
  method := sm_method; method_name := sm_name; args := sm_args; results := sm_results;
  zero_results := sm_zero; argument := sm_argument; to_arguments := sm_arguments |}.

(** [type SMClient struct] and [new(SMClient)] *)
Definition SMClient : Type := fake sm_interface.
Definition new_SMClient : SMClient := new_fake.
Implicit Type fake : SMClient.

Definition Bind fake (arg1 : option types_ServiceBinding) (arg2 : option sm_Parameters) (arg3 : string)
    : SMClient * M (option types_ServiceBinding * string * option error) :=
  fake_call (i:=sm_interface) MBind (arg1, arg2, arg3) fake.
Definition BindCallCount fake : nat := fake_CallCount (i:=sm_interface) MBind fake.
Definition BindCalls (stub : option (sm_args MBind -> M (sm_results MBind))) fake : SMClient :=
  fake_Calls (i:=sm_interface) MBind stub fake.
Definition BindArgsForCall fake (i : Z) : M (sm_args MBind) :=
  fake_ArgsForCall (i:=sm_interface) MBind fake i.
Definition BindReturns (result1 : option types_ServiceBinding) (result2 : string) (result3 : option error) fake : SMClient :=
  fake_Returns (i:=sm_interface) MBind (result1, result2, result3) fake.
Definition BindReturnsOnCall (i : Z) (result1 : option types_ServiceBinding) (result2 : string) (result3 : option error) fake : SMClient :=
  fake_ReturnsOnCall (i:=sm_interface) MBind i (result1, result2, result3) fake.

Definition Call fake (arg1 : string) (arg2 : string) (arg3 : option io_Reader) (arg4 : option sm_Parameters)
    : SMClient * M (option http_Response * option error) :=
  fake_call (i:=sm_interface) MCall (arg1, arg2, arg3, arg4) fake.
Definition CallCallCount fake : nat := fake_CallCount (i:=sm_interface) MCall fake.
Definition CallCalls (stub : option (sm_args MCall -> M (sm_results MCall))) fake : SMClient :=
  fake_Calls (i:=sm_interface) MCall stub fake.
Definition CallArgsForCall fake (i : Z) : M (sm_args MCall) :=
  fake_ArgsForCall (i:=sm_interface) MCall fake i.
Definition CallReturns (result1 : option http_Response) (result2 : option error) fake : SMClient :=
  fake_Returns (i:=sm_interface) MCall (result1, result2) fake.
Definition CallReturnsOnCall (i : Z) (result1 : option http_Response) (result2 : option error) fake : SMClient :=
  fake_ReturnsOnCall (i:=sm_interface) MCall i (result1, result2) fake.

Definition Deprovision fake (arg1 : string) (arg2 : option sm_Parameters) (arg3 : string)
    : SMClient * M (string * option error) :=
  fake_call (i:=sm_interface) MDeprovision (arg1, arg2, arg3) fake.
Definition DeprovisionCallCount fake : nat := fake_CallCount (i:=sm_interface) MDeprovision fake.
Definition DeprovisionCalls (stub : option (sm_args MDeprovision -> M (sm_results MDeprovision))) fake : SMClient :=
  fake_Calls (i:=sm_interface) MDeprovision stub fake.
Definition DeprovisionArgsForCall fake (i : Z) : M (sm_args MDeprovision) :=
  fake_ArgsForCall (i:=sm_interface) MDeprovision fake i.
Definition DeprovisionReturns (result1 : string) (result2 : option error) fake : SMClient :=
  fake_Returns (i:=sm_interface) MDeprovision (result1, result2) fake.
Definition DeprovisionReturnsOnCall (i : Z) (result1 : string) (result2 : option error) fake : SMClient :=
  fake_ReturnsOnCall (i:=sm_interface) MDeprovision i (result1, result2) fake.

Definition GetBindingByID fake (arg1 : string) (arg2 : option sm_Parameters)
    : SMClient * M (option types_ServiceBinding * option error) :=
  fake_call (i:=sm_interface) MGetBindingByID (arg1, arg2) fake.
Definition GetBindingByIDCallCount fake : nat := fake_CallCount (i:=sm_interface) MGetBindingByID fake.
Definition GetBindingByIDCalls (stub : option (sm_args MGetBindingByID -> M (sm_results MGetBindingByID))) fake : SMClient :=
  fake_Calls (i:=sm_interface) MGetBindingByID stub fake.
Definition GetBindingByIDArgsForCall fake (i : Z) : M (sm_args MGetBindingByID) :=
  fake_ArgsForCall (i:=sm_interface) MGetBindingByID fake i.
Definition GetBindingByIDReturns (result1 : option types_ServiceBinding) (result2 : option error) fake : SMClient :=
  fake_Returns (i:=sm_interface) MGetBindingByID (result1, result2) fake.
Definition GetBindingByIDReturnsOnCall (i : Z) (result1 : option types_ServiceBinding) (result2 : option error) fake : SMClient :=
  fake_ReturnsOnCall (i:=sm_interface) MGetBindingByID i (result1, result2) fake.

Definition GetInstanceByID fake (arg1 : string) (arg2 : option sm_Parameters)
    : SMClient * M (option types_ServiceInstance * option error) :=
  fake_call (i:=sm_interface) MGetInstanceByID (arg1, arg2) fake.
Definition GetInstanceByIDCallCount fake : nat := fake_CallCount (i:=sm_interface) MGetInstanceByID fake.
Definition GetInstanceByIDCalls (stub : option (sm_args MGetInstanceByID -> M (sm_results MGetInstanceByID))) fake : SMClient :=
  fake_Calls (i:=sm_interface) MGetInstanceByID stub fake.
Definition GetInstanceByIDArgsForCall fake (i : Z) : M (sm_args MGetInstanceByID) :=
  fake_ArgsForCall (i:=sm_interface) MGetInstanceByID fake i.
Definition GetInstanceByIDReturns (result1 : option types_ServiceInstance) (result2 : option error) fake : SMClient :=
  fake_Returns (i:=sm_interface) MGetInstanceByID (result1, result2) fake.
Definition GetInstanceByIDReturnsOnCall (i : Z) (result1 : option types_ServiceInstance) (result2 : option error) fake : SMClient :=
  fake_ReturnsOnCall (i:=sm_interface) MGetInstanceByID i (result1, result2) fake.

Definition ListBindings fake (arg1 : option sm_Parameters)
    : SMClient * M (option types_ServiceBindings * option error) :=
  fake_call (i:=sm_interface) MListBindings arg1 fake.
Definition ListBindingsCallCount fake : nat := fake_CallCount (i:=sm_interface) MListBindings fake.
Definition ListBindingsCalls (stub : option (sm_args MListBindings -> M (sm_results MListBindings))) fake : SMClient :=
  fake_Calls (i:=sm_interface) MListBindings stub fake.
Definition ListBindingsArgsForCall fake (i : Z) : M (sm_args MListBindings) :=
  fake_ArgsForCall (i:=sm_interface) MListBindings fake i.
Definition ListBindingsReturns (result1 : option types_ServiceBindings) (result2 : option error) fake : SMClient :=
  fake_Returns (i:=sm_interface) MListBindings (result1, result2) fake.
Definition ListBindingsReturnsOnCall (i : Z) (result1 : option types_ServiceBindings) (result2 : option error) fake : SMClient :=
  fake_ReturnsOnCall (i:=sm_interface) MListBindings i (result1, result2) fake.

Definition ListInstances fake (arg1 : option sm_Parameters)
    : SMClient * M (option types_ServiceInstances * option error) :=
  fake_call (i:=sm_interface) MListInstances arg1 fake.
Definition ListInstancesCallCount fake : nat := fake_CallCount (i:=sm_interface) MListInstances fake.
Definition ListInstancesCalls (stub : option (sm_args MListInstances -> M (sm_results MListInstances))) fake : SMClient :=
  fake_Calls (i:=sm_interface) MListInstances stub fake.
Definition ListInstancesArgsForCall fake (i : Z) : M (sm_args MListInstances) :=
  fake_ArgsForCall (i:=sm_interface) MListInstances fake i.
Definition ListInstancesReturns (result1 : option types_ServiceInstances) (result2 : option error) fake : SMClient :=
  fake_Returns (i:=sm_interface) MListInstances (result1, result2) fake.
Definition ListInstancesReturnsOnCall (i : Z) (result1 : option types_ServiceInstances) (result2 : option error) fake : SMClient :=
  fake_ReturnsOnCall (i:=sm_interface) MListInstances i (result1, result2) fake.

Definition ListOfferings fake (arg1 : option sm_Parameters)
    : SMClient * M (option types_ServiceOfferings * option error) :=
  fake_call (i:=sm_interface) MListOfferings arg1 fake.
Definition ListOfferingsCallCount fake : nat := fake_CallCount (i:=sm_interface) MListOfferings fake.
Definition ListOfferingsCalls (stub : option (sm_args MListOfferings -> M (sm_results MListOfferings))) fake : SMClient :=
  fake_Calls (i:=sm_interface) MListOfferings stub fake.
Definition ListOfferingsArgsForCall fake (i : Z) : M (sm_args MListOfferings) :=
  fake_ArgsForCall (i:=sm_interface) MListOfferings fake i.
Definition ListOfferingsReturns (result1 : option types_ServiceOfferings) (result2 : option error) fake : SMClient :=
  fake_Returns (i:=sm_interface) MListOfferings (result1, result2) fake.
Definition ListOfferingsReturnsOnCall (i : Z) (result1 : option types_ServiceOfferings) (result2 : option error) fake : SMClient :=
  fake_ReturnsOnCall (i:=sm_interface) MListOfferings i (result1, result2) fake.

Definition ListPlans fake (arg1 : option sm_Parameters)
    : SMClient * M (option types_ServicePlans * option error) :=
  fake_call (i:=sm_interface) MListPlans arg1 fake.
Definition ListPlansCallCount fake : nat := fake_CallCount (i:=sm_interface) MListPlans fake.
Definition ListPlansCalls (stub : option (sm_args MListPlans -> M (sm_results MListPlans))) fake : SMClient :=
  fake_Calls (i:=sm_interface) MListPlans stub fake.
Definition ListPlansArgsForCall fake (i : Z) : M (sm_args MListPlans) :=
  fake_ArgsForCall (i:=sm_interface) MListPlans fake i.
Definition ListPlansReturns (result1 : option types_ServicePlans) (result2 : option error) fake : SMClient :=
  fake_Returns (i:=sm_interface) MListPlans (result1, result2) fake.
Definition ListPlansReturnsOnCall (i : Z) (result1 : option types_ServicePlans) (result2 : option error) fake : SMClient :=
  fake_ReturnsOnCall (i:=sm_interface) MListPlans i (result1, result2) fake.

Definition Provision fake (arg1 : option types_ServiceInstance) (arg2 : string) (arg3 : string)
    (arg4 : option sm_Parameters) (arg5 : string) (arg6 : string)
    : SMClient * M (option sm_ProvisionResponse * option error) :=
  fake_call (i:=sm_interface) MProvision (arg1, arg2, arg3, arg4, arg5, arg6) fake.
Definition ProvisionCallCount fake : nat := fake_CallCount (i:=sm_interface) MProvision fake.
Definition ProvisionCalls (stub : option (sm_args MProvision -> M (sm_results MProvision))) fake : SMClient :=
  fake_Calls (i:=sm_interface) MProvision stub fake.
Definition ProvisionArgsForCall fake (i : Z) : M (sm_args MProvision) :=
  fake_ArgsForCall (i:=sm_interface) MProvision fake i.
Definition ProvisionReturns (result1 : option sm_ProvisionResponse) (result2 : option error) fake : SMClient :=
  fake_Returns (i:=sm_interface) MProvision (result1, result2) fake.
Definition ProvisionReturnsOnCall (i : Z) (result1 : option sm_ProvisionResponse) (result2 : option error) fake : SMClient :=
  fake_ReturnsOnCall (i:=sm_interface) MProvision i (result1, result2) fake.

Definition RenameBinding fake (arg1 : string) (arg2 : string) (arg3 : string)
    : SMClient * M (option types_ServiceBinding * option error) :=
  fake_call (i:=sm_interface) MRenameBinding (arg1, arg2, arg3) fake.
Definition RenameBindingCallCount fake : nat := fake_CallCount (i:=sm_interface) MRenameBinding fake.
Definition RenameBindingCalls (stub : option (sm_args MRenameBinding -> M (sm_results MRenameBinding))) fake : SMClient :=
  fake_Calls (i:=sm_interface) MRenameBinding stub fake.
Definition RenameBindingArgsForCall fake (i : Z) : M (sm_args MRenameBinding) :=
  fake_ArgsForCall (i:=sm_interface) MRenameBinding fake i.
Definition RenameBindingReturns (result1 : option types_ServiceBinding) (result2 : option error) fake : SMClient :=
  fake_Returns (i:=sm_interface) MRenameBinding (result1, result2) fake.
Definition RenameBindingReturnsOnCall (i : Z) (result1 : option types_ServiceBinding) (result2 : option error) fake : SMClient :=
  fake_ReturnsOnCall (i:=sm_interface) MRenameBinding i (result1, result2) fake.

Definition ShareInstance fake (arg1 : string) (arg2 : string) : SMClient * M (option error) :=
  fake_call (i:=sm_interface) MShareInstance (arg1, arg2) fake.
Definition ShareInstanceCallCount fake : nat := fake_CallCount (i:=sm_interface) MShareInstance fake.
Definition ShareInstanceCalls (stub : option (sm_args MShareInstance -> M (sm_results MShareInstance))) fake : SMClient :=
  fake_Calls (i:=sm_interface) MShareInstance stub fake.
Definition ShareInstanceArgsForCall fake (i : Z) : M (sm_args MShareInstance) :=
  fake_ArgsForCall (i:=sm_interface) MShareInstance fake i.
Definition ShareInstanceReturns (result1 : option error) fake : SMClient :=
  fake_Returns (i:=sm_interface) MShareInstance result1 fake.
Definition ShareInstanceReturnsOnCall (i : Z) (result1 : option error) fake : SMClient :=
  fake_ReturnsOnCall (i:=sm_interface) MShareInstance i result1 fake.

Definition Status fake (arg1 : string) (arg2 : option sm_Parameters)
    : SMClient * M (option types_Operation * option error) :=
  fake_call (i:=sm_interface) MStatus (arg1, arg2) fake.
Definition StatusCallCount fake : nat := fake_CallCount (i:=sm_interface) MStatus fake.
Definition StatusCalls (stub : option (sm_args MStatus -> M (sm_results MStatus))) fake : SMClient :=
  fake_Calls (i:=sm_interface) MStatus stub fake.
Definition StatusArgsForCall fake (i : Z) : M (sm_args MStatus) :=
  fake_ArgsForCall (i:=sm_interface) MStatus fake i.
Definition StatusReturns (result1 : option types_Operation) (result2 : option error) fake : SMClient :=
  fake_Returns (i:=sm_interface) MStatus (result1, result2) fake.
Definition StatusReturnsOnCall (i : Z) (result1 : option types_Operation) (result2 : option error) fake : SMClient :=
  fake_ReturnsOnCall (i:=sm_interface) MStatus i (result1, result2) fake.

Definition UnShareInstance fake (arg1 : string) (arg2 : string) : SMClient * M (option error) :=
  fake_call (i:=sm_interface) MUnShareInstance (arg1, arg2) fake.
Definition UnShareInstanceCallCount fake : nat := fake_CallCount (i:=sm_interface) MUnShareInstance fake.
Definition UnShareInstanceCalls (stub : option (sm_args MUnShareInstance -> M (sm_results MUnShareInstance))) fake : SMClient :=
  fake_Calls (i:=sm_interface) MUnShareInstance stub fake.
Definition UnShareInstanceArgsForCall fake (i : Z) : M (sm_args MUnShareInstance) :=
  fake_ArgsForCall (i:=sm_interface) MUnShareInstance fake i.
Definition UnShareInstanceReturns (result1 : option error) fake : SMClient :=
  fake_Returns (i:=sm_interface) MUnShareInstance result1 fake.
Definition UnShareInstanceReturnsOnCall (i : Z) (result1 : option error) fake : SMClient :=
  fake_ReturnsOnCall (i:=sm_interface) MUnShareInstance i result1 fake.

Definition Unbind fake (arg1 : string) (arg2 : option sm_Parameters) (arg3 : string)
    : SMClient * M (string * option error) :=
  fake_call (i:=sm_interface) MUnbind (arg1, arg2, arg3) fake.
Definition UnbindCallCount fake : nat := fake_CallCount (i:=sm_interface) MUnbind fake.
Definition UnbindCalls (stub : option (sm_args MUnbind -> M (sm_results MUnbind))) fake : SMClient :=
  fake_Calls (i:=sm_interface) MUnbind stub fake.
Definition UnbindArgsForCall fake (i : Z) : M (sm_args MUnbind) :=
  fake_ArgsForCall (i:=sm_interface) MUnbind fake i.
Definition UnbindReturns (result1 : string) (result2 : option error) fake : SMClient :=
  fake_Returns (i:=sm_interface) MUnbind (result1, result2) fake.
Definition UnbindReturnsOnCall (i : Z) (result1 : string) (result2 : option error) fake : SMClient :=
  fake_ReturnsOnCall (i:=sm_interface) MUnbind i (result1, result2) fake.

Definition UpdateInstance fake (arg1 : string) (arg2 : option types_ServiceInstance) (arg3 : string)
    (arg4 : string) (arg5 : option sm_Parameters) (arg6 : string) (arg7 : string)
    : SMClient * M (option types_ServiceInstance * string * option error) :=
  fake_call (i:=sm_interface) MUpdateInstance (arg1, arg2, arg3, arg4, arg5, arg6, arg7) fake.
Definition UpdateInstanceCallCount fake : nat := fake_CallCount (i:=sm_interface) MUpdateInstance fake.
Definition UpdateInstanceCalls (stub : option (sm_args MUpdateInstance -> M (sm_results MUpdateInstance))) fake : SMClient :=
  fake_Calls (i:=sm_interface) MUpdateInstance stub fake.
Definition UpdateInstanceArgsForCall fake (i : Z) : M (sm_args MUpdateInstance) :=
  fake_ArgsForCall (i:=sm_interface) MUpdateInstance fake i.
Definition UpdateInstanceReturns (result1 : option types_ServiceInstance) (result2 : string) (result3 : option error) fake : SMClient :=
  fake_Returns (i:=sm_interface) MUpdateInstance (result1, result2, result3) fake.
Definition UpdateInstanceReturnsOnCall (i : Z) (result1 : option types_ServiceInstance) (result2 : string) (result3 : option error) fake : SMClient :=
  fake_ReturnsOnCall (i:=sm_interface) MUpdateInstance i (result1, result2, result3) fake.

Definition Invocations fake : gmap string (list (list sm_argument)) :=
  fake_Invocations (i:=sm_interface) fake.

(** The functions by method. *)
Definition sm_operations : operations sm_interface := {|
  on_call m :=
    match m return sm_args m -> SMClient -> SMClient * M (sm_results m) with
    | MBind => fun '(arg1, arg2, arg3) fake => Bind fake arg1 arg2 arg3
    | MCall => fun '(arg1, arg2, arg3, arg4) fake => Call fake arg1 arg2 arg3 arg4
    | MDeprovision => fun '(arg1, arg2, arg3) fake => Deprovision fake arg1 arg2 arg3
    | MGetBindingByID => fun '(arg1, arg2) fake => GetBindingByID fake arg1 arg2
    | MGetInstanceByID => fun '(arg1, arg2) fake => GetInstanceByID fake arg1 arg2
    | MListBindings => fun arg1 fake => ListBindings fake arg1
    | MListInstances => fun arg1 fake => ListInstances fake arg1
    | MListOfferings => fun arg1 fake => ListOfferings fake arg1
    | MListPlans => fun arg1 fake => ListPlans fake arg1
    | MProvision => fun '(arg1, arg2, arg3, arg4, arg5, arg6) fake => Provision fake arg1 arg2 arg3 arg4 arg5 arg6
    | MRenameBinding => fun '(arg1, arg2, arg3) fake => RenameBinding fake arg1 arg2 arg3
    | MShareInstance => fun '(arg1, arg2) fake => ShareInstance fake arg1 arg2
    | MStatus => fun '(arg1, arg2) fake => Status fake arg1 arg2
    | MUnShareInstance => fun '(arg1, arg2) fake => UnShareInstance fake arg1 arg2
    | MUnbind => fun '(arg1, arg2, arg3) fake => Unbind fake arg1 arg2 arg3
    | MUpdateInstance => fun '(arg1, arg2, arg3, arg4, arg5, arg6, arg7) fake => UpdateInstance fake arg1 arg2 arg3 arg4 arg5 arg6 arg7
    end;
  on_CallCount m :=
    match m return SMClient -> nat with
    | MBind => BindCallCount
    | MCall => CallCallCount
    | MDeprovision => DeprovisionCallCount
    | MGetBindingByID => GetBindingByIDCallCount
    | MGetInstanceByID => GetInstanceByIDCallCount
    | MListBindings => ListBindingsCallCount
    | MListInstances => ListInstancesCallCount
    | MListOfferings => ListOfferingsCallCount
    | MListPlans => ListPlansCallCount
    | MProvision => ProvisionCallCount
    | MRenameBinding => RenameBindingCallCount
    | MShareInstance => ShareInstanceCallCount
    | MStatus => StatusCallCount
    | MUnShareInstance => UnShareInstanceCallCount
    | MUnbind => UnbindCallCount
    | MUpdateInstance => UpdateInstanceCallCount
    end;
  on_Calls m :=
    match m return option (sm_args m -> M (sm_results m)) -> SMClient -> SMClient with
    | MBind => BindCalls
    | MCall => CallCalls
    | MDeprovision => DeprovisionCalls
    | MGetBindingByID => GetBindingByIDCalls
    | MGetInstanceByID => GetInstanceByIDCalls
    | MListBindings => ListBindingsCalls
    | MListInstances => ListInstancesCalls
    | MListOfferings => ListOfferingsCalls
    | MListPlans => ListPlansCalls
    | MProvision => ProvisionCalls
    | MRenameBinding => RenameBindingCalls
    | MShareInstance => ShareInstanceCalls
    | MStatus => StatusCalls
    | MUnShareInstance => UnShareInstanceCalls
    | MUnbind => UnbindCalls
    | MUpdateInstance => UpdateInstanceCalls
    end;
  on_ArgsForCall m :=
    match m return option (SMClient -> Z -> M (sm_args m)) with
    | MBind => Some BindArgsForCall
    | MCall => Some CallArgsForCall
    | MDeprovision => Some DeprovisionArgsForCall
    | MGetBindingByID => Some GetBindingByIDArgsForCall
    | MGetInstanceByID => Some GetInstanceByIDArgsForCall
    | MListBindings => Some ListBindingsArgsForCall
    | MListInstances => Some ListInstancesArgsForCall
    | MListOfferings => Some ListOfferingsArgsForCall
    | MListPlans => Some ListPlansArgsForCall
    | MProvision => Some ProvisionArgsForCall
    | MRenameBinding => Some RenameBindingArgsForCall
    | MShareInstance => Some ShareInstanceArgsForCall
    | MStatus => Some StatusArgsForCall
    | MUnShareInstance => Some UnShareInstanceArgsForCall
    | MUnbind => Some UnbindArgsForCall
    | MUpdateInstance => Some UpdateInstanceArgsForCall
    end;
  on_Returns m :=
    match m return sm_results m -> SMClient -> SMClient with
    | MBind => fun '(result1, result2, result3) => BindReturns result1 result2 result3
    | MCall => fun '(result1, result2) => CallReturns result1 result2
    | MDeprovision => fun '(result1, result2) => DeprovisionReturns result1 result2
    | MGetBindingByID => fun '(result1, result2) => GetBindingByIDReturns result1 result2
    | MGetInstanceByID => fun '(result1, result2) => GetInstanceByIDReturns result1 result2
    | MListBindings => fun '(result1, result2) => ListBindingsReturns result1 result2
    | MListInstances => fun '(result1, result2) => ListInstancesReturns result1 result2
    | MListOfferings => fun '(result1, result2) => ListOfferingsReturns result1 result2
    | MListPlans => fun '(result1, result2) => ListPlansReturns result1 result2
    | MProvision => fun '(result1, result2) => ProvisionReturns result1 result2
    | MRenameBinding => fun '(result1, result2) => RenameBindingReturns result1 result2
    | MShareInstance => fun result1 => ShareInstanceReturns result1
    | MStatus => fun '(result1, result2) => StatusReturns result1 result2
    | MUnShareInstance => fun result1 => UnShareInstanceReturns result1
    | MUnbind => fun '(result1, result2) => UnbindReturns result1 result2
    | MUpdateInstance => fun '(result1, result2, result3) => UpdateInstanceReturns result1 result2 result3
    end;
  on_ReturnsOnCall m :=
    match m return Z -> sm_results m -> SMClient -> SMClient with
    | MBind => fun i '(result1, result2, result3) => BindReturnsOnCall i result1 result2 result3
    | MCall => fun i '(result1, result2) => CallReturnsOnCall i result1 result2
    | MDeprovision => fun i '(result1, result2) => DeprovisionReturnsOnCall i result1 result2
    | MGetBindingByID => fun i '(result1, result2) => GetBindingByIDReturnsOnCall i result1 result2
    | MGetInstanceByID => fun i '(result1, result2) => GetInstanceByIDReturnsOnCall i result1 result2
    | MListBindings => fun i '(result1, result2) => ListBindingsReturnsOnCall i result1 result2
    | MListInstances => fun i '(result1, result2) => ListInstancesReturnsOnCall i result1 result2
    | MListOfferings => fun i '(result1, result2) => ListOfferingsReturnsOnCall i result1 result2
    | MListPlans => fun i '(result1, result2) => ListPlansReturnsOnCall i result1 result2
    | MProvision => fun i '(result1, result2) => ProvisionReturnsOnCall i result1 result2
    | MRenameBinding => fun i '(result1, result2) => RenameBindingReturnsOnCall i result1 result2
    | MShareInstance => fun i result1 => ShareInstanceReturnsOnCall i result1
    | MStatus => fun i '(result1, result2) => StatusReturnsOnCall i result1 result2
    | MUnShareInstance => fun i result1 => UnShareInstanceReturnsOnCall i result1
    | MUnbind => fun i '(result1, result2) => UnbindReturnsOnCall i result1 result2
    | MUpdateInstance => fun i '(result1, result2, result3) => UpdateInstanceReturnsOnCall i result1 result2 result3
    end;
  on_Invocations := Invocations
|}.

Lemma sm_generated : generated sm_operations.
Proof.
  split.
  - intros [] a f; by repeat destruct a as [a ?].
  - by intros [].
  - by intros [].
  - intros [] show f n; by intros [= <-].
  - intros [] r f; by repeat destruct r as [r ?].
  - intros [] n r f; by repeat destruct r as [r ?].
  - done.
Qed.

(** A fake service manager client does what it was told, on each of its
    sixteen methods, whatever was done with it before: after any history of
    operations every method counts and shows exactly its own calls and
    answers the next one by the stub, the answer for that call, the general
    answer or the zero value, in this order, and the invocations show every
    call under the name of its method. *)
Theorem fake_sm_replays (h : list (operation sm_interface)) : replays sm_operations h.
Proof. apply generated_replays, sm_generated. Qed.
End FakeSMClient.
End FakeSMClient.
